(** * The Android binder driver (drivers/staging/android/binder.c), embedded in Rocq

    The development follows the C source function by function.  Kernel objects
    live in finite maps keyed by their address; a NULL pointer is [None].
    Integers are [Z] with the wrap-around of their C type written out
    ([size_t], [u32] and [int32] below).  The target is the 32-bit goldfish
    platform: pointers, [long] and [size_t] are four bytes wide.

    What is deliberately left out: logging ([printk], the transaction log and
    the statistics counters), scheduling priorities ([binder_set_nice]), the
    page bookkeeping behind [binder_update_page_range] (only its result is
    kept), and the byte layout of the structures: fields are record fields,
    and the two layout constants of [struct binder_buffer] are parameters. *)

From Stdlib Require Import ZArith Lia Bool List Sorted.
From stdpp Require Import base decidable option numbers list gmap.

Local Open Scope Z_scope.

(** ** Machine integers *)

Definition size_t (x : Z) : Z := x mod 2 ^ 32.
Definition u32 (x : Z) : Z := x mod 2 ^ 32.
Definition int32 (x : Z) : Z := (x + 2 ^ 31) mod 2 ^ 32 - 2 ^ 31.

Definition sizeof_ptr : Z := 4.

(** [ALIGN(x, a)] of linux/kernel.h on a [size_t]: [(x + a - 1) & ~(a - 1)]. *)
Definition ALIGN (x a : Z) : Z :=
  Z.land (size_t (x + (a - 1))) (Z.lnot (a - 1)).

Definition IS_ALIGNED (x a : Z) : bool := Z.land x (a - 1) =? 0.

Definition SZ_4M : Z := 0x400000.

(** ** Results of kernel code

    [Bug] is a [BUG_ON]/[BUG()] that fired, [Fault] a dereference of a NULL
    pointer or of an object that is no longer allocated, [Spin] a loop that
    did not end within the fuel it was given. *)

Inductive result (A : Type) : Type :=
| Ok (a : A)
| Bug
| Fault
| Spin.
Arguments Ok {A} a.
Arguments Bug {A}.
Arguments Fault {A}.
Arguments Spin {A}.

Global Instance result_ret : MRet result := fun A a => Ok a.
Global Instance result_bind : MBind result := fun A B f m =>
  match m with
  | Ok a => f a
  | Bug => Bug
  | Fault => Fault
  | Spin => Spin
  end.

Definition of_option {A} (o : option A) : result A :=
  match o with
  | Some a => Ok a
  | None => Fault
  end.

Definition BUG_ON (c : bool) : result unit := if c then Bug else Ok tt.

(** ** Layout parameters of [struct binder_buffer]

    [sizeof(struct binder_buffer)] and [offsetof(struct binder_buffer, data)]
    depend on [struct list_head] and [struct rb_node], which are kernel
    headers outside the driver. *)

Class layout := {
  sizeof_binder_buffer : Z;
  offsetof_data : Z
}.

Definition layout_ok `{layout} : Prop :=
  0 < offsetof_data /\ offsetof_data <= sizeof_binder_buffer /\
  sizeof_binder_buffer < 2 ^ 16.

(** ** Red-black trees

    lib/rbtree.c is not part of the driver.  A tree is kept as a binary search
    tree of the addresses of the embedded [rb_node]s; the rebalancing of
    [rb_insert_color] and [rb_erase] changes the shape of a tree, not its
    in-order sequence, and is not modelled. *)

Inductive rb_tree : Type :=
| rb_nil
| rb_node (rb_left : rb_tree) (entry : Z) (rb_right : rb_tree).

Fixpoint rb_inorder (t : rb_tree) : list Z :=
  match t with
  | rb_nil => []
  | rb_node l a r => rb_inorder l ++ a :: rb_inorder r
  end.

(** [rb_join l r]: the tree of a removed node's two subtrees. *)
Fixpoint rb_join (l r : rb_tree) : rb_tree :=
  match l with
  | rb_nil => r
  | rb_node ll a lr => rb_node ll a (rb_join lr r)
  end.

Fixpoint rb_erase (a : Z) (t : rb_tree) : rb_tree :=
  match t with
  | rb_nil => rb_nil
  | rb_node l e r =>
      if e =? a then rb_join (rb_erase a l) (rb_erase a r)
      else rb_node (rb_erase a l) e (rb_erase a r)
  end.

(** ** struct binder_buffer *)

Record binder_buffer := mk_binder_buffer {
  b_addr : Z;                     (* address of the structure *)
  b_free : bool;
  b_transaction : option Z;
  b_target_node : option Z;
  b_allow_user_free : bool;
  b_async_transaction : bool;
  b_debug_id : Z;
  b_data_size : Z;
  b_offsets_size : Z;
  b_data : list Z                 (* payload, one entry per word *)
}.

Definition set_b_free v b :=
  mk_binder_buffer
    (b_addr b) v (b_transaction b) (b_target_node b) (b_allow_user_free b)
    (b_async_transaction b) (b_debug_id b) (b_data_size b) (b_offsets_size b)
    (b_data b).
Definition set_b_transaction v b :=
  mk_binder_buffer
    (b_addr b) (b_free b) v (b_target_node b) (b_allow_user_free b)
    (b_async_transaction b) (b_debug_id b) (b_data_size b) (b_offsets_size b)
    (b_data b).
Definition set_b_target_node v b :=
  mk_binder_buffer
    (b_addr b) (b_free b) (b_transaction b) v (b_allow_user_free b)
    (b_async_transaction b) (b_debug_id b) (b_data_size b) (b_offsets_size b)
    (b_data b).
Definition set_b_allow_user_free v b :=
  mk_binder_buffer
    (b_addr b) (b_free b) (b_transaction b) (b_target_node b) v
    (b_async_transaction b) (b_debug_id b) (b_data_size b) (b_offsets_size b)
    (b_data b).
Definition set_b_debug_id v b :=
  mk_binder_buffer
    (b_addr b) (b_free b) (b_transaction b) (b_target_node b)
    (b_allow_user_free b) (b_async_transaction b) v (b_data_size b)
    (b_offsets_size b) (b_data b).
Definition set_b_data v b :=
  mk_binder_buffer
    (b_addr b) (b_free b) (b_transaction b) (b_target_node b)
    (b_allow_user_free b) (b_async_transaction b) (b_debug_id b)
    (b_data_size b) (b_offsets_size b) v.
Definition set_b_sizes ds os async b :=
  mk_binder_buffer
    (b_addr b) (b_free b) (b_transaction b) (b_target_node b)
    (b_allow_user_free b) async (b_debug_id b) ds os (b_data b).

(** A header carved out of the arena; the only fields the driver sets on it
    are [free] and the list entry. *)
Definition new_free_buffer (a : Z) : binder_buffer :=
  mk_binder_buffer a true None None false false 0 0 0 [].

(** ** File descriptor table of a process ([struct files_struct]) *)

Record files_struct := mk_files_struct {
  fdt_fd : gmap Z Z;              (* fdt->fd[], absent = NULL *)
  fdt_open_fds : gset Z;
  fdt_close_on_exec : gset Z;
  fdt_max_fds : Z;
  next_fd : Z
}.


(** ** struct binder_proc

    The [todo] and [delivered_death] list heads are kept with the other work
    lists in the state of the driver (see [list_head] below).  [p_euid] and
    [p_rlim_nofile] are what the driver reads from [proc->tsk]. *)

Record binder_proc := mk_binder_proc {
  p_pid : Z;
  p_euid : Z;
  p_files : option files_struct;
  p_rlim_nofile : Z;
  p_buffer_size : Z;
  p_buffer : option Z;
  p_vma : bool;                   (* proc->vma != NULL *)
  p_user_buffer_offset : Z;
  p_buffers : list binder_buffer; (* by address *)
  p_free_buffers : rb_tree;
  p_allocated_buffers : rb_tree;
  p_free_async_space : Z;
  p_threads : list Z;
  p_max_threads : Z;
  p_requested_threads : Z;
  p_requested_threads_started : Z;
  p_ready_threads : Z;
  p_default_priority : Z;
  p_nodes : list Z;               (* in-order, by ptr *)
  p_refs_by_desc : list Z;        (* in-order, by desc *)
  p_refs_by_node : list Z;        (* in-order, by node *)
  p_deferred_work : Z
}.

Definition set_p_files v p :=
  mk_binder_proc
    (p_pid p) (p_euid p) v (p_rlim_nofile p) (p_buffer_size p) (p_buffer p)
    (p_vma p) (p_user_buffer_offset p) (p_buffers p) (p_free_buffers p)
    (p_allocated_buffers p) (p_free_async_space p) (p_threads p)
    (p_max_threads p) (p_requested_threads p) (p_requested_threads_started p)
    (p_ready_threads p) (p_default_priority p) (p_nodes p) (p_refs_by_desc p)
    (p_refs_by_node p) (p_deferred_work p).
Definition set_p_vma v p :=
  mk_binder_proc
    (p_pid p) (p_euid p) (p_files p) (p_rlim_nofile p) (p_buffer_size p)
    (p_buffer p) v (p_user_buffer_offset p) (p_buffers p) (p_free_buffers p)
    (p_allocated_buffers p) (p_free_async_space p) (p_threads p)
    (p_max_threads p) (p_requested_threads p) (p_requested_threads_started p)
    (p_ready_threads p) (p_default_priority p) (p_nodes p) (p_refs_by_desc p)
    (p_refs_by_node p) (p_deferred_work p).
Definition set_p_buffers v p :=
  mk_binder_proc
    (p_pid p) (p_euid p) (p_files p) (p_rlim_nofile p) (p_buffer_size p)
    (p_buffer p) (p_vma p) (p_user_buffer_offset p) v (p_free_buffers p)
    (p_allocated_buffers p) (p_free_async_space p) (p_threads p)
    (p_max_threads p) (p_requested_threads p) (p_requested_threads_started p)
    (p_ready_threads p) (p_default_priority p) (p_nodes p) (p_refs_by_desc p)
    (p_refs_by_node p) (p_deferred_work p).
Definition set_p_free_buffers v p :=
  mk_binder_proc
    (p_pid p) (p_euid p) (p_files p) (p_rlim_nofile p) (p_buffer_size p)
    (p_buffer p) (p_vma p) (p_user_buffer_offset p) (p_buffers p) v
    (p_allocated_buffers p) (p_free_async_space p) (p_threads p)
    (p_max_threads p) (p_requested_threads p) (p_requested_threads_started p)
    (p_ready_threads p) (p_default_priority p) (p_nodes p) (p_refs_by_desc p)
    (p_refs_by_node p) (p_deferred_work p).
Definition set_p_allocated_buffers v p :=
  mk_binder_proc
    (p_pid p) (p_euid p) (p_files p) (p_rlim_nofile p) (p_buffer_size p)
    (p_buffer p) (p_vma p) (p_user_buffer_offset p) (p_buffers p)
    (p_free_buffers p) v (p_free_async_space p) (p_threads p)
    (p_max_threads p) (p_requested_threads p) (p_requested_threads_started p)
    (p_ready_threads p) (p_default_priority p) (p_nodes p) (p_refs_by_desc p)
    (p_refs_by_node p) (p_deferred_work p).
Definition set_p_free_async_space v p :=
  mk_binder_proc
    (p_pid p) (p_euid p) (p_files p) (p_rlim_nofile p) (p_buffer_size p)
    (p_buffer p) (p_vma p) (p_user_buffer_offset p) (p_buffers p)
    (p_free_buffers p) (p_allocated_buffers p) v (p_threads p)
    (p_max_threads p) (p_requested_threads p) (p_requested_threads_started p)
    (p_ready_threads p) (p_default_priority p) (p_nodes p) (p_refs_by_desc p)
    (p_refs_by_node p) (p_deferred_work p).
Definition set_p_threads v p :=
  mk_binder_proc
    (p_pid p) (p_euid p) (p_files p) (p_rlim_nofile p) (p_buffer_size p)
    (p_buffer p) (p_vma p) (p_user_buffer_offset p) (p_buffers p)
    (p_free_buffers p) (p_allocated_buffers p) (p_free_async_space p) v
    (p_max_threads p) (p_requested_threads p) (p_requested_threads_started p)
    (p_ready_threads p) (p_default_priority p) (p_nodes p) (p_refs_by_desc p)
    (p_refs_by_node p) (p_deferred_work p).
Definition set_p_max_threads v p :=
  mk_binder_proc
    (p_pid p) (p_euid p) (p_files p) (p_rlim_nofile p) (p_buffer_size p)
    (p_buffer p) (p_vma p) (p_user_buffer_offset p) (p_buffers p)
    (p_free_buffers p) (p_allocated_buffers p) (p_free_async_space p)
    (p_threads p) v (p_requested_threads p) (p_requested_threads_started p)
    (p_ready_threads p) (p_default_priority p) (p_nodes p) (p_refs_by_desc p)
    (p_refs_by_node p) (p_deferred_work p).
Definition set_p_requested_threads v p :=
  mk_binder_proc
    (p_pid p) (p_euid p) (p_files p) (p_rlim_nofile p) (p_buffer_size p)
    (p_buffer p) (p_vma p) (p_user_buffer_offset p) (p_buffers p)
    (p_free_buffers p) (p_allocated_buffers p) (p_free_async_space p)
    (p_threads p) (p_max_threads p) v (p_requested_threads_started p)
    (p_ready_threads p) (p_default_priority p) (p_nodes p) (p_refs_by_desc p)
    (p_refs_by_node p) (p_deferred_work p).
Definition set_p_requested_threads_started v p :=
  mk_binder_proc
    (p_pid p) (p_euid p) (p_files p) (p_rlim_nofile p) (p_buffer_size p)
    (p_buffer p) (p_vma p) (p_user_buffer_offset p) (p_buffers p)
    (p_free_buffers p) (p_allocated_buffers p) (p_free_async_space p)
    (p_threads p) (p_max_threads p) (p_requested_threads p) v
    (p_ready_threads p) (p_default_priority p) (p_nodes p) (p_refs_by_desc p)
    (p_refs_by_node p) (p_deferred_work p).
Definition set_p_ready_threads v p :=
  mk_binder_proc
    (p_pid p) (p_euid p) (p_files p) (p_rlim_nofile p) (p_buffer_size p)
    (p_buffer p) (p_vma p) (p_user_buffer_offset p) (p_buffers p)
    (p_free_buffers p) (p_allocated_buffers p) (p_free_async_space p)
    (p_threads p) (p_max_threads p) (p_requested_threads p)
    (p_requested_threads_started p) v (p_default_priority p) (p_nodes p)
    (p_refs_by_desc p) (p_refs_by_node p) (p_deferred_work p).
Definition set_p_nodes v p :=
  mk_binder_proc
    (p_pid p) (p_euid p) (p_files p) (p_rlim_nofile p) (p_buffer_size p)
    (p_buffer p) (p_vma p) (p_user_buffer_offset p) (p_buffers p)
    (p_free_buffers p) (p_allocated_buffers p) (p_free_async_space p)
    (p_threads p) (p_max_threads p) (p_requested_threads p)
    (p_requested_threads_started p) (p_ready_threads p)
    (p_default_priority p) v (p_refs_by_desc p) (p_refs_by_node p)
    (p_deferred_work p).
Definition set_p_refs_by_desc v p :=
  mk_binder_proc
    (p_pid p) (p_euid p) (p_files p) (p_rlim_nofile p) (p_buffer_size p)
    (p_buffer p) (p_vma p) (p_user_buffer_offset p) (p_buffers p)
    (p_free_buffers p) (p_allocated_buffers p) (p_free_async_space p)
    (p_threads p) (p_max_threads p) (p_requested_threads p)
    (p_requested_threads_started p) (p_ready_threads p)
    (p_default_priority p) (p_nodes p) v (p_refs_by_node p)
    (p_deferred_work p).
Definition set_p_refs_by_node v p :=
  mk_binder_proc
    (p_pid p) (p_euid p) (p_files p) (p_rlim_nofile p) (p_buffer_size p)
    (p_buffer p) (p_vma p) (p_user_buffer_offset p) (p_buffers p)
    (p_free_buffers p) (p_allocated_buffers p) (p_free_async_space p)
    (p_threads p) (p_max_threads p) (p_requested_threads p)
    (p_requested_threads_started p) (p_ready_threads p)
    (p_default_priority p) (p_nodes p) (p_refs_by_desc p) v
    (p_deferred_work p).
Definition set_p_deferred_work v p :=
  mk_binder_proc
    (p_pid p) (p_euid p) (p_files p) (p_rlim_nofile p) (p_buffer_size p)
    (p_buffer p) (p_vma p) (p_user_buffer_offset p) (p_buffers p)
    (p_free_buffers p) (p_allocated_buffers p) (p_free_async_space p)
    (p_threads p) (p_max_threads p) (p_requested_threads p)
    (p_requested_threads_started p) (p_ready_threads p)
    (p_default_priority p) (p_nodes p) (p_refs_by_desc p) (p_refs_by_node p)
    v.
Definition set_p_mapping size base vma off p :=
  mk_binder_proc
    (p_pid p) (p_euid p) (p_files p) (p_rlim_nofile p) size base vma off
    (p_buffers p) (p_free_buffers p) (p_allocated_buffers p)
    (p_free_async_space p) (p_threads p) (p_max_threads p)
    (p_requested_threads p) (p_requested_threads_started p)
    (p_ready_threads p) (p_default_priority p) (p_nodes p) (p_refs_by_desc p)
    (p_refs_by_node p) (p_deferred_work p).
Definition set_p_arena bs fb ab fas p :=
  mk_binder_proc
    (p_pid p) (p_euid p) (p_files p) (p_rlim_nofile p) (p_buffer_size p)
    (p_buffer p) (p_vma p) (p_user_buffer_offset p) bs fb ab fas
    (p_threads p) (p_max_threads p) (p_requested_threads p)
    (p_requested_threads_started p) (p_ready_threads p)
    (p_default_priority p) (p_nodes p) (p_refs_by_desc p) (p_refs_by_node p)
    (p_deferred_work p).

(** ** The buffer arena of a process *)

Section arena.
Context `{layout}.

(** [buffer->data] *)
Definition buffer_data (a : Z) : Z := a + offsetof_data.

Definition find_buffer (a : Z) (bs : list binder_buffer) : option binder_buffer :=
  List.find (fun b => b_addr b =? a) bs.

(** [list_entry(buffer->entry.next, struct binder_buffer, entry)], or [None]
    when [list_is_last]. *)
Fixpoint next_buffer (a : Z) (bs : list binder_buffer) : option binder_buffer :=
  match bs with
  | [] => None
  | b :: rest => if b_addr b =? a then head rest else next_buffer a rest
  end.

(** [list_entry(buffer->entry.prev, ...)], or [None] when the buffer is the
    first of the list. *)
Fixpoint prev_buffer (a : Z) (bs : list binder_buffer) : option binder_buffer :=
  match bs with
  | [] => None
  | b :: rest =>
      match rest with
      | [] => None
      | n :: _ => if b_addr n =? a then Some b else prev_buffer a rest
      end
  end.

Definition update_buffer (a : Z) (f : binder_buffer -> binder_buffer)
    (bs : list binder_buffer) : list binder_buffer :=
  map (fun b => if b_addr b =? a then f b else b) bs.

(** [list_add(&new->entry, &buffer->entry)]: link [new] right after [a]. *)
Fixpoint list_add_after (a : Z) (new : binder_buffer) (bs : list binder_buffer)
    : list binder_buffer :=
  match bs with
  | [] => []
  | b :: rest =>
      if b_addr b =? a then b :: new :: rest else b :: list_add_after a new rest
  end.

(** [list_del(&buffer->entry)] *)
Fixpoint list_del_buffer (a : Z) (bs : list binder_buffer) : list binder_buffer :=
  match bs with
  | [] => []
  | b :: rest => if b_addr b =? a then rest else b :: list_del_buffer a rest
  end.

Definition binder_buffer_size (proc : binder_proc) (a : Z) : result Z :=
  _ ← of_option (find_buffer a (p_buffers proc));
  match next_buffer a (p_buffers proc) with
  | None =>
      base ← of_option (p_buffer proc);
      Ok (size_t (base + p_buffer_size proc - buffer_data a))
  | Some n => Ok (size_t (b_addr n - buffer_data a))
  end.

Fixpoint insert_free_descend (proc : binder_proc) (new : Z) (new_buffer_size : Z)
    (t : rb_tree) : result rb_tree :=
  match t with
  | rb_nil => Ok (rb_node rb_nil new rb_nil)
  | rb_node l a r =>
      buffer ← of_option (find_buffer a (p_buffers proc));
      BUG_ON (negb (b_free buffer));;
      buffer_size ← binder_buffer_size proc a;
      if new_buffer_size <? buffer_size then
        l' ← insert_free_descend proc new new_buffer_size l; Ok (rb_node l' a r)
      else
        r' ← insert_free_descend proc new new_buffer_size r; Ok (rb_node l a r')
  end.

Definition binder_insert_free_buffer (proc : binder_proc) (new_buffer : Z)
    : result binder_proc :=
  nb ← of_option (find_buffer new_buffer (p_buffers proc));
  BUG_ON (negb (b_free nb));;
  new_buffer_size ← binder_buffer_size proc new_buffer;
  t ← insert_free_descend proc new_buffer new_buffer_size (p_free_buffers proc);
  Ok (set_p_free_buffers t proc).

Fixpoint insert_allocated_descend (proc : binder_proc) (new : Z) (t : rb_tree)
    : result rb_tree :=
  match t with
  | rb_nil => Ok (rb_node rb_nil new rb_nil)
  | rb_node l a r =>
      buffer ← of_option (find_buffer a (p_buffers proc));
      BUG_ON (negb (negb (b_free buffer)));;
      if new <? a then
        l' ← insert_allocated_descend proc new l; Ok (rb_node l' a r)
      else if a <? new then
        r' ← insert_allocated_descend proc new r; Ok (rb_node l a r')
      else Bug
  end.

Definition binder_insert_allocated_buffer (proc : binder_proc) (new_buffer : Z)
    : result binder_proc :=
  nb ← of_option (find_buffer new_buffer (p_buffers proc));
  BUG_ON (b_free nb);;
  t ← insert_allocated_descend proc new_buffer (p_allocated_buffers proc);
  Ok (set_p_allocated_buffers t proc).

(** [binder_buffer_lookup]: [user_ptr] is what user space saw as
    [buffer->data]. *)
Fixpoint buffer_lookup_descend (proc : binder_proc) (kern_ptr : Z) (n : rb_tree)
    : result (option Z) :=
  match n with
  | rb_nil => Ok None
  | rb_node l a r =>
      buffer ← of_option (find_buffer a (p_buffers proc));
      BUG_ON (b_free buffer);;
      if kern_ptr <? a then buffer_lookup_descend proc kern_ptr l
      else if a <? kern_ptr then buffer_lookup_descend proc kern_ptr r
      else Ok (Some a)
  end.

Definition binder_buffer_lookup (proc : binder_proc) (user_ptr : Z)
    : result (option Z) :=
  let kern_ptr := user_ptr - p_user_buffer_offset proc - offsetof_data in
  buffer_lookup_descend proc kern_ptr (p_allocated_buffers proc).

(** The best-fit loop of [binder_alloc_buf].  The result is [best_fit] and
    whether the loop left through [break] (then [n != NULL]: an exact fit). *)
Fixpoint best_fit_search (proc : binder_proc) (size : Z) (n : rb_tree)
    (best_fit : option Z) : result (option Z * bool) :=
  match n with
  | rb_nil => Ok (best_fit, false)
  | rb_node l a r =>
      buffer ← of_option (find_buffer a (p_buffers proc));
      BUG_ON (negb (b_free buffer));;
      buffer_size ← binder_buffer_size proc a;
      if size <? buffer_size then best_fit_search proc size l (Some a)
      else if buffer_size <? size then best_fit_search proc size r best_fit
      else Ok (Some a, true)
  end.

(** What [binder_alloc_buf] hands back: a buffer, or NULL; NULL after
    [binder_user_error] is told apart because the macro touches global
    state. *)
Inductive alloc_result :=
| alloc_buffer (a : Z)
| alloc_null
| alloc_null_user_error.

(** [pages_ok] is whether [binder_update_page_range(proc, 1, ...)] returned 0. *)
Definition binder_alloc_buf (proc : binder_proc) (data_size offsets_size : Z)
    (is_async : bool) (pages_ok : bool) : result (alloc_result * binder_proc) :=
  if negb (p_vma proc) then Ok (alloc_null, proc) else
  let size := size_t (ALIGN data_size sizeof_ptr + ALIGN offsets_size sizeof_ptr) in
  if (size <? data_size) || (size <? offsets_size) then
    Ok (alloc_null_user_error, proc)
  else if is_async &&
          (p_free_async_space proc <? size_t (size + sizeof_binder_buffer)) then
    Ok (alloc_null, proc)
  else
    '(best_fit, exact) ← best_fit_search proc size (p_free_buffers proc) None;
    match best_fit with
    | None => Ok (alloc_null, proc)
    | Some buffer =>
        found_size ← binder_buffer_size proc buffer;
        let buffer_size :=
          if (exact : bool) then found_size
          else if size_t (size + sizeof_binder_buffer + 4) >=? found_size
               then size (* no room for other buffers *)
               else size_t (size + sizeof_binder_buffer) in
        if negb pages_ok then Ok (alloc_null, proc) else
        let proc := set_p_free_buffers (rb_erase buffer (p_free_buffers proc)) proc in
        let proc := set_p_buffers (update_buffer buffer (set_b_free false) (p_buffers proc)) proc in
        proc ← binder_insert_allocated_buffer proc buffer;
        proc ←
          (if negb (buffer_size =? size) then
             let new_buffer := buffer_data buffer + size in
             let proc := set_p_buffers
                 (list_add_after buffer (new_free_buffer new_buffer) (p_buffers proc)) proc in
             binder_insert_free_buffer proc new_buffer
           else Ok proc);
        let proc := set_p_buffers
            (update_buffer buffer (set_b_sizes data_size offsets_size is_async)
               (p_buffers proc)) proc in
        let proc :=
          if is_async then
            set_p_free_async_space
              (size_t (p_free_async_space proc - size_t (size + sizeof_binder_buffer))) proc
          else proc in
        Ok (alloc_buffer buffer, proc)
    end.

(** [binder_delete_free_buffer]: unlink a free buffer that is merged into its
    free predecessor (the page computations only feed
    [binder_update_page_range]). *)
Definition binder_delete_free_buffer (proc : binder_proc) (buffer : Z)
    : result binder_proc :=
  first ← of_option (head (p_buffers proc));
  BUG_ON (b_addr first =? buffer);;
  prev ← of_option (prev_buffer buffer (p_buffers proc));
  BUG_ON (negb (b_free prev));;
  Ok (set_p_buffers (list_del_buffer buffer (p_buffers proc)) proc).

Definition binder_free_buf (proc : binder_proc) (buffer : Z) : result binder_proc :=
  b ← of_option (find_buffer buffer (p_buffers proc));
  buffer_size ← binder_buffer_size proc buffer;
  let size := size_t (ALIGN (b_data_size b) sizeof_ptr + ALIGN (b_offsets_size b) sizeof_ptr) in
  BUG_ON (b_free b);;
  BUG_ON (buffer_size <? size);;
  BUG_ON (bool_decide (b_transaction b <> None));;
  base ← of_option (p_buffer proc);
  BUG_ON (buffer <? base);;
  BUG_ON (base + p_buffer_size proc <? buffer);;
  let proc :=
    if b_async_transaction b then
      set_p_free_async_space
        (size_t (p_free_async_space proc + size_t (size + sizeof_binder_buffer))) proc
    else proc in
  let proc := set_p_allocated_buffers (rb_erase buffer (p_allocated_buffers proc)) proc in
  let proc := set_p_buffers (update_buffer buffer (set_b_free true) (p_buffers proc)) proc in
  proc ←
    match next_buffer buffer (p_buffers proc) with
    | Some next =>
        if b_free next then
          let proc := set_p_free_buffers (rb_erase (b_addr next) (p_free_buffers proc)) proc in
          binder_delete_free_buffer proc (b_addr next)
        else Ok proc
    | None => Ok proc
    end;
  '(proc, buffer) ←
    match prev_buffer buffer (p_buffers proc) with
    | Some prev =>
        if b_free prev then
          proc ← binder_delete_free_buffer proc buffer;
          Ok (set_p_free_buffers (rb_erase (b_addr prev) (p_free_buffers proc)) proc,
              b_addr prev)
        else Ok (proc, buffer)
    | None => Ok (proc, buffer)
    end;
  binder_insert_free_buffer proc buffer.

(** The part of [binder_mmap] that sets up the arena.  [area] is the address
    returned by [get_vm_area] (NULL on failure), [pages_ok] stands for the
    allocation of the page array and of the first page. *)
Inductive mmap_result := mmap_ok | mmap_EPERM | mmap_EBUSY | mmap_ENOMEM.

Definition binder_mmap (proc : binder_proc) (vm_start vm_end : Z)
    (forbidden_flags : bool) (area : option Z) (pages_ok : bool)
    : result (mmap_result * binder_proc) :=
  let vm_end := if SZ_4M <? vm_end - vm_start then vm_start + SZ_4M else vm_end in
  if forbidden_flags then Ok (mmap_EPERM, proc) else
  if bool_decide (p_buffer proc <> None) then Ok (mmap_EBUSY, proc) else
  match area with
  | None => Ok (mmap_ENOMEM, proc)
  | Some addr =>
      if negb pages_ok then Ok (mmap_ENOMEM, proc) else
      let proc := set_p_mapping (vm_end - vm_start) (Some addr) false
                    (vm_start - addr) proc in
      let proc := set_p_buffers [new_free_buffer addr] proc in
      proc ← binder_insert_free_buffer proc addr;
      let proc := set_p_free_async_space (p_buffer_size proc / 2) proc in
      Ok (mmap_ok, set_p_mapping (p_buffer_size proc) (p_buffer proc) true
                     (p_user_buffer_offset proc) proc)
  end.

End arena.

(** ** Specification vocabulary for the arena *)

Section arena_spec.
Context `{layout}.

(** The size of a block, 0 when [binder_buffer_size] does not return. *)
Definition bsize (proc : binder_proc) (a : Z) : Z :=
  match binder_buffer_size proc a with
  | Ok z => z
  | _ => 0
  end.

(** Search-tree order, as rebalancing leaves it: keys to the left are not
    larger, keys to the right are not smaller. *)
Fixpoint tree_sorted (key : Z -> Z) (t : rb_tree) : Prop :=
  match t with
  | rb_nil => True
  | rb_node l a r =>
      tree_sorted key l /\ tree_sorted key r /\
      (forall x, In x (rb_inorder l) -> key x <= key a) /\
      (forall x, In x (rb_inorder r) -> key a <= key x)
  end.

(** What the best-fit loop returns, for a loop entered with [best]. *)
Definition best_fit_spec (proc : binder_proc) (size : Z) (t : rb_tree)
    (best : option Z) (res : option Z * bool) : Prop :=
  match fst res with
  | None => best = None /\ forall x, In x (rb_inorder t) -> bsize proc x < size
  | Some a =>
      size <= bsize proc a /\
      (In a (rb_inorder t) \/ best = Some a) /\
      (forall x, In x (rb_inorder t) -> size <= bsize proc x ->
                 bsize proc a <= bsize proc x) /\
      (snd res = true -> bsize proc a = size /\ In a (rb_inorder t)) /\
      (snd res = false -> size < bsize proc a)
  end.

(** The blocks are laid out by increasing address, each header and payload
    start before the next header (or the end of the arena). *)
Fixpoint chain (hi : Z) (addrs : list Z) : Prop :=
  match addrs with
  | [] => True
  | a :: rest =>
      buffer_data a <= match rest with [] => hi | n :: _ => n end /\
      chain hi rest
  end.

(** Address of the successor of [a], [hi] for the last block. *)
Fixpoint succ_addr (hi a : Z) (addrs : list Z) : Z :=
  match addrs with
  | [] => hi
  | x :: rest =>
      if x =? a then match rest with [] => hi | n :: _ => n end
      else succ_addr hi a rest
  end.

Definition arena_wf (proc : binder_proc) : Prop :=
  exists base,
    p_buffer proc = Some base /\ 0 <= base /\
    base + p_buffer_size proc <= 2 ^ 32 /\
    0 <= p_buffer_size proc <= SZ_4M /\
    (forall a, In a (map b_addr (p_buffers proc)) -> base <= a) /\
    chain (base + p_buffer_size proc) (map b_addr (p_buffers proc)).

(** The aligned size [S] a buffer was allocated with. *)
Definition aligned_size (data_size offsets_size : Z) : Z :=
  size_t (ALIGN data_size sizeof_ptr + ALIGN offsets_size sizeof_ptr).

(** What an allocated asynchronous buffer takes from the quota. *)
Definition async_charge (b : binder_buffer) : Z :=
  if negb (b_free b) && b_async_transaction b
  then aligned_size (b_data_size b) (b_offsets_size b) + sizeof_binder_buffer
  else 0.

Definition sum_over (g : binder_buffer -> Z) (bs : list binder_buffer) : Z :=
  fold_right Z.add 0 (map g bs).

Definition async_used (proc : binder_proc) : Z :=
  sum_over async_charge (p_buffers proc).

(** Sum of the aligned sizes of the allocated asynchronous buffers. *)
Definition async_size (b : binder_buffer) : Z :=
  if negb (b_free b) && b_async_transaction b
  then aligned_size (b_data_size b) (b_offsets_size b)
  else 0.

Definition async_sizes (proc : binder_proc) : Z :=
  sum_over async_size (p_buffers proc).

(** The address list after [list_del] and after [list_add]. *)
Fixpoint del_addr (a : Z) (addrs : list Z) : list Z :=
  match addrs with
  | [] => []
  | x :: rest => if x =? a then rest else x :: del_addr a rest
  end.

Fixpoint add_addr_after (a n : Z) (addrs : list Z) : list Z :=
  match addrs with
  | [] => []
  | x :: rest => if x =? a then x :: n :: rest else x :: add_addr_after a n rest
  end.

Definition quota_inv (proc : binder_proc) : Prop :=
  arena_wf proc /\
  0 <= p_free_async_space proc /\
  p_free_async_space proc + async_used proc = p_buffer_size proc / 2.

End arena_spec.

Section arena_reach.
Context `{layout}.

(** What [get_vm_area] guarantees about the kernel range it hands out for a
    mapping of [vm_start .. vm_end]. *)
Definition vm_area_ok (vm_start vm_end addr : Z) : Prop :=
  sizeof_binder_buffer <= vm_end - vm_start /\
  0 <= addr /\ addr + (vm_end - vm_start) <= 2 ^ 32.

(** The fields of a block the allocator's accounting depends on. *)
Definition skeleton (b : binder_buffer) : Z * bool * bool * Z * Z :=
  (b_addr b, b_free b, b_async_transaction b, b_data_size b, b_offsets_size b).

(** The rest of the driver, and the rebalancing of the trees, leave the
    accounting fields of the arena alone. *)
Definition same_arena (p p' : binder_proc) : Prop :=
  p_buffer p' = p_buffer p /\ p_buffer_size p' = p_buffer_size p /\
  p_free_async_space p' = p_free_async_space p /\
  map skeleton (p_buffers p') = map skeleton (p_buffers p).

(** The states of an arena: mapped once, then any sequence of allocations and
    releases, interleaved with the rest of the driver. *)
Inductive arena_reachable : binder_proc -> Prop :=
| reach_mmap proc vm_start vm_end flags addr pages proc' :
    vm_area_ok vm_start vm_end addr ->
    binder_mmap proc vm_start vm_end flags (Some addr) pages = Ok (mmap_ok, proc') ->
    arena_reachable proc'
| reach_alloc proc data_size offsets_size is_async pages r proc' :
    arena_reachable proc ->
    binder_alloc_buf proc data_size offsets_size is_async pages = Ok (r, proc') ->
    arena_reachable proc'
| reach_free proc buffer proc' :
    arena_reachable proc ->
    binder_free_buf proc buffer = Ok proc' ->
    arena_reachable proc'
| reach_other proc proc' :
    arena_reachable proc -> same_arena proc proc' ->
    arena_reachable proc'.

End arena_reach.

(** The layout [struct binder_buffer] has on the 32-bit target as this source
    declares it: [entry] 8 bytes, [rb_node] 12, the [free] bit-field 4, two
    pointers, the second bit-field word, then [data] at offset 36 and the two
    sizes. *)
Definition ilp32_layout : layout :=
  {| sizeof_binder_buffer := 44; offsetof_data := 36 |}.

(** An unmapped process, as [binder_open] leaves it. *)
Definition binder_open_proc (pid : Z) : binder_proc :=
  mk_binder_proc pid 0 None 1024 0 None false 0 [] rb_nil rb_nil 0 [] 0 0 0 0 0 [] []
    [] 0.

(** A small reachable arena: two pages mapped, one asynchronous buffer. *)
Definition witness_mapped : binder_proc :=
  Eval vm_compute in
  match @binder_mmap ilp32_layout (binder_open_proc 1) 0x40000000 0x40002000
          false (Some 0xc0000000) true with
  | Ok (_, p) => p
  | _ => binder_open_proc 1
  end.

Definition witness_arena : binder_proc :=
  Eval vm_compute in
  match @binder_alloc_buf ilp32_layout witness_mapped 10 8 true true with
  | Ok (_, p) => p
  | _ => witness_mapped
  end.

(** The split rule in the words of the specification: the block is absorbed
    when its remainder cannot hold another header plus at least 4 bytes of
    payload, and split otherwise. *)
Definition split_rule_as_specified `{layout} (proc : binder_proc)
    (data_size offsets_size : Z) : Prop :=
  forall a proc',
    binder_alloc_buf proc data_size offsets_size false true
      = Ok (alloc_buffer a, proc') ->
    let remainder := bsize proc a - aligned_size data_size offsets_size in
    (remainder < sizeof_binder_buffer + 4 ->
     map b_addr (p_buffers proc') = map b_addr (p_buffers proc)) /\
    (sizeof_binder_buffer + 4 <= remainder ->
     In (buffer_data a + aligned_size data_size offsets_size)
        (map b_addr (p_buffers proc'))).

(** The two-page arena after a request that leaves a remainder of exactly
    sizeof(struct binder_buffer) + 4 bytes. *)
Definition absorbed_arena : binder_proc :=
  Eval vm_compute in
  match @binder_alloc_buf ilp32_layout witness_mapped 8108 0 false true with
  | Ok (_, p) => p
  | _ => witness_mapped
  end.

(** * The object graph and the broker state *)

(** ** Protocol constants (binder.h)

    [_IOC] is the encoding of asm-generic/ioctl.h: direction in bits 30-31,
    size in bits 16-29, type in bits 8-15, number in bits 0-7. *)

Definition _IOC (dir type nr size : Z) : Z :=
  Z.lor (Z.lor (Z.shiftl dir 30) (Z.shiftl size 16)) (Z.lor (Z.shiftl type 8) nr).
Definition _IO (type nr : Z) : Z := _IOC 0 type nr 0.
Definition _IOR (type nr size : Z) : Z := _IOC 2 type nr size.

Definition chr_r : Z := 114.
Definition sizeof_binder_transaction_data : Z := 40.
Definition sizeof_flat_binder_object : Z := 16.

Definition BR_ERROR : Z := _IOR chr_r 0 4.
Definition BR_OK : Z := _IO chr_r 1.
Definition BR_TRANSACTION : Z := _IOR chr_r 2 sizeof_binder_transaction_data.
Definition BR_REPLY : Z := _IOR chr_r 3 sizeof_binder_transaction_data.
Definition BR_DEAD_REPLY : Z := _IO chr_r 5.
Definition BR_TRANSACTION_COMPLETE : Z := _IO chr_r 6.
Definition BR_INCREFS : Z := _IOR chr_r 7 8.
Definition BR_ACQUIRE : Z := _IOR chr_r 8 8.
Definition BR_RELEASE : Z := _IOR chr_r 9 8.
Definition BR_DECREFS : Z := _IOR chr_r 10 8.
Definition BR_NOOP : Z := _IO chr_r 12.
Definition BR_SPAWN_LOOPER : Z := _IO chr_r 13.
Definition BR_DEAD_BINDER : Z := _IOR chr_r 15 4.
Definition BR_CLEAR_DEATH_NOTIFICATION_DONE : Z := _IOR chr_r 16 4.
Definition BR_FAILED_REPLY : Z := _IO chr_r 17.

Definition B_PACK_CHARS (c1 c2 c3 c4 : Z) : Z :=
  Z.lor (Z.lor (Z.shiftl c1 24) (Z.shiftl c2 16)) (Z.lor (Z.shiftl c3 8) c4).
Definition B_TYPE_LARGE : Z := 0x85.
Definition BINDER_TYPE_BINDER : Z := B_PACK_CHARS 115 98 42 B_TYPE_LARGE.
Definition BINDER_TYPE_WEAK_BINDER : Z := B_PACK_CHARS 119 98 42 B_TYPE_LARGE.
Definition BINDER_TYPE_HANDLE : Z := B_PACK_CHARS 115 104 42 B_TYPE_LARGE.
Definition BINDER_TYPE_WEAK_HANDLE : Z := B_PACK_CHARS 119 104 42 B_TYPE_LARGE.
Definition BINDER_TYPE_FD : Z := B_PACK_CHARS 102 100 42 B_TYPE_LARGE.

Definition FLAT_BINDER_FLAG_PRIORITY_MASK : Z := 0xff.
Definition FLAT_BINDER_FLAG_ACCEPTS_FDS : Z := 0x100.

Definition TF_ONE_WAY : Z := 0x01.
Definition TF_ROOT_OBJECT : Z := 0x04.
Definition TF_STATUS_CODE : Z := 0x08.
Definition TF_ACCEPT_FDS : Z := 0x10.

Definition BINDER_LOOPER_STATE_REGISTERED : Z := 0x01.
Definition BINDER_LOOPER_STATE_ENTERED : Z := 0x02.
Definition BINDER_LOOPER_STATE_EXITED : Z := 0x04.
Definition BINDER_LOOPER_STATE_INVALID : Z := 0x08.
Definition BINDER_LOOPER_STATE_WAITING : Z := 0x10.
Definition BINDER_LOOPER_STATE_NEED_RETURN : Z := 0x20.

Definition EINVAL : Z := 22.
Definition EFAULT : Z := 14.
Definition ERESTARTSYS : Z := 512.
Definition EAGAIN : Z := 11.
Definition ESRCH : Z := 3.
Definition EMFILE : Z := 24.
Definition EBADF : Z := 9.
Definition EBUSY : Z := 16.
Definition EPERM : Z := 1.
Definition ENOMEM : Z := 12.

(** [x & FLAG] as a C condition. *)
Definition has_flag (x flag : Z) : bool := negb (Z.land x flag =? 0).

(** ** Work items

    A [struct binder_work] is embedded in a transaction, in a node, in a death
    notification, or stands alone (the completion item of a transaction).  A
    work item is named by the object that hosts it; the [type] field of an
    item in a node or in a transaction is fixed by its host. *)

Inductive work_type :=
| BINDER_WORK_TRANSACTION
| BINDER_WORK_TRANSACTION_COMPLETE
| BINDER_WORK_NODE
| BINDER_WORK_DEAD_BINDER
| BINDER_WORK_DEAD_BINDER_AND_CLEAR
| BINDER_WORK_CLEAR_DEATH_NOTIFICATION.

Inductive binder_work :=
| work_of_transaction (t : Z)
| work_tcomplete (c : Z)
| work_of_node (n : Z)
| work_of_death (d : Z).

(** The [struct list_head]s work items are queued on. *)
Inductive list_head :=
| proc_todo (proc : Z)
| thread_todo (thread : Z)
| node_async_todo (node : Z)
| proc_delivered_death (proc : Z).

(** The wait queues [wake_up_interruptible] is called on. *)
Inductive wait_queue_head :=
| proc_wait (proc : Z)
| thread_wait (thread : Z).

Global Instance work_type_eq_dec : EqDecision work_type.
Proof. solve_decision. Defined.

Global Instance binder_work_eq_dec : EqDecision binder_work.
Proof. solve_decision. Defined.

Global Instance list_head_eq_dec : EqDecision list_head.
Proof. solve_decision. Defined.

Global Instance binder_work_countable : Countable binder_work.
Proof.
  apply (inj_countable'
    (fun w => match w with
              | work_of_transaction t => inl (inl t)
              | work_tcomplete c => inl (inr c)
              | work_of_node n => inr (inl n)
              | work_of_death d => inr (inr d)
              end)
    (fun x => match x with
              | inl (inl t) => work_of_transaction t
              | inl (inr c) => work_tcomplete c
              | inr (inl n) => work_of_node n
              | inr (inr d) => work_of_death d
              end)).
  intros []; reflexivity.
Defined.

Global Instance list_head_countable : Countable list_head.
Proof.
  apply (inj_countable'
    (fun w => match w with
              | proc_todo t => inl (inl t)
              | thread_todo c => inl (inr c)
              | node_async_todo n => inr (inl n)
              | proc_delivered_death d => inr (inr d)
              end)
    (fun x => match x with
              | inl (inl t) => proc_todo t
              | inl (inr c) => thread_todo c
              | inr (inl n) => node_async_todo n
              | inr (inr d) => proc_delivered_death d
              end)).
  intros []; reflexivity.
Defined.

(** ** struct binder_node *)

Record binder_node := mk_binder_node {
  n_debug_id : Z;
  n_proc : option Z;
  n_refs : list Z;
  n_internal_strong_refs : Z;
  n_local_strong_refs : Z;
  n_local_weak_refs : Z;
  n_has_strong_ref : bool;
  n_has_weak_ref : bool;
  n_pending_strong_ref : bool;
  n_pending_weak_ref : bool;
  n_cookie : Z;
  n_ptr : Z;
  n_has_async_transaction : bool;
  n_accept_fds : bool;
  n_min_priority : Z
}.

Definition set_n_refs v n :=
  mk_binder_node
    (n_debug_id n) (n_proc n) v (n_internal_strong_refs n)
    (n_local_strong_refs n) (n_local_weak_refs n) (n_has_strong_ref n)
    (n_has_weak_ref n) (n_pending_strong_ref n) (n_pending_weak_ref n)
    (n_cookie n) (n_ptr n) (n_has_async_transaction n) (n_accept_fds n)
    (n_min_priority n).
Definition set_n_internal_strong_refs v n :=
  mk_binder_node
    (n_debug_id n) (n_proc n) (n_refs n) v (n_local_strong_refs n)
    (n_local_weak_refs n) (n_has_strong_ref n) (n_has_weak_ref n)
    (n_pending_strong_ref n) (n_pending_weak_ref n) (n_cookie n) (n_ptr n)
    (n_has_async_transaction n) (n_accept_fds n) (n_min_priority n).
Definition set_n_local_strong_refs v n :=
  mk_binder_node
    (n_debug_id n) (n_proc n) (n_refs n) (n_internal_strong_refs n) v
    (n_local_weak_refs n) (n_has_strong_ref n) (n_has_weak_ref n)
    (n_pending_strong_ref n) (n_pending_weak_ref n) (n_cookie n) (n_ptr n)
    (n_has_async_transaction n) (n_accept_fds n) (n_min_priority n).
Definition set_n_local_weak_refs v n :=
  mk_binder_node
    (n_debug_id n) (n_proc n) (n_refs n) (n_internal_strong_refs n)
    (n_local_strong_refs n) v (n_has_strong_ref n) (n_has_weak_ref n)
    (n_pending_strong_ref n) (n_pending_weak_ref n) (n_cookie n) (n_ptr n)
    (n_has_async_transaction n) (n_accept_fds n) (n_min_priority n).
Definition set_n_has_strong_ref v n :=
  mk_binder_node
    (n_debug_id n) (n_proc n) (n_refs n) (n_internal_strong_refs n)
    (n_local_strong_refs n) (n_local_weak_refs n) v (n_has_weak_ref n)
    (n_pending_strong_ref n) (n_pending_weak_ref n) (n_cookie n) (n_ptr n)
    (n_has_async_transaction n) (n_accept_fds n) (n_min_priority n).
Definition set_n_has_weak_ref v n :=
  mk_binder_node
    (n_debug_id n) (n_proc n) (n_refs n) (n_internal_strong_refs n)
    (n_local_strong_refs n) (n_local_weak_refs n) (n_has_strong_ref n) v
    (n_pending_strong_ref n) (n_pending_weak_ref n) (n_cookie n) (n_ptr n)
    (n_has_async_transaction n) (n_accept_fds n) (n_min_priority n).
Definition set_n_pending_strong_ref v n :=
  mk_binder_node
    (n_debug_id n) (n_proc n) (n_refs n) (n_internal_strong_refs n)
    (n_local_strong_refs n) (n_local_weak_refs n) (n_has_strong_ref n)
    (n_has_weak_ref n) v (n_pending_weak_ref n) (n_cookie n) (n_ptr n)
    (n_has_async_transaction n) (n_accept_fds n) (n_min_priority n).
Definition set_n_pending_weak_ref v n :=
  mk_binder_node
    (n_debug_id n) (n_proc n) (n_refs n) (n_internal_strong_refs n)
    (n_local_strong_refs n) (n_local_weak_refs n) (n_has_strong_ref n)
    (n_has_weak_ref n) (n_pending_strong_ref n) v (n_cookie n) (n_ptr n)
    (n_has_async_transaction n) (n_accept_fds n) (n_min_priority n).
Definition set_n_has_async_transaction v n :=
  mk_binder_node
    (n_debug_id n) (n_proc n) (n_refs n) (n_internal_strong_refs n)
    (n_local_strong_refs n) (n_local_weak_refs n) (n_has_strong_ref n)
    (n_has_weak_ref n) (n_pending_strong_ref n) (n_pending_weak_ref n)
    (n_cookie n) (n_ptr n) v (n_accept_fds n) (n_min_priority n).
Definition set_n_policy prio fds n :=
  mk_binder_node
    (n_debug_id n) (n_proc n) (n_refs n) (n_internal_strong_refs n)
    (n_local_strong_refs n) (n_local_weak_refs n) (n_has_strong_ref n)
    (n_has_weak_ref n) (n_pending_strong_ref n) (n_pending_weak_ref n)
    (n_cookie n) (n_ptr n) (n_has_async_transaction n) fds prio.
Definition set_n_orphan  n :=
  mk_binder_node
    (n_debug_id n) None (n_refs n) (n_internal_strong_refs n) 0 0
    (n_has_strong_ref n) (n_has_weak_ref n) (n_pending_strong_ref n)
    (n_pending_weak_ref n) (n_cookie n) (n_ptr n) (n_has_async_transaction n)
    (n_accept_fds n) (n_min_priority n).

(** ** struct binder_ref_death and struct binder_ref *)

Record binder_ref_death := mk_binder_ref_death {
  d_work_type : option work_type; (* work.type, zero after kzalloc *)
  d_cookie : Z
}.

Definition set_d_work_type v d :=
  mk_binder_ref_death
    v (d_cookie d).

Record binder_ref := mk_binder_ref {
  r_debug_id : Z;
  r_node : Z;
  r_desc : Z;
  r_proc : Z;
  r_strong : Z;
  r_weak : Z;
  r_death : option Z
}.

Definition set_r_strong v r :=
  mk_binder_ref
    (r_debug_id r) (r_node r) (r_desc r) (r_proc r) v (r_weak r) (r_death r).
Definition set_r_weak v r :=
  mk_binder_ref
    (r_debug_id r) (r_node r) (r_desc r) (r_proc r) (r_strong r) v
    (r_death r).
Definition set_r_death v r :=
  mk_binder_ref
    (r_debug_id r) (r_node r) (r_desc r) (r_proc r) (r_strong r) (r_weak r) v.

(** ** struct binder_thread and struct binder_transaction *)

Record binder_thread := mk_binder_thread {
  th_proc : Z;
  th_pid : Z;
  th_looper : Z;
  th_transaction_stack : option Z;
  th_return_error : Z;
  th_return_error2 : Z
}.

Definition set_th_looper v t :=
  mk_binder_thread
    (th_proc t) (th_pid t) v (th_transaction_stack t) (th_return_error t)
    (th_return_error2 t).
Definition set_th_transaction_stack v t :=
  mk_binder_thread
    (th_proc t) (th_pid t) (th_looper t) v (th_return_error t)
    (th_return_error2 t).
Definition set_th_return_error v t :=
  mk_binder_thread
    (th_proc t) (th_pid t) (th_looper t) (th_transaction_stack t) v
    (th_return_error2 t).
Definition set_th_return_error2 v t :=
  mk_binder_thread
    (th_proc t) (th_pid t) (th_looper t) (th_transaction_stack t)
    (th_return_error t) v.

(** A buffer is named by the process whose arena holds it and by its address.
    The fields [priority] and [saved_priority] go with the scheduler and are
    left out.  The function [binder_transaction] has the plain name. *)

Record struct_binder_transaction := mk_binder_transaction {
  t_debug_id : Z;
  t_need_reply : bool;
  t_from : option Z;
  t_sender_euid : Z;
  t_to_proc : option Z;
  t_to_thread : option Z;
  t_buffer : option (Z * Z);
  t_code : Z;
  t_flags : Z;
  t_from_parent : option Z;
  t_to_parent : option Z
}.

Definition set_t_need_reply v t :=
  mk_binder_transaction
    (t_debug_id t) v (t_from t) (t_sender_euid t) (t_to_proc t)
    (t_to_thread t) (t_buffer t) (t_code t) (t_flags t) (t_from_parent t)
    (t_to_parent t).
Definition set_t_from v t :=
  mk_binder_transaction
    (t_debug_id t) (t_need_reply t) v (t_sender_euid t) (t_to_proc t)
    (t_to_thread t) (t_buffer t) (t_code t) (t_flags t) (t_from_parent t)
    (t_to_parent t).
Definition set_t_buffer v t :=
  mk_binder_transaction
    (t_debug_id t) (t_need_reply t) (t_from t) (t_sender_euid t)
    (t_to_proc t) (t_to_thread t) v (t_code t) (t_flags t) (t_from_parent t)
    (t_to_parent t).
Definition set_t_from_parent v t :=
  mk_binder_transaction
    (t_debug_id t) (t_need_reply t) (t_from t) (t_sender_euid t)
    (t_to_proc t) (t_to_thread t) (t_buffer t) (t_code t) (t_flags t) v
    (t_to_parent t).
Definition set_t_to proc thread t :=
  mk_binder_transaction
    (t_debug_id t) (t_need_reply t) (t_from t) (t_sender_euid t) proc thread
    (t_buffer t) (t_code t) (t_flags t) (t_from_parent t) (t_to_parent t).
Definition set_t_delivered parent thread t :=
  mk_binder_transaction
    (t_debug_id t) (t_need_reply t) (t_from t) (t_sender_euid t)
    (t_to_proc t) thread (t_buffer t) (t_code t) (t_flags t)
    (t_from_parent t) parent.

(** ** The state of the driver

    [lists] gives the content of every [list_head]; [entries] records, for a
    work item, the list its [entry] is linked in ([list_empty(&w->entry)] is
    the absence of a record).  [wakeups] logs the wait queues woken so far.
    [next_ptr] is the next address [kzalloc] hands out; [kzalloc_script] and
    [pages_script] say which of the coming calls of [kzalloc] and of
    [binder_update_page_range] fail (none once a script is used up).
    [user_errors] counts the [binder_user_error] reports. *)

Record binder_state := mk_binder_state {
  procs : gmap Z binder_proc;
  threads : gmap Z binder_thread;
  nodes : gmap Z binder_node;
  refs : gmap Z binder_ref;
  deaths : gmap Z binder_ref_death;
  transactions : gmap Z struct_binder_transaction;
  tcompletes : gset Z;
  lists : gmap list_head (list binder_work);
  entries : gmap binder_work list_head;
  wakeups : list wait_queue_head;
  binder_context_mgr_node : option Z;
  binder_context_mgr_uid : option Z;
  binder_dead_nodes : list Z;
  binder_procs : list Z;
  binder_last_id : Z;
  binder_stop_on_user_error : Z;
  user_errors : nat;
  next_ptr : Z;
  kzalloc_script : list bool;
  pages_script : list bool
}.

Definition set_procs v s :=
  mk_binder_state
    v (threads s) (nodes s) (refs s) (deaths s) (transactions s)
    (tcompletes s) (lists s) (entries s) (wakeups s)
    (binder_context_mgr_node s) (binder_context_mgr_uid s)
    (binder_dead_nodes s) (binder_procs s) (binder_last_id s)
    (binder_stop_on_user_error s) (user_errors s) (next_ptr s)
    (kzalloc_script s) (pages_script s).
Definition set_threads v s :=
  mk_binder_state
    (procs s) v (nodes s) (refs s) (deaths s) (transactions s) (tcompletes s)
    (lists s) (entries s) (wakeups s) (binder_context_mgr_node s)
    (binder_context_mgr_uid s) (binder_dead_nodes s) (binder_procs s)
    (binder_last_id s) (binder_stop_on_user_error s) (user_errors s)
    (next_ptr s) (kzalloc_script s) (pages_script s).
Definition set_nodes v s :=
  mk_binder_state
    (procs s) (threads s) v (refs s) (deaths s) (transactions s)
    (tcompletes s) (lists s) (entries s) (wakeups s)
    (binder_context_mgr_node s) (binder_context_mgr_uid s)
    (binder_dead_nodes s) (binder_procs s) (binder_last_id s)
    (binder_stop_on_user_error s) (user_errors s) (next_ptr s)
    (kzalloc_script s) (pages_script s).
Definition set_refs v s :=
  mk_binder_state
    (procs s) (threads s) (nodes s) v (deaths s) (transactions s)
    (tcompletes s) (lists s) (entries s) (wakeups s)
    (binder_context_mgr_node s) (binder_context_mgr_uid s)
    (binder_dead_nodes s) (binder_procs s) (binder_last_id s)
    (binder_stop_on_user_error s) (user_errors s) (next_ptr s)
    (kzalloc_script s) (pages_script s).
Definition set_deaths v s :=
  mk_binder_state
    (procs s) (threads s) (nodes s) (refs s) v (transactions s)
    (tcompletes s) (lists s) (entries s) (wakeups s)
    (binder_context_mgr_node s) (binder_context_mgr_uid s)
    (binder_dead_nodes s) (binder_procs s) (binder_last_id s)
    (binder_stop_on_user_error s) (user_errors s) (next_ptr s)
    (kzalloc_script s) (pages_script s).
Definition set_transactions v s :=
  mk_binder_state
    (procs s) (threads s) (nodes s) (refs s) (deaths s) v (tcompletes s)
    (lists s) (entries s) (wakeups s) (binder_context_mgr_node s)
    (binder_context_mgr_uid s) (binder_dead_nodes s) (binder_procs s)
    (binder_last_id s) (binder_stop_on_user_error s) (user_errors s)
    (next_ptr s) (kzalloc_script s) (pages_script s).
Definition set_tcompletes v s :=
  mk_binder_state
    (procs s) (threads s) (nodes s) (refs s) (deaths s) (transactions s) v
    (lists s) (entries s) (wakeups s) (binder_context_mgr_node s)
    (binder_context_mgr_uid s) (binder_dead_nodes s) (binder_procs s)
    (binder_last_id s) (binder_stop_on_user_error s) (user_errors s)
    (next_ptr s) (kzalloc_script s) (pages_script s).
Definition set_wakeups v s :=
  mk_binder_state
    (procs s) (threads s) (nodes s) (refs s) (deaths s) (transactions s)
    (tcompletes s) (lists s) (entries s) v (binder_context_mgr_node s)
    (binder_context_mgr_uid s) (binder_dead_nodes s) (binder_procs s)
    (binder_last_id s) (binder_stop_on_user_error s) (user_errors s)
    (next_ptr s) (kzalloc_script s) (pages_script s).
Definition set_binder_context_mgr_node v s :=
  mk_binder_state
    (procs s) (threads s) (nodes s) (refs s) (deaths s) (transactions s)
    (tcompletes s) (lists s) (entries s) (wakeups s) v
    (binder_context_mgr_uid s) (binder_dead_nodes s) (binder_procs s)
    (binder_last_id s) (binder_stop_on_user_error s) (user_errors s)
    (next_ptr s) (kzalloc_script s) (pages_script s).
Definition set_binder_dead_nodes v s :=
  mk_binder_state
    (procs s) (threads s) (nodes s) (refs s) (deaths s) (transactions s)
    (tcompletes s) (lists s) (entries s) (wakeups s)
    (binder_context_mgr_node s) (binder_context_mgr_uid s) v (binder_procs s)
    (binder_last_id s) (binder_stop_on_user_error s) (user_errors s)
    (next_ptr s) (kzalloc_script s) (pages_script s).
Definition set_binder_procs v s :=
  mk_binder_state
    (procs s) (threads s) (nodes s) (refs s) (deaths s) (transactions s)
    (tcompletes s) (lists s) (entries s) (wakeups s)
    (binder_context_mgr_node s) (binder_context_mgr_uid s)
    (binder_dead_nodes s) v (binder_last_id s) (binder_stop_on_user_error s)
    (user_errors s) (next_ptr s) (kzalloc_script s) (pages_script s).
Definition set_binder_last_id v s :=
  mk_binder_state
    (procs s) (threads s) (nodes s) (refs s) (deaths s) (transactions s)
    (tcompletes s) (lists s) (entries s) (wakeups s)
    (binder_context_mgr_node s) (binder_context_mgr_uid s)
    (binder_dead_nodes s) (binder_procs s) v (binder_stop_on_user_error s)
    (user_errors s) (next_ptr s) (kzalloc_script s) (pages_script s).
Definition set_pages_script v s :=
  mk_binder_state
    (procs s) (threads s) (nodes s) (refs s) (deaths s) (transactions s)
    (tcompletes s) (lists s) (entries s) (wakeups s)
    (binder_context_mgr_node s) (binder_context_mgr_uid s)
    (binder_dead_nodes s) (binder_procs s) (binder_last_id s)
    (binder_stop_on_user_error s) (user_errors s) (next_ptr s)
    (kzalloc_script s) v.
Definition set_lists l e s :=
  mk_binder_state
    (procs s) (threads s) (nodes s) (refs s) (deaths s) (transactions s)
    (tcompletes s) l e (wakeups s) (binder_context_mgr_node s)
    (binder_context_mgr_uid s) (binder_dead_nodes s) (binder_procs s)
    (binder_last_id s) (binder_stop_on_user_error s) (user_errors s)
    (next_ptr s) (kzalloc_script s) (pages_script s).
Definition set_context_mgr node uid s :=
  mk_binder_state
    (procs s) (threads s) (nodes s) (refs s) (deaths s) (transactions s)
    (tcompletes s) (lists s) (entries s) (wakeups s) node uid
    (binder_dead_nodes s) (binder_procs s) (binder_last_id s)
    (binder_stop_on_user_error s) (user_errors s) (next_ptr s)
    (kzalloc_script s) (pages_script s).
Definition set_user_error stop count s :=
  mk_binder_state
    (procs s) (threads s) (nodes s) (refs s) (deaths s) (transactions s)
    (tcompletes s) (lists s) (entries s) (wakeups s)
    (binder_context_mgr_node s) (binder_context_mgr_uid s)
    (binder_dead_nodes s) (binder_procs s) (binder_last_id s) stop count
    (next_ptr s) (kzalloc_script s) (pages_script s).
Definition set_kzalloc ptr script s :=
  mk_binder_state
    (procs s) (threads s) (nodes s) (refs s) (deaths s) (transactions s)
    (tcompletes s) (lists s) (entries s) (wakeups s)
    (binder_context_mgr_node s) (binder_context_mgr_uid s)
    (binder_dead_nodes s) (binder_procs s) (binder_last_id s)
    (binder_stop_on_user_error s) (user_errors s) ptr script (pages_script s).

(** ** The monad of driver code: state passing over [result] *)

Definition M (A : Type) : Type := binder_state -> result (A * binder_state).

Global Instance M_ret : MRet M := fun A a s => Ok (a, s).
Global Instance M_bind : MBind M := fun A B f m s =>
  match m s with
  | Ok (a, s') => f a s'
  | Bug => Bug
  | Fault => Fault
  | Spin => Spin
  end.

Definition get_state : M binder_state := fun s => Ok (s, s).
Definition modify (f : binder_state -> binder_state) : M unit :=
  fun s => Ok (tt, f s).
Definition BUG {A} : M A := fun _ => Bug.
Definition fault {A} : M A := fun _ => Fault.
Definition spin {A} : M A := fun _ => Spin.
Definition M_BUG_ON (c : bool) : M unit := if c then BUG else mret tt.
(** [if (c) m;] *)
Definition when (c : bool) (m : M unit) : M unit := if c then m else mret tt.
Definition deref {A} (o : option A) : M A :=
  match o with
  | Some a => mret a
  | None => fault
  end.

Definition get_proc (p : Z) : M binder_proc := fun s => deref (procs s !! p) s.
Definition get_thread (t : Z) : M binder_thread := fun s => deref (threads s !! t) s.
Definition get_node (n : Z) : M binder_node := fun s => deref (nodes s !! n) s.
Definition get_ref (r : Z) : M binder_ref := fun s => deref (refs s !! r) s.
Definition get_death (d : Z) : M binder_ref_death := fun s => deref (deaths s !! d) s.
Definition get_transaction (t : Z) : M struct_binder_transaction :=
  fun s => deref (transactions s !! t) s.

(** Stores through a pointer: the object must be allocated. *)
Definition upd_proc (p : Z) (f : binder_proc -> binder_proc) : M unit :=
  x ← get_proc p; modify (fun s => set_procs (<[p := f x]> (procs s)) s).
Definition upd_thread (t : Z) (f : binder_thread -> binder_thread) : M unit :=
  x ← get_thread t; modify (fun s => set_threads (<[t := f x]> (threads s)) s).
Definition upd_node (n : Z) (f : binder_node -> binder_node) : M unit :=
  x ← get_node n; modify (fun s => set_nodes (<[n := f x]> (nodes s)) s).
Definition upd_ref (r : Z) (f : binder_ref -> binder_ref) : M unit :=
  x ← get_ref r; modify (fun s => set_refs (<[r := f x]> (refs s)) s).
Definition upd_death (d : Z) (f : binder_ref_death -> binder_ref_death) : M unit :=
  x ← get_death d; modify (fun s => set_deaths (<[d := f x]> (deaths s)) s).
Definition upd_transaction (t : Z)
    (f : struct_binder_transaction -> struct_binder_transaction)
    : M unit :=
  x ← get_transaction t;
  modify (fun s => set_transactions (<[t := f x]> (transactions s)) s).

(** Code that has no part in the state. *)
Definition lift_result {A} (r : result A) : M A :=
  fun s =>
    match r with
    | Ok a => Ok (a, s)
    | Bug => Bug
    | Fault => Fault
    | Spin => Spin
    end.

(** Code of the arena, run on one process of the state. *)
Definition in_proc {A} (p : Z) (f : binder_proc -> result (A * binder_proc)) : M A :=
  fun s =>
    match procs s !! p with
    | None => Fault
    | Some x =>
        match f x with
        | Ok (a, x') => Ok (a, set_procs (<[p := x']> (procs s)) s)
        | Bug => Bug
        | Fault => Fault
        | Spin => Spin
        end
    end.

(** [kzalloc]: a fresh address, or NULL when the script says so. *)
Definition kzalloc : M (option Z) := fun s =>
  match kzalloc_script s with
  | false :: rest => Ok (None, set_kzalloc (next_ptr s) rest s)
  | _ :: rest => Ok (Some (next_ptr s), set_kzalloc (next_ptr s + 1) rest s)
  | [] => Ok (Some (next_ptr s), set_kzalloc (next_ptr s + 1) [] s)
  end.

(** [++binder_last_id] *)
Definition next_debug_id : M Z := fun s =>
  let id := int32 (binder_last_id s + 1) in Ok (id, set_binder_last_id id s).

(** The [binder_user_error] macro. *)
Definition binder_user_error : M unit :=
  modify (fun s =>
    set_user_error
      (if binder_stop_on_user_error s =? 0 then 0 else 2)
      (S (user_errors s)) s).

(** [wake_up_interruptible(q)]: the scheduler is outside the model, the call
    is recorded. *)
Definition wake_up_interruptible (q : wait_queue_head) : M unit :=
  modify (fun s => set_wakeups (wakeups s ++ [q]) s).

(** [kfree] of the objects kept in the state. *)
Definition kfree_transaction (t : Z) : M unit :=
  modify (fun s => set_transactions (delete t (transactions s)) s).
Definition kfree_tcomplete (c : Z) : M unit :=
  modify (fun s => set_tcompletes (tcompletes s ∖ {[c]}) s).
Definition kfree_death (d : Z) : M unit :=
  modify (fun s => set_deaths (delete d (deaths s)) s).

(** *** linux/list.h on work items *)

Definition list_of (s : binder_state) (l : list_head) : list binder_work :=
  default [] (lists s !! l).

(** [list_empty(&w->entry)] *)
Definition entry_unlinked (w : binder_work) : M bool :=
  fun s => Ok (bool_decide (entries s !! w = None), s).

(** [list_empty(l)] *)
Definition list_empty (l : list_head) : M bool :=
  fun s => Ok (bool_decide (list_of s l = []), s).

Fixpoint remove_first (w : binder_work) (l : list binder_work) : list binder_work :=
  match l with
  | [] => []
  | x :: rest => if decide (x = w) then rest else x :: remove_first w rest
  end.

Definition list_add_tail (w : binder_work) (l : list_head) : M unit :=
  modify (fun s =>
    set_lists (<[l := list_of s l ++ [w]]> (lists s)) (<[w := l]> (entries s)) s).

(** [list_add(&w->entry, l)]: at the head. *)
Definition list_add (w : binder_work) (l : list_head) : M unit :=
  modify (fun s =>
    set_lists (<[l := w :: list_of s l]> (lists s)) (<[w := l]> (entries s)) s).

(** [list_del] and [list_del_init] differ in what they leave in the unlinked
    entry; [list_del] is only used on entries that are freed or linked again
    at once. *)
Definition list_del_init (w : binder_work) : M unit :=
  modify (fun s =>
    match entries s !! w with
    | None => s
    | Some l =>
        set_lists (<[l := remove_first w (list_of s l)]> (lists s))
          (delete w (entries s)) s
    end).

Definition list_del (w : binder_work) : M unit := list_del_init w.

Definition list_move (w : binder_work) (l : list_head) : M unit :=
  list_del w;; list_add w l.

Definition list_move_tail (w : binder_work) (l : list_head) : M unit :=
  list_del w;; list_add_tail w l.

(** *** Sorted sequences standing for the trees of a process *)

Fixpoint insert_by_key (key : Z -> Z) (x : Z) (l : list Z) : list Z :=
  match l with
  | [] => [x]
  | y :: rest => if key x <? key y then x :: l else y :: insert_by_key key x rest
  end.

Fixpoint remove_Z (x : Z) (l : list Z) : list Z :=
  match l with
  | [] => []
  | y :: rest => if y =? x then rest else y :: remove_Z x rest
  end.

Definition node_ptr_of (s : binder_state) (n : Z) : Z :=
  match nodes s !! n with Some x => n_ptr x | None => 0 end.
Definition ref_desc_of (s : binder_state) (r : Z) : Z :=
  match refs s !! r with Some x => r_desc x | None => 0 end.

(** ** Nodes *)

Fixpoint find_node (ptr : Z) (l : list Z) : M (option Z) :=
  match l with
  | [] => mret None
  | n :: rest =>
      node ← get_node n;
      if n_ptr node =? ptr then mret (Some n) else find_node ptr rest
  end.

Definition binder_get_node (proc : Z) (ptr : Z) : M (option Z) :=
  p ← get_proc proc; find_node ptr (p_nodes p).

Definition binder_new_node (proc : Z) (ptr cookie : Z) : M (option Z) :=
  p ← get_proc proc;
  existing ← find_node ptr (p_nodes p);
  match existing with
  | Some _ => mret None
  | None =>
      a ← kzalloc;
      match a with
      | None => mret None
      | Some node =>
          id ← next_debug_id;
          modify (fun s => set_nodes
            (<[node := mk_binder_node id (Some proc) [] 0 0 0 false false false
                         false cookie ptr false false 0]> (nodes s)) s);;
          s ← get_state;
          upd_proc proc (fun p => set_p_nodes
            (insert_by_key (node_ptr_of s) node (p_nodes p)) p);;
          mret (Some node)
      end
  end.

(** The return value is 0 or [-EINVAL]. *)
Definition binder_inc_node (node : Z) (strong internal : bool)
    (target_list : option list_head) : M Z :=
  n ← get_node node;
  s ← get_state;
  if strong then
    if internal &&
       bool_decide (target_list = None) &&
       (n_internal_strong_refs n =? 0) &&
       negb (bool_decide (Some node = binder_context_mgr_node s) &&
             n_has_strong_ref n)
    then mret (- EINVAL)
    else
      (if internal then
         upd_node node (fun n => set_n_internal_strong_refs
                                   (int32 (n_internal_strong_refs n + 1)) n)
       else
         upd_node node (fun n => set_n_local_strong_refs
                                   (int32 (n_local_strong_refs n + 1)) n));;
      match target_list with
      | Some l =>
          when (negb (n_has_strong_ref n))
            (list_del_init (work_of_node node);;
             list_add_tail (work_of_node node) l)
      | None => mret tt
      end;;
      mret 0
  else
    when (negb internal)
      (upd_node node (fun n => set_n_local_weak_refs
                                 (int32 (n_local_weak_refs n + 1)) n));;
    unlinked ← entry_unlinked (work_of_node node);
    if negb (n_has_weak_ref n) && unlinked then
      match target_list with
      | None => mret (- EINVAL)
      | Some l => list_add_tail (work_of_node node) l;; mret 0
      end
    else mret 0.

(** [kfree(node)] with what precedes it in [binder_dec_node]. *)
Definition binder_dec_node (node : Z) (strong internal : bool) : M Z :=
  (if strong then
     if internal then
       upd_node node (fun n => set_n_internal_strong_refs
                                 (int32 (n_internal_strong_refs n - 1)) n)
     else
       upd_node node (fun n => set_n_local_strong_refs
                                 (int32 (n_local_strong_refs n - 1)) n)
   else
     if negb internal then
       upd_node node (fun n => set_n_local_weak_refs
                                 (int32 (n_local_weak_refs n - 1)) n)
     else mret tt);;
  n ← get_node node;
  if (if strong
      then negb (n_local_strong_refs n =? 0) || negb (n_internal_strong_refs n =? 0)
      else negb (n_local_weak_refs n =? 0) || negb (bool_decide (n_refs n = [])))
  then mret 0
  else
    match n_proc n with
    | Some proc =>
        if n_has_strong_ref n || n_has_weak_ref n then
          unlinked ← entry_unlinked (work_of_node node);
          when unlinked
            (list_add_tail (work_of_node node) (proc_todo proc);;
             wake_up_interruptible (proc_wait proc));;
          mret 0
        else if bool_decide (n_refs n = []) && (n_local_strong_refs n =? 0) &&
                (n_local_weak_refs n =? 0) then
          list_del_init (work_of_node node);;
          upd_proc proc (fun p => set_p_nodes (remove_Z node (p_nodes p)) p);;
          modify (fun s => set_nodes (delete node (nodes s)) s);;
          mret 0
        else mret 0
    | None =>
        if bool_decide (n_refs n = []) && (n_local_strong_refs n =? 0) &&
           (n_local_weak_refs n =? 0) then
          list_del_init (work_of_node node);;
          modify (fun s => set_binder_dead_nodes (remove_Z node (binder_dead_nodes s)) s);;
          modify (fun s => set_nodes (delete node (nodes s)) s);;
          mret 0
        else mret 0
    end.

(** ** References *)

Fixpoint find_ref_by_desc (desc : Z) (l : list Z) : M (option Z) :=
  match l with
  | [] => mret None
  | r :: rest =>
      ref ← get_ref r;
      if r_desc ref =? desc then mret (Some r) else find_ref_by_desc desc rest
  end.

Definition binder_get_ref (proc : Z) (desc : Z) : M (option Z) :=
  p ← get_proc proc; find_ref_by_desc desc (p_refs_by_desc p).

Fixpoint find_ref_by_node (node : Z) (l : list Z) : M (option Z) :=
  match l with
  | [] => mret None
  | r :: rest =>
      ref ← get_ref r;
      if r_node ref =? node then mret (Some r) else find_ref_by_node node rest
  end.

(** The descriptor scan of [binder_get_ref_for_node]:
    [for (n = rb_first(&proc->refs_by_desc); n != NULL; n = rb_next(n))]. *)
Fixpoint scan_desc (desc : Z) (l : list Z) : M Z :=
  match l with
  | [] => mret desc
  | r :: rest =>
      ref ← get_ref r;
      if desc <? r_desc ref then mret desc
      else scan_desc (u32 (r_desc ref + 1)) rest
  end.

(** The descent that links the new reference into [refs_by_desc]; two equal
    descriptors meet in [BUG()]. *)
Fixpoint insert_ref_by_desc (new : Z) (desc : Z) (l : list Z) : M (list Z) :=
  match l with
  | [] => mret [new]
  | r :: rest =>
      ref ← get_ref r;
      if desc <? r_desc ref then mret (new :: l)
      else if r_desc ref <? desc then
        rest' ← insert_ref_by_desc new desc rest; mret (r :: rest')
      else BUG
  end.

(** [node] is never NULL at a call site. *)
Definition binder_get_ref_for_node (proc : Z) (node : Z) : M (option Z) :=
  p ← get_proc proc;
  existing ← find_ref_by_node node (p_refs_by_node p);
  match existing with
  | Some ref => mret (Some ref)
  | None =>
      a ← kzalloc;
      match a with
      | None => mret None
      | Some new_ref =>
          id ← next_debug_id;
          s ← get_state;
          let start := if bool_decide (Some node = binder_context_mgr_node s)
                       then 0 else 1 in
          desc ← scan_desc start (p_refs_by_desc p);
          modify (fun s => set_refs
            (<[new_ref := mk_binder_ref id node desc proc 0 0 None]> (refs s)) s);;
          upd_proc proc (fun p => set_p_refs_by_node
            (insert_by_key (fun r => match refs s !! r with
                                     | Some x => r_node x
                                     | None => if r =? new_ref then node else 0
                                     end) new_ref (p_refs_by_node p)) p);;
          by_desc ← insert_ref_by_desc new_ref desc (p_refs_by_desc p);
          upd_proc proc (set_p_refs_by_desc by_desc);;
          upd_node node (fun n => set_n_refs (new_ref :: n_refs n) n);;
          mret (Some new_ref)
      end
  end.

Definition binder_delete_ref (ref : Z) : M unit :=
  r ← get_ref ref;
  upd_proc (r_proc r) (fun p => set_p_refs_by_desc (remove_Z ref (p_refs_by_desc p)) p);;
  upd_proc (r_proc r) (fun p => set_p_refs_by_node (remove_Z ref (p_refs_by_node p)) p);;
  (if negb (r_strong r =? 0) then binder_dec_node (r_node r) true true
   else mret 0);;
  upd_node (r_node r) (fun n => set_n_refs (remove_Z ref (n_refs n)) n);;
  binder_dec_node (r_node r) false true;;
  match r_death r with
  | Some death =>
      list_del (work_of_death death);;
      modify (fun s => set_deaths (delete death (deaths s)) s)
  | None => mret tt
  end;;
  modify (fun s => set_refs (delete ref (refs s)) s).

Definition binder_inc_ref (ref : Z) (strong : bool)
    (target_list : option list_head) : M Z :=
  r ← get_ref ref;
  if strong then
    ret ← (if r_strong r =? 0 then binder_inc_node (r_node r) true true target_list
           else mret 0);
    if negb (ret =? 0) then mret ret
    else upd_ref ref (fun r => set_r_strong (int32 (r_strong r + 1)) r);; mret 0
  else
    ret ← (if r_weak r =? 0 then binder_inc_node (r_node r) false true target_list
           else mret 0);
    if negb (ret =? 0) then mret ret
    else upd_ref ref (fun r => set_r_weak (int32 (r_weak r + 1)) r);; mret 0.

Definition binder_dec_ref (ref : Z) (strong : bool) : M Z :=
  r ← get_ref ref;
  ret ←
    (if strong then
       if r_strong r =? 0 then binder_user_error;; mret (- EINVAL)
       else
         upd_ref ref (fun r => set_r_strong (int32 (r_strong r - 1)) r);;
         r ← get_ref ref;
         if r_strong r =? 0 then binder_dec_node (r_node r) strong true
         else mret 0
     else
       if r_weak r =? 0 then binder_user_error;; mret (- EINVAL)
       else
         upd_ref ref (fun r => set_r_weak (int32 (r_weak r - 1)) r);; mret 0);
  if negb (ret =? 0) then mret ret
  else
    r ← get_ref ref;
    when ((r_strong r =? 0) && (r_weak r =? 0)) (binder_delete_ref ref);;
    mret 0.

(** ** File descriptors of the target process *)

Fixpoint find_next_zero_bit_from (bits : gset Z) (size i : Z) (fuel : nat) : Z :=
  match fuel with
  | O => size
  | S k =>
      if size <=? i then size
      else if bool_decide (i ∈ bits) then find_next_zero_bit_from bits size (i + 1) k
      else i
  end.

Definition find_next_zero_bit (bits : gset Z) (size offset : Z) : Z :=
  find_next_zero_bit_from bits size offset (Z.to_nat (size - offset)).

(** [expand_files] belongs to fs/file.c; the table is kept at the capacity
    [fdt_max_fds], beyond which the call fails.  The result is the new
    descriptor or a negative errno. *)
Definition task_get_unused_fd_flags (proc : Z) (cloexec : bool) : M Z :=
  p ← get_proc proc;
  match p_files p with
  | None => mret (- ESRCH)
  | Some files =>
      let fd := find_next_zero_bit (fdt_open_fds files) (fdt_max_fds files)
                  (next_fd files) in
      if p_rlim_nofile p <=? fd then mret (- EMFILE)
      else if fdt_max_fds files <=? fd then mret (- EMFILE)
      else
        upd_proc proc (set_p_files (Some
          (mk_files_struct
             (delete fd (fdt_fd files))
             (fdt_open_fds files ∪ {[fd]})
             (if cloexec then fdt_close_on_exec files ∪ {[fd]}
              else fdt_close_on_exec files ∖ {[fd]})
             (fdt_max_fds files)
             (fd + 1))));;
        mret fd
  end.

Definition task_fd_install (proc : Z) (fd file : Z) : M unit :=
  p ← get_proc proc;
  match p_files p with
  | None => mret tt
  | Some files =>
      M_BUG_ON (bool_decide (fdt_fd files !! fd <> None));;
      upd_proc proc (set_p_files (Some
        (mk_files_struct (<[fd := file]> (fdt_fd files)) (fdt_open_fds files)
           (fdt_close_on_exec files) (fdt_max_fds files) (next_fd files))))
  end.

(** [filp_close] is taken to succeed. *)
Definition task_close_fd (proc : Z) (fd : Z) : M Z :=
  p ← get_proc proc;
  match p_files p with
  | None => mret (- ESRCH)
  | Some files =>
      if fdt_max_fds files <=? fd then mret (- EBADF)
      else
        match fdt_fd files !! fd with
        | None => mret (- EBADF)
        | Some filp =>
            upd_proc proc (set_p_files (Some
              (mk_files_struct (delete fd (fdt_fd files))
                 (fdt_open_fds files ∖ {[fd]})
                 (fdt_close_on_exec files ∖ {[fd]})
                 (fdt_max_fds files)
                 (if fd <? next_fd files then fd else next_fd files))));;
            mret 0
        end
  end.

(** [fget(fd)] reads the table of the calling task, which is the table the
    sending process registered with the driver. *)
Definition fget (proc : Z) (fd : Z) : M (option Z) :=
  p ← get_proc proc;
  match p_files p with
  | None => mret None
  | Some files => mret (fdt_fd files !! fd)
  end.

(** ** Buffers seen from the state *)

Definition get_buffer (buffer : Z * Z) : M binder_buffer :=
  p ← get_proc (fst buffer); deref (find_buffer (snd buffer) (p_buffers p)).

Definition upd_buffer (buffer : Z * Z) (f : binder_buffer -> binder_buffer) : M unit :=
  _ ← get_buffer buffer;
  upd_proc (fst buffer) (fun p =>
    set_p_buffers (update_buffer (snd buffer) f (p_buffers p)) p).

(** The machine word at byte offset [off] of [buffer->data]. *)
Definition read_word (buffer : Z * Z) (off : Z) : M Z :=
  b ← get_buffer buffer; deref (b_data b !! Z.to_nat (off / sizeof_ptr)).

Definition write_word (buffer : Z * Z) (off : Z) (v : Z) : M unit :=
  upd_buffer buffer (fun b =>
    set_b_data (<[Z.to_nat (off / sizeof_ptr) := v]> (b_data b)) b).

(** [struct flat_binder_object]: four words, [type], [flags], the union of
    [binder] and [handle], and [cookie]. *)
Record flat_binder_object := mk_flat_binder_object {
  fp_type : Z;
  fp_flags : Z;
  fp_binder : Z;
  fp_cookie : Z
}.

Definition read_object (buffer : Z * Z) (off : Z) : M flat_binder_object :=
  ty ← read_word buffer off;
  fl ← read_word buffer (off + 4);
  bi ← read_word buffer (off + 8);
  co ← read_word buffer (off + 12);
  mret (mk_flat_binder_object ty fl bi co).

(** ** Transactions *)

Definition binder_pop_transaction (target_thread : option Z) (t : Z) : M unit :=
  match target_thread with
  | Some th =>
      thread ← get_thread th;
      M_BUG_ON (bool_decide (th_transaction_stack thread <> Some t));;
      x ← get_transaction t;
      M_BUG_ON (bool_decide (t_from x <> Some th));;
      upd_thread th (set_th_transaction_stack (t_from_parent x));;
      upd_transaction t (set_t_from None)
  | None => mret tt
  end;;
  upd_transaction t (set_t_need_reply false);;
  x ← get_transaction t;
  match t_buffer x with
  | Some buffer => upd_buffer buffer (set_b_transaction None)
  | None => mret tt
  end;;
  kfree_transaction t.

(** The [while (1)] of [binder_send_failed_reply]. *)
Fixpoint send_failed_reply_loop (fuel : nat) (t : Z) (error_code : Z) : M unit :=
  match fuel with
  | O => spin
  | S fuel =>
      x ← get_transaction t;
      match t_from x with
      | Some target_thread =>
          thread ← get_thread target_thread;
          when (negb (th_return_error thread =? BR_OK) &&
                (th_return_error2 thread =? BR_OK))
            (upd_thread target_thread (fun th =>
               set_th_return_error BR_OK
                 (set_th_return_error2 (th_return_error th) th)));;
          thread ← get_thread target_thread;
          if th_return_error thread =? BR_OK then
            binder_pop_transaction (Some target_thread) t;;
            upd_thread target_thread (set_th_return_error error_code);;
            wake_up_interruptible (thread_wait target_thread)
          else mret tt
      | None =>
          let next := t_from_parent x in
          binder_pop_transaction None t;;
          match next with
          | None => mret tt
          | Some t' => send_failed_reply_loop fuel t' error_code
          end
      end
  end.

(** The walk along [from_parent] visits each live transaction at most once,
    so the number of transactions is fuel enough. *)
Definition binder_send_failed_reply (t : Z) (error_code : Z) : M unit :=
  x ← get_transaction t;
  M_BUG_ON (has_flag (t_flags x) TF_ONE_WAY);;
  s ← get_state;
  send_failed_reply_loop (S (size (transactions s))) t error_code.

(** The test that opens both walks over the offsets of a buffer. *)
Definition bad_offset (off data_size : Z) : bool :=
  (size_t (data_size - sizeof_flat_binder_object) <? off) ||
  (data_size <? sizeof_flat_binder_object) ||
  negb (IS_ALIGNED off sizeof_ptr).

(** One turn of the loop of [binder_transaction_buffer_release], for the
    offset stored in entry [i] of the offsets array. *)
Definition release_object (proc : Z) (buffer : Z * Z) (failed_at : option nat)
    (i : nat) : M unit :=
  b ← get_buffer buffer;
  off ← read_word buffer (ALIGN (b_data_size b) sizeof_ptr + 4 * Z.of_nat i);
  if bad_offset off (b_data_size b) then mret tt
  else
    fp ← read_object buffer off;
    if (fp_type fp =? BINDER_TYPE_BINDER) || (fp_type fp =? BINDER_TYPE_WEAK_BINDER) then
      node ← binder_get_node proc (fp_binder fp);
      match node with
      | None => mret tt
      | Some node =>
          binder_dec_node node (fp_type fp =? BINDER_TYPE_BINDER) false;; mret tt
      end
    else if (fp_type fp =? BINDER_TYPE_HANDLE) || (fp_type fp =? BINDER_TYPE_WEAK_HANDLE) then
      ref ← binder_get_ref proc (fp_binder fp);
      match ref with
      | None => mret tt
      | Some ref =>
          binder_dec_ref ref (fp_type fp =? BINDER_TYPE_HANDLE);; mret tt
      end
    else if fp_type fp =? BINDER_TYPE_FD then
      match failed_at with
      | Some _ => task_close_fd proc (fp_binder fp);; mret tt
      | None => mret tt
      end
    else mret tt.

Fixpoint release_objects (proc : Z) (buffer : Z * Z) (failed_at : option nat)
    (i : nat) (count : nat) : M unit :=
  match count with
  | O => mret tt
  | S count =>
      release_object proc buffer failed_at i;;
      release_objects proc buffer failed_at (S i) count
  end.

(** [failed_at] is the index of the entry [offp] pointed at when the
    translation failed; [None] is a NULL [failed_at]. *)
Definition binder_transaction_buffer_release (proc : Z) (buffer : Z * Z)
    (failed_at : option nat) : M unit :=
  b ← get_buffer buffer;
  match b_target_node b with
  | Some node => binder_dec_node node true false;; mret tt
  | None => mret tt
  end;;
  let off_end :=
    match failed_at with
    | Some k => k
    | None => Z.to_nat ((b_offsets_size b + 3) / 4)
    end in
  release_objects proc buffer failed_at O off_end.

(** The fields of [struct binder_transaction_data] that [binder_transaction]
    reads.  [tr_buffer] and [tr_offsets] are the words user memory holds at
    [data.ptr.buffer] and [data.ptr.offsets] (words past the end of the list
    read as 0); [None] is a pointer [copy_from_user] faults on. *)
Record binder_transaction_data := mk_binder_transaction_data {
  tr_target : Z;
  tr_code : Z;
  tr_flags : Z;
  tr_data_size : Z;
  tr_offsets_size : Z;
  tr_buffer : option (list Z);
  tr_offsets : option (list Z)
}.

(** The labels [binder_transaction] leaves through on failure. *)
Inductive transaction_error :=
| err_get_unused_fd_failed
| err_fget_failed
| err_fd_not_allowed
| err_binder_get_ref_for_node_failed
| err_binder_get_ref_failed
| err_binder_new_node_failed
| err_bad_object_type
| err_bad_offset
| err_copy_data_failed
| err_binder_alloc_buf_failed
| err_alloc_tcomplete_failed
| err_alloc_t_failed
| err_bad_call_stack
| err_empty_call_stack
| err_dead_binder
| err_invalid_target_handle
| err_no_context_mgr_node.

(** The locals [binder_transaction] has settled once the target is known. *)
Record transaction_target := mk_transaction_target {
  target_proc : Z;
  target_thread : option Z;
  target_node : option Z;
  in_reply_to : option Z
}.

(** [int min_priority : 8] *)
Definition int8 (x : Z) : Z :=
  let y := x mod 256 in if y <? 128 then y else y - 256.

(** The [while (tmp)] walk that looks for a thread of the target process
    among the callers this thread is serving. *)
Fixpoint find_target_thread (fuel : nat) (tmp : option Z) (target_proc : Z)
    (target_thread : option Z) : M (option Z) :=
  match tmp with
  | None => mret target_thread
  | Some t =>
      match fuel with
      | O => spin
      | S fuel =>
          x ← get_transaction t;
          target_thread ←
            match t_from x with
            | Some from =>
                th ← get_thread from;
                mret (if th_proc th =? target_proc then Some from else target_thread)
            | None => mret target_thread
            end;
          find_target_thread fuel (t_from_parent x) target_proc target_thread
      end
  end.

(** The first part of [binder_transaction], up to the choice of the target.
    A failure is the label jumped to, the value [return_error] has there and
    the value of [in_reply_to]. *)
Definition binder_transaction_target (proc thread : Z)
    (tr : binder_transaction_data) (reply : bool)
    : M (transaction_error * Z * option Z + transaction_target) :=
  th ← get_thread thread;
  if reply then
    match th_transaction_stack th with
    | None =>
        binder_user_error;;
        mret (inl (err_empty_call_stack, BR_FAILED_REPLY, None))
    | Some irt =>
        x ← get_transaction irt;
        if bool_decide (t_to_thread x <> Some thread) then
          binder_user_error;;
          mret (inl (err_bad_call_stack, BR_FAILED_REPLY, None))
        else
          upd_thread thread (set_th_transaction_stack (t_to_parent x));;
          match t_from x with
          | None => mret (inl (err_dead_binder, BR_DEAD_REPLY, Some irt))
          | Some target =>
              from ← get_thread target;
              if bool_decide (th_transaction_stack from <> Some irt) then
                binder_user_error;;
                mret (inl (err_dead_binder, BR_FAILED_REPLY, None))
              else
                mret (inr (mk_transaction_target (th_proc from) (Some target) None
                             (Some irt)))
          end
    end
  else
    node ←
      (if negb (tr_target tr =? 0) then
         ref ← binder_get_ref proc (tr_target tr);
         match ref with
         | None =>
             binder_user_error;;
             mret (inl (err_invalid_target_handle, BR_FAILED_REPLY))
         | Some ref => r ← get_ref ref; mret (inr (r_node r))
         end
       else
         s ← get_state;
         match binder_context_mgr_node s with
         | None => mret (inl (err_no_context_mgr_node, BR_DEAD_REPLY))
         | Some node => mret (inr node)
         end);
    match node with
    | inl (label, return_error) => mret (inl (label, return_error, None))
    | inr node =>
        n ← get_node node;
        match n_proc n with
        | None => mret (inl (err_dead_binder, BR_DEAD_REPLY, None))
        | Some target =>
            if negb (has_flag (tr_flags tr) TF_ONE_WAY) &&
               bool_decide (th_transaction_stack th <> None) then
              tmp ← deref (th_transaction_stack th);
              x ← get_transaction tmp;
              if bool_decide (t_to_thread x <> Some thread) then
                binder_user_error;;
                mret (inl (err_bad_call_stack, BR_FAILED_REPLY, None))
              else
                s ← get_state;
                target_thread ← find_target_thread (S (size (transactions s)))
                                  (Some tmp) target None;
                mret (inr (mk_transaction_target target target_thread (Some node) None))
            else
              mret (inr (mk_transaction_target target None (Some node) None))
        end
    end.

Section driver.
Context `{layout}.

(** Whether the next [binder_update_page_range(proc, 1, ...)] returns 0. *)
Definition pages_available : M bool := fun s =>
  match pages_script s with
  | ok :: rest => Ok (ok, set_pages_script rest s)
  | [] => Ok (true, s)
  end.

Definition alloc_buf (proc : Z) (data_size offsets_size : Z) (is_async : bool)
    : M (option Z) :=
  pages_ok ← pages_available;
  r ← in_proc proc (fun p => binder_alloc_buf p data_size offsets_size is_async pages_ok);
  match r with
  | alloc_buffer a => mret (Some a)
  | alloc_null => mret None
  | alloc_null_user_error => binder_user_error;; mret None
  end.

Definition free_buf (buffer : Z * Z) : M unit :=
  in_proc (fst buffer) (fun p => p' ← binder_free_buf p (snd buffer); Ok (tt, p')).

(** One turn of the [for] loop over the offsets array in [binder_transaction]:
    the object named by entry [i] is rewritten for the target.  [Some] is the
    label jumped to and the value of [return_error] there; the local has no
    initialiser, [return_error] is what it holds on entry. *)
Definition translate_object (proc thread : Z) (tr : binder_transaction_data)
    (reply : bool) (tg : transaction_target) (buffer : Z * Z) (i : nat)
    (return_error : Z) : M (option (transaction_error * Z)) :=
  b ← get_buffer buffer;
  off ← read_word buffer (ALIGN (tr_data_size tr) sizeof_ptr + 4 * Z.of_nat i);
  if bad_offset off (b_data_size b) then
    binder_user_error;; mret (Some (err_bad_offset, BR_FAILED_REPLY))
  else
    fp ← read_object buffer off;
    if (fp_type fp =? BINDER_TYPE_BINDER) || (fp_type fp =? BINDER_TYPE_WEAK_BINDER) then
      found ← binder_get_node proc (fp_binder fp);
      node ←
        match found with
        | Some node => mret (Some node)
        | None =>
            new ← binder_new_node proc (fp_binder fp) (fp_cookie fp);
            match new with
            | None => mret None
            | Some node =>
                upd_node node
                  (set_n_policy
                     (int8 (Z.land (fp_flags fp) FLAT_BINDER_FLAG_PRIORITY_MASK))
                     (has_flag (fp_flags fp) FLAT_BINDER_FLAG_ACCEPTS_FDS));;
                mret (Some node)
            end
        end;
      match node with
      | None => mret (Some (err_binder_new_node_failed, BR_FAILED_REPLY))
      | Some node =>
          n ← get_node node;
          if negb (fp_cookie fp =? n_cookie n) then
            binder_user_error;;
            mret (Some (err_binder_get_ref_for_node_failed, return_error))
          else
            ref ← binder_get_ref_for_node (target_proc tg) node;
            match ref with
            | None => mret (Some (err_binder_get_ref_for_node_failed, BR_FAILED_REPLY))
            | Some ref =>
                let type := if fp_type fp =? BINDER_TYPE_BINDER
                            then BINDER_TYPE_HANDLE else BINDER_TYPE_WEAK_HANDLE in
                write_word buffer off type;;
                r ← get_ref ref;
                write_word buffer (off + 8) (r_desc r);;
                binder_inc_ref ref (type =? BINDER_TYPE_HANDLE)
                  (Some (thread_todo thread));;
                mret None
            end
      end
    else if (fp_type fp =? BINDER_TYPE_HANDLE) || (fp_type fp =? BINDER_TYPE_WEAK_HANDLE) then
      found ← binder_get_ref proc (fp_binder fp);
      match found with
      | None =>
          binder_user_error;;
          mret (Some (err_binder_get_ref_failed, BR_FAILED_REPLY))
      | Some ref =>
          r ← get_ref ref;
          n ← get_node (r_node r);
          if bool_decide (n_proc n = Some (target_proc tg)) then
            let type := if fp_type fp =? BINDER_TYPE_HANDLE
                        then BINDER_TYPE_BINDER else BINDER_TYPE_WEAK_BINDER in
            write_word buffer off type;;
            write_word buffer (off + 8) (n_ptr n);;
            write_word buffer (off + 12) (n_cookie n);;
            binder_inc_node (r_node r) (type =? BINDER_TYPE_BINDER) false None;;
            mret None
          else
            new_ref ← binder_get_ref_for_node (target_proc tg) (r_node r);
            match new_ref with
            | None => mret (Some (err_binder_get_ref_for_node_failed, BR_FAILED_REPLY))
            | Some new_ref =>
                nr ← get_ref new_ref;
                write_word buffer (off + 8) (r_desc nr);;
                binder_inc_ref new_ref (fp_type fp =? BINDER_TYPE_HANDLE) None;;
                mret None
            end
      end
    else if fp_type fp =? BINDER_TYPE_FD then
      allowed ←
        (if reply then
           irt ← deref (in_reply_to tg);
           x ← get_transaction irt;
           mret (has_flag (t_flags x) TF_ACCEPT_FDS)
         else
           node ← deref (target_node tg);
           n ← get_node node;
           mret (n_accept_fds n));
      if negb allowed then
        binder_user_error;; mret (Some (err_fd_not_allowed, BR_FAILED_REPLY))
      else
        file ← fget proc (fp_binder fp);
        match file with
        | None => binder_user_error;; mret (Some (err_fget_failed, BR_FAILED_REPLY))
        | Some file =>
            target_fd ← task_get_unused_fd_flags (target_proc tg) true;
            if target_fd <? 0 then
              mret (Some (err_get_unused_fd_failed, BR_FAILED_REPLY))
            else
              task_fd_install (target_proc tg) target_fd file;;
              write_word buffer (off + 8) target_fd;;
              mret None
        end
    else
      binder_user_error;; mret (Some (err_bad_object_type, BR_FAILED_REPLY)).

(** The loop; a failure also tells the index [offp] stopped at. *)
Fixpoint translate_objects (proc thread : Z) (tr : binder_transaction_data)
    (reply : bool) (tg : transaction_target) (buffer : Z * Z) (i count : nat)
    (return_error : Z) : M (option (transaction_error * Z * nat)) :=
  match count with
  | O => mret None
  | S count =>
      r ← translate_object proc thread tr reply tg buffer i return_error;
      match r with
      | Some (label, e) => mret (Some (label, e, i))
      | None => translate_objects proc thread tr reply tg buffer (S i) count return_error
      end
  end.

(** The two [copy_from_user] calls and the alignment test that precede the
    loop; on failure [offp] still points at the first entry. *)
Definition copy_transaction_data (tr : binder_transaction_data) (buffer : Z * Z)
    : M (option (transaction_error * Z * nat)) :=
  let data_words := Z.to_nat (ALIGN (tr_data_size tr) sizeof_ptr / sizeof_ptr) in
  let offsets_words := Z.to_nat ((tr_offsets_size tr + 3) / 4) in
  match tr_buffer tr with
  | None => binder_user_error;; mret (Some (err_copy_data_failed, BR_FAILED_REPLY, O))
  | Some data =>
      upd_buffer buffer (set_b_data (resize data_words 0 data));;
      match tr_offsets tr with
      | None => binder_user_error;; mret (Some (err_copy_data_failed, BR_FAILED_REPLY, O))
      | Some offsets =>
          upd_buffer buffer (fun b =>
            set_b_data (b_data b ++ resize offsets_words 0 offsets) b);;
          if negb (IS_ALIGNED (tr_offsets_size tr) 4) then
            binder_user_error;; mret (Some (err_bad_offset, BR_FAILED_REPLY, O))
          else mret None
      end
  end.

(** The code from the label [err_copy_data_failed] down to the label
    [err_alloc_t_failed]. *)
Definition transaction_unwind (tg : transaction_target) (t tcomplete : Z)
    (buffer : Z * Z) (failed_at : nat) : M unit :=
  binder_transaction_buffer_release (target_proc tg) buffer (Some failed_at);;
  upd_buffer buffer (set_b_transaction None);;
  free_buf buffer;;
  kfree_tcomplete tcomplete;;
  kfree_transaction t.

(** The code that all error labels fall into. *)
Definition transaction_failed (thread : Z) (in_reply_to : option Z)
    (return_error : Z) : M unit :=
  th ← get_thread thread;
  M_BUG_ON (negb (th_return_error th =? BR_OK));;
  match in_reply_to with
  | Some irt =>
      upd_thread thread (set_th_return_error BR_TRANSACTION_COMPLETE);;
      binder_send_failed_reply irt return_error
  | None => upd_thread thread (set_th_return_error return_error)
  end.

(** The hand-over that ends a successful [binder_transaction]. *)
Definition transaction_commit (thread : Z) (reply : bool) (tg : transaction_target)
    (t tcomplete : Z) (buffer : Z * Z) : M unit :=
  b ← get_buffer buffer;
  x ← get_transaction t;
  let thread_or_proc_list :=
    match target_thread tg with
    | Some target => (thread_todo target, Some (thread_wait target))
    | None => (proc_todo (target_proc tg), Some (proc_wait (target_proc tg)))
    end in
  '(target_list, target_wait) ←
    (if reply then
       M_BUG_ON (b_async_transaction b);;
       irt ← deref (in_reply_to tg);
       binder_pop_transaction (target_thread tg) irt;;
       mret thread_or_proc_list
     else if negb (has_flag (t_flags x) TF_ONE_WAY) then
       M_BUG_ON (b_async_transaction b);;
       th ← get_thread thread;
       upd_transaction t (fun x =>
         set_t_from_parent (th_transaction_stack th) (set_t_need_reply true x));;
       upd_thread thread (set_th_transaction_stack (Some t));;
       mret thread_or_proc_list
     else
       M_BUG_ON (bool_decide (target_node tg = None));;
       M_BUG_ON (negb (b_async_transaction b));;
       node ← deref (target_node tg);
       n ← get_node node;
       if n_has_async_transaction n then
         mret (node_async_todo node, None)
       else
         upd_node node (set_n_has_async_transaction true);;
         mret thread_or_proc_list);
  list_add_tail (work_of_transaction t) target_list;;
  list_add_tail (work_tcomplete tcomplete) (thread_todo thread);;
  match target_wait with
  | Some q => wake_up_interruptible q
  | None => mret tt
  end.

(** [return_error] is the indeterminate value the local of that name holds
    when the function is entered. *)
Definition binder_transaction (proc thread : Z) (tr : binder_transaction_data)
    (reply : bool) (return_error : Z) : M unit :=
  target ← binder_transaction_target proc thread tr reply;
  match target with
  | inl (_, return_error, irt) => transaction_failed thread irt return_error
  | inr tg =>
      a ← kzalloc;
      match a with
      | None => transaction_failed thread (in_reply_to tg) BR_FAILED_REPLY
      | Some t =>
          c ← kzalloc;
          match c with
          | None => transaction_failed thread (in_reply_to tg) BR_FAILED_REPLY
          | Some tcomplete =>
              modify (fun s => set_tcompletes (tcompletes s ∪ {[tcomplete]}) s);;
              debug_id ← next_debug_id;
              p ← get_proc proc;
              let one_way := has_flag (tr_flags tr) TF_ONE_WAY in
              modify (fun s => set_transactions
                (<[t := mk_binder_transaction debug_id false
                          (if negb reply && negb one_way then Some thread else None)
                          (p_euid p) (Some (target_proc tg)) (target_thread tg) None
                          (tr_code tr) (tr_flags tr) None None]> (transactions s)) s);;
              buf ← alloc_buf (target_proc tg) (tr_data_size tr) (tr_offsets_size tr)
                      (negb reply && one_way);
              match buf with
              | None =>
                  kfree_tcomplete tcomplete;;
                  kfree_transaction t;;
                  transaction_failed thread (in_reply_to tg) BR_FAILED_REPLY
              | Some a =>
                  let buffer := (target_proc tg, a) in
                  upd_transaction t (set_t_buffer (Some buffer));;
                  upd_buffer buffer (fun b =>
                    set_b_target_node (target_node tg)
                      (set_b_transaction (Some t)
                         (set_b_debug_id debug_id (set_b_allow_user_free false b))));;
                  match target_node tg with
                  | Some node => binder_inc_node node true false None;; mret tt
                  | None => mret tt
                  end;;
                  copied ← copy_transaction_data tr buffer;
                  failure ←
                    match copied with
                    | Some f => mret (Some f)
                    | None =>
                        translate_objects proc thread tr reply tg buffer O
                          (Z.to_nat (tr_offsets_size tr / 4)) return_error
                    end;
                  match failure with
                  | Some (_, return_error, failed_at) =>
                      transaction_unwind tg t tcomplete buffer failed_at;;
                      transaction_failed thread (in_reply_to tg) return_error
                  | None => transaction_commit thread reply tg t tcomplete buffer
                  end
              end
          end
      end
  end.

(** ** The write half of BINDER_WRITE_READ *)

(** The commands of binder.h, decoded: a command word and its payload. *)
Inductive bc_command :=
| BC_INCREFS (target : Z)
| BC_ACQUIRE (target : Z)
| BC_RELEASE (target : Z)
| BC_DECREFS (target : Z)
| BC_INCREFS_DONE (node_ptr cookie : Z)
| BC_ACQUIRE_DONE (node_ptr cookie : Z)
| BC_ATTEMPT_ACQUIRE
| BC_ACQUIRE_RESULT
| BC_FREE_BUFFER (data_ptr : Z)
| BC_TRANSACTION (tr : binder_transaction_data)
| BC_REPLY (tr : binder_transaction_data)
| BC_REGISTER_LOOPER
| BC_ENTER_LOOPER
| BC_EXIT_LOOPER
| BC_REQUEST_DEATH_NOTIFICATION (target cookie : Z)
| BC_CLEAR_DEATH_NOTIFICATION (target cookie : Z)
| BC_DEAD_BINDER_DONE (cookie : Z)
| BC_unknown.

(** Bytes [ptr] advances by over a command. *)
Definition bc_size (cmd : bc_command) : Z :=
  4 +
  match cmd with
  | BC_INCREFS _ | BC_ACQUIRE _ | BC_RELEASE _ | BC_DECREFS _ => 4
  | BC_INCREFS_DONE _ _ | BC_ACQUIRE_DONE _ _ => 8
  | BC_FREE_BUFFER _ => 4
  | BC_TRANSACTION _ | BC_REPLY _ => sizeof_binder_transaction_data
  | BC_REQUEST_DEATH_NOTIFICATION _ _ | BC_CLEAR_DEATH_NOTIFICATION _ _ => 8
  | BC_DEAD_BINDER_DONE _ => 4
  | _ => 0
  end.

Definition looper_registered_or_entered (looper : Z) : bool :=
  has_flag looper (Z.lor BINDER_LOOPER_STATE_REGISTERED BINDER_LOOPER_STATE_ENTERED).

(** The tail shared by the three places that queue a death notification:
    on the thread if it is a looper, else on the process. *)
Definition queue_death (proc thread : Z) (death : Z) : M unit :=
  th ← get_thread thread;
  if looper_registered_or_entered (th_looper th) then
    list_add_tail (work_of_death death) (thread_todo thread)
  else
    list_add_tail (work_of_death death) (proc_todo proc);;
    wake_up_interruptible (proc_wait proc).

(** [list_for_each_entry] over [proc->delivered_death] in BC_DEAD_BINDER_DONE. *)
Fixpoint find_delivered_death (cookie : Z) (l : list binder_work) : M (option Z) :=
  match l with
  | [] => mret None
  | w :: rest =>
      match w with
      | work_of_death d =>
          death ← get_death d;
          if d_cookie death =? cookie then mret (Some d)
          else find_delivered_death cookie rest
      | _ => fault
      end
  end.

(** One turn of the [switch] of [binder_thread_write]: [Some ret] is a
    [return ret], [None] a [break]. *)
Definition binder_command (proc thread : Z) (cmd : bc_command) (return_error : Z)
    : M (option Z) :=
  match cmd with
  | BC_INCREFS target | BC_ACQUIRE target | BC_RELEASE target | BC_DECREFS target =>
      s ← get_state;
      let increment :=
        match cmd with BC_INCREFS _ | BC_ACQUIRE _ => true | _ => false end in
      ref ←
        (if (target =? 0) && bool_decide (binder_context_mgr_node s <> None) && increment
         then
           mgr ← deref (binder_context_mgr_node s);
           ref ← binder_get_ref_for_node proc mgr;
           (* [ref->desc] is read before [ref] is compared with NULL *)
           r ← deref ref;
           r ← get_ref r;
           when (negb (r_desc r =? target)) binder_user_error;;
           mret ref
         else binder_get_ref proc target);
      match ref with
      | None => binder_user_error;; mret None
      | Some ref =>
          match cmd with
          | BC_INCREFS _ => binder_inc_ref ref false None
          | BC_ACQUIRE _ => binder_inc_ref ref true None
          | BC_RELEASE _ => binder_dec_ref ref true
          | _ => binder_dec_ref ref false
          end;;
          mret None
      end
  | BC_INCREFS_DONE node_ptr cookie | BC_ACQUIRE_DONE node_ptr cookie =>
      let acquire := match cmd with BC_ACQUIRE_DONE _ _ => true | _ => false end in
      found ← binder_get_node proc node_ptr;
      match found with
      | None => binder_user_error;; mret None
      | Some node =>
          n ← get_node node;
          if negb (cookie =? n_cookie n) then binder_user_error;; mret None
          else if (acquire : bool) then
            if negb (n_pending_strong_ref n) then binder_user_error;; mret None
            else
              upd_node node (set_n_pending_strong_ref false);;
              binder_dec_node node true false;;
              mret None
          else
            if negb (n_pending_weak_ref n) then binder_user_error;; mret None
            else
              upd_node node (set_n_pending_weak_ref false);;
              binder_dec_node node false false;;
              mret None
      end
  | BC_ATTEMPT_ACQUIRE => mret (Some (- EINVAL))
  | BC_ACQUIRE_RESULT => mret (Some (- EINVAL))
  | BC_FREE_BUFFER data_ptr =>
      p ← get_proc proc;
      found ← lift_result (binder_buffer_lookup p data_ptr);
      match found with
      | None => binder_user_error;; mret None
      | Some a =>
          let buffer := (proc, a) in
          b ← get_buffer buffer;
          if negb (b_allow_user_free b) then binder_user_error;; mret None
          else
            match b_transaction b with
            | Some t =>
                upd_transaction t (set_t_buffer None);;
                upd_buffer buffer (set_b_transaction None)
            | None => mret tt
            end;;
            match b_async_transaction b, b_target_node b with
            | true, Some node =>
                n ← get_node node;
                M_BUG_ON (negb (n_has_async_transaction n));;
                empty ← list_empty (node_async_todo node);
                if (empty : bool) then
                  upd_node node (set_n_has_async_transaction false)
                else
                  s ← get_state;
                  next ← deref (head (list_of s (node_async_todo node)));
                  list_move_tail next (thread_todo thread)
            | _, _ => mret tt
            end;;
            binder_transaction_buffer_release proc buffer None;;
            free_buf buffer;;
            mret None
      end
  | BC_TRANSACTION tr =>
      binder_transaction proc thread tr false return_error;; mret None
  | BC_REPLY tr =>
      binder_transaction proc thread tr true return_error;; mret None
  | BC_REGISTER_LOOPER =>
      th ← get_thread thread;
      p ← get_proc proc;
      (if has_flag (th_looper th) BINDER_LOOPER_STATE_ENTERED then
         upd_thread thread (fun th =>
           set_th_looper (Z.lor (th_looper th) BINDER_LOOPER_STATE_INVALID) th);;
         binder_user_error
       else if p_requested_threads p =? 0 then
         upd_thread thread (fun th =>
           set_th_looper (Z.lor (th_looper th) BINDER_LOOPER_STATE_INVALID) th);;
         binder_user_error
       else
         upd_proc proc (fun p =>
           set_p_requested_threads (int32 (p_requested_threads p - 1)) p);;
         upd_proc proc (fun p =>
           set_p_requested_threads_started
             (int32 (p_requested_threads_started p + 1)) p));;
      upd_thread thread (fun th =>
        set_th_looper (Z.lor (th_looper th) BINDER_LOOPER_STATE_REGISTERED) th);;
      mret None
  | BC_ENTER_LOOPER =>
      th ← get_thread thread;
      when (has_flag (th_looper th) BINDER_LOOPER_STATE_REGISTERED)
        (upd_thread thread (fun th =>
           set_th_looper (Z.lor (th_looper th) BINDER_LOOPER_STATE_INVALID) th);;
         binder_user_error);;
      upd_thread thread (fun th =>
        set_th_looper (Z.lor (th_looper th) BINDER_LOOPER_STATE_ENTERED) th);;
      mret None
  | BC_EXIT_LOOPER =>
      upd_thread thread (fun th =>
        set_th_looper (Z.lor (th_looper th) BINDER_LOOPER_STATE_EXITED) th);;
      mret None
  | BC_REQUEST_DEATH_NOTIFICATION target cookie =>
      found ← binder_get_ref proc target;
      match found with
      | None => binder_user_error;; mret None
      | Some ref =>
          r ← get_ref ref;
          if bool_decide (r_death r <> None) then binder_user_error;; mret None
          else
            a ← kzalloc;
            match a with
            | None => upd_thread thread (set_th_return_error BR_ERROR);; mret None
            | Some death =>
                modify (fun s => set_deaths
                  (<[death := mk_binder_ref_death None cookie]> (deaths s)) s);;
                upd_ref ref (set_r_death (Some death));;
                n ← get_node (r_node r);
                when (bool_decide (n_proc n = None))
                  (upd_death death (set_d_work_type (Some BINDER_WORK_DEAD_BINDER));;
                   queue_death proc thread death);;
                mret None
            end
      end
  | BC_CLEAR_DEATH_NOTIFICATION target cookie =>
      found ← binder_get_ref proc target;
      match found with
      | None => binder_user_error;; mret None
      | Some ref =>
          r ← get_ref ref;
          match r_death r with
          | None => binder_user_error;; mret None
          | Some death =>
              d ← get_death death;
              if negb (d_cookie d =? cookie) then binder_user_error;; mret None
              else
                upd_ref ref (set_r_death None);;
                unlinked ← entry_unlinked (work_of_death death);
                (if (unlinked : bool) then
                   upd_death death
                     (set_d_work_type (Some BINDER_WORK_CLEAR_DEATH_NOTIFICATION));;
                   queue_death proc thread death
                 else
                   M_BUG_ON (bool_decide (d_work_type d <> Some BINDER_WORK_DEAD_BINDER));;
                   upd_death death
                     (set_d_work_type (Some BINDER_WORK_DEAD_BINDER_AND_CLEAR)));;
                mret None
          end
      end
  | BC_DEAD_BINDER_DONE cookie =>
      s ← get_state;
      found ← find_delivered_death cookie (list_of s (proc_delivered_death proc));
      match found with
      | None => binder_user_error;; mret None
      | Some death =>
          list_del_init (work_of_death death);;
          d ← get_death death;
          when (bool_decide (d_work_type d = Some BINDER_WORK_DEAD_BINDER_AND_CLEAR))
            (upd_death death
               (set_d_work_type (Some BINDER_WORK_CLEAR_DEATH_NOTIFICATION));;
             queue_death proc thread death);;
          mret None
      end
  | BC_unknown => mret (Some (- EINVAL))
  end.

(** [buffer] is what user memory holds from [buffer + *consumed] on; memory
    past the last command of the list cannot be read.  The result is the
    return value and the final [*consumed]. *)
Fixpoint binder_thread_write (proc thread : Z) (buffer : list bc_command)
    (size consumed : Z) (return_error : Z) : M (Z * Z) :=
  th ← get_thread thread;
  if (consumed <? size) && (th_return_error th =? BR_OK) then
    match buffer with
    | [] => mret (- EFAULT, consumed)
    | cmd :: rest =>
        r ← binder_command proc thread cmd return_error;
        match r with
        | Some ret => mret (ret, consumed)
        | None =>
            binder_thread_write proc thread rest size (consumed + bc_size cmd)
              return_error
        end
    end
  else mret (0, consumed).

(** ** The read half of BINDER_WRITE_READ *)

(** The read buffer of the caller, one entry per word; a store outside the
    list faults. *)
Definition put_user (v : Z) (ptr : Z) (buffer : list Z) : option (list Z) :=
  if (0 <=? ptr) && (ptr / 4 <? Z.of_nat (length buffer))
  then Some (<[Z.to_nat (ptr / 4) := v]> buffer)
  else None.

Fixpoint put_words (vs : list Z) (ptr : Z) (buffer : list Z) : list Z * bool :=
  match vs with
  | [] => (buffer, true)
  | v :: rest =>
      match put_user v ptr buffer with
      | Some buffer => put_words rest (ptr + 4) buffer
      | None => (buffer, false)
      end
  end.

(** How a call of [binder_thread_read] ends: it returns, with [*consumed] and
    the read buffer as it leaves them, or it sleeps in [wait_event] with the
    lock released. *)
Inductive read_result :=
| read_returned (ret consumed : Z) (buffer : list Z)
| read_sleeping (ptr : Z) (buffer : list Z) (wait_for_proc_work : bool).

Section read.
Variables (proc thread : Z) (size consumed : Z).
(** [non_block], and whether a signal is pending when the thread would
    sleep. *)
Variables (non_block signal_pending : bool).

(** [put_user] / [copy_to_user] followed by [return -EFAULT] on failure. *)
Definition emit (vs : list Z) (ptr : Z) (buffer : list Z) (consumed : Z)
    (k : list Z -> M read_result) : M read_result :=
  let '(buffer, ok) := put_words vs ptr buffer in
  if (ok : bool) then k buffer else mret (read_returned (- EFAULT) consumed buffer).

Definition binder_has_proc_work : M bool :=
  empty ← list_empty (proc_todo proc);
  th ← get_thread thread;
  mret (negb empty || has_flag (th_looper th) BINDER_LOOPER_STATE_NEED_RETURN).

Definition binder_has_thread_work : M bool :=
  empty ← list_empty (thread_todo thread);
  th ← get_thread thread;
  mret (negb empty || negb (th_return_error th =? BR_OK) ||
        has_flag (th_looper th) BINDER_LOOPER_STATE_NEED_RETURN).

(** The code at the label [done]. *)
Definition read_done (ptr : Z) (buffer : list Z) : M read_result :=
  p ← get_proc proc;
  th ← get_thread thread;
  if (int32 (p_requested_threads p + p_ready_threads p) =? 0) &&
     (p_requested_threads_started p <? p_max_threads p) &&
     looper_registered_or_entered (th_looper th)
  then
    upd_proc proc (fun p =>
      set_p_requested_threads (int32 (p_requested_threads p + 1)) p);;
    emit [BR_SPAWN_LOOPER] 0 buffer ptr (fun buffer =>
      mret (read_returned 0 ptr buffer))
  else mret (read_returned 0 ptr buffer).

(** From the second [mutex_lock] to the test of [ret]. *)
Definition read_woken (wait_for_proc_work : bool) : M unit :=
  when wait_for_proc_work
    (upd_proc proc (fun p => set_p_ready_threads (int32 (p_ready_threads p - 1)) p));;
  upd_thread thread (fun th =>
    set_th_looper
      (Z.land (th_looper th) (Z.lnot BINDER_LOOPER_STATE_WAITING)) th).

(** The outcome of [wait_event_interruptible] on a condition: 0, a negative
    errno, or no return yet. *)
Definition wait_event (condition : bool) : option Z :=
  if non_block then Some (if condition then 0 else - EAGAIN)
  else if condition then Some 0
  else if signal_pending then Some (- ERESTARTSYS)
  else None.

(** What the BINDER_WORK_NODE case settles: the command, and the node
    updated. *)
Definition node_command (n : binder_node) : Z * binder_node :=
  let strong := negb (n_internal_strong_refs n =? 0) ||
                negb (n_local_strong_refs n =? 0) in
  let weak := negb (bool_decide (n_refs n = [])) ||
              negb (n_local_weak_refs n =? 0) || strong in
  if weak && negb (n_has_weak_ref n) then
    (BR_INCREFS,
     set_n_local_weak_refs (int32 (n_local_weak_refs n + 1))
       (set_n_pending_weak_ref true (set_n_has_weak_ref true n)))
  else if strong && negb (n_has_strong_ref n) then
    (BR_ACQUIRE,
     set_n_local_strong_refs (int32 (n_local_strong_refs n + 1))
       (set_n_pending_strong_ref true (set_n_has_strong_ref true n)))
  else if negb strong && n_has_strong_ref n then
    (BR_RELEASE, set_n_has_strong_ref false n)
  else if negb weak && n_has_weak_ref n then
    (BR_DECREFS, set_n_has_weak_ref false n)
  else (BR_NOOP, n).

(** The function from the label [retry] on ([at_retry]) or from the head of
    the [while (1)] loop; each jump to either costs one unit of fuel. *)
Fixpoint read_from (fuel : nat) (at_retry : bool) (ptr : Z) (buffer : list Z)
    (wait_for_proc_work : bool) : M read_result :=
  match fuel with
  | O => spin
  | S fuel =>
    if at_retry then
      th ← get_thread thread;
      empty ← list_empty (thread_todo thread);
      let wait_for_proc_work :=
        bool_decide (th_transaction_stack th = None) && empty in
      if negb (th_return_error th =? BR_OK) && (ptr <? size) then
        let second ptr buffer :=
          emit [th_return_error th] ptr buffer consumed (fun buffer =>
            upd_thread thread (set_th_return_error BR_OK);;
            read_done (ptr + 4) buffer) in
        if negb (th_return_error2 th =? BR_OK) then
          emit [th_return_error2 th] ptr buffer consumed (fun buffer =>
            if ptr + 4 =? size then read_done (ptr + 4) buffer
            else
              upd_thread thread (set_th_return_error2 BR_OK);;
              second (ptr + 4) buffer)
        else second ptr buffer
      else
        upd_thread thread (fun th =>
          set_th_looper (Z.lor (th_looper th) BINDER_LOOPER_STATE_WAITING) th);;
        when wait_for_proc_work
          (upd_proc proc (fun p =>
             set_p_ready_threads (int32 (p_ready_threads p + 1)) p));;
        condition ←
          (if wait_for_proc_work then
             th ← get_thread thread;
             when (negb (looper_registered_or_entered (th_looper th)))
               (binder_user_error;;
                s ← get_state;
                (* the thread stays in [binder_user_error_wait] *)
                if 2 <=? binder_stop_on_user_error s then spin else mret tt);;
             binder_has_proc_work
           else binder_has_thread_work);
        match wait_event condition with
        | None => mret (read_sleeping ptr buffer wait_for_proc_work)
        | Some ret =>
            read_woken wait_for_proc_work;;
            if negb (ret =? 0) then mret (read_returned ret consumed buffer)
            else read_from fuel false ptr buffer wait_for_proc_work
        end
    else
      s ← get_state;
      th ← get_thread thread;
      let next :=
        match list_of s (thread_todo thread) with
        | w :: _ => Some w
        | [] =>
            match list_of s (proc_todo proc) with
            | w :: _ => if wait_for_proc_work then Some w else None
            | [] => None
            end
        end in
      match next with
      | None =>
          if (ptr =? 4) &&
             negb (has_flag (th_looper th) BINDER_LOOPER_STATE_NEED_RETURN)
          then read_from fuel true ptr buffer wait_for_proc_work
          else read_done ptr buffer
      | Some w =>
          if size_t (size - ptr) <? sizeof_binder_transaction_data + 4 then
            read_done ptr buffer
          else
            match w with
            | work_tcomplete c =>
                emit [BR_TRANSACTION_COMPLETE] ptr buffer consumed (fun buffer =>
                  list_del w;;
                  kfree_tcomplete c;;
                  read_from fuel false (ptr + 4) buffer wait_for_proc_work)
            | work_of_node node =>
                n ← get_node node;
                let '(cmd, n') := node_command n in
                upd_node node (fun _ => n');;
                if negb (cmd =? BR_NOOP) then
                  emit [cmd; n_ptr n; n_cookie n] ptr buffer consumed (fun buffer =>
                    read_from fuel false (ptr + 12) buffer wait_for_proc_work)
                else
                  list_del_init w;;
                  when (bool_decide (n_refs n = []) &&
                        (n_local_weak_refs n =? 0) &&
                        (n_internal_strong_refs n =? 0) &&
                        (n_local_strong_refs n =? 0))
                    (upd_proc proc (fun p =>
                       set_p_nodes (remove_Z node (p_nodes p)) p);;
                     modify (fun s => set_nodes (delete node (nodes s)) s));;
                  read_from fuel false ptr buffer wait_for_proc_work
            | work_of_death death =>
                d ← get_death death;
                match d_work_type d with
                | Some BINDER_WORK_CLEAR_DEATH_NOTIFICATION =>
                    emit [BR_CLEAR_DEATH_NOTIFICATION_DONE; d_cookie d] ptr buffer
                      consumed (fun buffer =>
                        list_del w;;
                        kfree_death death;;
                        read_from fuel false (ptr + 8) buffer wait_for_proc_work)
                | Some BINDER_WORK_DEAD_BINDER
                | Some BINDER_WORK_DEAD_BINDER_AND_CLEAR =>
                    emit [BR_DEAD_BINDER; d_cookie d] ptr buffer consumed
                      (fun buffer =>
                        list_move w (proc_delivered_death proc);;
                        read_done (ptr + 8) buffer)
                | _ =>
                    (* no case of the switch applies *)
                    read_from fuel false ptr buffer wait_for_proc_work
                end
            | work_of_transaction t =>
                x ← get_transaction t;
                M_BUG_ON (bool_decide (t_buffer x = None));;
                buf ← deref (t_buffer x);
                b ← get_buffer buf;
                '(cmd, target_ptr, cookie) ←
                  match b_target_node b with
                  | Some node =>
                      n ← get_node node; mret (BR_TRANSACTION, n_ptr n, n_cookie n)
                  | None => mret (BR_REPLY, 0, 0)
                  end;
                sender_pid ←
                  match t_from x with
                  | Some from =>
                      sender ← get_thread from;
                      sp ← get_proc (th_proc sender);
                      mret (p_pid sp)
                  | None => mret 0
                  end;
                p ← get_proc proc;
                let data := buffer_data (snd buf) + p_user_buffer_offset p in
                emit [cmd; target_ptr; cookie; t_code x; t_flags x; sender_pid;
                      t_sender_euid x; b_data_size b; b_offsets_size b; data;
                      data + ALIGN (b_data_size b) sizeof_ptr]
                  ptr buffer consumed (fun buffer =>
                    list_del w;;
                    upd_buffer buf (set_b_allow_user_free true);;
                    (if (cmd =? BR_TRANSACTION) &&
                        negb (has_flag (t_flags x) TF_ONE_WAY) then
                       upd_transaction t
                         (set_t_delivered (th_transaction_stack th) (Some thread));;
                       upd_thread thread (set_th_transaction_stack (Some t))
                     else
                       upd_buffer buf (set_b_transaction None);;
                       kfree_transaction t);;
                    read_done (ptr + 4 + sizeof_binder_transaction_data) buffer)
            end
      end
  end.

(** [buffer] is the read buffer of the caller as it stands, [consumed] the
    value of [*consumed] on entry. *)
Definition binder_thread_read (fuel : nat) (buffer : list Z) : M read_result :=
  if consumed =? 0 then
    emit [BR_NOOP] consumed buffer consumed (fun buffer =>
      read_from fuel true (consumed + 4) buffer false)
  else read_from fuel true consumed buffer false.

(** A sleeping call goes on from the second [mutex_lock] once it is woken;
    [ret] is what [wait_event] then returns. *)
Definition binder_thread_read_resume (fuel : nat) (ret : Z) (ptr : Z)
    (buffer : list Z) (wait_for_proc_work : bool) : M read_result :=
  read_woken wait_for_proc_work;;
  if negb (ret =? 0) then mret (read_returned ret consumed buffer)
  else read_from fuel false ptr buffer wait_for_proc_work.

End read.

(** ** Threads and processes *)

(** [binder_release_work]: one turn of the loop per unit of fuel. *)
Fixpoint release_work_loop (fuel : nat) (l : list_head) : M unit :=
  s ← get_state;
  match list_of s l with
  | [] => mret tt
  | w :: _ =>
      match fuel with
      | O => spin
      | S fuel =>
          list_del_init w;;
          match w with
          | work_of_transaction t =>
              x ← get_transaction t;
              buf ← deref (t_buffer x);
              b ← get_buffer buf;
              when (bool_decide (b_target_node b <> None) &&
                    negb (has_flag (t_flags x) TF_ONE_WAY))
                (binder_send_failed_reply t BR_DEAD_REPLY)
          | work_tcomplete c => kfree_tcomplete c
          | _ => mret tt
          end;;
          release_work_loop fuel l
      end
  end.

Definition binder_release_work (l : list_head) : M unit :=
  s ← get_state; release_work_loop (length (list_of s l)) l.

Fixpoint find_thread (pid : Z) (l : list Z) : M (option Z) :=
  match l with
  | [] => mret None
  | t :: rest =>
      th ← get_thread t;
      if th_pid th =? pid then mret (Some t) else find_thread pid rest
  end.

Definition thread_pid_of (s : binder_state) (t : Z) : Z :=
  match threads s !! t with Some x => th_pid x | None => 0 end.

(** [pid] is [current->pid]. *)
Definition binder_get_thread (proc : Z) (pid : Z) : M (option Z) :=
  p ← get_proc proc;
  found ← find_thread pid (p_threads p);
  match found with
  | Some thread => mret (Some thread)
  | None =>
      a ← kzalloc;
      match a with
      | None => mret None
      | Some thread =>
          modify (fun s => set_threads
            (<[thread := mk_binder_thread proc pid BINDER_LOOPER_STATE_NEED_RETURN
                           None BR_OK BR_OK]> (threads s)) s);;
          s ← get_state;
          upd_proc proc (fun p => set_p_threads
            (insert_by_key (thread_pid_of s) thread (p_threads p)) p);;
          mret (Some thread)
      end
  end.

(** The [while (t)] loop of [binder_free_thread]. *)
Fixpoint free_thread_loop (fuel : nat) (thread : Z) (t : option Z)
    (active_transactions : Z) : M Z :=
  match t with
  | None => mret active_transactions
  | Some t =>
      match fuel with
      | O => spin
      | S fuel =>
          x ← get_transaction t;
          if bool_decide (t_to_thread x = Some thread) then
            upd_transaction t (set_t_to None None);;
            match t_buffer x with
            | Some buf =>
                upd_buffer buf (set_b_transaction None);;
                upd_transaction t (set_t_buffer None)
            | None => mret tt
            end;;
            free_thread_loop fuel thread (t_to_parent x)
              (int32 (active_transactions + 1))
          else if bool_decide (t_from x = Some thread) then
            upd_transaction t (set_t_from None);;
            free_thread_loop fuel thread (t_from_parent x)
              (int32 (active_transactions + 1))
          else BUG
      end
  end.

Definition binder_free_thread (proc thread : Z) : M Z :=
  upd_proc proc (fun p => set_p_threads (remove_Z thread (p_threads p)) p);;
  th ← get_thread thread;
  send_reply ←
    match th_transaction_stack th with
    | Some t =>
        x ← get_transaction t;
        mret (if bool_decide (t_to_thread x = Some thread) then Some t else None)
    | None => mret None
    end;
  s ← get_state;
  active_transactions ←
    free_thread_loop (S (size (transactions s))) thread (th_transaction_stack th) 0;
  match send_reply with
  | Some t => binder_send_failed_reply t BR_DEAD_REPLY
  | None => mret tt
  end;;
  binder_release_work (thread_todo thread);;
  modify (fun s => set_threads (delete thread (threads s)) s);;
  mret active_transactions.

(** [binder_open]: [pid] is [current->group_leader->pid], [euid] the
    effective user of the task, [nice] its priority, [rlim_nofile] its limit
    of open files. *)
Definition binder_open (pid euid nice rlim_nofile : Z) : M (option Z) :=
  a ← kzalloc;
  match a with
  | None => mret None
  | Some proc =>
      modify (fun s => set_procs
        (<[proc := mk_binder_proc pid euid None rlim_nofile 0 None false 0 []
                     rb_nil rb_nil 0 [] 0 0 0 0 nice [] [] [] 0]> (procs s)) s);;
      modify (fun s => set_binder_procs (proc :: binder_procs s) s);;
      mret (Some proc)
  end.

(** [binder_mmap] on a process of the state; [files] is the table of open
    files of the calling task. *)
Definition mmap (proc : Z) (vm_start vm_end : Z) (forbidden_flags : bool)
    (area : option Z) (files : files_struct) : M mmap_result :=
  pages_ok ← pages_available;
  r ← in_proc proc (fun p => binder_mmap p vm_start vm_end forbidden_flags area pages_ok);
  match r with
  | mmap_ok => upd_proc proc (set_p_files (Some files));; mret r
  | _ => mret r
  end.

(** [binder_vma_close], with the deferred BINDER_DEFERRED_PUT_FILES done at
    once. *)
Definition binder_vma_close (proc : Z) : M unit :=
  upd_proc proc (set_p_vma false);;
  upd_proc proc (set_p_files None).

Fixpoint deferred_flush_threads (proc : Z) (l : list Z) : M unit :=
  match l with
  | [] => mret tt
  | thread :: rest =>
      upd_thread thread (fun th =>
        set_th_looper (Z.lor (th_looper th) BINDER_LOOPER_STATE_NEED_RETURN) th);;
      th ← get_thread thread;
      when (has_flag (th_looper th) BINDER_LOOPER_STATE_WAITING)
        (wake_up_interruptible (thread_wait thread));;
      deferred_flush_threads proc rest
  end.

Definition binder_deferred_flush (proc : Z) : M unit :=
  p ← get_proc proc;
  deferred_flush_threads proc (p_threads p);;
  wake_up_interruptible (proc_wait proc).

(** The loops of [binder_deferred_release] take the first entry of a tree
    until the tree is empty. *)
Fixpoint release_threads (fuel : nat) (proc : Z) : M unit :=
  p ← get_proc proc;
  match p_threads p with
  | [] => mret tt
  | thread :: _ =>
      match fuel with
      | O => spin
      | S fuel => binder_free_thread proc thread;; release_threads fuel proc
      end
  end.

(** [hlist_for_each_entry] over [node->refs] of a node that just died. *)
Fixpoint notify_death (l : list Z) : M unit :=
  match l with
  | [] => mret tt
  | ref :: rest =>
      r ← get_ref ref;
      match r_death r with
      | Some death =>
          unlinked ← entry_unlinked (work_of_death death);
          if (unlinked : bool) then
            upd_death death (set_d_work_type (Some BINDER_WORK_DEAD_BINDER));;
            list_add_tail (work_of_death death) (proc_todo (r_proc r));;
            wake_up_interruptible (proc_wait (r_proc r))
          else BUG
      | None => mret tt
      end;;
      notify_death rest
  end.

Fixpoint release_nodes (fuel : nat) (proc : Z) : M unit :=
  p ← get_proc proc;
  match p_nodes p with
  | [] => mret tt
  | node :: _ =>
      match fuel with
      | O => spin
      | S fuel =>
          upd_proc proc (fun p => set_p_nodes (remove_Z node (p_nodes p)) p);;
          list_del_init (work_of_node node);;
          n ← get_node node;
          (if bool_decide (n_refs n = []) then
             modify (fun s => set_nodes (delete node (nodes s)) s)
           else
             upd_node node set_n_orphan;;
             modify (fun s => set_binder_dead_nodes (node :: binder_dead_nodes s) s);;
             notify_death (n_refs n));;
          release_nodes fuel proc
      end
  end.

Fixpoint release_refs (fuel : nat) (proc : Z) : M unit :=
  p ← get_proc proc;
  match p_refs_by_desc p with
  | [] => mret tt
  | ref :: _ =>
      match fuel with
      | O => spin
      | S fuel => binder_delete_ref ref;; release_refs fuel proc
      end
  end.

Fixpoint release_buffers (fuel : nat) (proc : Z) : M unit :=
  p ← get_proc proc;
  match rb_inorder (p_allocated_buffers p) with
  | [] => mret tt
  | a :: _ =>
      match fuel with
      | O => spin
      | S fuel =>
          b ← get_buffer (proc, a);
          match b_transaction b with
          | Some t =>
              upd_transaction t (set_t_buffer None);;
              upd_buffer (proc, a) (set_b_transaction None)
          | None => mret tt
          end;;
          free_buf (proc, a);;
          release_buffers fuel proc
      end
  end.

Definition binder_deferred_release (proc : Z) : M unit :=
  p ← get_proc proc;
  M_BUG_ON (p_vma p);;
  M_BUG_ON (bool_decide (p_files p <> None));;
  modify (fun s => set_binder_procs (remove_Z proc (binder_procs s)) s);;
  s ← get_state;
  match binder_context_mgr_node s with
  | Some mgr =>
      n ← get_node mgr;
      when (bool_decide (n_proc n = Some proc))
        (modify (set_binder_context_mgr_node None))
  | None => mret tt
  end;;
  release_threads (length (p_threads p)) proc;;
  release_nodes (length (p_nodes p)) proc;;
  release_refs (length (p_refs_by_desc p)) proc;;
  binder_release_work (proc_todo proc);;
  release_buffers (length (rb_inorder (p_allocated_buffers p))) proc;;
  modify (fun s => set_procs (delete proc (procs s)) s).

(** ** binder_ioctl *)

Record binder_write_read := mk_binder_write_read {
  write_size : Z;
  write_consumed : Z;
  write_buffer : list bc_command;
  read_size : Z;
  read_consumed : Z;
  read_buffer : list Z
}.

Inductive ioctl_command :=
| BINDER_WRITE_READ (bwr : binder_write_read)
| BINDER_SET_MAX_THREADS (max_threads : Z)
| BINDER_SET_CONTEXT_MGR
| BINDER_THREAD_EXIT
| BINDER_VERSION
| ioctl_unknown.

(** How a call ends: with a return value and, for BINDER_WRITE_READ, the
    structure copied back, or asleep inside [binder_thread_read]. *)
Inductive ioctl_result :=
| ioctl_returned (ret : Z) (bwr : option binder_write_read)
| ioctl_sleeping (bwr : binder_write_read) (ptr : Z) (wait_for_proc_work : bool).

(** The code at the label [err]. *)
Definition ioctl_leave (thread : option Z) : M unit :=
  match thread with
  | Some thread =>
      upd_thread thread (fun th =>
        set_th_looper
          (Z.land (th_looper th) (Z.lnot BINDER_LOOPER_STATE_NEED_RETURN)) th)
  | None => mret tt
  end.

(** What follows [binder_thread_read] in BINDER_WRITE_READ. *)
Definition ioctl_after_read (proc thread : Z) (bwr : binder_write_read)
    (r : read_result) : M ioctl_result :=
  match r with
  | read_sleeping ptr buffer wait_for_proc_work =>
      mret (ioctl_sleeping
              (mk_binder_write_read (write_size bwr) (write_consumed bwr)
                 (write_buffer bwr) (read_size bwr) (read_consumed bwr) buffer)
              ptr wait_for_proc_work)
  | read_returned ret consumed buffer =>
      empty ← list_empty (proc_todo proc);
      when (negb empty) (wake_up_interruptible (proc_wait proc));;
      ioctl_leave (Some thread);;
      mret (ioctl_returned (if ret <? 0 then ret else 0)
              (Some (mk_binder_write_read (write_size bwr) (write_consumed bwr)
                       (write_buffer bwr) (read_size bwr) consumed buffer)))
  end.

(** [pid] and [euid] are those of [current]; [return_error] is what the
    uninitialised local of [binder_transaction] holds. *)
Definition binder_ioctl (proc : Z) (pid euid : Z) (cmd : ioctl_command)
    (fuel : nat) (non_block signal_pending : bool) (return_error : Z)
    : M ioctl_result :=
  s ← get_state;
  (if 2 <=? binder_stop_on_user_error s then spin else mret tt);;
  found ← binder_get_thread proc pid;
  match found with
  | None => mret (ioctl_returned (- ENOMEM) None)
  | Some thread =>
      match cmd with
      | BINDER_WRITE_READ bwr =>
          '(ret, bwr) ←
            (if 0 <? write_size bwr then
               '(ret, consumed) ←
                 binder_thread_write proc thread (write_buffer bwr) (write_size bwr)
                   (write_consumed bwr) return_error;
               mret (ret, mk_binder_write_read (write_size bwr) consumed
                            (write_buffer bwr) (read_size bwr) (read_consumed bwr)
                            (read_buffer bwr))
             else mret (0, bwr));
          if ret <? 0 then
            ioctl_leave (Some thread);;
            mret (ioctl_returned ret
                    (Some (mk_binder_write_read (write_size bwr) (write_consumed bwr)
                             (write_buffer bwr) (read_size bwr) 0 (read_buffer bwr))))
          else if 0 <? read_size bwr then
            r ← binder_thread_read proc thread (read_size bwr) (read_consumed bwr)
                  non_block signal_pending fuel (read_buffer bwr);
            ioctl_after_read proc thread bwr r
          else
            ioctl_leave (Some thread);;
            mret (ioctl_returned 0 (Some bwr))
      | BINDER_SET_MAX_THREADS max_threads =>
          upd_proc proc (set_p_max_threads max_threads);;
          ioctl_leave (Some thread);;
          mret (ioctl_returned 0 None)
      | BINDER_SET_CONTEXT_MGR =>
          if bool_decide (binder_context_mgr_node s <> None) then
            ioctl_leave (Some thread);; mret (ioctl_returned (- EBUSY) None)
          else if bool_decide (binder_context_mgr_uid s <> None) &&
                  bool_decide (binder_context_mgr_uid s <> Some euid) then
            ioctl_leave (Some thread);; mret (ioctl_returned (- EPERM) None)
          else
            modify (fun s => set_context_mgr (binder_context_mgr_node s) (Some euid) s);;
            node ← binder_new_node proc 0 0;
            modify (fun s => set_context_mgr node (binder_context_mgr_uid s) s);;
            match node with
            | None => ioctl_leave (Some thread);; mret (ioctl_returned (- ENOMEM) None)
            | Some mgr =>
                upd_node mgr (fun n =>
                  set_n_has_weak_ref true
                    (set_n_has_strong_ref true
                       (set_n_local_strong_refs (int32 (n_local_strong_refs n + 1))
                          (set_n_local_weak_refs (int32 (n_local_weak_refs n + 1)) n))));;
                ioctl_leave (Some thread);;
                mret (ioctl_returned 0 None)
            end
      | BINDER_THREAD_EXIT =>
          binder_free_thread proc thread;;
          ioctl_leave None;;
          mret (ioctl_returned 0 None)
      | BINDER_VERSION =>
          ioctl_leave (Some thread);; mret (ioctl_returned 0 None)
      | ioctl_unknown =>
          ioctl_leave (Some thread);; mret (ioctl_returned (- EINVAL) None)
      end
  end.

End driver.

(** * What the theorems say about a state *)

(** The counts of every reference are those of a C [int] that is not
    negative. *)
Definition ref_counts_ok (s : binder_state) : Prop :=
  forall ref r, refs s !! ref = Some r ->
    0 <= r_strong r < 2 ^ 31 /\ 0 <= r_weak r < 2 ^ 31.

(** The state [binder_user_error] leaves. *)
Definition after_user_error (s : binder_state) : binder_state :=
  set_user_error (if binder_stop_on_user_error s =? 0 then 0 else 2)
    (S (user_errors s)) s.

(** Relations between the state before and after a piece of code.  A
    function keeps a relation if every run of it that returns does. *)

Definition preserves {A} (R : binder_state -> binder_state -> Prop) (m : M A) : Prop :=
  forall s a s', m s = Ok (a, s') -> R s s'.

(** No reference is created or changed. *)
Definition refs_shrink (s s' : binder_state) : Prop :=
  forall ref r, refs s' !! ref = Some r -> refs s !! ref = Some r.

(** ** Small concrete states *)

Definition empty_state : binder_state :=
  mk_binder_state ∅ ∅ ∅ ∅ ∅ ∅ ∅ ∅ ∅ [] None None [] [] 0 0 0 0x1000 [] [].

(** A process (at 0x100, with one thread at 0x200) that holds a weak
    reference, descriptor 1, to a node of another process (at 0x101). *)
Definition witness_refs : binder_state :=
  let node := mk_binder_node 1 (Some 0x101) [0x400] 0 0 0 false false false false
                7 8 false false 0 in
  let ref := mk_binder_ref 2 0x300 1 0x100 0 1 None in
  let holder := set_p_refs_by_node [0x400]
                  (set_p_refs_by_desc [0x400] (binder_open_proc 1)) in
  let owner := set_p_nodes [0x300] (binder_open_proc 2) in
  let thread := mk_binder_thread 0x100 1 BINDER_LOOPER_STATE_ENTERED None BR_OK BR_OK in
  set_procs (<[0x100 := holder]> (<[0x101 := owner]> ∅))
    (set_threads (<[0x200 := thread]> ∅)
       (set_nodes (<[0x300 := node]> ∅)
          (set_refs (<[0x400 := ref]> ∅) empty_state))).

(** A process (at 0x100) that was asked for one more looper, and its thread
    (at 0x200), which has not yet said what kind of looper it is. *)
Definition witness_looper : binder_state :=
  let proc := set_p_requested_threads 1
                (set_p_max_threads 4 (set_p_threads [0x200] (binder_open_proc 1))) in
  let thread := mk_binder_thread 0x100 1 0 None BR_OK BR_OK in
  set_procs (<[0x100 := proc]> ∅) (set_threads (<[0x200 := thread]> ∅) empty_state).

(** ** The request for a new looper *)

(** The test at the label [done] of [binder_thread_read]. *)
Definition spawn_condition (p : binder_proc) (th : binder_thread) : bool :=
  (int32 (p_requested_threads p + p_ready_threads p) =? 0) &&
  (p_requested_threads_started p <? p_max_threads p) &&
  looper_registered_or_entered (th_looper th).

(** The rule in the words of the specification, for one call that returns:
    BR_SPAWN_LOOPER is in the read buffer and [requested_threads] has grown
    by one exactly when, at the end of the read, no thread is requested or
    parked and fewer than [max_threads] were started. *)
Definition spawn_rule_as_specified `{layout} (proc thread size consumed : Z)
    (non_block signal_pending : bool) (fuel : nat) (buffer : list Z)
    (s : binder_state) : Prop :=
  forall ret consumed' buffer' s' p p',
    binder_thread_read proc thread size consumed non_block signal_pending fuel buffer s
      = Ok (read_returned ret consumed' buffer', s') ->
    procs s !! proc = Some p -> procs s' !! proc = Some p' ->
    (p_requested_threads p + p_ready_threads p' = 0 /\
     p_requested_threads_started p' < p_max_threads p') <->
    (buffer' !! 0%nat = Some BR_SPAWN_LOOPER /\
     p_requested_threads p' = p_requested_threads p + 1).

(** [requested_threads] of a process is the same in both states. *)
Definition same_requested (proc : Z) (s s' : binder_state) : Prop :=
  p_requested_threads <$> procs s' !! proc = p_requested_threads <$> procs s !! proc.

(** How a call of [binder_thread_read] that began in [s0] can end in [s']
    with [res]: without a change of [requested_threads], or through the code
    at [done], entered in a state [sd] with [requested_threads] as in [s0]. *)
Definition read_outcome `{layout} (proc thread : Z) (s0 : binder_state)
    (res : read_result) (s' : binder_state) : Prop :=
  same_requested proc s0 s' \/
  exists sd ptr buffer,
    same_requested proc s0 sd /\
    read_done proc thread ptr buffer sd = Ok (res, s').

(** Code that ends a read in one of the two ways of [read_outcome], from any
    state that has [requested_threads] as [s0] has. *)
Definition ends_read `{layout} (proc thread : Z) (s0 : binder_state)
    (m : M read_result) : Prop :=
  forall s res s', same_requested proc s0 s -> m s = Ok (res, s') ->
    read_outcome proc thread s0 res s'.

(** A process (at 0x100) that may start four loopers, and a thread of it (at
    0x200) that has entered its first ioctl and is no looper yet. *)
Definition witness_no_looper : binder_state :=
  let proc := set_p_max_threads 4 (set_p_threads [0x200] (binder_open_proc 1)) in
  let thread := mk_binder_thread 0x100 1 BINDER_LOOPER_STATE_NEED_RETURN None
                  BR_OK BR_OK in
  set_procs (<[0x100 := proc]> ∅) (set_threads (<[0x200 := thread]> ∅) empty_state).

(** The same, with the thread entered as a looper. *)
Definition witness_entered : binder_state :=
  let proc := set_p_max_threads 4 (set_p_threads [0x200] (binder_open_proc 1)) in
  let thread := mk_binder_thread 0x100 1
                  (Z.lor BINDER_LOOPER_STATE_ENTERED BINDER_LOOPER_STATE_NEED_RETURN)
                  None BR_OK BR_OK in
  set_procs (<[0x100 := proc]> ∅) (set_threads (<[0x200 := thread]> ∅) empty_state).

(** ** Descriptors of references *)

Definition state_after {A} (m : M A) (s : binder_state) : binder_state :=
  match m s with
  | Ok (_, s') => s'
  | _ => s
  end.

(** The descriptors a process has in use. *)
Definition descs_in_use (s : binder_state) (proc : Z) : list Z :=
  match procs s !! proc with
  | Some p => map (ref_desc_of s) (p_refs_by_desc p)
  | None => []
  end.

(** The descriptor of a new reference in the words of the specification. *)
Definition descriptor_as_specified (s : binder_state) (proc node desc : Z) : Prop :=
  if bool_decide (Some node = binder_context_mgr_node s) then desc = 0
  else 0 < desc /\ ~ In desc (descs_in_use s proc) /\
       forall d, 0 < d < desc -> In d (descs_in_use s proc).

Definition new_ref_rule_as_specified (s : binder_state) (proc node : Z) : Prop :=
  forall ref s' r,
    binder_get_ref_for_node proc node s = Ok (Some ref, s') ->
    refs s !! ref = None -> refs s' !! ref = Some r ->
    descriptor_as_specified s proc node (r_desc r).

(** The descriptor the scan of [binder_get_ref_for_node] arrives at: the
    least one not in use from 0 on for the context manager, from 1 on for
    any other node. *)
Definition descriptor_as_coded (s : binder_state) (proc node desc : Z) : Prop :=
  let start := if bool_decide (Some node = binder_context_mgr_node s) then 0 else 1 in
  start <= desc /\ ~ In desc (descs_in_use s proc) /\
  forall d, start <= d < desc -> In d (descs_in_use s proc).

(** [refs_by_desc] of a process is a search tree: its references exist and
    their descriptors, 32-bit numbers below the largest, grow strictly. *)
Fixpoint descs_sorted (s : binder_state) (from : Z) (l : list Z) : Prop :=
  match l with
  | [] => True
  | ref :: rest =>
      exists r, refs s !! ref = Some r /\ from <= r_desc r < 2 ^ 32 - 1 /\
                descs_sorted s (r_desc r + 1) rest
  end.

(** Between [s] and [s'] no address was handed out twice, and every
    reference of [s'] at an address handed out before [s] was there in [s]
    with the descriptor it has. *)
Definition refs_keep_desc (s s' : binder_state) : Prop :=
  next_ptr s <= next_ptr s' /\
  forall ref r', refs s' !! ref = Some r' -> ref < next_ptr s ->
    exists r, refs s !! ref = Some r /\ r_desc r = r_desc r'.

(** One process (at 0x1000) took a reference to the context manager, which
    then died; another process (at 0x1006) became the context manager. *)
Definition witness_second_manager : binder_state :=
  Eval vm_compute in
  let acquire := BINDER_WRITE_READ (mk_binder_write_read 8 0 [BC_ACQUIRE 0] 0 0 []) in
  let s := state_after (binder_open 1 0 0 1024) empty_state in
  let s := state_after (binder_open 2 0 0 1024) s in
  let s := state_after (@binder_ioctl ilp32_layout 0x1001 2 0 BINDER_SET_CONTEXT_MGR
                          0 true false 0) s in
  let s := state_after (@binder_ioctl ilp32_layout 0x1000 1 0 acquire 0 true false 0) s in
  let s := state_after (@binder_deferred_release ilp32_layout 0x1001) s in
  let s := state_after (binder_open 3 0 0 1024) s in
  state_after (@binder_ioctl ilp32_layout 0x1006 3 0 BINDER_SET_CONTEXT_MGR
                 0 true false 0) s.

(** ** The entry points of the driver *)

Inductive driver_step `{layout} (s s' : binder_state) : Prop :=
| step_open pid euid nice rlim proc :
    binder_open pid euid nice rlim s = Ok (proc, s') -> driver_step s s'
| step_mmap proc vm_start vm_end flags area files r :
    mmap proc vm_start vm_end flags area files s = Ok (r, s') -> driver_step s s'
| step_vma_close proc u :
    binder_vma_close proc s = Ok (u, s') -> driver_step s s'
| step_ioctl proc pid euid cmd fuel non_block signal_pending return_error r :
    binder_ioctl proc pid euid cmd fuel non_block signal_pending return_error s
      = Ok (r, s') ->
    driver_step s s'
| step_read_resume proc thread size consumed non_block signal_pending fuel ret ptr
    buffer wait r :
    binder_thread_read_resume proc thread size consumed non_block signal_pending fuel
      ret ptr buffer wait s = Ok (r, s') ->
    driver_step s s'
| step_flush proc u :
    binder_deferred_flush proc s = Ok (u, s') -> driver_step s s'
| step_release proc u :
    binder_deferred_release proc s = Ok (u, s') -> driver_step s s'.

(** ** Target resolution *)

(** The node a call is addressed to: the node of the reference with the
    descriptor [target.handle], or the context manager for handle 0. *)
Definition resolves_to (s : binder_state) (proc : Z) (tr : binder_transaction_data)
    (node : Z) : Prop :=
  (tr_target tr <> 0 /\
   exists ref r, binder_get_ref proc (tr_target tr) s = Ok (Some ref, s) /\
                 refs s !! ref = Some r /\ r_node r = node) \/
  (tr_target tr = 0 /\ binder_context_mgr_node s = Some node).

(** The first rule of the claim in the words of the specification: a call
    whose handle names no reference of the sender fails as an invalid
    handle. *)
Definition invalid_handle_rule_as_specified (s : binder_state) (proc thread : Z)
    (tr : binder_transaction_data) : Prop :=
  binder_get_ref proc (tr_target tr) s = Ok (None, s) ->
  exists e s',
    binder_transaction_target proc thread tr false s
      = Ok (inl (err_invalid_target_handle, e, None), s').

(** Two processes, at 0x1000 (with a thread at 0x1004) and at 0x1001, the
    second of which is the context manager (its node is at 0x1003). *)
Definition witness_manager : binder_state :=
  Eval vm_compute in
  let s := state_after (binder_open 1 0 0 1024) empty_state in
  let s := state_after (binder_open 2 0 0 1024) s in
  let s := state_after (@binder_ioctl ilp32_layout 0x1001 2 0 BINDER_SET_CONTEXT_MGR
                          0 true false 0) s in
  state_after (@binder_ioctl ilp32_layout 0x1000 1 0 BINDER_VERSION 0 true false 0) s.

Definition call_to (handle : Z) : binder_transaction_data :=
  mk_binder_transaction_data handle 0 0 0 0 (Some []) (Some []).

(** ** Transactions that fail while their objects are translated *)

Definition no_files : files_struct := mk_files_struct ∅ ∅ ∅ 64 0.

(** A [flat_binder_object] for a local object. *)
Definition binder_object (ptr cookie : Z) : list Z :=
  [BINDER_TYPE_BINDER; 0; ptr; cookie].

Definition send (tr : binder_transaction_data) : ioctl_command :=
  BINDER_WRITE_READ (mk_binder_write_read 44 0 [BC_TRANSACTION tr] 0 0 []).

(** A sender (process at 0x1000, thread at 0x1004) and the context manager
    (process at 0x1001), whose arena is mapped. *)
Definition witness_sender : binder_state :=
  Eval vm_compute in
  let s := state_after (binder_open 1 0 0 1024) empty_state in
  let s := state_after (binder_open 2 0 0 1024) s in
  let s := state_after (@mmap ilp32_layout 0x1001 0x40000000 0x40002000 false
                          (Some 0xc0000000) no_files) s in
  let s := state_after (@binder_ioctl ilp32_layout 0x1001 2 0 BINDER_SET_CONTEXT_MGR
                          0 true false 0) s in
  state_after (@binder_ioctl ilp32_layout 0x1000 1 0 BINDER_VERSION 0 true false 0) s.

(** A call to the context manager that passes the same local object twice,
    the second time with another cookie. *)
Definition send_bad_cookie : binder_transaction_data :=
  mk_binder_transaction_data 0 1 0 32 8
    (Some (binder_object 500 600 ++ binder_object 500 601)) (Some [0; 16]).

(** Three processes: the context manager at 0x1000 (thread at 0x1003), which
    holds descriptor 1 for a node of the process at 0x1002 and descriptor 2
    for a node of the process at 0x1001. *)
Definition witness_three : binder_state :=
  Eval vm_compute in
  let pass ptr := mk_binder_transaction_data 0 1 TF_ONE_WAY 16 4
                    (Some (binder_object ptr (ptr + 1))) (Some [0]) in
  let s := state_after (binder_open 1 0 0 1024) empty_state in
  let s := state_after (binder_open 2 0 0 1024) s in
  let s := state_after (binder_open 3 0 0 1024) s in
  let s := state_after (@mmap ilp32_layout 0x1000 0x40000000 0x40002000 false
                          (Some 0xc0000000) no_files) s in
  let s := state_after (@mmap ilp32_layout 0x1001 0x40000000 0x40002000 false
                          (Some 0xc0010000) no_files) s in
  let s := state_after (@binder_ioctl ilp32_layout 0x1000 1 0 BINDER_SET_CONTEXT_MGR
                          0 true false 0) s in
  let s := state_after (@binder_ioctl ilp32_layout 0x1002 3 0 (send (pass 700))
                          0 true false 0) s in
  state_after (@binder_ioctl ilp32_layout 0x1001 2 0 (send (pass 800)) 0 true false 0) s.

(** A one-way call to descriptor 2 with one object and three offsets: twice
    the offset of the object, then an offset outside the data. *)
Definition send_duplicate_offset : binder_transaction_data :=
  mk_binder_transaction_data 2 1 TF_ONE_WAY 16 12
    (Some (binder_object 500 600)) (Some [0; 0; 4]).

(** ** Death notifications *)

(** The lists a work item is read from, as opposed to
    [proc->delivered_death]. *)
Definition todo_list (l : list_head) : bool :=
  match l with
  | proc_delivered_death _ => false
  | _ => true
  end.

(** A BR_DEAD_BINDER for the notification [d] can still be read: the node
    has not died yet ([work.type] is still zero), or the notification is
    queued as dead binder on a list that is read. *)
Definition dead_binder_pending (s : binder_state) (d : Z) : Prop :=
  exists x, deaths s !! d = Some x /\
    (d_work_type x = None \/
     ((d_work_type x = Some BINDER_WORK_DEAD_BINDER \/
       d_work_type x = Some BINDER_WORK_DEAD_BINDER_AND_CLEAR) /\
      exists l, entries s !! work_of_death d = Some l /\ todo_list l = true)).

(** BR_DEAD_BINDER was read for [d] and waits for BC_DEAD_BINDER_DONE. *)
Definition dead_binder_delivered (s : binder_state) (d : Z) : Prop :=
  exists p, entries s !! work_of_death d = Some (proc_delivered_death p).

(** From [s] to [s'] no notification that existed in [s] becomes pending,
    and none is delivered that was not pending or delivered. *)
Definition death_progress (s s' : binder_state) : Prop :=
  next_ptr s <= next_ptr s' /\
  forall d, d < next_ptr s ->
    (dead_binder_pending s' d -> dead_binder_pending s d) /\
    (dead_binder_delivered s' d ->
     dead_binder_delivered s d \/ dead_binder_pending s d).

(** What the driver keeps true of notifications, references and nodes. *)
Record death_inv (s : binder_state) : Prop := mk_death_inv {
  (* addresses in use were handed out by [kzalloc] *)
  di_deaths_scope : forall d x, deaths s !! d = Some x -> d < next_ptr s;
  di_entries_scope : forall d l,
    entries s !! work_of_death d = Some l -> d < next_ptr s;
  di_refs_scope : forall ref r, refs s !! ref = Some r ->
    ref < next_ptr s /\ r_node r < next_ptr s /\
    forall d, r_death r = Some d -> d < next_ptr s;
  di_nodes_scope : forall node n, nodes s !! node = Some n ->
    node < next_ptr s /\ forall ref, In ref (n_refs n) -> ref < next_ptr s;
  di_procs_scope : forall proc p, procs s !! proc = Some p ->
    forall node, In node (p_nodes p) -> node < next_ptr s;
  (* a notification is on the list its entry says, once, and on no other *)
  di_lists : forall l d,
    count_occ binder_work_eq_dec (list_of s l) (work_of_death d) =
    if decide (entries s !! work_of_death d = Some l) then 1%nat else 0%nat;
  (* a notification belongs to one reference *)
  di_unique : forall r1 r2 x1 x2 d,
    refs s !! r1 = Some x1 -> refs s !! r2 = Some x2 ->
    r_death x1 = Some d -> r_death x2 = Some d -> r1 = r2;
  (* the notification of a reference has no type yet, or is a dead binder
     and the node has no process *)
  di_attached : forall ref r d x,
    refs s !! ref = Some r -> r_death r = Some d -> deaths s !! d = Some x ->
    d_work_type x = None \/
    (d_work_type x = Some BINDER_WORK_DEAD_BINDER /\
     forall n, nodes s !! r_node r = Some n -> n_proc n = None);
  (* the nodes in the tree of a process are its own, each once *)
  di_owner : forall proc p node n,
    procs s !! proc = Some p -> In node (p_nodes p) ->
    nodes s !! node = Some n -> n_proc n = Some proc;
  di_nodup : forall proc p, procs s !! proc = Some p -> NoDup (p_nodes p);
  (* the references listed in a node point to it *)
  di_back : forall node n ref r,
    nodes s !! node = Some n -> In ref (n_refs n) -> refs s !! ref = Some r ->
    r_node r = node
}.

(** What every entry point keeps: the invariant, and with it the order of
    events of a notification. *)
Definition keeps_deaths (s s' : binder_state) : Prop :=
  death_inv s -> death_inv s' /\ death_progress s s'.

(** The work item the loop of [binder_thread_read] takes next: the first of
    the thread, else the first of the process if the thread waits for
    process work. *)
Definition read_takes (s : binder_state) (proc thread : Z)
    (wait_for_proc_work : bool) (w : binder_work) : Prop :=
  match list_of s (thread_todo thread) with
  | w' :: _ => w' = w
  | [] =>
      wait_for_proc_work = true /\
      match list_of s (proc_todo proc) with
      | w' :: _ => w' = w
      | [] => False
      end
  end.

(** A process (at 0x1000, thread at 0x1004) asked for the death of the
    context manager with cookie 77, through its reference 0x1005; the manager
    (process 0x1001) was released, and the notification (at 0x1006) waits on
    the list of the process. *)
Definition witness_dead_binder : binder_state :=
  Eval vm_compute in
  let subscribe :=
    BINDER_WRITE_READ
      (mk_binder_write_read 20 0
         [BC_ACQUIRE 0; BC_REQUEST_DEATH_NOTIFICATION 0 77] 0 0 []) in
  let s := state_after (binder_open 1 0 0 1024) empty_state in
  let s := state_after (binder_open 2 0 0 1024) s in
  let s := state_after (@binder_ioctl ilp32_layout 0x1001 2 0 BINDER_SET_CONTEXT_MGR
                          0 true false 0) s in
  let s := state_after (@binder_ioctl ilp32_layout 0x1000 1 0 subscribe 0 true false 0) s in
  state_after (@binder_deferred_release ilp32_layout 0x1001) s.

(** The process has read the notification: it is on [delivered_death]. *)
Definition witness_delivered : binder_state :=
  Eval vm_compute in
  let read := BINDER_WRITE_READ (mk_binder_write_read 0 0 [] 64 0 (repeat 0 16)) in
  state_after (@binder_ioctl ilp32_layout 0x1000 1 0 read 5 true false 0)
    witness_dead_binder.

(** It has acknowledged it with BC_DEAD_BINDER_DONE. *)
Definition witness_acknowledged : binder_state :=
  Eval vm_compute in
  let done := BINDER_WRITE_READ
                (mk_binder_write_read 8 0 [BC_DEAD_BINDER_DONE 77] 0 0 []) in
  state_after (@binder_ioctl ilp32_layout 0x1000 1 0 done 5 true false 0)
    witness_delivered.

(** * Further properties of the driver: vocabulary *)

(** ** File descriptor tables *)

(** The table of open files of a process, if it has one. *)
Definition files_of (s : binder_state) (proc : Z) : option files_struct :=
  procs s !! proc ≫= p_files.

(** What fs/file.c keeps of a table: descriptors are not negative, [next_fd]
    is a lower bound of the free ones, and a slot that holds a file is marked
    open. *)
Definition fd_table_ok (files : files_struct) : Prop :=
  0 <= next_fd files /\
  (forall j, j ∈ fdt_open_fds files -> 0 <= j) /\
  (forall j, 0 <= j < next_fd files -> j ∈ fdt_open_fds files) /\
  (forall j, is_Some (fdt_fd files !! j) -> j ∈ fdt_open_fds files).

(** A process at 0x100 with descriptors 0, 1 and 2 open (files 10, 11, 12),
    a table of 64 slots and a limit of 1024 open files. *)
Definition witness_files : binder_state :=
  let files := mk_files_struct (<[0 := 10]> (<[1 := 11]> (<[2 := 12]> ∅)))
                 {[0; 1; 2]} ∅ 64 3 in
  set_procs (<[0x100 := set_p_files (Some files) (binder_open_proc 1)]> ∅) empty_state.

(** ** The reference trees of a process *)

(** [refs_by_desc] is a search tree on the descriptors, and [refs_by_node]
    holds the same references. *)
Definition ref_tables_ok (s : binder_state) (p : binder_proc) : Prop :=
  descs_sorted s 0 (p_refs_by_desc p) /\
  forall ref, In ref (p_refs_by_node p) <-> In ref (p_refs_by_desc p).

(** ** The context manager *)

(** Neither [binder_context_mgr_uid] nor [binder_context_mgr_node] differ
    between [s] and [s']. *)
Definition mgr_same (s s' : binder_state) : Prop :=
  binder_context_mgr_uid s' = binder_context_mgr_uid s /\
  binder_context_mgr_node s' = binder_context_mgr_node s.

(** ** The write half of BINDER_WRITE_READ as a run of commands *)

Section write_spec.
Context `{layout}.
Variables (proc thread : Z) (size : Z) (return_error : Z).

(** The loop of [binder_thread_write] went through [cmds], from [*consumed =
    consumed] in state [s] to state [s']: before each command [ptr < end]
    and the thread had no error to report, and the command left the loop
    running. *)
Fixpoint commands_done (cmds : list bc_command) (consumed : Z)
    (s s' : binder_state) : Prop :=
  match cmds with
  | [] => s' = s
  | cmd :: rest =>
      consumed < size /\
      (exists th, threads s !! thread = Some th /\ th_return_error th = BR_OK) /\
      exists s1, binder_command proc thread cmd return_error s = Ok (None, s1) /\
                 commands_done rest (consumed + bc_size cmd) s1 s'
  end.

(** Bytes taken by a list of commands. *)
Definition bc_sizes (cmds : list bc_command) : Z :=
  fold_right (fun cmd n => bc_size cmd + n) 0 cmds.

End write_spec.

(** ** The read buffer *)

(** [buffer] is [buffer0] with nothing changed from byte [ptr] on. *)
Definition read_buffer_kept (buffer0 : list Z) (ptr : Z) (buffer : list Z) : Prop :=
  length buffer = length buffer0 /\
  forall i : nat, ptr <= 4 * Z.of_nat i -> buffer !! i = buffer0 !! i.

(** A read of a buffer of [size] bytes entered with [*consumed = consumed]
    ends inside the buffer: [*consumed] (or the place the sleeping call has
    reached) lies between [consumed] and [size], and a call that returns 0
    has written only below the [*consumed] it returns. *)
Definition read_within (size consumed : Z) (buffer0 : list Z) (res : read_result)
    : Prop :=
  match res with
  | read_returned ret c buffer =>
      consumed <= c <= size /\ length buffer = length buffer0 /\
      (ret = 0 -> read_buffer_kept buffer0 c buffer)
  | read_sleeping ptr buffer _ =>
      consumed <= ptr <= size /\ ptr mod 4 = 0 /\ 4 <= ptr /\
      read_buffer_kept buffer0 ptr buffer
  end.

(** Every result of the code lies inside the buffer. *)
Definition reads_within (size consumed : Z) (buffer0 : list Z) (m : M read_result)
    : Prop :=
  forall s res s', m s = Ok (res, s') -> read_within size consumed buffer0 res.

(** The place a read has reached: a multiple of four past the first word,
    between [consumed] and [size], the buffer unchanged from there on. *)
Definition read_pos (size consumed : Z) (buffer0 : list Z) (ptr : Z) (buffer : list Z)
    : Prop :=
  4 <= ptr <= size /\ consumed <= ptr /\ ptr mod 4 = 0 /\
  read_buffer_kept buffer0 ptr buffer.

(** A process (at 0x100) and its one thread (at 0x200), a looper with
    nothing to do. *)
Definition witness_looper_idle : binder_state :=
  let proc := set_p_threads [0x200] (binder_open_proc 1) in
  let thread := mk_binder_thread 0x100 1 BINDER_LOOPER_STATE_ENTERED None BR_OK BR_OK in
  set_procs (<[0x100 := proc]> ∅) (set_threads (<[0x200 := thread]> ∅) empty_state).

(** ** Flushing a process *)

(** [thread->looper |= BINDER_LOOPER_STATE_NEED_RETURN] *)
Definition need_return (th : binder_thread) : binder_thread :=
  set_th_looper (Z.lor (th_looper th) BINDER_LOOPER_STATE_NEED_RETURN) th.

(** Whether the thread at [t] sleeps in [binder_thread_read]. *)
Definition is_waiting (s : binder_state) (t : Z) : bool :=
  match threads s !! t with
  | Some th => has_flag (th_looper th) BINDER_LOOPER_STATE_WAITING
  | None => false
  end.

(** A thread (at 0x200, of the process at 0x100) with two errors to report. *)
Definition witness_two_errors : binder_state :=
  let proc := set_p_threads [0x200] (binder_open_proc 1) in
  let thread := mk_binder_thread 0x100 1 BINDER_LOOPER_STATE_ENTERED None BR_DEAD_REPLY
                  BR_FAILED_REPLY in
  set_procs (<[0x100 := proc]> ∅) (set_threads (<[0x200 := thread]> ∅) empty_state).

(** ** The trees of the arena *)

Section arena_trees.
Context `{layout}.

(** The block at [a] is in the list of the arena, in use or free. *)
Definition allocated_in (p : binder_proc) (a : Z) : Prop :=
  exists b, find_buffer a (p_buffers p) = Some b /\ b_free b = false.
Definition free_in (p : binder_proc) (a : Z) : Prop :=
  exists b, find_buffer a (p_buffers p) = Some b /\ b_free b = true.

(** A search tree on addresses, no address twice. *)
Fixpoint tree_strict (t : rb_tree) : Prop :=
  match t with
  | rb_nil => True
  | rb_node l a r =>
      tree_strict l /\ tree_strict r /\
      (forall x, In x (rb_inorder l) -> x < a) /\
      (forall x, In x (rb_inorder r) -> a < x)
  end.

(** The arena with its two trees: [allocated_buffers] is a search tree that
    holds exactly the blocks in use, [free_buffers] holds exactly the free
    blocks, each once. *)
Definition arena_trees_ok (p : binder_proc) : Prop :=
  quota_inv p /\
  tree_strict (p_allocated_buffers p) /\
  (forall a, In a (rb_inorder (p_allocated_buffers p)) <-> allocated_in p a) /\
  (forall a, In a (rb_inorder (p_free_buffers p)) <-> free_in p a) /\
  NoDup (rb_inorder (p_free_buffers p)).

End arena_trees.

Section arena_sizes.
Context `{layout}.

(** A block in use is no smaller than the aligned size it was asked for. *)
Definition sizes_ok (p : binder_proc) : Prop :=
  forall a b, find_buffer a (p_buffers p) = Some b -> b_free b = false ->
    aligned_size (b_data_size b) (b_offsets_size b) <= bsize p a.

Definition arena_ok (p : binder_proc) : Prop := arena_trees_ok p /\ sizes_ok p.

End arena_sizes.

(** ** BC_FREE_BUFFER *)

(** Two views of a process with the same arena: the blocks with the fields
    the allocator reads, the two trees and the mapping. *)
Definition arena_equiv (x x' : binder_proc) : Prop :=
  same_arena x x' /\
  p_free_buffers x' = p_free_buffers x /\
  p_allocated_buffers x' = p_allocated_buffers x /\
  p_user_buffer_offset x' = p_user_buffer_offset x.

(** Code that leaves the arena of every process as it is. *)
Definition arena_kept (s s' : binder_state) : Prop :=
  forall p x, procs s !! p = Some x ->
    exists x', procs s' !! p = Some x' /\ arena_equiv x x'.

(** A process (at 0x100, thread at 0x200) with two pages mapped and one
    buffer of eight bytes without objects, handed to user space. *)
Definition witness_user_buffer : binder_state :=
  let proc :=
    match @binder_alloc_buf ilp32_layout witness_mapped 8 0 false true with
    | Ok (_, p) => p
    | _ => witness_mapped
    end in
  let proc :=
    set_p_buffers (update_buffer 0xc0000000 (set_b_allow_user_free true) (p_buffers proc))
      (set_p_threads [0x200] proc) in
  let thread := mk_binder_thread 0x100 1 BINDER_LOOPER_STATE_ENTERED None BR_OK BR_OK in
  set_procs (<[0x100 := proc]> ∅) (set_threads (<[0x200 := thread]> ∅) empty_state).

(** ** The deferred work of a process

    [binder_deferred_list] with [binder_defer_work], its three callers and
    the work function.  The list is the [hlist] from its first entry on. *)

Definition BINDER_DEFERRED_PUT_FILES : Z := 0x01.
Definition BINDER_DEFERRED_FLUSH : Z := 0x02.
Definition BINDER_DEFERRED_RELEASE : Z := 0x04.

Module Deferred.
Section deferred.
Context `{layout}.

(** [binder_defer_work]: the new list and whether [schedule_work] was
    called.  [deferred_work_node] is unhashed when the process is not on the
    list. *)
Definition binder_defer_work (proc defer : Z) (deferred_list : list Z)
    : M (list Z * bool) :=
  upd_proc proc (fun p => set_p_deferred_work (Z.lor (p_deferred_work p) defer) p);;
  if bool_decide (proc ∈ deferred_list) then mret (deferred_list, false)
  else mret (proc :: deferred_list, true).

Definition binder_vma_close (proc : Z) (deferred_list : list Z) : M (list Z * bool) :=
  upd_proc proc (set_p_vma false);;
  binder_defer_work proc BINDER_DEFERRED_PUT_FILES deferred_list.

Definition binder_flush (proc : Z) (deferred_list : list Z) : M (list Z * bool) :=
  binder_defer_work proc BINDER_DEFERRED_FLUSH deferred_list.

Definition binder_release (proc : Z) (deferred_list : list Z) : M (list Z * bool) :=
  binder_defer_work proc BINDER_DEFERRED_RELEASE deferred_list.

(** [binder_deferred_func]: one turn of the loop per entry of the list, the
    last turn finds it empty.  The result lists the file tables handed to
    [put_files_struct]. *)
Fixpoint binder_deferred_func (deferred_list : list Z) : M (list files_struct) :=
  match deferred_list with
  | [] => mret []
  | proc :: rest =>
      p ← get_proc proc;
      let defer := p_deferred_work p in
      upd_proc proc (set_p_deferred_work 0);;
      files ←
        (if has_flag defer BINDER_DEFERRED_PUT_FILES then
           match p_files p with
           | Some files => upd_proc proc (set_p_files None);; mret (Some files)
           | None => mret None
           end
         else mret None);
      when (has_flag defer BINDER_DEFERRED_FLUSH) (binder_deferred_flush proc);;
      when (has_flag defer BINDER_DEFERRED_RELEASE) (binder_deferred_release proc);;
      put ← binder_deferred_func rest;
      mret (match files with Some f => f :: put | None => put end)
  end.

End deferred.
End Deferred.

(** No request is lost: a process with a bit set in [deferred_work] is on
    the list, once. *)
Definition deferred_ok (deferred_list : list Z) (s : binder_state) : Prop :=
  NoDup deferred_list /\
  forall proc p, procs s !! proc = Some p -> p_deferred_work p <> 0 ->
    proc ∈ deferred_list.

(** Code that creates no process and leaves [deferred_work] alone. *)
Definition deferred_kept (s s' : binder_state) : Prop :=
  forall q x', procs s' !! q = Some x' ->
    exists x, procs s !! q = Some x /\ p_deferred_work x' = p_deferred_work x.

(** A mapped process at 0x100 with its file table. *)
Definition witness_open_mapped : binder_state :=
  let files := mk_files_struct ∅ ∅ ∅ 64 0 in
  set_procs (<[0x100 := set_p_files (Some files) witness_mapped]> ∅)
    (set_binder_procs [0x100] empty_state).

(** ** binder_poll *)

Definition POLLIN : Z := 0x0001.

(** [binder_poll]: the mask returned and the queue handed to [poll_wait].
    [pid] is [current->pid]. *)
Definition binder_poll (proc pid : Z) : M (Z * option wait_queue_head) :=
  found ← binder_get_thread proc pid;
  (* [thread->transaction_stack] is read without a test for NULL *)
  thread ← deref found;
  th ← get_thread thread;
  empty ← list_empty (thread_todo thread);
  let wait_for_proc_work :=
    bool_decide (th_transaction_stack th = None) && empty &&
    (th_return_error th =? BR_OK) in
  if wait_for_proc_work then
    work ← binder_has_proc_work proc thread;
    if (work : bool) then mret (POLLIN, None)
    else
      work ← binder_has_proc_work proc thread;
      mret (if (work : bool) then POLLIN else 0, Some (proc_wait proc))
  else
    work ← binder_has_thread_work thread;
    if (work : bool) then mret (POLLIN, None)
    else
      work ← binder_has_thread_work thread;
      mret (if (work : bool) then POLLIN else 0, Some (thread_wait thread)).

(** ** The transaction log *)

(** [struct binder_transaction_log_entry] *)
Record binder_transaction_log_entry := mk_binder_transaction_log_entry {
  e_debug_id : Z;
  e_call_type : Z;
  e_from_proc : Z;
  e_from_thread : Z;
  e_target_handle : Z;
  e_to_proc : Z;
  e_to_thread : Z;
  e_to_node : Z;
  e_data_size : Z;
  e_offsets_size : Z
}.

(** [struct binder_transaction_log]; [log_entry] is the array of 32. *)
Record binder_transaction_log := mk_binder_transaction_log {
  log_next : Z;
  log_full : Z;
  log_entry : list binder_transaction_log_entry
}.

Definition zero_entry : binder_transaction_log_entry :=
  mk_binder_transaction_log_entry 0 0 0 0 0 0 0 0 0 0.

(** The log as the static initialiser leaves it. *)
Definition empty_log : binder_transaction_log :=
  mk_binder_transaction_log 0 0 (repeat zero_entry 32).

(** [binder_transaction_log_add]: the index of the entry returned, cleared,
    and the log after the call.  An index outside the array is a store
    outside the object. *)
Definition binder_transaction_log_add (log : binder_transaction_log)
    : result (Z * binder_transaction_log) :=
  let e := log_next log in
  if (0 <=? e) && (e <? Z.of_nat (length (log_entry log))) then
    let entry := <[Z.to_nat e := zero_entry]> (log_entry log) in
    let next := int32 (log_next log + 1) in
    if next =? 32 then Ok (e, mk_binder_transaction_log 0 1 entry)
    else Ok (e, mk_binder_transaction_log next (log_full log) entry)
  else Fault.

(** [n] calls in a row. *)
Fixpoint log_adds (n : nat) (log : binder_transaction_log)
    : result binder_transaction_log :=
  match n with
  | O => Ok log
  | S n => log ← log_adds n log; r ← binder_transaction_log_add log; Ok (snd r)
  end.

(** The array has its 32 entries and [next] is an index into it. *)
Definition log_ok (log : binder_transaction_log) : Prop :=
  length (log_entry log) = 32%nat /\ 0 <= log_next log < 32.

(** ** Strong references and the count of the node *)

(** Whether the reference at [ref] holds the node strongly. *)
Definition ref_is_strong (rs : gmap Z binder_ref) (ref : Z) : bool :=
  match rs !! ref with
  | Some r => negb (r_strong r =? 0)
  | None => false
  end.

Fixpoint strong_count (rs : gmap Z binder_ref) (l : list Z) : Z :=
  match l with
  | [] => 0
  | ref :: rest => (if ref_is_strong rs ref then 1 else 0) + strong_count rs rest
  end.

(** [node->refs] holds each reference to the node once,
    [internal_strong_refs], a C [int], counts those with a strong count, and
    every reference is on the list of its node. *)
Definition node_refs_ok (s : binder_state) : Prop :=
  (forall node n, nodes s !! node = Some n ->
     NoDup (n_refs n) /\
     (forall ref, ref ∈ n_refs n ->
        exists r, refs s !! ref = Some r /\ r_node r = node) /\
     n_internal_strong_refs n = strong_count (refs s) (n_refs n) /\
     n_internal_strong_refs n < 2 ^ 31) /\
  (forall ref r, refs s !! ref = Some r ->
     0 <= r_strong r < 2 ^ 31 /\
     exists n, nodes s !! r_node r = Some n /\ ref ∈ n_refs n).

(** ** The walk of [binder_send_failed_reply] *)

(** The buffer named [b], if its process has it in its arena. *)
Definition buffer_at (s : binder_state) (b : Z * Z) : option binder_buffer :=
  match procs s !! fst b with
  | Some p => find_buffer (snd b) (p_buffers p)
  | None => None
  end.

(** [t->buffer] of every transaction is a buffer of an arena. *)
Definition buffers_linked (s : binder_state) : Prop :=
  forall t x b, transactions s !! t = Some x -> t_buffer x = Some b ->
    is_Some (buffer_at s b).

(** [reply_path s t gone target]: from [t] along [from_parent], the
    transactions [gone] have lost their sender ([from] is NULL); the walk
    ends at [target], the first transaction whose sender is there, or at the
    root of the stack ([from_parent] is NULL). *)
Inductive reply_path (s : binder_state) : Z -> list Z -> option Z -> Prop :=
  | reply_path_sender t x th :
      transactions s !! t = Some x -> t_from x = Some th ->
      reply_path s t [] (Some t)
  | reply_path_root t x :
      transactions s !! t = Some x -> t_from x = None ->
      t_from_parent x = None ->
      reply_path s t [t] None
  | reply_path_gone t x t' gone target :
      transactions s !! t = Some x -> t_from x = None ->
      t_from_parent x = Some t' ->
      reply_path s t' gone target ->
      reply_path s t (t :: gone) target.

(** [return_error] and [return_error2] are both taken. *)
Definition has_two_errors (thread : binder_thread) : bool :=
  negb (th_return_error thread =? BR_OK) &&
  negb (th_return_error2 thread =? BR_OK).

(** The thread at 0x200 has called (transaction 0x300) and holds an error
    already; the thread that served it has called on (0x301, with the buffer
    of the arena) and is gone. *)
Definition witness_nested_call : binder_state :=
  let thread :=
    mk_binder_thread 0x100 1 BINDER_LOOPER_STATE_ENTERED (Some 0x300)
      BR_DEAD_REPLY BR_OK in
  let call := mk_binder_transaction 1 true (Some 0x200) 0 (Some 0x100) None
                None 0 0 None None in
  let nested := mk_binder_transaction 2 true None 0 (Some 0x100) None
                  (Some (0x100, 0xc0000000)) 0 0 (Some 0x300) None in
  set_threads (<[0x200 := thread]> (threads witness_user_buffer))
    (set_transactions (<[0x300 := call]> (<[0x301 := nested]> ∅))
       witness_user_buffer).

(** ** A thread that leaves *)

(** The work lists are as they were, and every process has the threads it
    had. *)
Definition lists_same (s s' : binder_state) : Prop :=
  lists s' = lists s /\
  forall q x, procs s !! q = Some x ->
    exists x', procs s' !! q = Some x' /\ p_threads x' = p_threads x.

(** The thread at 0x200 has called (transaction 0x300, with the buffer of
    the arena) and the thread at 0x201 serves the call. *)
Definition witness_serving : binder_state :=
  let caller :=
    mk_binder_thread 0x100 1 BINDER_LOOPER_STATE_ENTERED (Some 0x300) BR_OK BR_OK in
  let server :=
    mk_binder_thread 0x100 2 BINDER_LOOPER_STATE_ENTERED (Some 0x300) BR_OK BR_OK in
  let call := mk_binder_transaction 1 true (Some 0x200) 0 (Some 0x100) (Some 0x201)
                (Some (0x100, 0xc0000000)) 0 0 None None in
  let proc :=
    match procs witness_user_buffer !! 0x100 with
    | Some p => set_p_threads [0x200; 0x201] p
    | None => binder_open_proc 1
    end in
  set_procs (<[0x100 := proc]> ∅)
    (set_threads (<[0x200 := caller]> (<[0x201 := server]> ∅))
       (set_transactions (<[0x300 := call]> ∅) witness_user_buffer)).

(** ** The commands for a node

    The BINDER_WORK_NODE case of [binder_thread_read] leaves the work item on
    the list when it has written a command, so the loop comes back to the
    same node until a turn finds nothing to say. *)

(** [strong] and [weak] of that case. *)
Definition node_strong (n : binder_node) : bool :=
  negb (n_internal_strong_refs n =? 0) || negb (n_local_strong_refs n =? 0).
Definition node_weak (n : binder_node) : bool :=
  negb (bool_decide (n_refs n = [])) || negb (n_local_weak_refs n =? 0) ||
  node_strong n.

(** The commands of up to [turns] turns on one node, and the node after
    them. *)
Fixpoint node_commands (turns : nat) (n : binder_node) : list Z * binder_node :=
  match turns with
  | O => ([], n)
  | S turns =>
      let '(cmd, n') := node_command n in
      if cmd =? BR_NOOP then ([], n')
      else let '(l, n'') := node_commands turns n' in (cmd :: l, n'')
  end.

(** A node of a process that holds a strong reference nobody has told it
    of. *)
Definition witness_node_unannounced : binder_node :=
  mk_binder_node 1 (Some 0x100) [0x400] 1 0 0 false false false false 7 8 false
    false 0.

(** * Proofs *)

Lemma bind_Ok {A B} (m : result A) (f : A -> result B) (b : B) :
  m ≫= f = Ok b -> exists a, m = Ok a /\ f a = Ok b.
Proof. destruct m; simpl; intros E; try discriminate. eauto. Qed.

Lemma of_option_Ok {A} (o : option A) (a : A) : of_option o = Ok a -> o = Some a.
Proof. destruct o; simpl; congruence. Qed.

Lemma BUG_ON_Ok (c : bool) (u : unit) : BUG_ON c = Ok u -> c = false.
Proof. destruct c; simpl; congruence. Qed.

Section arena_facts.
Context `{layout}.

Lemma best_fit_search_spec proc size t : forall best res,
  tree_sorted (bsize proc) t ->
  (forall b, best = Some b -> size < bsize proc b /\
     forall x, In x (rb_inorder t) -> bsize proc x <= bsize proc b) ->
  best_fit_search proc size t best = Ok res ->
  best_fit_spec proc size t best res.
Proof.
  induction t as [|l IHl a r IHr]; intros best res Hs Hb E; simpl in E.
  - injection E as <-. unfold best_fit_spec; simpl. destruct best as [b|].
    + destruct (Hb b eq_refl) as [Hlt _].
      split; [lia|]. split; [auto|]. split; [intros x []|].
      split; [discriminate|auto].
    + split; auto. intros x [].
  - destruct Hs as (Hsl & Hsr & Hl & Hr).
    apply bind_Ok in E as (buf & Ef & E). apply bind_Ok in E as (u & Efree & E).
    apply bind_Ok in E as (a2 & Esz & E).
    assert (Ka : bsize proc a = a2) by (unfold bsize; rewrite Esz; reflexivity).
    destruct (size <? a2) eqn:C1.
    + apply Z.ltb_lt in C1.
      assert (P : best_fit_spec proc size l (Some a) res).
      { apply IHl; auto. intros b [= <-]. split; [lia|]. intros x Hx. apply Hl; auto. }
      unfold best_fit_spec in *. destruct (fst res) as [c|].
      * destruct P as (P1 & P2 & P3 & P4 & P5). simpl.
        assert (Ic : In c (rb_inorder l ++ a :: rb_inorder r)).
        { destruct P2 as [P2|[= <-]]; apply in_or_app; [left; auto | right; left; auto]. }
        split; [auto|]. split; [auto|]. split; [|split; [|auto]].
        -- intros x Hx Hsx. apply in_app_or in Hx. destruct Hx as [Hx|[<-|Hx]].
           ++ apply P3; auto.
           ++ destruct P2 as [P2|[= <-]]; [apply Hl; auto | lia].
           ++ destruct P2 as [P2|[= <-]]; [|apply Hr; auto].
              specialize (Hl _ P2). specialize (Hr _ Hx). lia.
        -- intros Hx. destruct (P4 Hx) as [Q _]. auto.
      * destruct P as [P _]; discriminate.
    + apply Z.ltb_ge in C1. destruct (a2 <? size) eqn:C2.
      * apply Z.ltb_lt in C2.
        assert (P : best_fit_spec proc size r best res).
        { apply IHr; auto. intros b Hb'. destruct (Hb b Hb') as [Q1 Q2]. split; auto.
          intros x Hx. apply Q2. simpl. apply in_or_app. right; right; auto. }
        unfold best_fit_spec in *. destruct (fst res) as [c|].
        -- destruct P as (P1 & P2 & P3 & P4 & P5). simpl.
           split; [auto|]. split; [|split; [|split; [|auto]]].
           ++ destruct P2 as [P2|P2]; auto. left. apply in_or_app; right; right; auto.
           ++ intros x Hx Hsx. apply in_app_or in Hx. destruct Hx as [Hx|[<-|Hx]].
              ** specialize (Hl _ Hx). lia.
              ** lia.
              ** apply P3; auto.
           ++ intros Hx. destruct (P4 Hx) as [Q I]. split; auto.
              apply in_or_app; right; right; auto.
        -- destruct P as [P1 P2]. split; auto. simpl. intros x Hx.
           apply in_app_or in Hx. destruct Hx as [Hx|[<-|Hx]]; auto.
           ++ specialize (Hl _ Hx). lia.
           ++ lia.
      * apply Z.ltb_ge in C2. injection E as <-. unfold best_fit_spec; simpl.
        assert (a2 = size) by lia. subst a2.
        assert (Ia : In a (rb_inorder l ++ a :: rb_inorder r))
          by (apply in_or_app; right; left; auto).
        split; [lia|]. split; [auto|]. split; [|split; [auto|discriminate]].
        intros x Hx Hsx. lia.
Qed.

Lemma size_t_range x : 0 <= size_t x < 2 ^ 32.
Proof. unfold size_t. apply Z.mod_pos_bound. lia. Qed.

Lemma size_t_small x : 0 <= x < 2 ^ 32 -> size_t x = x.
Proof. intros Hx. unfold size_t. apply Z.mod_small. lia. Qed.

Lemma aligned_size_range ds os : 0 <= aligned_size ds os < 2 ^ 32.
Proof. apply size_t_range. Qed.

Lemma find_buffer_Some a bs b :
  find_buffer a bs = Some b -> b_addr b = a /\ In b bs.
Proof.
  unfold find_buffer. intros E. apply find_some in E as [I E].
  apply Z.eqb_eq in E. auto.
Qed.

Lemma find_buffer_In a bs b :
  find_buffer a bs = Some b -> In a (map b_addr bs).
Proof.
  intros E. apply find_buffer_Some in E as [<- I]. apply in_map. exact I.
Qed.

Lemma find_buffer_None a bs :
  find_buffer a bs = None -> ~ In a (map b_addr bs).
Proof.
  unfold find_buffer. intros E I. apply in_map_iff in I as (b & Hb & I).
  apply (find_none _ _ E) in I. apply Z.eqb_neq in I. auto.
Qed.

Lemma map_addr_update a f bs :
  (forall b, b_addr (f b) = b_addr b) ->
  map b_addr (update_buffer a f bs) = map b_addr bs.
Proof.
  intros Hf. unfold update_buffer. rewrite map_map. apply map_ext.
  intros b. destruct (b_addr b =? a); auto.
Qed.

Lemma update_buffer_notin a f bs :
  ~ In a (map b_addr bs) -> update_buffer a f bs = bs.
Proof.
  induction bs as [|b rest IH]; simpl; intros N; auto.
  destruct (b_addr b =? a) eqn:E.
  - apply Z.eqb_eq in E. tauto.
  - f_equal. apply IH. tauto.
Qed.

Lemma find_update_same a f bs b :
  (forall b, b_addr (f b) = b_addr b) ->
  find_buffer a bs = Some b ->
  find_buffer a (update_buffer a f bs) = Some (f b).
Proof.
  intros Hf. induction bs as [|x rest IH]; simpl; intros E; [discriminate|].
  destruct (b_addr x =? a) eqn:Ex.
  - injection E as ->. simpl. rewrite Hf, Ex. reflexivity.
  - simpl. rewrite Ex. apply IH. exact E.
Qed.

Lemma find_update_other a a' f bs :
  (forall b, b_addr (f b) = b_addr b) -> a' <> a ->
  find_buffer a' (update_buffer a f bs) = find_buffer a' bs.
Proof.
  intros Hf Hne. induction bs as [|x rest IH]; simpl; auto.
  destruct (b_addr x =? a) eqn:Ex.
  - simpl. rewrite Hf. apply Z.eqb_eq in Ex.
    destruct (b_addr x =? a') eqn:Ex'; [apply Z.eqb_eq in Ex'; congruence|]. exact IH.
  - simpl. destruct (b_addr x =? a'); auto.
Qed.

Lemma next_update a a' f bs :
  (forall b, b_addr (f b) = b_addr b) ->
  option_map b_addr (next_buffer a' (update_buffer a f bs)) =
  option_map b_addr (next_buffer a' bs).
Proof.
  intros Hf. induction bs as [|x rest IH]; simpl; auto.
  assert (Hx : b_addr (if b_addr x =? a then f x else x) = b_addr x)
    by (destruct (b_addr x =? a); auto).
  rewrite Hx. destruct (b_addr x =? a'); auto.
  destruct rest as [|y rest']; simpl; auto.
  destruct (b_addr y =? a); simpl; auto. rewrite Hf. auto.
Qed.

(** *** The chain of block addresses *)

Lemma chain_le_data hi addrs :
  0 <= offsetof_data -> chain hi addrs ->
  forall a, In a addrs -> buffer_data a <= hi.
Proof.
  intros Hd. induction addrs as [|x rest IH]; simpl; intros C a I; [tauto|].
  destruct C as [C1 C2]. destruct I as [<-|I]; [|apply IH; auto].
  destruct rest as [|n rest']; auto.
  assert (buffer_data n <= hi) by (apply IH; simpl; auto).
  unfold buffer_data in *. lia.
Qed.

Lemma chain_head_lt hi x rest :
  0 < offsetof_data -> chain hi (x :: rest) ->
  forall a, In a rest -> buffer_data x <= a.
Proof.
  intros Hd. revert x. induction rest as [|n rest' IH]; intros x C a I; [destruct I|].
  simpl in C. destruct C as [C1 C2]. destruct I as [<-|I]; auto.
  assert (buffer_data n <= a) by (apply IH; auto).
  unfold buffer_data in *. lia.
Qed.

Lemma chain_NoDup hi addrs :
  0 < offsetof_data -> chain hi addrs -> NoDup addrs.
Proof.
  intros Hd. induction addrs as [|x rest IH]; intros C; constructor.
  - intros I. apply list_elem_of_In in I.
    pose proof (chain_head_lt hi x rest Hd C x I).
    unfold buffer_data in *. lia.
  - apply IH. simpl in C. tauto.
Qed.

Lemma chain_tail hi x rest : chain hi (x :: rest) -> chain hi rest.
Proof. simpl. tauto. Qed.

Lemma succ_addr_next hi a bs :
  succ_addr hi a (map b_addr bs) =
  match next_buffer a bs with Some n => b_addr n | None => hi end.
Proof.
  induction bs as [|x rest IH]; simpl; auto.
  destruct (b_addr x =? a); auto. destruct rest; auto.
Qed.

Lemma chain_succ hi addrs a :
  0 < offsetof_data -> chain hi addrs -> In a addrs ->
  buffer_data a <= succ_addr hi a addrs <= hi.
Proof.
  intros Hd. induction addrs as [|x rest IH]; simpl; intros C I; [tauto|].
  destruct C as [C1 C2]. destruct (x =? a) eqn:E.
  - apply Z.eqb_eq in E. subst x. destruct rest as [|n rest']; [lia|].
    split; auto. assert (buffer_data n <= hi).
    { apply (chain_le_data hi (n :: rest')); simpl; auto; lia. }
    unfold buffer_data in *. lia.
  - apply Z.eqb_neq in E. destruct I as [I|I]; [congruence|]. apply IH; auto.
Qed.

Lemma binder_buffer_size_wf proc a b :
  layout_ok -> arena_wf proc -> find_buffer a (p_buffers proc) = Some b ->
  exists base,
    p_buffer proc = Some base /\
    binder_buffer_size proc a =
      Ok (succ_addr (base + p_buffer_size proc) a (map b_addr (p_buffers proc))
          - buffer_data a) /\
    0 <= succ_addr (base + p_buffer_size proc) a (map b_addr (p_buffers proc))
         - buffer_data a <= p_buffer_size proc.
Proof.
  intros (L1 & L2 & L3) (base & Hb & B0 & B1 & B2 & Hlo & C) E.
  exists base. split; auto.
  pose proof (find_buffer_In _ _ _ E) as I.
  pose proof (chain_succ _ _ a L1 C I) as S.
  pose proof (Hlo a I) as Hlo'.
  assert (R : 0 <= succ_addr (base + p_buffer_size proc) a (map b_addr (p_buffers proc))
         - buffer_data a <= p_buffer_size proc) by (unfold buffer_data in *; lia).
  split; auto.
  unfold binder_buffer_size. rewrite E. simpl.
  rewrite succ_addr_next in *.
  destruct (next_buffer a (p_buffers proc)) as [n|]; simpl.
  - rewrite size_t_small; auto. unfold SZ_4M in *; lia.
  - rewrite Hb. simpl. rewrite size_t_small; auto. unfold SZ_4M in *; lia.
Qed.

Lemma map_addr_del a bs :
  map b_addr (list_del_buffer a bs) = del_addr a (map b_addr bs).
Proof.
  induction bs as [|b rest IH]; simpl; auto.
  destruct (b_addr b =? a); simpl; congruence.
Qed.

Lemma map_addr_add a new bs :
  map b_addr (list_add_after a new bs) = add_addr_after a (b_addr new) (map b_addr bs).
Proof.
  induction bs as [|b rest IH]; simpl; auto.
  destruct (b_addr b =? a); simpl; congruence.
Qed.

Lemma In_del_addr a x addrs : In x (del_addr a addrs) -> In x addrs.
Proof.
  induction addrs as [|y rest IH]; simpl; auto.
  destruct (y =? a); simpl; intuition.
Qed.

Lemma In_add_addr a n x addrs :
  In x (add_addr_after a n addrs) -> x = n \/ In x addrs.
Proof.
  induction addrs as [|y rest IH]; simpl; auto.
  destruct (y =? a); simpl; intuition.
Qed.

Lemma chain_del hi a addrs :
  0 <= offsetof_data -> chain hi addrs -> chain hi (del_addr a addrs).
Proof.
  intros Hd. induction addrs as [|x rest IH]; simpl; auto.
  intros [C1 C2]. destruct (x =? a); auto.
  simpl. split; [|auto].
  destruct rest as [|n rest']; simpl; auto.
  destruct (n =? a).
  - simpl in C2. destruct C2 as [C2 _]. unfold buffer_data in *.
    destruct rest'; lia.
  - exact C1.
Qed.

Lemma chain_add hi a n addrs :
  chain hi addrs -> In a addrs ->
  buffer_data a <= n -> buffer_data n <= succ_addr hi a addrs ->
  chain hi (add_addr_after a n addrs).
Proof.
  induction addrs as [|x rest IH]; simpl; [tauto|].
  intros [C1 C2] I Ha Hn. destruct (x =? a) eqn:E.
  - apply Z.eqb_eq in E. subst x. simpl. auto.
  - apply Z.eqb_neq in E. destruct I as [I|I]; [congruence|].
    simpl. split; [|auto].
    destruct rest as [|y rest']; [destruct I|].
    simpl. destruct (y =? a); exact C1.
Qed.

Lemma succ_addr_add_same hi a n addrs :
  In a addrs -> succ_addr hi a (add_addr_after a n addrs) = n.
Proof.
  induction addrs as [|x rest IH]; simpl; [tauto|].
  intros I. destruct (x =? a) eqn:E; simpl; rewrite E; auto.
  apply Z.eqb_neq in E. destruct I; [congruence|auto].
Qed.

Lemma succ_addr_add_new hi a n addrs :
  NoDup addrs -> In a addrs -> n <> a -> ~ In n addrs ->
  succ_addr hi n (add_addr_after a n addrs) = succ_addr hi a addrs.
Proof.
  induction addrs as [|x rest IH]; simpl; [tauto|].
  intros ND I Hne Hn. apply NoDup_cons in ND as [Hx ND].
  destruct (x =? a) eqn:E.
  - apply Z.eqb_eq in E. subst x. simpl.
    destruct (a =? n) eqn:E2; [apply Z.eqb_eq in E2; congruence|].
    rewrite Z.eqb_refl. reflexivity.
  - apply Z.eqb_neq in E. destruct I as [I|I]; [congruence|].
    simpl. destruct (x =? n) eqn:E2; [apply Z.eqb_eq in E2; tauto|].
    apply IH; auto.
Qed.

(** *** Sums over the block list *)

Lemma sum_over_update g a f bs b :
  NoDup (map b_addr bs) -> find_buffer a bs = Some b ->
  sum_over g (update_buffer a f bs) = sum_over g bs - g b + g (f b).
Proof.
  unfold sum_over. induction bs as [|x rest IH]; simpl; intros ND E; [discriminate|].
  apply NoDup_cons in ND as [Hx ND].
  destruct (b_addr x =? a) eqn:Ex.
  - injection E as ->. apply Z.eqb_eq in Ex. subst a.
    rewrite list_elem_of_In in Hx.
    fold (update_buffer (b_addr b) f rest). rewrite update_buffer_notin; auto.
    simpl. lia.
  - simpl. fold (update_buffer a f rest). rewrite IH; auto. lia.
Qed.

Lemma sum_over_add g a new bs :
  g new = 0 -> sum_over g (list_add_after a new bs) = sum_over g bs.
Proof.
  unfold sum_over. intros Hn. induction bs as [|x rest IH]; simpl; auto.
  destruct (b_addr x =? a); simpl; lia.
Qed.

Lemma sum_over_del g a bs :
  (forall b, find_buffer a bs = Some b -> g b = 0) ->
  sum_over g (list_del_buffer a bs) = sum_over g bs.
Proof.
  unfold sum_over. induction bs as [|x rest IH]; simpl; auto.
  intros Hg. destruct (b_addr x =? a) eqn:E.
  - rewrite (Hg x eq_refl). lia.
  - simpl. rewrite IH; auto.
Qed.

Lemma sum_over_ext g g' bs :
  (forall b, In b bs -> g b = g' b) -> sum_over g bs = sum_over g' bs.
Proof.
  unfold sum_over. induction bs as [|x rest IH]; simpl; auto.
  intros E. rewrite (E x), IH; auto.
Qed.

Lemma sum_over_le g g' bs :
  (forall b, In b bs -> g b <= g' b) -> sum_over g bs <= sum_over g' bs.
Proof.
  unfold sum_over. induction bs as [|x rest IH]; simpl; [lia|].
  intros E. specialize (E x (or_introl eq_refl)) as E1.
  assert (fold_right Z.add 0 (map g rest) <= fold_right Z.add 0 (map g' rest))
    by (apply IH; auto).
  lia.
Qed.

(** *** The trees *)

Lemma rb_inorder_join l r : rb_inorder (rb_join l r) = rb_inorder l ++ rb_inorder r.
Proof.
  induction l as [|ll IHl a lr IHr]; simpl; auto.
  rewrite IHr, <- app_assoc. reflexivity.
Qed.

Lemma rb_erase_In a x t :
  In x (rb_inorder (rb_erase a t)) <-> In x (rb_inorder t) /\ x <> a.
Proof.
  induction t as [|l IHl e r IHr]; simpl; [tauto|].
  destruct (e =? a) eqn:E.
  - apply Z.eqb_eq in E. subst e. rewrite rb_inorder_join, !in_app_iff. simpl.
    rewrite IHl, IHr. intuition congruence.
  - apply Z.eqb_neq in E. simpl. rewrite !in_app_iff. simpl.
    rewrite IHl, IHr. intuition congruence.
Qed.

Lemma insert_free_descend_In proc new sz t t' x :
  insert_free_descend proc new sz t = Ok t' ->
  In x (rb_inorder t') <-> x = new \/ In x (rb_inorder t).
Proof.
  revert t'. induction t as [|l IHl a r IHr]; simpl; intros t' E.
  - injection E as <-. simpl. intuition.
  - apply bind_Ok in E as (buf & Ef & E). apply bind_Ok in E as (u & Efree & E).
    apply bind_Ok in E as (bs & Esz & E).
    destruct (sz <? bs).
    + apply bind_Ok in E as (l' & El & E). injection E as <-. simpl.
      rewrite !in_app_iff. simpl. rewrite (IHl _ El). intuition.
    + apply bind_Ok in E as (r' & Er & E). injection E as <-. simpl.
      rewrite !in_app_iff. simpl. rewrite (IHr _ Er). intuition.
Qed.

Lemma binder_insert_free_buffer_inv proc a proc' :
  binder_insert_free_buffer proc a = Ok proc' ->
  exists t, proc' = set_p_free_buffers t proc /\
    forall x, In x (rb_inorder t) <-> x = a \/ In x (rb_inorder (p_free_buffers proc)).
Proof.
  unfold binder_insert_free_buffer. intros E.
  apply bind_Ok in E as (nb & Ef & E). apply bind_Ok in E as (u & Efree & E).
  apply bind_Ok in E as (sz & Esz & E). apply bind_Ok in E as (t & Et & E).
  injection E as <-. exists t. split; auto.
  intros x. eapply insert_free_descend_In; eauto.
Qed.

Lemma binder_insert_allocated_buffer_inv proc a proc' :
  binder_insert_allocated_buffer proc a = Ok proc' ->
  exists t, proc' = set_p_allocated_buffers t proc.
Proof.
  unfold binder_insert_allocated_buffer. intros E.
  apply bind_Ok in E as (nb & Ef & E). apply bind_Ok in E as (u & Efree & E).
  apply bind_Ok in E as (t & Et & E). injection E as <-. eauto.
Qed.

(** The local facts of the best-fit loop, without any assumption on the tree. *)
Lemma best_fit_search_sound proc size t : forall best a exact,
  best_fit_search proc size t best = Ok (Some a, exact) ->
  best = Some a /\ exact = false \/
  In a (rb_inorder t) /\
  exists b z, find_buffer a (p_buffers proc) = Some b /\ b_free b = true /\
    binder_buffer_size proc a = Ok z /\
    (if exact then z = size else size < z).
Proof.
  induction t as [|l IHl e r IHr]; simpl; intros best a exact E.
  - injection E as -> <-. auto.
  - apply bind_Ok in E as (buf & Ef & E). apply bind_Ok in E as (u & Efree & E).
    apply bind_Ok in E as (z & Esz & E).
    apply of_option_Ok in Ef. apply BUG_ON_Ok in Efree.
    apply negb_false_iff in Efree.
    destruct (size <? z) eqn:C1.
    + apply Z.ltb_lt in C1. apply IHl in E as [[E1 E2]|(I & P)].
      * injection E1 as <-. subst exact. right. split.
        { apply in_or_app; right; left; auto. }
        exists buf, z. auto.
      * right. split; [apply in_or_app; auto|exact P].
    + apply Z.ltb_ge in C1. destruct (z <? size) eqn:C2.
      * apply IHr in E as [E|(I & P)]; auto.
        right. split; [apply in_or_app; right; right; auto|exact P].
      * apply Z.ltb_ge in C2. injection E as <- <-. right. split.
        { apply in_or_app; right; left; auto. }
        exists buf, z. repeat split; auto. lia.
Qed.

(** *** [binder_alloc_buf] *)

Lemma bsize_Ok proc a z : binder_buffer_size proc a = Ok z -> bsize proc a = z.
Proof. unfold bsize. intros ->. reflexivity. Qed.

Lemma binder_alloc_buf_inv proc ds os is_async pages_ok r proc' :
  layout_ok -> arena_wf proc -> 0 <= p_free_async_space proc < 2 ^ 32 ->
  binder_alloc_buf proc ds os is_async pages_ok = Ok (r, proc') ->
  match r with
  | alloc_buffer a =>
      exists b fb ab,
        find_buffer a (p_buffers proc) = Some b /\ b_free b = true /\
        In a (rb_inorder (p_free_buffers proc)) /\
        aligned_size ds os <= bsize proc a <= p_buffer_size proc /\
        (is_async = true ->
         aligned_size ds os + sizeof_binder_buffer <= p_free_async_space proc) /\
        proc' =
          set_p_arena
            (update_buffer a (set_b_sizes ds os is_async)
               ((if aligned_size ds os + sizeof_binder_buffer + 4 <? bsize proc a
                 then list_add_after a
                        (new_free_buffer (buffer_data a + aligned_size ds os))
                 else id)
                  (update_buffer a (set_b_free false) (p_buffers proc))))
            fb ab
            (if is_async
             then p_free_async_space proc - (aligned_size ds os + sizeof_binder_buffer)
             else p_free_async_space proc)
            proc /\
        (forall x, In x (rb_inorder fb) <->
           (In x (rb_inorder (p_free_buffers proc)) /\ x <> a) \/
           (aligned_size ds os + sizeof_binder_buffer + 4 < bsize proc a /\
            x = buffer_data a + aligned_size ds os))
  | _ => proc' = proc
  end.
Proof.
  intros Hl Hwf Hfas E. unfold binder_alloc_buf in E.
  fold (aligned_size ds os) in E. set (S := aligned_size ds os) in *.
  destruct (negb (p_vma proc)); [injection E as <- <-; reflexivity|].
  destruct ((S <? ds) || (S <? os)); [injection E as <- <-; reflexivity|].
  destruct (is_async && (p_free_async_space proc <? size_t (S + sizeof_binder_buffer))) eqn:Q;
    [injection E as <- <-; reflexivity|].
  apply bind_Ok in E as ([best exact] & Es & E).
  destruct best as [a|]; [|injection E as <- <-; reflexivity].
  apply bind_Ok in E as (z & Ez & E).
  apply best_fit_search_sound in Es as [[? _]|(Ia & b & z' & Ef & Efree & Ez' & Hz)];
    [discriminate|].
  rewrite Ez in Ez'. injection Ez' as <-.
  destruct (binder_buffer_size_wf proc a b Hl Hwf Ef) as (base & Hb & Ez2 & Rz).
  rewrite Ez in Ez2. injection Ez2 as Ez2. rewrite <- Ez2 in Rz. clear Ez2.
  pose proof (aligned_size_range ds os) as RS. fold S in RS.
  destruct Hl as (L1 & L2 & L3).
  destruct Hwf as (base' & Hb' & B0 & B1 & B2 & Hlo & C).
  assert (Sz : S <= z) by (destruct exact; lia).
  assert (W1 : size_t (S + sizeof_binder_buffer) = S + sizeof_binder_buffer)
    by (apply size_t_small; unfold SZ_4M in *; lia).
  assert (W2 : size_t (S + sizeof_binder_buffer + 4) = S + sizeof_binder_buffer + 4)
    by (apply size_t_small; unfold SZ_4M in *; lia).
  rewrite W1, W2 in *.
  destruct (negb pages_ok); [injection E as <- <-; reflexivity|].
  apply bind_Ok in E as (pa & Epa & E).
  apply binder_insert_allocated_buffer_inv in Epa as (ab & ->).
  apply bind_Ok in E as (pf & Epf & E).
  injection E as <- <-.
  rewrite (bsize_Ok _ _ _ Ez).
  assert (Hq : is_async = true -> S + sizeof_binder_buffer <= p_free_async_space proc).
  { intros ->. simpl in Q. apply Z.ltb_ge in Q. exact Q. }
  assert (Split : negb ((if exact then z
                          else if S + sizeof_binder_buffer + 4 >=? z then S
                               else S + sizeof_binder_buffer) =? S)
                  = (S + sizeof_binder_buffer + 4 <? z)).
  { destruct exact.
    - subst z. rewrite Z.eqb_refl. simpl. symmetry. apply Z.ltb_ge. lia.
    - destruct (S + sizeof_binder_buffer + 4 >=? z) eqn:G.
      + rewrite Z.eqb_refl. simpl. symmetry. apply Z.ltb_ge. lia.
      + assert (Hne : (S + sizeof_binder_buffer =? S) = false) by (apply Z.eqb_neq; lia).
        rewrite Hne. simpl. symmetry. apply Z.ltb_lt. lia. }
  rewrite Split in Epf. clear Split.
  destruct (S + sizeof_binder_buffer + 4 <? z) eqn:Sp.
  - apply binder_insert_free_buffer_inv in Epf as (fb & -> & Hfb).
    exists b, fb, ab. repeat split; auto; try lia.
    + destruct is_async; simpl.
      * rewrite size_t_small; [reflexivity|]. specialize (Hq eq_refl). lia.
      * reflexivity.
    + intros Hx. apply Hfb in Hx. simpl in Hx. destruct Hx as [->|Hx].
      * right. split; [apply Z.ltb_lt in Sp; lia | reflexivity].
      * left. apply rb_erase_In in Hx. exact Hx.
    + intros [Hx|[_ ->]]; apply Hfb; simpl; [right|left; reflexivity].
      apply rb_erase_In. exact Hx.
  - injection Epf as <-.
    exists b, (rb_erase a (p_free_buffers proc)), ab. repeat split; auto; try lia.
    + destruct is_async; simpl.
      * rewrite size_t_small; [reflexivity|]. specialize (Hq eq_refl). lia.
      * reflexivity.
    + intros Hx. left. apply rb_erase_In in Hx. exact Hx.
    + intros [Hx|[Hx _]]; [apply rb_erase_In; exact Hx|lia].
Qed.

Lemma find_add_after_same a new bs :
  find_buffer a (list_add_after a new bs) = find_buffer a bs.
Proof.
  induction bs as [|x rest IH]; simpl; auto.
  destruct (b_addr x =? a) eqn:E; simpl; rewrite E; auto.
Qed.

Lemma async_charge_nonneg b : 0 <= sizeof_binder_buffer -> 0 <= async_charge b.
Proof.
  intros Hh. unfold async_charge.
  destruct (negb (b_free b) && b_async_transaction b); [|lia].
  pose proof (aligned_size_range (b_data_size b) (b_offsets_size b)). lia.
Qed.

Lemma sum_over_nonneg g bs : (forall b, 0 <= g b) -> 0 <= sum_over g bs.
Proof.
  unfold sum_over. intros Hg. induction bs as [|x rest IH]; simpl; [lia|].
  specialize (Hg x). lia.
Qed.

Lemma sum_over_In_le g bs b :
  (forall b, 0 <= g b) -> In b bs -> g b <= sum_over g bs.
Proof.
  unfold sum_over. intros Hg. induction bs as [|x rest IH]; simpl; [tauto|].
  intros [->|I].
  - pose proof (sum_over_nonneg g rest Hg). unfold sum_over in *. lia.
  - specialize (IH I). specialize (Hg x). lia.
Qed.

Lemma quota_inv_fas proc :
  layout_ok -> quota_inv proc -> 0 <= p_free_async_space proc < 2 ^ 32.
Proof.
  intros (L1 & L2 & L3) ((base & _ & _ & _ & B2 & _) & Q1 & Q2).
  assert (0 <= async_used proc).
  { apply sum_over_nonneg. intros b. apply async_charge_nonneg. lia. }
  assert (p_buffer_size proc / 2 <= p_buffer_size proc)
    by (apply Z.div_le_upper_bound; lia).
  unfold SZ_4M in *. lia.
Qed.

Lemma binder_alloc_buf_wf proc ds os is_async pages_ok r proc' :
  layout_ok -> arena_wf proc -> 0 <= p_free_async_space proc < 2 ^ 32 ->
  binder_alloc_buf proc ds os is_async pages_ok = Ok (r, proc') ->
  arena_wf proc'.
Proof.
  intros Hl Hwf Hfas E.
  pose proof (binder_alloc_buf_inv _ _ _ _ _ _ _ Hl Hwf Hfas E) as I.
  destruct r as [a| |]; [|subst; auto|subst; auto].
  destruct I as (b & fb & ab & Ef & Efree & Ia & Sz & Hq & -> & Hfb).
  pose proof (aligned_size_range ds os) as RS.
  set (S := aligned_size ds os) in *.
  pose proof (binder_buffer_size_wf proc a b Hl Hwf Ef) as (base0 & Hb0 & Ez & Rz).
  destruct Hl as (L1 & L2 & L3).
  destruct Hwf as (base & Hb & B0 & B1 & B2 & Hlo & C).
  rewrite Hb in Hb0. injection Hb0 as <-.
  pose proof (bsize_Ok _ _ _ Ez) as Bz.
  exists base. simpl. repeat split; auto; try lia.
  - intros x. rewrite map_addr_update by reflexivity.
    destruct (S + sizeof_binder_buffer + 4 <? bsize proc a).
    + rewrite map_addr_add, map_addr_update by reflexivity.
      intros Hx. apply In_add_addr in Hx as [->|Hx]; auto.
      simpl. pose proof (Hlo a (find_buffer_In _ _ _ Ef)). unfold buffer_data. lia.
    + unfold id. rewrite map_addr_update by reflexivity. auto.
  - rewrite map_addr_update by reflexivity.
    destruct (S + sizeof_binder_buffer + 4 <? bsize proc a) eqn:Sp.
    + apply Z.ltb_lt in Sp.
      rewrite map_addr_add, map_addr_update by reflexivity. simpl.
      apply chain_add; auto.
      * apply (find_buffer_In _ _ _ Ef).
      * unfold buffer_data. lia.
      * unfold buffer_data in *. lia.
    + unfold id. rewrite map_addr_update by reflexivity. auto.
Qed.

Lemma binder_alloc_buf_quota proc ds os is_async pages_ok r proc' :
  layout_ok -> quota_inv proc ->
  binder_alloc_buf proc ds os is_async pages_ok = Ok (r, proc') ->
  quota_inv proc'.
Proof.
  intros Hl Hq E. pose proof (quota_inv_fas _ Hl Hq) as Hfas.
  pose proof Hq as (Hwf & Q1 & Q2).
  pose proof (binder_alloc_buf_wf _ _ _ _ _ _ _ Hl Hwf Hfas E) as Hwf'.
  split; auto.
  pose proof (binder_alloc_buf_inv _ _ _ _ _ _ _ Hl Hwf Hfas E) as I.
  destruct r as [a| |]; [|subst; auto|subst; auto].
  destruct I as (b & fb & ab & Ef & Efree & Ia & Sz & Hch & -> & Hfb).
  set (S := aligned_size ds os) in *.
  destruct Hwf' as (base' & _ & _ & _ & _ & _ & C').
  simpl in C'. rewrite map_addr_update in C' by reflexivity.
  destruct Hl as (L1 & L2 & L3).
  destruct Hwf as (base & Hb & B0 & B1 & B2 & Hlo & C).
  pose proof (chain_NoDup _ _ L1 C) as ND.
  pose proof (chain_NoDup _ _ L1 C') as ND'.
  unfold async_used in *. simpl.
  set (Y := (if S + sizeof_binder_buffer + 4 <? bsize proc a
             then list_add_after a (new_free_buffer (buffer_data a + S))
             else id) (update_buffer a (set_b_free false) (p_buffers proc))) in *.
  assert (FY : find_buffer a Y = Some (set_b_free false b)).
  { unfold Y. destruct (S + sizeof_binder_buffer + 4 <? bsize proc a).
    - rewrite find_add_after_same. apply find_update_same; auto.
    - unfold id. apply find_update_same; auto. }
  assert (SY : sum_over async_charge Y =
               sum_over async_charge (p_buffers proc) + async_charge (set_b_free false b)).
  { unfold Y. destruct (S + sizeof_binder_buffer + 4 <? bsize proc a).
    - rewrite sum_over_add by reflexivity.
      rewrite (sum_over_update _ _ _ _ b ND Ef).
      unfold async_charge at 2. rewrite Efree. simpl. lia.
    - unfold id. rewrite (sum_over_update _ _ _ _ b ND Ef).
      unfold async_charge at 2. rewrite Efree. simpl. lia. }
  rewrite (sum_over_update _ _ _ _ _ ND' FY), SY.
  set (T := sum_over async_charge (p_buffers proc)) in *.
  unfold async_charge; simpl. fold S.
  destruct (b_async_transaction b), is_async; simpl;
    try specialize (Hch eq_refl); split; lia.
Qed.

(** *** The accounting only reads the skeleton of the block list *)

Lemma skeleton_addrs bs bs' :
  map skeleton bs = map skeleton bs' -> map b_addr bs = map b_addr bs'.
Proof.
  revert bs'. induction bs as [|x rest IH]; intros [|y rest']; simpl; intros E;
    try discriminate; auto.
  assert (E1 : skeleton x = skeleton y) by congruence.
  assert (E2 : map skeleton rest = map skeleton rest') by congruence.
  apply (f_equal (fun s => fst (fst (fst (fst s))))) in E1. simpl in E1.
  rewrite E1. f_equal. auto.
Qed.

Lemma skeleton_sum g bs bs' :
  (forall b b', skeleton b = skeleton b' -> g b = g b') ->
  map skeleton bs = map skeleton bs' -> sum_over g bs = sum_over g bs'.
Proof.
  intros Hg. unfold sum_over.
  revert bs'. induction bs as [|x rest IH]; intros [|y rest']; simpl; intros E;
    try discriminate; auto.
  assert (E1 : skeleton x = skeleton y) by congruence.
  assert (E2 : map skeleton rest = map skeleton rest') by congruence.
  rewrite (Hg _ _ E1), (IH _ E2). reflexivity.
Qed.

Lemma async_charge_skeleton b b' :
  skeleton b = skeleton b' -> async_charge b = async_charge b'.
Proof.
  unfold skeleton, async_charge. intros E.
  injection E as _ E1 E2 E3 E4. rewrite E1, E2, E3, E4. reflexivity.
Qed.

Lemma async_size_skeleton b b' :
  skeleton b = skeleton b' -> async_size b = async_size b'.
Proof.
  unfold skeleton, async_size. intros E.
  injection E as _ E1 E2 E3 E4. rewrite E1, E2, E3, E4. reflexivity.
Qed.

Lemma quota_inv_same_arena proc proc' :
  same_arena proc proc' -> quota_inv proc -> quota_inv proc'.
Proof.
  intros (E1 & E2 & E3 & E4) ((base & Hb & B0 & B1 & B2 & Hlo & C) & Q1 & Q2).
  pose proof (skeleton_addrs _ _ E4) as EA.
  split; [|split].
  - exists base. rewrite E1, E2, EA. tauto.
  - rewrite E3. exact Q1.
  - unfold async_used in *.
    rewrite E3, E2, (skeleton_sum _ _ _ async_charge_skeleton E4). exact Q2.
Qed.

(** *** [binder_free_buf] *)

Lemma next_buffer_In a bs n : next_buffer a bs = Some n -> In n bs.
Proof.
  induction bs as [|x rest IH]; simpl; [discriminate|].
  destruct (b_addr x =? a).
  - destruct rest; simpl; [discriminate|]. intros [= ->]. auto.
  - auto.
Qed.

Lemma next_buffer_neq a bs n :
  NoDup (map b_addr bs) -> next_buffer a bs = Some n -> b_addr n <> a.
Proof.
  induction bs as [|x rest IH]; simpl; [discriminate|].
  intros ND E. apply NoDup_cons in ND as [Hx ND].
  destruct (b_addr x =? a) eqn:Ex; [|auto].
  apply Z.eqb_eq in Ex. subst a. destruct rest as [|y rest']; [discriminate|].
  injection E as <-. intros Heq. apply Hx. rewrite <- Heq. simpl. left.
Qed.

Lemma prev_buffer_In a bs n : prev_buffer a bs = Some n -> In n bs.
Proof.
  induction bs as [|x rest IH]; simpl; [discriminate|].
  destruct rest as [|y rest']; [discriminate|].
  destruct (b_addr y =? a).
  - intros [= ->]. auto.
  - intros E. right. apply IH. exact E.
Qed.

Lemma NoDup_find bs b :
  NoDup (map b_addr bs) -> In b bs -> find_buffer (b_addr b) bs = Some b.
Proof.
  induction bs as [|x rest IH]; simpl; [tauto|].
  intros ND I. apply NoDup_cons in ND as [Hx ND].
  destruct (b_addr x =? b_addr b) eqn:E.
  - destruct I as [->|I]; auto. apply Z.eqb_eq in E.
    exfalso. apply Hx. rewrite E. apply list_elem_of_In. apply in_map. exact I.
  - destruct I as [->|I]; [rewrite Z.eqb_refl in E; discriminate|]. auto.
Qed.

Lemma find_del_other a x bs :
  x <> a -> find_buffer x (list_del_buffer a bs) = find_buffer x bs.
Proof.
  intros Hne. induction bs as [|y rest IH]; simpl; auto.
  destruct (b_addr y =? a) eqn:E.
  - apply Z.eqb_eq in E. destruct (b_addr y =? x) eqn:E2; auto.
    apply Z.eqb_eq in E2. congruence.
  - simpl. destruct (b_addr y =? x); auto.
Qed.

Lemma binder_delete_free_buffer_inv proc x proc' :
  binder_delete_free_buffer proc x = Ok proc' ->
  proc' = set_p_buffers (list_del_buffer x (p_buffers proc)) proc.
Proof.
  unfold binder_delete_free_buffer. intros E.
  apply bind_Ok in E as (f & Ef & E). apply bind_Ok in E as (u & Eu & E).
  apply bind_Ok in E as (p & Ep & E). apply bind_Ok in E as (u' & Eu' & E).
  injection E as <-. reflexivity.
Qed.

Lemma quota_inv_delete_free proc x :
  layout_ok -> quota_inv proc ->
  (forall b, find_buffer x (p_buffers proc) = Some b -> b_free b = true) ->
  quota_inv (set_p_buffers (list_del_buffer x (p_buffers proc)) proc).
Proof.
  intros (L1 & L2 & L3) ((base & Hb & B0 & B1 & B2 & Hlo & C) & Q1 & Q2) Hx.
  split; [|split]; simpl; auto.
  - exists base. simpl. rewrite map_addr_del. repeat split; auto; try lia.
    + intros a Ha. apply In_del_addr in Ha. auto.
    + apply chain_del; auto. lia.
  - unfold async_used in *. simpl. rewrite sum_over_del; auto.
    intros b Eb. unfold async_charge. rewrite (Hx b Eb). reflexivity.
Qed.

Lemma quota_inv_set_free proc fb :
  quota_inv proc -> quota_inv (set_p_free_buffers fb proc).
Proof.
  intros Q. eapply quota_inv_same_arena; [|exact Q]. repeat split; reflexivity.
Qed.

Lemma quota_inv_set_allocated proc ab :
  quota_inv proc -> quota_inv (set_p_allocated_buffers ab proc).
Proof.
  intros Q. eapply quota_inv_same_arena; [|exact Q]. repeat split; reflexivity.
Qed.

Lemma binder_free_buf_inv proc a proc' :
  layout_ok -> quota_inv proc ->
  binder_free_buf proc a = Ok proc' ->
  quota_inv proc' /\
  exists b, find_buffer a (p_buffers proc) = Some b /\ b_free b = false /\
    b_transaction b = None /\
    p_free_async_space proc' = p_free_async_space proc + async_charge b /\
    p_buffer proc' = p_buffer proc /\ p_buffer_size proc' = p_buffer_size proc.
Proof.
  intros Hl Q E. unfold binder_free_buf in E.
  apply bind_Ok in E as (b & Ef & E). apply of_option_Ok in Ef.
  apply bind_Ok in E as (z & Ez & E).
  apply bind_Ok in E as (u1 & U1 & E). apply BUG_ON_Ok in U1.
  apply bind_Ok in E as (u2 & U2 & E). apply BUG_ON_Ok in U2. apply Z.ltb_ge in U2.
  apply bind_Ok in E as (u3 & U3 & E). apply BUG_ON_Ok in U3.
  apply bool_decide_eq_false in U3.
  assert (Tn : b_transaction b = None) by (destruct (b_transaction b); [exfalso; apply U3; discriminate|reflexivity]).
  apply bind_Ok in E as (base & Hb & E). apply of_option_Ok in Hb.
  apply bind_Ok in E as (u4 & U4 & E). apply bind_Ok in E as (u5 & U5 & E).
  fold (aligned_size (b_data_size b) (b_offsets_size b)) in *.
  set (S := aligned_size (b_data_size b) (b_offsets_size b)) in *.
  pose proof (quota_inv_fas _ Hl Q) as Hfas.
  pose proof Q as (Hwf & Q1 & Q2).
  pose proof (binder_buffer_size_wf proc a b Hl Hwf Ef) as (base0 & Hb0 & Ez' & Rz).
  rewrite Ez in Ez'. injection Ez' as Ez'. rewrite <- Ez' in Rz. clear Ez'.
  pose proof (aligned_size_range (b_data_size b) (b_offsets_size b)) as RS. fold S in RS.
  pose proof Hl as (L1 & L2 & L3).
  pose proof Hwf as (base' & Hb' & B0 & B1 & B2 & Hlo & C).
  pose proof (chain_NoDup _ _ L1 C) as ND.
  assert (Hin : In b (p_buffers proc)) by (apply find_buffer_Some in Ef; tauto).
  assert (Hch : async_charge b <= async_used proc).
  { apply sum_over_In_le; auto. intros b0. apply async_charge_nonneg. lia. }
  assert (W1 : size_t (S + sizeof_binder_buffer) = S + sizeof_binder_buffer)
    by (apply size_t_small; unfold SZ_4M in *; lia).
  rewrite W1 in E.
  assert (Hhalf : p_buffer_size proc / 2 <= p_buffer_size proc)
    by (apply Z.div_le_upper_bound; lia).
  (* the state after the refund and the change of the free bit *)
  assert (Hcharge : async_charge b =
            if b_async_transaction b then S + sizeof_binder_buffer else 0).
  { unfold async_charge. rewrite U1. reflexivity. }
  assert (Wf : b_async_transaction b = true ->
               size_t (p_free_async_space proc + (S + sizeof_binder_buffer)) =
               p_free_async_space proc + (S + sizeof_binder_buffer)).
  { intros Ea. rewrite Hcharge, Ea in Hch. apply size_t_small.
    clear E. clearbody S. unfold SZ_4M in *. lia. }
  cbv zeta in E.
  match type of E with
  | context [next_buffer a (p_buffers ?p)] => set (proc3 := p) in *
  end.
  assert (B3 : p_buffers proc3 = update_buffer a (set_b_free true) (p_buffers proc)
               /\ p_free_async_space proc3 = p_free_async_space proc + async_charge b
               /\ p_buffer proc3 = p_buffer proc
               /\ p_buffer_size proc3 = p_buffer_size proc).
  { unfold proc3. rewrite Hcharge. destruct (b_async_transaction b); simpl.
    - rewrite Wf by reflexivity. auto.
    - rewrite Z.add_0_r. auto. }
  destruct B3 as (B3 & A3 & BB3 & BS3).
  assert (Q3 : quota_inv proc3).
  { split; [|split].
    - destruct Hwf as (bs & ? & ? & ? & ? & ? & ?). exists bs.
      rewrite B3, BB3, BS3. rewrite map_addr_update by reflexivity. tauto.
    - rewrite A3. pose proof (async_charge_nonneg b). lia.
    - unfold async_used. rewrite A3, BS3, B3. rewrite (sum_over_update _ _ _ _ b ND Ef).
      unfold async_used in Q2. unfold async_charge at 4. simpl. lia. }
  assert (F3 : find_buffer a (p_buffers proc3) = Some (set_b_free true b)).
  { rewrite B3. apply find_update_same; auto. }
  assert (ND3 : NoDup (map b_addr (p_buffers proc3))).
  { rewrite B3. rewrite map_addr_update by reflexivity. exact ND. }
  clearbody proc3.
  apply bind_Ok in E as (proc4 & E4 & E).
  assert (Q4 : quota_inv proc4 /\ find_buffer a (p_buffers proc4) = Some (set_b_free true b)
               /\ NoDup (map b_addr (p_buffers proc4))
               /\ p_free_async_space proc4 = p_free_async_space proc3
               /\ p_buffer proc4 = p_buffer proc3 /\ p_buffer_size proc4 = p_buffer_size proc3).
  { destruct (next_buffer a (p_buffers proc3)) as [next|] eqn:En;
      [|injection E4 as <-; auto 10].
    destruct (b_free next) eqn:Fn; [|injection E4 as <-; auto 10].
    apply binder_delete_free_buffer_inv in E4. subst proc4. simpl.
    pose proof (next_buffer_In _ _ _ En) as In3.
    pose proof (NoDup_find _ _ ND3 In3) as Fnx.
    assert (Hne : a <> b_addr next).
    { intros Heq. symmetry in Heq. revert Heq. eapply next_buffer_neq; eauto. }
    split; [|split; [|split]]; auto.
    - apply (quota_inv_delete_free (set_p_free_buffers _ proc3));
        [exact Hl | apply quota_inv_set_free; exact Q3 |].
      simpl. intros b0. rewrite Fnx. intros [= <-]. exact Fn.
    - rewrite find_del_other; auto.
    - rewrite map_addr_del. clear -ND3.
      induction (map b_addr (p_buffers proc3)) as [|y rest IH]; simpl; auto.
      apply NoDup_cons in ND3 as [Hy ND3]. destruct (y =? b_addr next); auto.
      apply NoDup_cons. split; auto. intros I. apply Hy.
      apply list_elem_of_In. apply list_elem_of_In in I. eapply In_del_addr; eauto. }
  destruct Q4 as (Q4 & F4 & ND4 & A4 & BB4 & BS4).
  apply bind_Ok in E as ([proc5 a5] & E5 & E).
  assert (Q5 : quota_inv proc5 /\ p_free_async_space proc5 = p_free_async_space proc4
               /\ p_buffer proc5 = p_buffer proc4 /\ p_buffer_size proc5 = p_buffer_size proc4).
  { destruct (prev_buffer a (p_buffers proc4)) as [prev|] eqn:Ep;
      [|injection E5 as <- <-; auto].
    destruct (b_free prev) eqn:Fp; [|injection E5 as <- <-; auto].
    apply bind_Ok in E5 as (p' & Ed & E5). injection E5 as <- <-.
    apply binder_delete_free_buffer_inv in Ed. subst p'. simpl.
    split; auto.
    apply quota_inv_set_free. apply quota_inv_delete_free; auto.
    intros b0. rewrite F4. intros [= <-]. reflexivity. }
  destruct Q5 as (Q5 & A5 & BB5 & BS5).
  apply binder_insert_free_buffer_inv in E as (t & -> & _).
  split.
  - apply quota_inv_set_free. exact Q5.
  - exists b. simpl. rewrite A5, A4, BB5, BB4, BS5, BS4, A3, BB3, BS3. tauto.
Qed.

(** *** [binder_mmap] and the reachable arenas *)

Lemma binder_mmap_inv proc vm_start vm_end flags addr pages proc' :
  layout_ok -> vm_area_ok vm_start vm_end addr ->
  binder_mmap proc vm_start vm_end flags (Some addr) pages = Ok (mmap_ok, proc') ->
  quota_inv proc' /\ p_free_async_space proc' = p_buffer_size proc' / 2 /\
  async_used proc' = 0.
Proof.
  intros (L1 & L2 & L3) (V1 & V2 & V3) E. unfold binder_mmap in E.
  destruct flags; [discriminate|].
  destruct (bool_decide (p_buffer proc <> None)); [discriminate|].
  destruct (negb pages); [discriminate|].
  apply bind_Ok in E as (p1 & E1 & E).
  apply binder_insert_free_buffer_inv in E1 as (t & -> & _).
  injection E as <-. simpl.
  set (size := (if SZ_4M <? vm_end - vm_start then vm_start + SZ_4M else vm_end) - vm_start).
  assert (Hs : sizeof_binder_buffer <= size <= SZ_4M /\ size <= vm_end - vm_start).
  { unfold size, SZ_4M. destruct (4194304 <? vm_end - vm_start) eqn:C.
    - apply Z.ltb_lt in C. lia.
    - apply Z.ltb_ge in C. lia. }
  assert (U : async_used
    (set_p_mapping size (Some addr) true (vm_start - addr)
       (set_p_free_async_space (size / 2)
          (set_p_free_buffers t
             (set_p_buffers [new_free_buffer addr]
                (set_p_mapping size (Some addr) false (vm_start - addr) proc))))) = 0)
    by reflexivity.
  split; [|split]; auto.
  split; [|split].
  - exists addr. simpl. fold size. unfold buffer_data.
    repeat split; auto; try lia; try (intros a [<-|[]]; lia).
  - simpl. fold size. apply Z.div_pos; lia.
  - rewrite U. simpl. fold size. lia.
Qed.

Lemma arena_reachable_quota proc :
  layout_ok -> arena_reachable proc -> quota_inv proc.
Proof.
  intros Hl R. induction R as
    [proc vs ve fl addr pg proc' V E
    |proc ds os is_async pg r proc' R IH E
    |proc a proc' R IH E
    |proc proc' R IH S].
  - apply (binder_mmap_inv _ _ _ _ _ _ _ Hl V E).
  - eapply binder_alloc_buf_quota; eauto.
  - eapply binder_free_buf_inv; eauto.
  - eapply quota_inv_same_arena; eauto.
Qed.

Lemma async_sizes_le_used proc :
  0 <= sizeof_binder_buffer -> async_sizes proc <= async_used proc.
Proof.
  intros Hh. unfold async_sizes, async_used. apply sum_over_le.
  intros b _. unfold async_size, async_charge.
  destruct (negb (b_free b) && b_async_transaction b); lia.
Qed.

(** *** Best fit and the split rule *)

Lemma binder_alloc_buf_search proc ds os is_async r proc' :
  p_vma proc = true ->
  ds <= aligned_size ds os -> os <= aligned_size ds os ->
  (is_async = true ->
   size_t (aligned_size ds os + sizeof_binder_buffer) <= p_free_async_space proc) ->
  binder_alloc_buf proc ds os is_async true = Ok (r, proc') ->
  exists best exact,
    best_fit_search proc (aligned_size ds os) (p_free_buffers proc) None = Ok (best, exact) /\
    match best with
    | None => r = alloc_null /\ proc' = proc
    | Some a => r = alloc_buffer a
    end.
Proof.
  intros Hv H1 H2 Hq E. unfold binder_alloc_buf in E.
  fold (aligned_size ds os) in E. rewrite Hv in E. simpl in E.
  assert (C1 : ((aligned_size ds os <? ds) || (aligned_size ds os <? os)) = false).
  { apply orb_false_iff. split; apply Z.ltb_ge; lia. }
  rewrite C1 in E.
  assert (C2 : (is_async &&
      (p_free_async_space proc <? size_t (aligned_size ds os + sizeof_binder_buffer))) = false).
  { destruct is_async; simpl; auto. apply Z.ltb_ge. auto. }
  rewrite C2 in E.
  apply bind_Ok in E as ([best exact] & Es & E).
  exists best, exact. split; auto.
  destruct best as [a|]; [|injection E as <- <-; auto].
  apply bind_Ok in E as (z & Ez & E).
  apply bind_Ok in E as (pa & Epa & E). apply bind_Ok in E as (pf & Epf & E).
  injection E as <- _. reflexivity.
Qed.



End arena_facts.

Lemma ilp32_layout_ok : @layout_ok ilp32_layout.
Proof. unfold layout_ok. simpl. lia. Qed.

Lemma witness_arena_reachable : @arena_reachable ilp32_layout witness_arena.
Proof.
  apply (@reach_alloc ilp32_layout witness_mapped 10 8 true true
           (alloc_buffer 0xc0000000) witness_arena).
  - apply (@reach_mmap ilp32_layout (binder_open_proc 1) 0x40000000 0x40002000
             false 0xc0000000 true witness_mapped).
    + unfold vm_area_ok. vm_compute. intuition discriminate.
    + vm_compute. reflexivity.
  - vm_compute. reflexivity.
Qed.


(** Closed comparisons of integers, by computation. *)
Ltac zcompute :=
  vm_compute; repeat split; first [reflexivity | intro; discriminate].

Lemma witness_mapped_wf : @arena_wf ilp32_layout witness_mapped.
Proof.
  exists 0xc0000000. unfold witness_mapped, SZ_4M. simpl.
  unfold buffer_data. simpl.
  split; [reflexivity|]. split; [lia|]. split; [lia|]. split; [lia|].
  split; [intros a [<-|[]]; lia|]. split; [lia|exact I].
Qed.



(** ** Reasoning about driver code *)

Lemma M_bind_Ok {A B} (m : M A) (f : A -> M B) s b s' :
  (m ≫= f) s = Ok (b, s') ->
  exists a s1, m s = Ok (a, s1) /\ f a s1 = Ok (b, s').
Proof.
  unfold mbind, M_bind. destruct (m s) as [[a s1]| | |]; try discriminate. eauto.
Qed.

Lemma M_bind_Ok_intro {A B} (m : M A) (f : A -> M B) s a s1 :
  m s = Ok (a, s1) -> (m ≫= f) s = f a s1.
Proof. unfold mbind, M_bind. intros ->. reflexivity. Qed.

Lemma M_ret_Ok {A} (a b : A) s s' : (mret a : M A) s = Ok (b, s') -> b = a /\ s' = s.
Proof. unfold mret, M_ret. intros E. injection E as <- <-. auto. Qed.

Lemma deref_Ok {A} (o : option A) a s s' :
  deref o s = Ok (a, s') -> o = Some a /\ s' = s.
Proof.
  destruct o; simpl; [|discriminate]. intros E. apply M_ret_Ok in E as [-> ->]. auto.
Qed.

Lemma M_BUG_ON_Ok c u s s' : M_BUG_ON c s = Ok (u, s') -> c = false /\ s' = s.
Proof.
  destruct c; simpl; [discriminate|]. intros E. apply M_ret_Ok in E as [_ ->]. auto.
Qed.

Lemma modify_Ok f u s s' : modify f s = Ok (u, s') -> s' = f s.
Proof. unfold modify. intros E. injection E as _ <-. reflexivity. Qed.

Lemma get_state_Ok x s s' : get_state s = Ok (x, s') -> x = s /\ s' = s.
Proof. unfold get_state. intros E. injection E as <- <-. auto. Qed.

Lemma lift_result_Ok {A} (r : result A) a s s' :
  lift_result r s = Ok (a, s') -> r = Ok a /\ s' = s.
Proof.
  unfold lift_result. destruct r; intros E; try discriminate.
  injection E as <- <-. auto.
Qed.

Lemma get_proc_Ok p x s s' : get_proc p s = Ok (x, s') -> procs s !! p = Some x /\ s' = s.
Proof. apply deref_Ok. Qed.
Lemma get_thread_Ok t x s s' :
  get_thread t s = Ok (x, s') -> threads s !! t = Some x /\ s' = s.
Proof. apply deref_Ok. Qed.
Lemma get_node_Ok n x s s' : get_node n s = Ok (x, s') -> nodes s !! n = Some x /\ s' = s.
Proof. apply deref_Ok. Qed.
Lemma get_ref_Ok r x s s' : get_ref r s = Ok (x, s') -> refs s !! r = Some x /\ s' = s.
Proof. apply deref_Ok. Qed.
Lemma get_death_Ok d x s s' :
  get_death d s = Ok (x, s') -> deaths s !! d = Some x /\ s' = s.
Proof. apply deref_Ok. Qed.
Lemma get_transaction_Ok t x s s' :
  get_transaction t s = Ok (x, s') -> transactions s !! t = Some x /\ s' = s.
Proof. apply deref_Ok. Qed.

Lemma upd_proc_Ok p f u s s' :
  upd_proc p f s = Ok (u, s') ->
  exists x, procs s !! p = Some x /\ s' = set_procs (<[p := f x]> (procs s)) s.
Proof.
  unfold upd_proc. intros E. apply M_bind_Ok in E as (x & s1 & E1 & E).
  apply get_proc_Ok in E1 as [E1 ->]. apply modify_Ok in E. eauto.
Qed.
Lemma upd_thread_Ok t f u s s' :
  upd_thread t f s = Ok (u, s') ->
  exists x, threads s !! t = Some x /\ s' = set_threads (<[t := f x]> (threads s)) s.
Proof.
  unfold upd_thread. intros E. apply M_bind_Ok in E as (x & s1 & E1 & E).
  apply get_thread_Ok in E1 as [E1 ->]. apply modify_Ok in E. eauto.
Qed.
Lemma upd_node_Ok n f u s s' :
  upd_node n f s = Ok (u, s') ->
  exists x, nodes s !! n = Some x /\ s' = set_nodes (<[n := f x]> (nodes s)) s.
Proof.
  unfold upd_node. intros E. apply M_bind_Ok in E as (x & s1 & E1 & E).
  apply get_node_Ok in E1 as [E1 ->]. apply modify_Ok in E. eauto.
Qed.
Lemma upd_ref_Ok r f u s s' :
  upd_ref r f s = Ok (u, s') ->
  exists x, refs s !! r = Some x /\ s' = set_refs (<[r := f x]> (refs s)) s.
Proof.
  unfold upd_ref. intros E. apply M_bind_Ok in E as (x & s1 & E1 & E).
  apply get_ref_Ok in E1 as [E1 ->]. apply modify_Ok in E. eauto.
Qed.
Lemma upd_death_Ok d f u s s' :
  upd_death d f s = Ok (u, s') ->
  exists x, deaths s !! d = Some x /\ s' = set_deaths (<[d := f x]> (deaths s)) s.
Proof.
  unfold upd_death. intros E. apply M_bind_Ok in E as (x & s1 & E1 & E).
  apply get_death_Ok in E1 as [E1 ->]. apply modify_Ok in E. eauto.
Qed.
Lemma upd_transaction_Ok t f u s s' :
  upd_transaction t f s = Ok (u, s') ->
  exists x, transactions s !! t = Some x /\
    s' = set_transactions (<[t := f x]> (transactions s)) s.
Proof.
  unfold upd_transaction. intros E. apply M_bind_Ok in E as (x & s1 & E1 & E).
  apply get_transaction_Ok in E1 as [E1 ->]. apply modify_Ok in E. eauto.
Qed.

Lemma binder_user_error_Ok u s s' :
  binder_user_error s = Ok (u, s') -> s' = after_user_error s.
Proof. unfold binder_user_error. intros E. apply modify_Ok in E. exact E. Qed.

Lemma list_empty_Ok l b s s' :
  list_empty l s = Ok (b, s') -> b = bool_decide (list_of s l = []) /\ s' = s.
Proof. unfold list_empty. intros E. injection E as <- <-. auto. Qed.

Lemma entry_unlinked_Ok w b s s' :
  entry_unlinked w s = Ok (b, s') -> b = bool_decide (entries s !! w = None) /\ s' = s.
Proof. unfold entry_unlinked. intros E. injection E as <- <-. auto. Qed.

(** *** Relations every step of a function keeps *)

Section preserves.
Context (R : binder_state -> binder_state -> Prop) `{!PreOrder R}.

Lemma preserves_ret {A} (a : A) : preserves R (mret a).
Proof. intros s b s' E. apply M_ret_Ok in E as [_ ->]. reflexivity. Qed.

Lemma preserves_bind {A B} (m : M A) (f : A -> M B) :
  preserves R m -> (forall a, preserves R (f a)) -> preserves R (m ≫= f).
Proof.
  intros Hm Hf s b s' E. apply M_bind_Ok in E as (a & s1 & E1 & E).
  transitivity s1; [eapply Hm | eapply Hf]; eassumption.
Qed.

Lemma preserves_read {A} (m : M A) :
  (forall s a s', m s = Ok (a, s') -> s' = s) -> preserves R m.
Proof. intros Hm s a s' E. apply Hm in E as ->. reflexivity. Qed.

Lemma preserves_modify f : (forall s, R s (f s)) -> preserves R (modify f).
Proof. intros Hf s u s' E. apply modify_Ok in E as ->. apply Hf. Qed.

Lemma preserves_get_state : preserves R get_state.
Proof. apply preserves_read. intros s a s' E. apply get_state_Ok in E. tauto. Qed.
Lemma preserves_deref {A} (o : option A) : preserves R (deref o).
Proof. apply preserves_read. intros s a s' E. apply deref_Ok in E. tauto. Qed.
Lemma preserves_get_proc p : preserves R (get_proc p).
Proof. apply preserves_read. intros s a s' E. apply get_proc_Ok in E. tauto. Qed.
Lemma preserves_get_thread t : preserves R (get_thread t).
Proof. apply preserves_read. intros s a s' E. apply get_thread_Ok in E. tauto. Qed.
Lemma preserves_get_node n : preserves R (get_node n).
Proof. apply preserves_read. intros s a s' E. apply get_node_Ok in E. tauto. Qed.
Lemma preserves_get_ref r : preserves R (get_ref r).
Proof. apply preserves_read. intros s a s' E. apply get_ref_Ok in E. tauto. Qed.
Lemma preserves_get_death d : preserves R (get_death d).
Proof. apply preserves_read. intros s a s' E. apply get_death_Ok in E. tauto. Qed.
Lemma preserves_get_transaction t : preserves R (get_transaction t).
Proof. apply preserves_read. intros s a s' E. apply get_transaction_Ok in E. tauto. Qed.
Lemma preserves_lift_result {A} (r : result A) : preserves R (lift_result r).
Proof. apply preserves_read. intros s a s' E. apply lift_result_Ok in E. tauto. Qed.
Lemma preserves_M_BUG_ON c : preserves R (M_BUG_ON c).
Proof. apply preserves_read. intros s a s' E. apply M_BUG_ON_Ok in E. tauto. Qed.
Lemma preserves_BUG {A} : preserves R (@BUG A).
Proof. intros s a s' E. discriminate. Qed.
Lemma preserves_fault {A} : preserves R (@fault A).
Proof. intros s a s' E. discriminate. Qed.
Lemma preserves_spin {A} : preserves R (@spin A).
Proof. intros s a s' E. discriminate. Qed.
Lemma preserves_list_empty l : preserves R (list_empty l).
Proof. apply preserves_read. intros s a s' E. apply list_empty_Ok in E. tauto. Qed.
Lemma preserves_entry_unlinked w : preserves R (entry_unlinked w).
Proof. apply preserves_read. intros s a s' E. apply entry_unlinked_Ok in E. tauto. Qed.

Lemma preserves_upd_proc p f :
  (forall s x, procs s !! p = Some x -> R s (set_procs (<[p := f x]> (procs s)) s)) ->
  preserves R (upd_proc p f).
Proof. intros Hf s u s' E. apply upd_proc_Ok in E as (x & E & ->). auto. Qed.
Lemma preserves_upd_thread t f :
  (forall s x, threads s !! t = Some x ->
     R s (set_threads (<[t := f x]> (threads s)) s)) ->
  preserves R (upd_thread t f).
Proof. intros Hf s u s' E. apply upd_thread_Ok in E as (x & E & ->). auto. Qed.
Lemma preserves_upd_node n f :
  (forall s x, nodes s !! n = Some x -> R s (set_nodes (<[n := f x]> (nodes s)) s)) ->
  preserves R (upd_node n f).
Proof. intros Hf s u s' E. apply upd_node_Ok in E as (x & E & ->). auto. Qed.
Lemma preserves_upd_ref r f :
  (forall s x, refs s !! r = Some x -> R s (set_refs (<[r := f x]> (refs s)) s)) ->
  preserves R (upd_ref r f).
Proof. intros Hf s u s' E. apply upd_ref_Ok in E as (x & E & ->). auto. Qed.
Lemma preserves_upd_death d f :
  (forall s x, deaths s !! d = Some x ->
     R s (set_deaths (<[d := f x]> (deaths s)) s)) ->
  preserves R (upd_death d f).
Proof. intros Hf s u s' E. apply upd_death_Ok in E as (x & E & ->). auto. Qed.
Lemma preserves_upd_transaction t f :
  (forall s x, transactions s !! t = Some x ->
     R s (set_transactions (<[t := f x]> (transactions s)) s)) ->
  preserves R (upd_transaction t f).
Proof. intros Hf s u s' E. apply upd_transaction_Ok in E as (x & E & ->). auto. Qed.

Lemma preserves_in_proc {A} p (f : binder_proc -> result (A * binder_proc)) :
  (forall s x a x', procs s !! p = Some x -> f x = Ok (a, x') ->
     R s (set_procs (<[p := x']> (procs s)) s)) ->
  preserves R (in_proc p f).
Proof.
  intros Hf s a s' E. unfold in_proc in E.
  destruct (procs s !! p) as [x|] eqn:Ep; [|discriminate].
  destruct (f x) as [[a' x']| | |] eqn:Ef; try discriminate.
  injection E as <- <-. eauto.
Qed.

End preserves.

Lemma kzalloc_Ok a s s' :
  kzalloc s = Ok (a, s') ->
  exists script,
    (a = None /\ s' = set_kzalloc (next_ptr s) script s) \/
    (a = Some (next_ptr s) /\ s' = set_kzalloc (next_ptr s + 1) script s).
Proof.
  unfold kzalloc. destruct (kzalloc_script s) as [|[] rest]; intros E;
    injection E as <- <-; eauto.
Qed.

Lemma next_debug_id_Ok a s s' :
  next_debug_id s = Ok (a, s') -> s' = set_binder_last_id a s.
Proof. unfold next_debug_id. intros E. injection E as <- <-. reflexivity. Qed.

Lemma preserves_kzalloc R :
  (forall s ptr script, next_ptr s <= ptr -> R s (set_kzalloc ptr script s)) ->
  preserves R kzalloc.
Proof.
  intros HR s a s' E. apply kzalloc_Ok in E as (script & [[_ ->]|[_ ->]]);
    apply HR; lia.
Qed.

Lemma preserves_next_debug_id R :
  (forall s id, R s (set_binder_last_id id s)) -> preserves R next_debug_id.
Proof. intros HR s a s' E. apply next_debug_id_Ok in E as ->. apply HR. Qed.

Lemma preserves_list_del_init R w :
  (forall s, R s s) ->
  (forall s l, entries s !! w = Some l ->
     R s (set_lists (<[l := remove_first w (list_of s l)]> (lists s))
            (delete w (entries s)) s)) ->
  preserves R (list_del_init w).
Proof.
  intros Hr HR s u s' E. apply modify_Ok in E as ->.
  destruct (entries s !! w) eqn:Ew; auto.
Qed.

Lemma pages_available_Ok ok s s' :
  pages_available s = Ok (ok, s') -> s' = s \/ exists l, s' = set_pages_script l s.
Proof.
  unfold pages_available. destruct (pages_script s) as [|b l]; intros E;
    injection E as <- <-; eauto.
Qed.

Lemma preserves_pages_available R :
  (forall s, R s s) -> (forall s l, R s (set_pages_script l s)) ->
  preserves R pages_available.
Proof.
  intros Hr HR s a s' E. apply pages_available_Ok in E as [->|[l ->]]; auto.
Qed.

(** One step of a proof that a function keeps a relation: split the code at
    its binds and branches, down to the stores. *)
Ltac preserves_step :=
  match goal with
  | |- preserves _ (mret _) => apply preserves_ret
  | |- preserves _ (mbind _ _) => apply preserves_bind; [| |intros ?]
  | |- preserves _ get_state => apply preserves_get_state
  | |- preserves _ (deref _) => apply preserves_deref
  | |- preserves _ (get_proc _) => apply preserves_get_proc
  | |- preserves _ (get_thread _) => apply preserves_get_thread
  | |- preserves _ (get_node _) => apply preserves_get_node
  | |- preserves _ (get_ref _) => apply preserves_get_ref
  | |- preserves _ (get_death _) => apply preserves_get_death
  | |- preserves _ (get_transaction _) => apply preserves_get_transaction
  | |- preserves _ (M_BUG_ON _) => apply preserves_M_BUG_ON
  | |- preserves _ (lift_result _) => apply preserves_lift_result
  | |- preserves _ BUG => apply preserves_BUG
  | |- preserves _ fault => apply preserves_fault
  | |- preserves _ spin => apply preserves_spin
  | |- preserves _ (list_empty _) => apply preserves_list_empty
  | |- preserves _ (entry_unlinked _) => apply preserves_entry_unlinked
  | |- preserves _ (when _ _) => unfold when
  | |- preserves _ (list_add_tail _ _) => unfold list_add_tail
  | |- preserves _ (list_add _ _) => unfold list_add
  | |- preserves _ (list_del _) => unfold list_del
  | |- preserves _ (list_move _ _) => unfold list_move
  | |- preserves _ (list_move_tail _ _) => unfold list_move_tail
  | |- preserves _ (wake_up_interruptible _) => unfold wake_up_interruptible
  | |- preserves _ (kfree_transaction _) => unfold kfree_transaction
  | |- preserves _ (kfree_tcomplete _) => unfold kfree_tcomplete
  | |- preserves _ (kfree_death _) => unfold kfree_death
  | |- preserves _ binder_user_error => unfold binder_user_error
  | |- preserves _ (get_buffer _) => unfold get_buffer
  | |- preserves _ (alloc_buf _ _ _ _) => unfold alloc_buf
  | |- preserves _ (free_buf _) => unfold free_buf
  | |- preserves _ (queue_death _ _ _) => unfold queue_death
  | |- preserves _ (ioctl_leave _) => unfold ioctl_leave
  | |- preserves _ (upd_buffer _ _) => unfold upd_buffer
  | |- preserves _ (read_word _ _) => unfold read_word
  | |- preserves _ (write_word _ _ _) => unfold write_word
  | |- preserves _ (read_object _ _) => unfold read_object
  | |- preserves _ (if ?c then _ else _) => destruct c eqn:?
  | |- preserves _ (match ?x with _ => _ end) => destruct x eqn:?
  | |- PreOrder _ => typeclasses eauto
  end.

(** The stores that are left, each closed by [fin] on the relation between
    the state and the state after the store. *)
Ltac preserves_store fin :=
  match goal with
  | |- preserves _ (modify _) => apply preserves_modify; intros ?; fin
  | |- preserves _ (upd_proc _ _) => apply preserves_upd_proc; intros ? ? ?; fin
  | |- preserves _ (upd_thread _ _) => apply preserves_upd_thread; intros ? ? ?; fin
  | |- preserves _ (upd_node _ _) => apply preserves_upd_node; intros ? ? ?; fin
  | |- preserves _ (upd_ref _ _) => apply preserves_upd_ref; intros ? ? ?; fin
  | |- preserves _ (upd_death _ _) => apply preserves_upd_death; intros ? ? ?; fin
  | |- preserves _ (upd_transaction _ _) =>
      apply preserves_upd_transaction; intros ? ? ?; fin
  | |- preserves _ kzalloc => apply preserves_kzalloc; intros ? ? ? ?; fin
  | |- preserves _ next_debug_id => apply preserves_next_debug_id; intros ? ?; fin
  | |- preserves _ (list_del_init _) =>
      apply preserves_list_del_init; [intros ?|intros ? ? ?]; fin
  | |- preserves _ pages_available =>
      apply preserves_pages_available; [intros ?|intros ? ?]; fin
  | |- preserves _ (in_proc _ _) =>
      apply preserves_in_proc; intros ? ? ? ? ? ?; fin
  end.

Create HintDb preserves discriminated.

(** Calls are closed by the lemmas of the hint database [preserves]. *)
Ltac preserves_with fin :=
  repeat first
    [ solve [auto 1 with preserves nocore]
    | preserves_step
    | preserves_store fin ].

(** Running a piece of code backwards from its result: one bind, read,
    store or branch of the hypothesis at a time. *)
Ltac minv_step :=
  match goal with
  | E : mbind _ _ _ = Ok _ |- _ => apply M_bind_Ok in E as (? & ? & ? & E)
  | E : mret _ _ = Ok _ |- _ => apply M_ret_Ok in E as [? ?]; subst
  | E : get_state _ = Ok _ |- _ => apply get_state_Ok in E as [? ?]; subst
  | E : deref _ _ = Ok _ |- _ => apply deref_Ok in E as [? ?]; subst
  | E : get_proc _ _ = Ok _ |- _ => apply get_proc_Ok in E as [? ?]; subst
  | E : get_thread _ _ = Ok _ |- _ => apply get_thread_Ok in E as [? ?]; subst
  | E : get_node _ _ = Ok _ |- _ => apply get_node_Ok in E as [? ?]; subst
  | E : get_ref _ _ = Ok _ |- _ => apply get_ref_Ok in E as [? ?]; subst
  | E : get_death _ _ = Ok _ |- _ => apply get_death_Ok in E as [? ?]; subst
  | E : get_transaction _ _ = Ok _ |- _ =>
      apply get_transaction_Ok in E as [? ?]; subst
  | E : M_BUG_ON _ _ = Ok _ |- _ => apply M_BUG_ON_Ok in E as [? ?]; subst
  | E : lift_result _ _ = Ok _ |- _ => apply lift_result_Ok in E as [? ?]; subst
  | E : list_empty _ _ = Ok _ |- _ => apply list_empty_Ok in E as [? ?]; subst
  | E : entry_unlinked _ _ = Ok _ |- _ => apply entry_unlinked_Ok in E as [? ?]; subst
  | E : modify _ _ = Ok _ |- _ => apply modify_Ok in E; subst
  | E : binder_user_error _ = Ok _ |- _ => apply binder_user_error_Ok in E; subst
  | E : upd_proc _ _ _ = Ok _ |- _ => apply upd_proc_Ok in E as (? & ? & ?); subst
  | E : upd_thread _ _ _ = Ok _ |- _ => apply upd_thread_Ok in E as (? & ? & ?); subst
  | E : upd_node _ _ _ = Ok _ |- _ => apply upd_node_Ok in E as (? & ? & ?); subst
  | E : upd_ref _ _ _ = Ok _ |- _ => apply upd_ref_Ok in E as (? & ? & ?); subst
  | E : upd_death _ _ _ = Ok _ |- _ => apply upd_death_Ok in E as (? & ? & ?); subst
  | E : upd_transaction _ _ _ = Ok _ |- _ =>
      apply upd_transaction_Ok in E as (? & ? & ?); subst
  | E : BUG _ = Ok _ |- _ => discriminate E
  | E : fault _ = Ok _ |- _ => discriminate E
  | E : spin _ = Ok _ |- _ => discriminate E
  | E : when ?c _ _ = Ok _ |- _ => unfold when in E
  | E : (if ?c then _ else _) _ = Ok _ |- _ => destruct c eqn:?
  | E : match ?x with _ => _ end _ = Ok _ |- _ => destruct x eqn:?
  end.

Ltac minv := repeat minv_step.

(** *** Running code forwards *)

(** Projections of a record applied to setters. *)
Ltac state_simpl :=
  cbn [
      b_addr b_free b_transaction b_target_node b_allow_user_free
      b_async_transaction b_debug_id b_data_size b_offsets_size b_data fdt_fd
      fdt_open_fds fdt_close_on_exec fdt_max_fds next_fd p_pid p_euid p_files
      p_rlim_nofile p_buffer_size p_buffer p_vma p_user_buffer_offset
      p_buffers p_free_buffers p_allocated_buffers p_free_async_space
      p_threads p_max_threads p_requested_threads p_requested_threads_started
      p_ready_threads p_default_priority p_nodes p_refs_by_desc
      p_refs_by_node p_deferred_work set_b_free set_b_transaction
      set_b_target_node set_b_allow_user_free set_b_debug_id set_b_data
      set_b_sizes new_free_buffer set_p_files set_p_vma set_p_buffers
      set_p_free_buffers set_p_allocated_buffers set_p_free_async_space
      set_p_threads set_p_max_threads set_p_requested_threads
      set_p_requested_threads_started set_p_ready_threads set_p_nodes
      set_p_refs_by_desc set_p_refs_by_node set_p_deferred_work set_p_mapping
      set_p_arena n_debug_id n_proc n_refs n_internal_strong_refs
      n_local_strong_refs n_local_weak_refs n_has_strong_ref n_has_weak_ref
      n_pending_strong_ref n_pending_weak_ref n_cookie n_ptr
      n_has_async_transaction n_accept_fds n_min_priority d_work_type
      d_cookie r_debug_id r_node r_desc r_proc r_strong r_weak r_death
      th_proc th_pid th_looper th_transaction_stack th_return_error
      th_return_error2 t_debug_id t_need_reply t_from t_sender_euid t_to_proc
      t_to_thread t_buffer t_code t_flags t_from_parent t_to_parent procs
      threads nodes refs deaths transactions tcompletes lists entries wakeups
      binder_context_mgr_node binder_context_mgr_uid binder_dead_nodes
      binder_procs binder_last_id binder_stop_on_user_error user_errors
      next_ptr kzalloc_script pages_script set_n_refs
      set_n_internal_strong_refs set_n_local_strong_refs
      set_n_local_weak_refs set_n_has_strong_ref set_n_has_weak_ref
      set_n_pending_strong_ref set_n_pending_weak_ref
      set_n_has_async_transaction set_n_policy set_n_orphan set_d_work_type
      set_r_strong set_r_weak set_r_death set_th_looper
      set_th_transaction_stack set_th_return_error set_th_return_error2
      set_t_need_reply set_t_from set_t_buffer set_t_from_parent set_t_to
      set_t_delivered set_procs set_threads set_nodes set_refs set_deaths
      set_transactions set_tcompletes set_wakeups set_binder_context_mgr_node
      set_binder_dead_nodes set_binder_procs set_binder_last_id
      set_pages_script set_lists set_context_mgr set_user_error set_kzalloc after_user_error ].
Ltac state_simpl_in H :=
  cbn [
      b_addr b_free b_transaction b_target_node b_allow_user_free
      b_async_transaction b_debug_id b_data_size b_offsets_size b_data fdt_fd
      fdt_open_fds fdt_close_on_exec fdt_max_fds next_fd p_pid p_euid p_files
      p_rlim_nofile p_buffer_size p_buffer p_vma p_user_buffer_offset
      p_buffers p_free_buffers p_allocated_buffers p_free_async_space
      p_threads p_max_threads p_requested_threads p_requested_threads_started
      p_ready_threads p_default_priority p_nodes p_refs_by_desc
      p_refs_by_node p_deferred_work set_b_free set_b_transaction
      set_b_target_node set_b_allow_user_free set_b_debug_id set_b_data
      set_b_sizes new_free_buffer set_p_files set_p_vma set_p_buffers
      set_p_free_buffers set_p_allocated_buffers set_p_free_async_space
      set_p_threads set_p_max_threads set_p_requested_threads
      set_p_requested_threads_started set_p_ready_threads set_p_nodes
      set_p_refs_by_desc set_p_refs_by_node set_p_deferred_work set_p_mapping
      set_p_arena n_debug_id n_proc n_refs n_internal_strong_refs
      n_local_strong_refs n_local_weak_refs n_has_strong_ref n_has_weak_ref
      n_pending_strong_ref n_pending_weak_ref n_cookie n_ptr
      n_has_async_transaction n_accept_fds n_min_priority d_work_type
      d_cookie r_debug_id r_node r_desc r_proc r_strong r_weak r_death
      th_proc th_pid th_looper th_transaction_stack th_return_error
      th_return_error2 t_debug_id t_need_reply t_from t_sender_euid t_to_proc
      t_to_thread t_buffer t_code t_flags t_from_parent t_to_parent procs
      threads nodes refs deaths transactions tcompletes lists entries wakeups
      binder_context_mgr_node binder_context_mgr_uid binder_dead_nodes
      binder_procs binder_last_id binder_stop_on_user_error user_errors
      next_ptr kzalloc_script pages_script set_n_refs
      set_n_internal_strong_refs set_n_local_strong_refs
      set_n_local_weak_refs set_n_has_strong_ref set_n_has_weak_ref
      set_n_pending_strong_ref set_n_pending_weak_ref
      set_n_has_async_transaction set_n_policy set_n_orphan set_d_work_type
      set_r_strong set_r_weak set_r_death set_th_looper
      set_th_transaction_stack set_th_return_error set_th_return_error2
      set_t_need_reply set_t_from set_t_buffer set_t_from_parent set_t_to
      set_t_delivered set_procs set_threads set_nodes set_refs set_deaths
      set_transactions set_tcompletes set_wakeups set_binder_context_mgr_node
      set_binder_dead_nodes set_binder_procs set_binder_last_id
      set_pages_script set_lists set_context_mgr set_user_error set_kzalloc after_user_error ] in H.

Lemma mret_run {A} (a : A) s : (mret a : M A) s = Ok (a, s).
Proof. reflexivity. Qed.
Lemma get_state_run s : get_state s = Ok (s, s).
Proof. reflexivity. Qed.
Lemma modify_run f s : modify f s = Ok (tt, f s).
Proof. reflexivity. Qed.
Lemma binder_user_error_run s : binder_user_error s = Ok (tt, after_user_error s).
Proof. reflexivity. Qed.
Lemma deref_run {A} (o : option A) a s : o = Some a -> deref o s = Ok (a, s).
Proof. intros ->. reflexivity. Qed.
Lemma M_BUG_ON_run c s : c = false -> M_BUG_ON c s = Ok (tt, s).
Proof. intros ->. reflexivity. Qed.
Lemma get_proc_run p x s : procs s !! p = Some x -> get_proc p s = Ok (x, s).
Proof. intros E. unfold get_proc. rewrite E. reflexivity. Qed.
Lemma get_thread_run t x s : threads s !! t = Some x -> get_thread t s = Ok (x, s).
Proof. intros E. unfold get_thread. rewrite E. reflexivity. Qed.
Lemma get_node_run n x s : nodes s !! n = Some x -> get_node n s = Ok (x, s).
Proof. intros E. unfold get_node. rewrite E. reflexivity. Qed.
Lemma get_ref_run r x s : refs s !! r = Some x -> get_ref r s = Ok (x, s).
Proof. intros E. unfold get_ref. rewrite E. reflexivity. Qed.
Lemma get_death_run d x s : deaths s !! d = Some x -> get_death d s = Ok (x, s).
Proof. intros E. unfold get_death. rewrite E. reflexivity. Qed.
Lemma get_transaction_run t x s :
  transactions s !! t = Some x -> get_transaction t s = Ok (x, s).
Proof. intros E. unfold get_transaction. rewrite E. reflexivity. Qed.
Lemma upd_proc_run p f x s :
  procs s !! p = Some x ->
  upd_proc p f s = Ok (tt, set_procs (<[p := f x]> (procs s)) s).
Proof. intros E. unfold upd_proc. rewrite (M_bind_Ok_intro _ _ _ _ _ (get_proc_run _ _ _ E)). reflexivity. Qed.
Lemma upd_thread_run t f x s :
  threads s !! t = Some x ->
  upd_thread t f s = Ok (tt, set_threads (<[t := f x]> (threads s)) s).
Proof. intros E. unfold upd_thread. rewrite (M_bind_Ok_intro _ _ _ _ _ (get_thread_run _ _ _ E)). reflexivity. Qed.
Lemma upd_node_run n f x s :
  nodes s !! n = Some x ->
  upd_node n f s = Ok (tt, set_nodes (<[n := f x]> (nodes s)) s).
Proof. intros E. unfold upd_node. rewrite (M_bind_Ok_intro _ _ _ _ _ (get_node_run _ _ _ E)). reflexivity. Qed.
Lemma upd_ref_run r f x s :
  refs s !! r = Some x ->
  upd_ref r f s = Ok (tt, set_refs (<[r := f x]> (refs s)) s).
Proof. intros E. unfold upd_ref. rewrite (M_bind_Ok_intro _ _ _ _ _ (get_ref_run _ _ _ E)). reflexivity. Qed.
Lemma upd_death_run d f x s :
  deaths s !! d = Some x ->
  upd_death d f s = Ok (tt, set_deaths (<[d := f x]> (deaths s)) s).
Proof. intros E. unfold upd_death. rewrite (M_bind_Ok_intro _ _ _ _ _ (get_death_run _ _ _ E)). reflexivity. Qed.
Lemma upd_transaction_run t f x s :
  transactions s !! t = Some x ->
  upd_transaction t f s
    = Ok (tt, set_transactions (<[t := f x]> (transactions s)) s).
Proof. intros E. unfold upd_transaction. rewrite (M_bind_Ok_intro _ _ _ _ _ (get_transaction_run _ _ _ E)). reflexivity. Qed.
Lemma list_empty_run l s : list_empty l s = Ok (bool_decide (list_of s l = []), s).
Proof. reflexivity. Qed.
Lemma entry_unlinked_run w s :
  entry_unlinked w s = Ok (bool_decide (entries s !! w = None), s).
Proof. reflexivity. Qed.

(** A lookup in a map of the current state. *)
Ltac lookup_now :=
  state_simpl;
  first
    [ eassumption
    | apply lookup_insert_eq
    | rewrite lookup_insert_ne by (first [assumption | congruence | discriminate]);
      lookup_now ].

(** The result of the first action of the code in the goal. *)
Ltac run_head :=
  first
    [ apply mret_run
    | apply get_state_run
    | apply modify_run
    | apply binder_user_error_run
    | apply list_empty_run
    | apply entry_unlinked_run
    | apply get_proc_run; lookup_now
    | apply get_thread_run; lookup_now
    | apply get_node_run; lookup_now
    | apply get_ref_run; lookup_now
    | apply get_death_run; lookup_now
    | apply get_transaction_run; lookup_now
    | apply upd_proc_run; lookup_now
    | apply upd_thread_run; lookup_now
    | apply upd_node_run; lookup_now
    | apply upd_ref_run; lookup_now
    | apply upd_death_run; lookup_now
    | apply upd_transaction_run; lookup_now
    | apply deref_run; first [eassumption | reflexivity]
    | apply M_BUG_ON_run; first [eassumption | reflexivity]
    | eassumption ].

Lemma M_bind_assoc {A B C} (m : M A) (g : A -> M B) (f : B -> M C) s :
  ((m ≫= g) ≫= f) s = (m ≫= fun a => g a ≫= f) s.
Proof. unfold mbind, M_bind. destruct (m s) as [[a s1]| | |]; reflexivity. Qed.

Lemma M_bind_if {A B} (c : bool) (m1 m2 : M A) (f : A -> M B) s :
  ((if c then m1 else m2) ≫= f) s = if c then (m1 ≫= f) s else (m2 ≫= f) s.
Proof. destruct c; reflexivity. Qed.

(** Run the code on the left of the goal by one bind. *)
Ltac mrun_step :=
  match goal with
  | |- mbind ?f (mbind ?g ?m) ?s = _ => rewrite (M_bind_assoc m g f s)
  | |- mbind ?f (when ?c ?m) ?s = _ =>
      change (when c m) with (if c then m else mret tt)
  | |- mbind ?f (if ?c then ?m1 else ?m2) ?s = _ =>
      first [ rewrite (M_bind_if c m1 m2 f s);
              match goal with
              | Hc : c = true |- _ => rewrite Hc
              | Hc : c = false |- _ => rewrite Hc
              end
            | fail 1 ]
  | |- mbind ?f ?m ?s = _ =>
      let H := fresh "Hrun" in
      eassert (H : m s = Ok _) by (run_head);
      rewrite (M_bind_Ok_intro m f s _ _ H); clear H; cbv beta; state_simpl
  | |- (if ?c then _ else _) ?s = _ =>
      match goal with
      | Hc : c = true |- _ => rewrite Hc
      | Hc : c = false |- _ => rewrite Hc
      end
  | |- when ?c ?m ?s = _ => unfold when
  | |- mret _ _ = Ok _ => apply mret_run
  end.

Ltac mrun := repeat mrun_step.

(** ** Reference counts *)

Global Instance refs_shrink_preorder : PreOrder refs_shrink.
Proof.
  split; [intros s ref r; auto|].
  intros s1 s2 s3 H12 H23 ref r Hr. auto.
Qed.

Ltac refs_same := solve [intros ? ?; cbn; auto].

Lemma binder_dec_node_refs node strong internal :
  preserves refs_shrink (binder_dec_node node strong internal).
Proof. unfold binder_dec_node. preserves_with refs_same. Qed.
#[export] Hint Resolve binder_dec_node_refs : preserves.

Lemma binder_delete_ref_refs ref : preserves refs_shrink (binder_delete_ref ref).
Proof.
  unfold binder_delete_ref. preserves_with refs_same.
  all: apply preserves_modify; intros s r x; cbn; intros Hx;
    apply lookup_delete_Some in Hx; tauto.
Qed.
#[export] Hint Resolve binder_delete_ref_refs : preserves.

Lemma binder_dec_ref_zero s ref r (strong : bool) :
  refs s !! ref = Some r ->
  (if strong then r_strong r else r_weak r) = 0 ->
  binder_dec_ref ref strong s = Ok (- EINVAL, after_user_error s).
Proof.
  intros Hr Hz. unfold binder_dec_ref.
  rewrite (M_bind_Ok_intro _ _ s r s) by (unfold get_ref; rewrite Hr; reflexivity).
  destruct strong; rewrite Hz; reflexivity.
Qed.

Lemma int32_small x : - 2 ^ 31 <= x < 2 ^ 31 -> int32 x = x.
Proof.
  intros Hx. unfold int32.
  rewrite Z.mod_small by lia. lia.
Qed.

Lemma refs_shrink_counts s s' : refs_shrink s s' -> ref_counts_ok s -> ref_counts_ok s'.
Proof. intros Hs Hc ref r Hr. eapply Hc, Hs, Hr. Qed.

Lemma ref_counts_ok_dec s ref r (strong : bool) :
  ref_counts_ok s -> refs s !! ref = Some r ->
  (if strong then r_strong r else r_weak r) <> 0 ->
  ref_counts_ok
    (set_refs (<[ref := if strong then set_r_strong (int32 (r_strong r - 1)) r
                        else set_r_weak (int32 (r_weak r - 1)) r]> (refs s)) s).
Proof.
  intros Hc Hr Hnz ref' r'. cbn. intros Hr'.
  destruct (Hc ref r Hr) as [Hs Hw].
  apply lookup_insert_Some in Hr' as [[<- <-]|[_ Hr']]; [|eapply Hc; eauto].
  destruct strong; cbn; rewrite int32_small by lia; lia.
Qed.

Lemma binder_dec_ref_counts ref strong s ret s' :
  binder_dec_ref ref strong s = Ok (ret, s') ->
  ref_counts_ok s -> ref_counts_ok s'.
Proof.
  intros E Hc. unfold binder_dec_ref in E.
  apply M_bind_Ok in E as (r & s0 & Er & E). apply get_ref_Ok in Er as [Er ->].
  apply M_bind_Ok in E as (ret0 & s1 & E1 & E).
  assert (H1 : ref_counts_ok s1).
  { destruct strong.
    - destruct (r_strong r =? 0) eqn:Ez.
      + minv; exact Hc.
      + apply Z.eqb_neq in Ez.
        apply M_bind_Ok in E1 as ([] & s2 & E1 & E2).
        apply upd_ref_Ok in E1 as (x & Ex & ->).
        assert (x = r) by congruence. subst x.
        pose proof (ref_counts_ok_dec s ref r true Hc Er Ez) as H2.
        cbn iota in H2.
        apply M_bind_Ok in E2 as (r2 & s3 & E3 & E2).
        apply get_ref_Ok in E3 as [_ ->].
        destruct (r_strong r2 =? 0).
        * eapply refs_shrink_counts; [|exact H2].
          eapply binder_dec_node_refs; exact E2.
        * minv; exact H2.
    - destruct (r_weak r =? 0) eqn:Ez.
      + minv; exact Hc.
      + apply Z.eqb_neq in Ez.
        apply M_bind_Ok in E1 as ([] & s2 & E1 & E2).
        apply upd_ref_Ok in E1 as (x & Ex & ->).
        assert (x = r) by congruence. subst x.
        pose proof (ref_counts_ok_dec s ref r false Hc Er Ez) as H2.
        minv; exact H2. }
  destruct (negb (ret0 =? 0)); [minv; exact H1|].
  apply M_bind_Ok in E as (r3 & s3 & E3 & E). apply get_ref_Ok in E3 as [_ ->].
  apply M_bind_Ok in E as ([] & s4 & E4 & E). apply M_ret_Ok in E as [_ ->].
  unfold when in E4. destruct (_ && _).
  - eapply refs_shrink_counts; [|exact H1]. eapply binder_delete_ref_refs; exact E4.
  - minv; exact H1.
Qed.

Section refcount_commands.
Context `{layout}.

Lemma release_command_zero s proc thread target ref r (strong : bool) e :
  binder_get_ref proc target s = Ok (Some ref, s) ->
  refs s !! ref = Some r ->
  (if strong then r_strong r else r_weak r) = 0 ->
  binder_command proc thread (if strong then BC_RELEASE target else BC_DECREFS target)
    e s = Ok (None, after_user_error s).
Proof.
  intros Hg Hr Hz.
  pose proof (binder_dec_ref_zero s ref r strong Hr Hz) as Hd.
  destruct strong; unfold binder_command.
  all: rewrite (M_bind_Ok_intro _ _ s s s) by reflexivity.
  all: rewrite andb_false_r.
  all: rewrite (M_bind_Ok_intro _ _ _ _ _ Hg).
  all: rewrite (M_bind_Ok_intro _ _ _ _ _ Hd).
  all: reflexivity.
Qed.

End refcount_commands.

Lemma find_ref_by_desc_Ok desc l : forall s x s',
  find_ref_by_desc desc l s = Ok (x, s') ->
  s' = s /\
  match x with
  | Some ref => In ref l /\ exists r, refs s !! ref = Some r /\ r_desc r = desc
  | None => forall ref, In ref l -> exists r, refs s !! ref = Some r /\ r_desc r <> desc
  end.
Proof.
  induction l as [|a l IH]; intros s x s' E; simpl in E.
  - apply M_ret_Ok in E as [-> ->]. split; [reflexivity|]. intros ref [].
  - apply M_bind_Ok in E as (r & s1 & Er & E). apply get_ref_Ok in Er as [Er ->].
    destruct (r_desc r =? desc) eqn:Ed.
    + apply M_ret_Ok in E as [-> ->]. apply Z.eqb_eq in Ed.
      split; [reflexivity|]. split; [left; reflexivity|eauto].
    + apply Z.eqb_neq in Ed. apply IH in E as [-> Hx]. split; [reflexivity|].
      destruct x as [ref|].
      * destruct Hx as [Hin Hr]. split; [right; exact Hin|exact Hr].
      * intros ref [<-|Hin]; eauto.
Qed.

Lemma binder_get_ref_Ok proc desc s x s' :
  binder_get_ref proc desc s = Ok (x, s') ->
  s' = s /\ exists p, procs s !! proc = Some p /\
  match x with
  | Some ref => In ref (p_refs_by_desc p) /\
                exists r, refs s !! ref = Some r /\ r_desc r = desc
  | None => forall ref, In ref (p_refs_by_desc p) ->
              exists r, refs s !! ref = Some r /\ r_desc r <> desc
  end.
Proof.
  unfold binder_get_ref. intros E.
  apply M_bind_Ok in E as (p & s1 & Ep & E). apply get_proc_Ok in Ep as [Ep ->].
  apply find_ref_by_desc_Ok in E as [-> Hx]. eauto.
Qed.

Section refcount_claims.
Context `{layout}.

Lemma release_command_counts proc thread target (strong : bool) e s x s' :
  binder_command proc thread (if strong then BC_RELEASE target else BC_DECREFS target)
    e s = Ok (x, s') ->
  ref_counts_ok s -> ref_counts_ok s'.
Proof.
  intros E Hc.
  assert (E' :
    (ref ← (binder_get_ref proc target : M (option Z));
     match ref with
     | None => binder_user_error;; mret None
     | Some ref => binder_dec_ref ref strong;; mret (None : option Z)
     end) s = Ok (x, s')).
  { destruct strong; unfold binder_command in E;
      rewrite (M_bind_Ok_intro _ _ s s s) in E by reflexivity;
      rewrite andb_false_r in E; exact E. }
  clear E. rename E' into E.
  apply M_bind_Ok in E as (found & s1 & Eg & E).
  apply binder_get_ref_Ok in Eg as [-> _].
  destruct found as [ref|].
  - apply M_bind_Ok in E as (ret & s2 & Ed & E). apply M_ret_Ok in E as [_ ->].
    eapply binder_dec_ref_counts; eauto.
  - minv; exact Hc.
Qed.

(** C10: BC_RELEASE (strong) or BC_DECREFS (weak) on a reference whose count
    of that kind is zero is rejected as a user error; the state it leaves is
    the one [binder_user_error] leaves, so the reference, its counts and
    every node are as before; and as every such command keeps the counts of
    all references within zero and the largest [int], no count becomes
    negative. *)
Theorem dec_of_zero_count_rejected s proc thread target ref r (strong : bool) e :
  binder_get_ref proc target s = Ok (Some ref, s) ->
  refs s !! ref = Some r ->
  (if strong then r_strong r else r_weak r) = 0 ->
  binder_command proc thread (if strong then BC_RELEASE target else BC_DECREFS target)
    e s = Ok (None, after_user_error s) /\
  refs (after_user_error s) !! ref = Some r /\
  refs (after_user_error s) = refs s /\
  nodes (after_user_error s) = nodes s /\
  user_errors (after_user_error s) = S (user_errors s) /\
  (forall s0 target0 (strong0 : bool) x s1,
     ref_counts_ok s0 ->
     binder_command proc thread
       (if strong0 then BC_RELEASE target0 else BC_DECREFS target0) e s0
       = Ok (x, s1) ->
     ref_counts_ok s1).
Proof.
  intros Hg Hr Hz. split; [eapply release_command_zero; eauto|].
  split; [exact Hr|]. split; [reflexivity|]. split; [reflexivity|].
  split; [reflexivity|].
  intros s0 target0 strong0 x s1 Hc E. eapply release_command_counts; eauto.
Qed.

End refcount_claims.

Lemma dec_of_zero_count_rejected_witness :
  let r := mk_binder_ref 2 0x300 1 0x100 0 1 None in
  binder_get_ref 0x100 1 witness_refs = Ok (Some 0x400, witness_refs) /\
  refs witness_refs !! 0x400 = Some r /\
  r_strong r = 0 /\
  @binder_command ilp32_layout 0x100 0x200 (BC_RELEASE 1) 0 witness_refs
    = Ok (None, after_user_error witness_refs).
Proof.
  intros r.
  assert (Hg : binder_get_ref 0x100 1 witness_refs = Ok (Some 0x400, witness_refs))
    by (vm_compute; reflexivity).
  assert (Hr : refs witness_refs !! 0x400 = Some r) by (vm_compute; reflexivity).
  split; [exact Hg|]. split; [exact Hr|]. split; [reflexivity|].
  exact (proj1 (@dec_of_zero_count_rejected ilp32_layout witness_refs 0x100 0x200 1
                  0x400 r true 0 Hg Hr eq_refl)).
Defined.

(** ** Looper registration *)

Lemma has_flag_lor_same x f : f <> 0 -> has_flag (Z.lor x f) f = true.
Proof.
  intros Hf. unfold has_flag. apply negb_true_iff, Z.eqb_neq.
  rewrite Z.land_lor_distr_l, Z.land_diag. intros E.
  apply Z.lor_eq_0_iff in E. tauto.
Qed.

Lemma has_flag_lor_other x g f : Z.land g f = 0 -> has_flag (Z.lor x g) f = has_flag x f.
Proof.
  intros Hg. unfold has_flag. rewrite Z.land_lor_distr_l, Hg, Z.lor_0_r. reflexivity.
Qed.

Lemma has_flag_lor_mono x g f : has_flag x f = true -> has_flag (Z.lor x g) f = true.
Proof.
  unfold has_flag. rewrite !negb_true_iff, !Z.eqb_neq, Z.land_lor_distr_l.
  intros Hx E. apply Z.lor_eq_0_iff in E. tauto.
Qed.

Section looper.
Context `{layout}.

Lemma register_looper_run s proc thread th p e :
  threads s !! thread = Some th -> procs s !! proc = Some p ->
  let refused := has_flag (th_looper th) BINDER_LOOPER_STATE_ENTERED ||
                 (p_requested_threads p =? 0) in
  exists s1 th1 p1,
    binder_command proc thread BC_REGISTER_LOOPER e s = Ok (None, s1) /\
    threads s1 !! thread = Some th1 /\ procs s1 !! proc = Some p1 /\
    th_looper th1 =
      Z.lor (if refused then Z.lor (th_looper th) BINDER_LOOPER_STATE_INVALID
             else th_looper th) BINDER_LOOPER_STATE_REGISTERED /\
    p_requested_threads p1 =
      (if refused then p_requested_threads p else int32 (p_requested_threads p - 1)) /\
    p_requested_threads_started p1 =
      (if refused then p_requested_threads_started p
       else int32 (p_requested_threads_started p + 1)).
Proof.
  intros Hth Hp refused. subst refused. unfold binder_command.
  destruct (has_flag (th_looper th) BINDER_LOOPER_STATE_ENTERED) eqn:He;
    [|destruct (p_requested_threads p =? 0) eqn:Hz]; cbn [orb].
  - do 3 eexists. split; [mrun; reflexivity|]. state_simpl.
    split; [apply lookup_insert_eq|]. split; [eassumption|].
    cbn. auto.
  - do 3 eexists. split; [mrun; reflexivity|]. state_simpl.
    split; [apply lookup_insert_eq|]. split; [eassumption|].
    cbn. auto.
  - do 3 eexists. split; [mrun; reflexivity|]. state_simpl.
    split; [apply lookup_insert_eq|]. split; [apply lookup_insert_eq|].
    cbn. auto.
Qed.

Lemma enter_looper_run s proc thread th e :
  threads s !! thread = Some th ->
  exists s1 th1,
    binder_command proc thread BC_ENTER_LOOPER e s = Ok (None, s1) /\
    threads s1 !! thread = Some th1 /\ procs s1 = procs s /\
    th_looper th1 =
      Z.lor (if has_flag (th_looper th) BINDER_LOOPER_STATE_REGISTERED
             then Z.lor (th_looper th) BINDER_LOOPER_STATE_INVALID
             else th_looper th) BINDER_LOOPER_STATE_ENTERED.
Proof.
  intros Hth. unfold binder_command.
  destruct (has_flag (th_looper th) BINDER_LOOPER_STATE_REGISTERED) eqn:Hr.
  - do 2 eexists. split; [mrun; reflexivity|]. state_simpl.
    split; [apply lookup_insert_eq|]. split; reflexivity.
  - do 2 eexists. split; [mrun; reflexivity|]. state_simpl.
    split; [apply lookup_insert_eq|]. split; reflexivity.
Qed.

(** C8: BC_ENTER_LOOPER and BC_REGISTER_LOOPER exclude each other: each
    sets its own flag whatever happens, and the one that comes second finds
    the flag of the first and marks the thread INVALID.  A BC_REGISTER_LOOPER
    from a thread that has not entered is refused (INVALID, no counter
    touched) unless [requested_threads] is positive, and otherwise takes one
    from [requested_threads], adds one to [requested_threads_started] and
    does not mark the thread. *)
Theorem looper_commands_exclusive s proc thread th p e :
  threads s !! thread = Some th -> procs s !! proc = Some p ->
  0 <= p_requested_threads p < 2 ^ 31 ->
  0 <= p_requested_threads_started p < 2 ^ 31 - 1 ->
  (exists s1 th1 p1,
     binder_command proc thread BC_REGISTER_LOOPER e s = Ok (None, s1) /\
     threads s1 !! thread = Some th1 /\ procs s1 !! proc = Some p1 /\
     has_flag (th_looper th1) BINDER_LOOPER_STATE_REGISTERED = true /\
     (if has_flag (th_looper th) BINDER_LOOPER_STATE_ENTERED ||
         negb (0 <? p_requested_threads p)
      then has_flag (th_looper th1) BINDER_LOOPER_STATE_INVALID = true /\
           p_requested_threads p1 = p_requested_threads p /\
           p_requested_threads_started p1 = p_requested_threads_started p
      else has_flag (th_looper th1) BINDER_LOOPER_STATE_INVALID
             = has_flag (th_looper th) BINDER_LOOPER_STATE_INVALID /\
           p_requested_threads p1 = p_requested_threads p - 1 /\
           p_requested_threads_started p1 = p_requested_threads_started p + 1) /\
     exists s2 th2,
       binder_command proc thread BC_ENTER_LOOPER e s1 = Ok (None, s2) /\
       threads s2 !! thread = Some th2 /\
       has_flag (th_looper th2) BINDER_LOOPER_STATE_INVALID = true) /\
  (exists s1 th1,
     binder_command proc thread BC_ENTER_LOOPER e s = Ok (None, s1) /\
     threads s1 !! thread = Some th1 /\ procs s1 = procs s /\
     has_flag (th_looper th1) BINDER_LOOPER_STATE_ENTERED = true /\
     has_flag (th_looper th1) BINDER_LOOPER_STATE_INVALID
       = has_flag (th_looper th) BINDER_LOOPER_STATE_REGISTERED ||
         has_flag (th_looper th) BINDER_LOOPER_STATE_INVALID /\
     exists s2 th2,
       binder_command proc thread BC_REGISTER_LOOPER e s1 = Ok (None, s2) /\
       threads s2 !! thread = Some th2 /\
       has_flag (th_looper th2) BINDER_LOOPER_STATE_INVALID = true).
Proof.
  intros Hth Hp Hreq Hstarted. split.
  - destruct (register_looper_run s proc thread th p e Hth Hp)
      as (s1 & th1 & p1 & E1 & Hth1 & Hp1 & Hl1 & Hr1 & Hs1).
    exists s1, th1, p1. split; [exact E1|]. split; [exact Hth1|]. split; [exact Hp1|].
    assert (Hreg : has_flag (th_looper th1) BINDER_LOOPER_STATE_REGISTERED = true)
      by (rewrite Hl1; apply has_flag_lor_same; discriminate).
    split; [exact Hreg|]. split.
    + replace (negb (0 <? p_requested_threads p)) with (p_requested_threads p =? 0)
        by (destruct (Z.eqb_spec (p_requested_threads p) 0),
                     (Z.ltb_spec 0 (p_requested_threads p)); simpl; lia).
      destruct (has_flag (th_looper th) BINDER_LOOPER_STATE_ENTERED ||
                (p_requested_threads p =? 0)) eqn:Hc.
      * split; [|auto]. rewrite Hl1.
        rewrite has_flag_lor_other by reflexivity.
        apply has_flag_lor_same. discriminate.
      * apply orb_false_iff in Hc as [_ Hz]. apply Z.eqb_neq in Hz.
        rewrite Hl1, Hr1, Hs1, !int32_small by lia.
        rewrite has_flag_lor_other by reflexivity. auto.
    + destruct (enter_looper_run s1 proc thread th1 e Hth1)
        as (s2 & th2 & E2 & Hth2 & _ & Hl2).
      exists s2, th2. split; [exact E2|]. split; [exact Hth2|].
      rewrite Hl2, Hreg. rewrite has_flag_lor_other by reflexivity.
      apply has_flag_lor_same. discriminate.
  - destruct (enter_looper_run s proc thread th e Hth)
      as (s1 & th1 & E1 & Hth1 & Hp1 & Hl1).
    exists s1, th1. split; [exact E1|]. split; [exact Hth1|]. split; [exact Hp1|].
    assert (Hent : has_flag (th_looper th1) BINDER_LOOPER_STATE_ENTERED = true)
      by (rewrite Hl1; apply has_flag_lor_same; discriminate).
    split; [exact Hent|]. split.
    + rewrite Hl1. rewrite has_flag_lor_other by reflexivity.
      destruct (has_flag (th_looper th) BINDER_LOOPER_STATE_REGISTERED); simpl.
      * apply has_flag_lor_same. discriminate.
      * reflexivity.
    + assert (Hp1' : procs s1 !! proc = Some p) by (rewrite Hp1; exact Hp).
      destruct (register_looper_run s1 proc thread th1 p e Hth1 Hp1')
        as (s2 & th2 & p2 & E2 & Hth2 & _ & Hl2 & _).
      exists s2, th2. split; [exact E2|]. split; [exact Hth2|].
      rewrite Hl2, Hent. cbn [orb]. rewrite has_flag_lor_other by reflexivity.
      apply has_flag_lor_same. discriminate.
Qed.

End looper.

Lemma looper_commands_exclusive_witness :
  let th := mk_binder_thread 0x100 1 0 None BR_OK BR_OK in
  exists p,
    threads witness_looper !! 0x200 = Some th /\
    procs witness_looper !! 0x100 = Some p /\
    0 <= p_requested_threads p < 2 ^ 31 /\
    0 <= p_requested_threads_started p < 2 ^ 31 - 1 /\
    exists s1 th1 p1,
      @binder_command ilp32_layout 0x100 0x200 BC_REGISTER_LOOPER 0 witness_looper
        = Ok (None, s1) /\
      threads s1 !! 0x200 = Some th1 /\ procs s1 !! 0x100 = Some p1 /\
      p_requested_threads p1 = 0 /\ p_requested_threads_started p1 = 1.
Proof.
  intros th.
  set (p := set_p_requested_threads 1
              (set_p_max_threads 4 (set_p_threads [0x200] (binder_open_proc 1)))).
  assert (Hth : threads witness_looper !! 0x200 = Some th) by (vm_compute; reflexivity).
  assert (Hp : procs witness_looper !! 0x100 = Some p) by (vm_compute; reflexivity).
  assert (Hr : 0 <= p_requested_threads p < 2 ^ 31) by (vm_compute; split; [discriminate|reflexivity]).
  assert (Hs : 0 <= p_requested_threads_started p < 2 ^ 31 - 1)
    by (vm_compute; split; [discriminate|reflexivity]).
  exists p. split; [exact Hth|]. split; [exact Hp|]. split; [exact Hr|].
  split; [exact Hs|].
  destruct (@looper_commands_exclusive ilp32_layout witness_looper 0x100 0x200 th p 0
              Hth Hp Hr Hs) as [(s1 & th1 & p1 & E1 & Hth1 & Hp1 & _ & Hc & _) _].
  exists s1, th1, p1. split; [exact E1|]. split; [exact Hth1|]. split; [exact Hp1|].
  destruct Hc as (_ & Hc1 & Hc2). split; [exact Hc1|exact Hc2].
Defined.

(** ** The request for a new looper at the end of a read *)

Global Instance same_requested_preorder proc : PreOrder (same_requested proc).
Proof.
  split; [intros s; reflexivity|].
  intros s1 s2 s3 H12 H23. unfold same_requested in *. congruence.
Qed.

Lemma same_requested_procs proc s s' : procs s' = procs s -> same_requested proc s s'.
Proof. unfold same_requested. intros ->. reflexivity. Qed.

Lemma same_requested_upd proc s p x f :
  procs s !! p = Some x ->
  p_requested_threads (f x) = p_requested_threads x ->
  same_requested proc s (set_procs (<[p := f x]> (procs s)) s).
Proof.
  intros Hx Hf. unfold same_requested. cbn.
  destruct (decide (p = proc)) as [->|Hne].
  - rewrite lookup_insert_eq, Hx. cbn. congruence.
  - rewrite lookup_insert_ne by exact Hne. reflexivity.
Qed.

Ltac requested_same :=
  solve [ apply same_requested_procs; reflexivity
        | eapply same_requested_upd; [eassumption|reflexivity]
        | reflexivity ].

Section spawn.
Context `{layout}.
Variables (proc thread size consumed : Z) (non_block signal_pending : bool).

Lemma read_done_run ptr buffer s p th :
  procs s !! proc = Some p -> threads s !! thread = Some th ->
  read_done proc thread ptr buffer s =
    if spawn_condition p th then
      let s' := set_procs
                  (<[proc := set_p_requested_threads
                               (int32 (p_requested_threads p + 1)) p]> (procs s)) s in
      match put_user BR_SPAWN_LOOPER 0 buffer with
      | Some buffer' => Ok (read_returned 0 ptr buffer', s')
      | None => Ok (read_returned (- EFAULT) ptr buffer, s')
      end
    else Ok (read_returned 0 ptr buffer, s).
Proof.
  intros Hp Hth. unfold read_done.
  rewrite (M_bind_Ok_intro _ _ _ _ _ (get_proc_run _ _ _ Hp)).
  rewrite (M_bind_Ok_intro _ _ _ _ _ (get_thread_run _ _ _ Hth)).
  unfold spawn_condition. destruct (_ && _ && _); [|reflexivity].
  rewrite (M_bind_Ok_intro _ _ _ _ _ (upd_proc_run _ _ _ _ Hp)).
  unfold emit, put_words. destruct (put_user BR_SPAWN_LOOPER 0 buffer); reflexivity.
Qed.

Lemma ends_read_bind {A} s0 (m : M A) (f : A -> M read_result) :
  preserves (same_requested proc) m -> (forall a, ends_read proc thread s0 (f a)) ->
  ends_read proc thread s0 (m ≫= f).
Proof.
  intros Hm Hf s res s' Hs E. apply M_bind_Ok in E as (a & s1 & E1 & E).
  eapply Hf; [|exact E]. etransitivity; [exact Hs|]. eapply Hm; exact E1.
Qed.

Lemma ends_read_ret s0 res : ends_read proc thread s0 (mret res).
Proof. intros s r s' Hs E. apply M_ret_Ok in E as [-> ->]. left. exact Hs. Qed.

Lemma ends_read_done s0 ptr buffer : ends_read proc thread s0 (read_done proc thread ptr buffer).
Proof. intros s res s' Hs E. right. exists s, ptr, buffer. auto. Qed.

Lemma ends_read_emit s0 vs ptr buffer c k :
  (forall b, ends_read proc thread s0 (k b)) -> ends_read proc thread s0 (emit vs ptr buffer c k).
Proof.
  intros Hk. unfold emit. destruct (put_words vs ptr buffer) as [b []].
  - apply Hk.
  - apply ends_read_ret.
Qed.

Lemma ends_read_spin s0 : ends_read proc thread s0 spin.
Proof. intros s res s' _ E. discriminate. Qed.

Ltac ends_read_step :=
  match goal with
  | |- ends_read _ _ _ (mret _) => apply ends_read_ret
  | |- ends_read _ spin => apply ends_read_spin
  | |- ends_read _ _ _ (read_done _ _ _ _) => apply ends_read_done
  | |- ends_read _ _ _ (emit _ _ _ _ _) => apply ends_read_emit; intros ?
  | |- ends_read _ _ _ (mbind _ _) => apply ends_read_bind; [|intros ?]
  | |- ends_read _ _ _ (if ?c then _ else _) => destruct c eqn:?
  | |- ends_read _ _ _ (match ?x with _ => _ end) => destruct x eqn:?
  | |- ends_read _ _ _ (let '(_, _) := ?x in _) => destruct x eqn:?
  end.

Lemma read_from_ends s0 fuel : forall at_retry ptr buffer w,
  ends_read proc thread s0
    (read_from proc thread size consumed non_block signal_pending fuel at_retry ptr
       buffer w).
Proof.
  induction fuel as [|fuel IH]; intros at_retry ptr buffer w; simpl.
  - apply ends_read_spin.
  - unfold binder_has_proc_work, binder_has_thread_work, read_woken.
    repeat first
      [ apply IH
      | ends_read_step
      | progress (preserves_with requested_same) ].
Qed.


End spawn.



(** ** Code that only reads the state *)

Section reads.
Context (R : binder_state -> binder_state -> Prop) `{!PreOrder R}.

Lemma find_node_preserves ptr l : preserves R (find_node ptr l).
Proof. induction l; simpl; preserves_with fail. Qed.

Lemma find_ref_by_desc_preserves desc l : preserves R (find_ref_by_desc desc l).
Proof. induction l; simpl; preserves_with fail. Qed.

Lemma find_ref_by_node_preserves node l : preserves R (find_ref_by_node node l).
Proof. induction l; simpl; preserves_with fail. Qed.

Lemma scan_desc_preserves l : forall desc, preserves R (scan_desc desc l).
Proof. induction l; intros desc; simpl; preserves_with fail. Qed.

Lemma insert_ref_by_desc_preserves new desc l :
  preserves R (insert_ref_by_desc new desc l).
Proof. induction l; simpl; preserves_with fail. Qed.

Lemma find_target_thread_preserves fuel target : forall tmp found,
  preserves R (find_target_thread fuel tmp target found).
Proof.
  induction fuel; intros [t|] found; simpl; preserves_with fail.
Qed.

Lemma find_delivered_death_preserves cookie l :
  preserves R (find_delivered_death cookie l).
Proof. induction l as [|[] l IH]; simpl; preserves_with fail. Qed.

Lemma find_thread_preserves pid l : preserves R (find_thread pid l).
Proof. induction l; simpl; preserves_with fail. Qed.

Lemma binder_get_node_preserves proc ptr : preserves R (binder_get_node proc ptr).
Proof.
  unfold binder_get_node. preserves_with fail. apply find_node_preserves.
Qed.

Lemma binder_get_ref_preserves proc desc : preserves R (binder_get_ref proc desc).
Proof.
  unfold binder_get_ref. preserves_with fail. apply find_ref_by_desc_preserves.
Qed.

Lemma fget_preserves proc fd : preserves R (fget proc fd).
Proof. unfold fget. preserves_with fail. Qed.

End reads.

#[export] Hint Extern 1 (preserves _ (find_node _ _)) =>
  solve [apply find_node_preserves; typeclasses eauto] : preserves.
#[export] Hint Extern 1 (preserves _ (find_ref_by_desc _ _)) =>
  solve [apply find_ref_by_desc_preserves; typeclasses eauto] : preserves.
#[export] Hint Extern 1 (preserves _ (find_ref_by_node _ _)) =>
  solve [apply find_ref_by_node_preserves; typeclasses eauto] : preserves.
#[export] Hint Extern 1 (preserves _ (scan_desc _ _)) =>
  solve [apply scan_desc_preserves; typeclasses eauto] : preserves.
#[export] Hint Extern 1 (preserves _ (insert_ref_by_desc _ _ _)) =>
  solve [apply insert_ref_by_desc_preserves; typeclasses eauto] : preserves.
#[export] Hint Extern 1 (preserves _ (find_target_thread _ _ _ _)) =>
  solve [apply find_target_thread_preserves; typeclasses eauto] : preserves.
#[export] Hint Extern 1 (preserves _ (find_delivered_death _ _)) =>
  solve [apply find_delivered_death_preserves; typeclasses eauto] : preserves.
#[export] Hint Extern 1 (preserves _ (find_thread _ _)) =>
  solve [apply find_thread_preserves; typeclasses eauto] : preserves.
#[export] Hint Extern 1 (preserves _ (binder_get_node _ _)) =>
  solve [apply binder_get_node_preserves; typeclasses eauto] : preserves.
#[export] Hint Extern 1 (preserves _ (binder_get_ref _ _)) =>
  solve [apply binder_get_ref_preserves; typeclasses eauto] : preserves.
#[export] Hint Extern 1 (preserves _ (fget _ _)) =>
  solve [apply fget_preserves; typeclasses eauto] : preserves.

(** ** Descriptors never change *)

Global Instance refs_keep_desc_preorder : PreOrder refs_keep_desc.
Proof.
  split.
  - intros s. split; [lia|]. intros ref r Hr _. eauto.
  - intros s1 s2 s3 [Hn12 H12] [Hn23 H23]. split; [lia|].
    intros ref r3 Hr3 Hlt.
    destruct (H23 ref r3 Hr3) as (r2 & Hr2 & Hd2); [lia|].
    destruct (H12 ref r2 Hr2 Hlt) as (r1 & Hr1 & Hd1).
    exists r1. split; [exact Hr1|congruence].
Qed.

Lemma refs_keep_desc_same s s' :
  refs s' = refs s -> next_ptr s <= next_ptr s' -> refs_keep_desc s s'.
Proof. intros Hr Hn. split; [exact Hn|]. intros ref r. rewrite Hr. eauto. Qed.

Lemma refs_keep_desc_upd s ref x f :
  refs s !! ref = Some x -> r_desc (f x) = r_desc x ->
  refs_keep_desc s (set_refs (<[ref := f x]> (refs s)) s).
Proof.
  intros Hx Hf. split; [cbn; lia|]. cbn. intros ref' r' Hr' _.
  apply lookup_insert_Some in Hr' as [[<- <-]|[_ Hr']]; eauto.
Qed.

Lemma refs_keep_desc_delete s ref :
  refs_keep_desc s (set_refs (delete ref (refs s)) s).
Proof.
  split; [cbn; lia|]. cbn. intros ref' r' Hr' _.
  apply lookup_delete_Some in Hr' as [_ Hr']. eauto.
Qed.

Ltac desc_kept :=
  solve [ apply refs_keep_desc_same; [reflexivity|cbn; lia]
        | eapply refs_keep_desc_upd; [eassumption|reflexivity]
        | apply refs_keep_desc_delete
        | reflexivity ].

Ltac keeps_desc := preserves_with desc_kept.

Lemma binder_new_node_desc proc ptr cookie :
  preserves refs_keep_desc (binder_new_node proc ptr cookie).
Proof. unfold binder_new_node. keeps_desc. Qed.
#[export] Hint Resolve binder_new_node_desc : preserves.

Lemma binder_inc_node_desc node strong internal target :
  preserves refs_keep_desc (binder_inc_node node strong internal target).
Proof. unfold binder_inc_node. keeps_desc. Qed.
#[export] Hint Resolve binder_inc_node_desc : preserves.

Lemma binder_dec_node_desc node strong internal :
  preserves refs_keep_desc (binder_dec_node node strong internal).
Proof. unfold binder_dec_node. keeps_desc. Qed.
#[export] Hint Resolve binder_dec_node_desc : preserves.

Lemma binder_delete_ref_desc ref : preserves refs_keep_desc (binder_delete_ref ref).
Proof. unfold binder_delete_ref. keeps_desc. Qed.
#[export] Hint Resolve binder_delete_ref_desc : preserves.

Lemma binder_inc_ref_desc ref strong target :
  preserves refs_keep_desc (binder_inc_ref ref strong target).
Proof. unfold binder_inc_ref. keeps_desc. Qed.
#[export] Hint Resolve binder_inc_ref_desc : preserves.

Lemma binder_dec_ref_desc ref strong :
  preserves refs_keep_desc (binder_dec_ref ref strong).
Proof. unfold binder_dec_ref. keeps_desc. Qed.
#[export] Hint Resolve binder_dec_ref_desc : preserves.

Lemma reads_keep_state {A} (m : M A) :
  preserves (fun s s' => s' = s) m -> forall s a s', m s = Ok (a, s') -> s' = s.
Proof. intros Hm s a s' E. eapply Hm; exact E. Qed.

Global Instance same_state_preorder :
  PreOrder (fun s s' : binder_state => s' = s).
Proof. split; [intros s; reflexivity|intros s1 s2 s3 -> ->; reflexivity]. Qed.

(** What [binder_get_ref_for_node] does: it finds a reference, or fails to
    allocate one, or enters a new one at the next address. *)
Lemma binder_get_ref_for_node_Ok proc node s x s' :
  binder_get_ref_for_node proc node s = Ok (x, s') ->
  exists p, procs s !! proc = Some p /\
  ((exists ref, x = Some ref /\ s' = s /\
      find_ref_by_node node (p_refs_by_node p) s = Ok (Some ref, s)) \/
   (x = None /\ refs s' = refs s /\ next_ptr s' = next_ptr s) \/
   (x = Some (next_ptr s) /\
    find_ref_by_node node (p_refs_by_node p) s = Ok (None, s) /\
    exists id desc s1,
      scan_desc (if bool_decide (Some node = binder_context_mgr_node s) then 0 else 1)
        (p_refs_by_desc p) s1 = Ok (desc, s1) /\
      refs s1 = refs s /\
      refs s' = <[next_ptr s := mk_binder_ref id node desc proc 0 0 None]> (refs s) /\
      next_ptr s' = next_ptr s + 1)).
Proof.
  unfold binder_get_ref_for_node. intros E.
  apply M_bind_Ok in E as (p & s0 & Ep & E). apply get_proc_Ok in Ep as [Ep ->].
  exists p. split; [exact Ep|].
  apply M_bind_Ok in E as (existing & s0 & Ef & E).
  pose proof (reads_keep_state _ (find_ref_by_node_preserves _ _ _) _ _ _ Ef) as ->.
  destruct existing as [ref|].
  { apply M_ret_Ok in E as [-> ->]. left. eauto. }
  right. apply M_bind_Ok in E as (a & s1 & Ek & E).
  apply kzalloc_Ok in Ek as (script & [[-> ->]|[-> ->]]).
  { apply M_ret_Ok in E as [-> ->]. left. auto. }
  apply M_bind_Ok in E as (id & s2 & Ei & E). apply next_debug_id_Ok in Ei as ->.
  apply M_bind_Ok in E as (s3 & s4 & Eg & E). apply get_state_Ok in Eg as [-> ->].
  apply M_bind_Ok in E as (desc & s5 & Es & E).
  pose proof (reads_keep_state _ (scan_desc_preserves _ _ _) _ _ _ Es) as ->.
  apply M_bind_Ok in E as ([] & s6 & Em & E). apply modify_Ok in Em as ->.
  apply M_bind_Ok in E as ([] & s7 & Eu & E). apply upd_proc_Ok in Eu as (x1 & _ & ->).
  apply M_bind_Ok in E as (by_desc & s8 & Eb & E).
  pose proof (reads_keep_state _ (insert_ref_by_desc_preserves _ _ _ _) _ _ _ Eb) as ->.
  apply M_bind_Ok in E as ([] & s9 & Eu & E). apply upd_proc_Ok in Eu as (x2 & _ & ->).
  apply M_bind_Ok in E as ([] & s10 & Eu & E). apply upd_node_Ok in Eu as (x3 & _ & ->).
  apply M_ret_Ok in E as [-> ->].
  right. split; [reflexivity|]. split; [exact Ef|].
  exists id, desc. eexists. split; [exact Es|]. repeat split.
Qed.

Lemma binder_get_ref_for_node_desc proc node :
  preserves refs_keep_desc (binder_get_ref_for_node proc node).
Proof.
  intros s x s' E. apply binder_get_ref_for_node_Ok in E as (p & _ & Hc).
  destruct Hc as [(ref & _ & -> & _)|[(_ & Hr & Hn)|(_ & _ & id & desc & s1 & _ & _ & Hr & Hn)]].
  - reflexivity.
  - apply refs_keep_desc_same; [exact Hr|lia].
  - split; [lia|]. intros ref r' Hr' Hlt. rewrite Hr in Hr'.
    rewrite lookup_insert_ne in Hr' by lia. eauto.
Qed.
#[export] Hint Resolve binder_get_ref_for_node_desc : preserves.

Lemma preserves_emit R `{!PreOrder R} vs ptr buffer consumed k :
  (forall b, preserves R (k b)) -> preserves R (emit vs ptr buffer consumed k).
Proof.
  intros Hk. unfold emit. destruct (put_words vs ptr buffer) as [b []].
  - apply Hk.
  - apply preserves_ret. exact _.
Qed.

Ltac preserves_emit_step :=
  match goal with
  | |- preserves _ (emit _ _ _ _ _) =>
      apply preserves_emit; [typeclasses eauto|intros ?]
  | |- preserves _ (let '(_, _) := ?x in _) => destruct x eqn:?
  end.

Section keeps_desc.
Context `{layout}.

Lemma task_get_unused_fd_flags_desc proc cloexec :
  preserves refs_keep_desc (task_get_unused_fd_flags proc cloexec).
Proof. unfold task_get_unused_fd_flags. keeps_desc. Qed.
Hint Resolve task_get_unused_fd_flags_desc : preserves.

Lemma task_fd_install_desc proc fd file :
  preserves refs_keep_desc (task_fd_install proc fd file).
Proof. unfold task_fd_install. keeps_desc. Qed.
Hint Resolve task_fd_install_desc : preserves.

Lemma task_close_fd_desc proc fd : preserves refs_keep_desc (task_close_fd proc fd).
Proof. unfold task_close_fd. keeps_desc. Qed.
Hint Resolve task_close_fd_desc : preserves.

Lemma binder_pop_transaction_desc target t :
  preserves refs_keep_desc (binder_pop_transaction target t).
Proof. unfold binder_pop_transaction. keeps_desc. Qed.
Hint Resolve binder_pop_transaction_desc : preserves.

Lemma send_failed_reply_loop_desc fuel : forall t e,
  preserves refs_keep_desc (send_failed_reply_loop fuel t e).
Proof. induction fuel; intros t e; simpl; keeps_desc. Qed.
Hint Resolve send_failed_reply_loop_desc : preserves.

Lemma binder_send_failed_reply_desc t e :
  preserves refs_keep_desc (binder_send_failed_reply t e).
Proof. unfold binder_send_failed_reply. keeps_desc. Qed.
Hint Resolve binder_send_failed_reply_desc : preserves.

Lemma release_object_desc proc buffer failed_at i :
  preserves refs_keep_desc (release_object proc buffer failed_at i).
Proof. unfold release_object. keeps_desc. Qed.
Hint Resolve release_object_desc : preserves.

Lemma release_objects_desc proc buffer failed_at count : forall i,
  preserves refs_keep_desc (release_objects proc buffer failed_at i count).
Proof. induction count; intros i; simpl; keeps_desc. Qed.
Hint Resolve release_objects_desc : preserves.

Lemma binder_transaction_buffer_release_desc proc buffer failed_at :
  preserves refs_keep_desc (binder_transaction_buffer_release proc buffer failed_at).
Proof. unfold binder_transaction_buffer_release. keeps_desc. Qed.
Hint Resolve binder_transaction_buffer_release_desc : preserves.

Lemma binder_transaction_target_desc proc thread tr reply :
  preserves refs_keep_desc (binder_transaction_target proc thread tr reply).
Proof. unfold binder_transaction_target. keeps_desc. Qed.
Hint Resolve binder_transaction_target_desc : preserves.

Lemma translate_object_desc proc thread tr reply tg buffer i e :
  preserves refs_keep_desc (translate_object proc thread tr reply tg buffer i e).
Proof. unfold translate_object. keeps_desc. Qed.
Hint Resolve translate_object_desc : preserves.

Lemma translate_objects_desc proc thread tr reply tg buffer count e : forall i,
  preserves refs_keep_desc
    (translate_objects proc thread tr reply tg buffer i count e).
Proof. induction count; intros i; simpl; keeps_desc. Qed.
Hint Resolve translate_objects_desc : preserves.

Lemma copy_transaction_data_desc tr buffer :
  preserves refs_keep_desc (copy_transaction_data tr buffer).
Proof. unfold copy_transaction_data. keeps_desc. Qed.
Hint Resolve copy_transaction_data_desc : preserves.

Lemma transaction_unwind_desc tg t tcomplete buffer failed_at :
  preserves refs_keep_desc (transaction_unwind tg t tcomplete buffer failed_at).
Proof. unfold transaction_unwind. keeps_desc. Qed.
Hint Resolve transaction_unwind_desc : preserves.

Lemma transaction_failed_desc thread irt e :
  preserves refs_keep_desc (transaction_failed thread irt e).
Proof. unfold transaction_failed. keeps_desc. Qed.
Hint Resolve transaction_failed_desc : preserves.

Lemma transaction_commit_desc thread reply tg t tcomplete buffer :
  preserves refs_keep_desc (transaction_commit thread reply tg t tcomplete buffer).
Proof. unfold transaction_commit. keeps_desc. Qed.
Hint Resolve transaction_commit_desc : preserves.

Lemma binder_transaction_desc proc thread tr reply e :
  preserves refs_keep_desc (binder_transaction proc thread tr reply e).
Proof. unfold binder_transaction. keeps_desc. Qed.
Hint Resolve binder_transaction_desc : preserves.

Lemma binder_command_desc proc thread cmd e :
  preserves refs_keep_desc (binder_command proc thread cmd e).
Proof. unfold binder_command. destruct cmd; keeps_desc. Qed.
Hint Resolve binder_command_desc : preserves.

Lemma binder_thread_write_desc proc thread size e buffer : forall consumed,
  preserves refs_keep_desc (binder_thread_write proc thread buffer size consumed e).
Proof. induction buffer; intros consumed; simpl; keeps_desc. Qed.
Hint Resolve binder_thread_write_desc : preserves.


Ltac keeps_desc' := repeat first [preserves_emit_step | progress keeps_desc].

Lemma read_done_desc proc thread ptr buffer :
  preserves refs_keep_desc (read_done proc thread ptr buffer).
Proof. unfold read_done. keeps_desc'. Qed.
Hint Resolve read_done_desc : preserves.

Lemma read_from_desc proc thread size consumed non_block signal_pending fuel :
  forall at_retry ptr buffer w,
  preserves refs_keep_desc
    (read_from proc thread size consumed non_block signal_pending fuel at_retry ptr
       buffer w).
Proof.
  induction fuel; intros at_retry ptr buffer w; simpl; [keeps_desc|].
  unfold binder_has_proc_work, binder_has_thread_work, read_woken. keeps_desc'.
Qed.
Hint Resolve read_from_desc : preserves.

Lemma binder_thread_read_desc proc thread size consumed non_block signal_pending fuel
    buffer :
  preserves refs_keep_desc
    (binder_thread_read proc thread size consumed non_block signal_pending fuel buffer).
Proof. unfold binder_thread_read. keeps_desc'. Qed.
Hint Resolve binder_thread_read_desc : preserves.

Lemma binder_thread_read_resume_desc proc thread size consumed non_block
    signal_pending fuel ret ptr buffer w :
  preserves refs_keep_desc
    (binder_thread_read_resume proc thread size consumed non_block signal_pending fuel
       ret ptr buffer w).
Proof. unfold binder_thread_read_resume, read_woken. keeps_desc'. Qed.

Lemma release_work_loop_desc l fuel :
  preserves refs_keep_desc (release_work_loop fuel l).
Proof. induction fuel; simpl; keeps_desc. Qed.
Hint Resolve release_work_loop_desc : preserves.

Lemma binder_release_work_desc l : preserves refs_keep_desc (binder_release_work l).
Proof. unfold binder_release_work. keeps_desc. Qed.
Hint Resolve binder_release_work_desc : preserves.

Lemma binder_get_thread_desc proc pid :
  preserves refs_keep_desc (binder_get_thread proc pid).
Proof. unfold binder_get_thread. keeps_desc. Qed.
Hint Resolve binder_get_thread_desc : preserves.

Lemma free_thread_loop_desc thread fuel : forall t n,
  preserves refs_keep_desc (free_thread_loop fuel thread t n).
Proof. induction fuel; intros [t|] n; simpl; keeps_desc. Qed.
Hint Resolve free_thread_loop_desc : preserves.

Lemma binder_free_thread_desc proc thread :
  preserves refs_keep_desc (binder_free_thread proc thread).
Proof. unfold binder_free_thread. keeps_desc. Qed.
Hint Resolve binder_free_thread_desc : preserves.

Lemma binder_open_desc pid euid nice rlim :
  preserves refs_keep_desc (binder_open pid euid nice rlim).
Proof. unfold binder_open. keeps_desc. Qed.

Lemma mmap_desc proc vm_start vm_end flags area files :
  preserves refs_keep_desc (mmap proc vm_start vm_end flags area files).
Proof. unfold mmap. keeps_desc. Qed.

Lemma binder_vma_close_desc proc : preserves refs_keep_desc (binder_vma_close proc).
Proof. unfold binder_vma_close. keeps_desc. Qed.

Lemma deferred_flush_threads_desc proc l :
  preserves refs_keep_desc (deferred_flush_threads proc l).
Proof. induction l; simpl; keeps_desc. Qed.
Hint Resolve deferred_flush_threads_desc : preserves.

Lemma binder_deferred_flush_desc proc :
  preserves refs_keep_desc (binder_deferred_flush proc).
Proof. unfold binder_deferred_flush. keeps_desc. Qed.

Lemma release_threads_desc proc fuel :
  preserves refs_keep_desc (release_threads fuel proc).
Proof. induction fuel; simpl; keeps_desc. Qed.
Hint Resolve release_threads_desc : preserves.

Lemma notify_death_desc l : preserves refs_keep_desc (notify_death l).
Proof. induction l; simpl; keeps_desc. Qed.
Hint Resolve notify_death_desc : preserves.

Lemma release_nodes_desc proc fuel : preserves refs_keep_desc (release_nodes fuel proc).
Proof. induction fuel; simpl; keeps_desc. Qed.
Hint Resolve release_nodes_desc : preserves.

Lemma release_refs_desc proc fuel : preserves refs_keep_desc (release_refs fuel proc).
Proof. induction fuel; simpl; keeps_desc. Qed.
Hint Resolve release_refs_desc : preserves.

Lemma release_buffers_desc proc fuel :
  preserves refs_keep_desc (release_buffers fuel proc).
Proof. induction fuel; simpl; keeps_desc. Qed.
Hint Resolve release_buffers_desc : preserves.

Lemma binder_deferred_release_desc proc :
  preserves refs_keep_desc (binder_deferred_release proc).
Proof. unfold binder_deferred_release. keeps_desc. Qed.

Lemma ioctl_after_read_desc proc thread bwr r :
  preserves refs_keep_desc (ioctl_after_read proc thread bwr r).
Proof. unfold ioctl_after_read. keeps_desc. Qed.
Hint Resolve ioctl_after_read_desc : preserves.

Lemma binder_ioctl_desc proc pid euid cmd fuel non_block signal_pending e :
  preserves refs_keep_desc
    (binder_ioctl proc pid euid cmd fuel non_block signal_pending e).
Proof. unfold binder_ioctl. keeps_desc'. Qed.

Lemma driver_step_desc s s' : driver_step s s' -> refs_keep_desc s s'.
Proof.
  intros [pid euid nice rlim proc E|proc vs ve fl area files r E|proc u E
         |proc pid euid cmd fuel nb sp e r E
         |proc thread size consumed nb sp fuel ret ptr buffer w r E
         |proc u E|proc u E].
  - eapply binder_open_desc; exact E.
  - eapply mmap_desc; exact E.
  - eapply binder_vma_close_desc; exact E.
  - eapply binder_ioctl_desc; exact E.
  - eapply binder_thread_read_resume_desc; exact E.
  - eapply binder_deferred_flush_desc; exact E.
  - eapply binder_deferred_release_desc; exact E.
Qed.

End keeps_desc.

(** ** The descriptor of a new reference *)

Lemma descs_sorted_ext s s1 lo l :
  refs s1 = refs s -> descs_sorted s lo l -> descs_sorted s1 lo l.
Proof.
  intros Hr. revert lo. induction l as [|ref l IH]; intros lo; simpl; [auto|].
  intros (r & Hx & Hd & Hs). exists r. rewrite Hr. auto.
Qed.

Lemma ref_desc_of_ext s s1 ref : refs s1 = refs s -> ref_desc_of s1 ref = ref_desc_of s ref.
Proof. unfold ref_desc_of. intros ->. reflexivity. Qed.

Lemma descs_sorted_ge s l : forall lo x,
  descs_sorted s lo l -> In x (map (ref_desc_of s) l) -> lo <= x.
Proof.
  induction l as [|ref l IH]; intros lo x Hs Hin; simpl in *; [contradiction|].
  destruct Hs as (r & Hr & Hd & Hs). destruct Hin as [<-|Hin].
  - unfold ref_desc_of. rewrite Hr. lia.
  - specialize (IH _ _ Hs Hin). lia.
Qed.

Lemma u32_small x : 0 <= x < 2 ^ 32 -> u32 x = x.
Proof. intros Hx. unfold u32. apply Z.mod_small. lia. Qed.

Lemma scan_desc_least s l : forall c lo c' s1,
  descs_sorted s lo l -> c - 1 <= lo -> 0 <= lo ->
  scan_desc c l s = Ok (c', s1) ->
  c <= c' /\ ~ In c' (map (ref_desc_of s) l) /\
  forall v, c <= v < c' -> In v (map (ref_desc_of s) l).
Proof.
  induction l as [|ref l IH]; intros c lo c' s1 Hs Hc Hlo E; simpl in E.
  - apply M_ret_Ok in E as [-> ->]. simpl. split; [lia|]. split; [tauto|]. lia.
  - destruct Hs as (r & Hr & Hd & Hs).
    apply M_bind_Ok in E as (r0 & s0 & Er & E). apply get_ref_Ok in Er as [Er ->].
    assert (r0 = r) by congruence. subst r0.
    assert (Hhead : ref_desc_of s ref = r_desc r)
      by (unfold ref_desc_of; rewrite Hr; reflexivity).
    simpl. rewrite Hhead.
    destruct (c <? r_desc r) eqn:Hlt.
    + apply M_ret_Ok in E as [-> ->]. apply Z.ltb_lt in Hlt.
      split; [lia|]. split; [|lia].
      intros [Heq|Hin]; [lia|]. apply (descs_sorted_ge _ _ _ _ Hs) in Hin. lia.
    + apply Z.ltb_ge in Hlt. rewrite u32_small in E by lia.
      destruct (IH (r_desc r + 1) (r_desc r + 1) c' s1 Hs) as (Hle & Hnot & Hall);
        [lia|lia|exact E|].
      split; [lia|]. split.
      * intros [Heq|Hin]; [lia|tauto].
      * intros v Hv. destruct (Z.eq_dec v (r_desc r)) as [->|Hne]; [left; reflexivity|].
        right. apply Hall. lia.
Qed.

Lemma find_ref_by_node_Some node l : forall s ref s',
  find_ref_by_node node l s = Ok (Some ref, s') -> exists r, refs s !! ref = Some r.
Proof.
  induction l as [|a l IH]; intros s ref s' E; simpl in E.
  - apply M_ret_Ok in E as [E _]. discriminate.
  - apply M_bind_Ok in E as (r & s0 & Er & E). apply get_ref_Ok in Er as [Er ->].
    destruct (r_node r =? node).
    + apply M_ret_Ok in E as [E _]. injection E as ->. eauto.
    + eapply IH; exact E.
Qed.

Lemma new_descriptor_as_coded s proc node p ref s' r :
  procs s !! proc = Some p -> descs_sorted s 0 (p_refs_by_desc p) ->
  binder_get_ref_for_node proc node s = Ok (Some ref, s') ->
  refs s !! ref = None -> refs s' !! ref = Some r ->
  descriptor_as_coded s proc node (r_desc r).
Proof.
  intros Hp Hs E Hnew Hr.
  apply binder_get_ref_for_node_Ok in E as (p' & Hp' & Hc).
  assert (p' = p) by congruence. subst p'.
  destruct Hc as [(ref' & Hx & _ & Hf)|[(Hx & _)|(Hx & _ & id & desc & s1 & Es & Hr1 & Hr' & _)]].
  - injection Hx as <-. apply find_ref_by_node_Some in Hf as [r0 Hr0]. congruence.
  - discriminate.
  - injection Hx as ->. rewrite Hr', lookup_insert_eq in Hr. injection Hr as <-.
    cbn [r_desc]. unfold descriptor_as_coded, descs_in_use. rewrite Hp.
    pose proof (descs_sorted_ext s s1 0 _ Hr1 Hs) as Hs1.
    assert (Hm : map (ref_desc_of s1) (p_refs_by_desc p)
                 = map (ref_desc_of s) (p_refs_by_desc p))
      by (apply map_ext; intros a; apply ref_desc_of_ext; exact Hr1).
    rewrite <- Hm.
    eapply scan_desc_least; [exact Hs1| |lia|exact Es].
    destruct (bool_decide _); lia.
Qed.

Lemma driver_steps_desc `{layout} s s' : rtc driver_step s s' -> refs_keep_desc s s'.
Proof.
  induction 1 as [s|s1 s2 s3 H12 _ IH]; [reflexivity|].
  etransitivity; [apply driver_step_desc; exact H12|exact IH].
Qed.

(** C3, amended: a new reference of process P to node N gets the least
    descriptor that P has not in use, counted from 0 if N is the context
    manager and from 1 otherwise (so 0 exactly when N is the context manager
    and P holds no reference with descriptor 0); and no entry point of the
    driver changes the descriptor of a reference that exists before and
    after it. *)
Theorem new_descriptor_least_unused_and_stable `{layout} :
  (forall s proc node p ref s' r,
     procs s !! proc = Some p -> descs_sorted s 0 (p_refs_by_desc p) ->
     binder_get_ref_for_node proc node s = Ok (Some ref, s') ->
     refs s !! ref = None -> refs s' !! ref = Some r ->
     descriptor_as_coded s proc node (r_desc r)) /\
  (forall s s' ref r r',
     rtc driver_step s s' -> ref < next_ptr s ->
     refs s !! ref = Some r -> refs s' !! ref = Some r' ->
     r_desc r' = r_desc r).
Proof.
  split.
  - intros s proc node p ref s' r. apply new_descriptor_as_coded.
  - intros s s' ref r r' Hsteps Hlt Hr Hr'.
    destruct (driver_steps_desc s s' Hsteps) as [_ Hk].
    destruct (Hk ref r' Hr' Hlt) as (r0 & Hr0 & Hd). congruence.
Qed.

Lemma new_descriptor_least_unused_and_stable_witness :
  exists p s' r,
    procs witness_second_manager !! 0x1000 = Some p /\
    descs_sorted witness_second_manager 0 (p_refs_by_desc p) /\
    binder_get_ref_for_node 0x1000 0x1008 witness_second_manager
      = Ok (Some 0x1009, s') /\
    refs witness_second_manager !! 0x1009 = None /\
    refs s' !! 0x1009 = Some r /\
    r_desc r = 1 /\
    descriptor_as_coded witness_second_manager 0x1000 0x1008 (r_desc r).
Proof.
  eassert (Hp : procs witness_second_manager !! 0x1000 = Some _)
    by (vm_compute; reflexivity).
  eassert (E : binder_get_ref_for_node 0x1000 0x1008 witness_second_manager
               = Ok (Some 0x1009, _)) by (vm_compute; reflexivity).
  match type of E with
  | _ = Ok (_, ?s') =>
      eassert (Hr : refs s' !! 0x1009 = Some _) by (vm_compute; reflexivity)
  end.
  match type of Hp with
  | _ = Some ?p =>
      assert (Hs : descs_sorted witness_second_manager 0 (p_refs_by_desc p))
  end.
  { simpl. eexists. split; [vm_compute; reflexivity|].
    split; [vm_compute; split; [discriminate|reflexivity]|exact I]. }
  do 3 eexists. split; [exact Hp|]. split; [exact Hs|]. split; [exact E|].
  split; [vm_compute; reflexivity|]. split; [exact Hr|]. split; [reflexivity|].
  exact (proj1 (@new_descriptor_least_unused_and_stable ilp32_layout)
           _ _ _ _ _ _ _ Hp Hs E eq_refl Hr).
Defined.

(** C3 as specified fails once a process holds a reference to a context
    manager that died: its reference to the next context manager gets
    descriptor 1. *)
Lemma new_ref_rule_as_specified_fails :
  ~ new_ref_rule_as_specified witness_second_manager 0x1000 0x1008.
Proof.
  intros Hrule.
  eassert (E : binder_get_ref_for_node 0x1000 0x1008 witness_second_manager
               = Ok (Some 0x1009, _)) by (vm_compute; reflexivity).
  match type of E with
  | _ = Ok (_, ?s') =>
      eassert (Hr : refs s' !! 0x1009 = Some _) by (vm_compute; reflexivity)
  end.
  pose proof (Hrule _ _ _ E eq_refl Hr) as Hd.
  vm_compute in Hd. discriminate.
Qed.

(** ** Target resolution of a transaction *)

Section target.
Context `{layout}.

Lemma call_invalid_handle s proc thread th tr :
  threads s !! thread = Some th -> tr_target tr <> 0 ->
  binder_get_ref proc (tr_target tr) s = Ok (None, s) ->
  binder_transaction_target proc thread tr false s
    = Ok (inl (err_invalid_target_handle, BR_FAILED_REPLY, None), after_user_error s).
Proof.
  intros Hth Hnz Hg. unfold binder_transaction_target.
  apply Z.eqb_neq in Hnz. apply negb_true_iff in Hnz.
  mrun.
Qed.

Lemma call_no_context_manager s proc thread th tr :
  threads s !! thread = Some th -> tr_target tr = 0 ->
  binder_context_mgr_node s = None ->
  binder_transaction_target proc thread tr false s
    = Ok (inl (err_no_context_mgr_node, BR_DEAD_REPLY, None), s).
Proof.
  intros Hth Hz Hm. unfold binder_transaction_target.
  assert (Hc : negb (tr_target tr =? 0) = false)
    by (apply negb_false_iff, Z.eqb_eq; exact Hz).
  mrun. rewrite Hm. mrun.
Qed.

Lemma call_dead_node s proc thread th tr node n :
  threads s !! thread = Some th -> resolves_to s proc tr node ->
  nodes s !! node = Some n -> n_proc n = None ->
  binder_transaction_target proc thread tr false s
    = Ok (inl (err_dead_binder, BR_DEAD_REPLY, None), s).
Proof.
  intros Hth Hres Hn Hdead. unfold binder_transaction_target.
  destruct Hres as [(Hnz & ref & r & Hg & Hr & <-)|[Hz Hm]].
  - assert (Hc : negb (tr_target tr =? 0) = true)
      by (apply negb_true_iff, Z.eqb_neq; exact Hnz).
    mrun. rewrite Hdead. reflexivity.
  - assert (Hc : negb (tr_target tr =? 0) = false)
      by (apply negb_false_iff, Z.eqb_eq; exact Hz).
    mrun. rewrite Hm. mrun. rewrite Hdead. reflexivity.
Qed.

Lemma reply_dead_caller s proc thread th tr irt x :
  threads s !! thread = Some th -> th_transaction_stack th = Some irt ->
  transactions s !! irt = Some x -> t_to_thread x = Some thread ->
  t_from x = None ->
  binder_transaction_target proc thread tr true s
    = Ok (inl (err_dead_binder, BR_DEAD_REPLY, Some irt),
          set_threads
            (<[thread := set_th_transaction_stack (t_to_parent x) th]> (threads s)) s).
Proof.
  intros Hth Hst Hx Hto Hfrom. unfold binder_transaction_target.
  mrun. rewrite Hst. mrun.
  rewrite Hto, bool_decide_eq_false_2 by (intros Hne; apply Hne; reflexivity).
  mrun. rewrite Hfrom. reflexivity.
Qed.

(** A call that fails before a transaction is allocated leaves its error
    code in [return_error] of the sending thread. *)
Lemma failed_call_records_error s proc thread tr e0 label e s1 th1 :
  binder_transaction_target proc thread tr false s = Ok (inl (label, e, None), s1) ->
  threads s1 !! thread = Some th1 -> th_return_error th1 = BR_OK ->
  binder_transaction proc thread tr false e0 s
    = Ok (tt, set_threads (<[thread := set_th_return_error e th1]> (threads s1)) s1).
Proof.
  intros Et Hth Hok. unfold binder_transaction.
  rewrite (M_bind_Ok_intro _ _ _ _ _ Et). unfold transaction_failed.
  assert (Hc : negb (th_return_error th1 =? BR_OK) = false)
    by (rewrite Hok; reflexivity).
  mrun. apply upd_thread_run. exact Hth.
Qed.


End target.



(** ** The unwinding of a failed transaction *)

Section unwind.
Context `{layout}.

(** The exit of [translate_object] for an object whose cookie differs from
    that of the node found for it: [return_error] is passed on as it came. *)
Lemma translate_cookie_mismatch s proc thread tr reply tg buffer i e b off fp node n :
  get_buffer buffer s = Ok (b, s) ->
  read_word buffer (ALIGN (tr_data_size tr) sizeof_ptr + 4 * Z.of_nat i) s
    = Ok (off, s) ->
  bad_offset off (b_data_size b) = false ->
  read_object buffer off s = Ok (fp, s) ->
  (fp_type fp =? BINDER_TYPE_BINDER) || (fp_type fp =? BINDER_TYPE_WEAK_BINDER) = true ->
  binder_get_node proc (fp_binder fp) s = Ok (Some node, s) ->
  nodes s !! node = Some n -> fp_cookie fp <> n_cookie n ->
  translate_object proc thread tr reply tg buffer i e s
    = Ok (Some (err_binder_get_ref_for_node_failed, e), after_user_error s).
Proof.
  intros Hb Hoff Hbad Hfp Hty Hnode Hn Hcookie. unfold translate_object.
  assert (Hc : negb (fp_cookie fp =? n_cookie n) = true)
    by (apply negb_true_iff, Z.eqb_neq; exact Hcookie).
  mrun.
Qed.

End unwind.


(** ** Death notifications are read once *)

(** *** The arena leaves the nodes of a process alone *)

Ltac result_inv :=
  repeat match goal with
  | E : mbind _ _ = Ok _ |- _ => apply bind_Ok in E as (? & ? & E)
  | E : Ok _ = Ok _ |- _ => injection E as ?; subst
  | E : Bug = Ok _ |- _ => discriminate E
  | E : Fault = Ok _ |- _ => discriminate E
  | E : Spin = Ok _ |- _ => discriminate E
  | E : (let '(_, _) := ?x in _) = Ok _ |- _ => destruct x eqn:?
  | E : (if ?c then _ else _) = Ok _ |- _ => destruct c eqn:?
  | E : match ?x with _ => _ end = Ok _ |- _ => destruct x eqn:?
  end.

Section arena_nodes.
Context `{layout}.

Lemma binder_insert_free_buffer_nodes proc a proc' :
  binder_insert_free_buffer proc a = Ok proc' -> p_nodes proc' = p_nodes proc.
Proof. intros E. apply binder_insert_free_buffer_inv in E as (t & -> & _). reflexivity. Qed.

Lemma binder_insert_allocated_buffer_nodes proc a proc' :
  binder_insert_allocated_buffer proc a = Ok proc' -> p_nodes proc' = p_nodes proc.
Proof. intros E. apply binder_insert_allocated_buffer_inv in E as (t & ->). reflexivity. Qed.

Lemma binder_delete_free_buffer_nodes proc a proc' :
  binder_delete_free_buffer proc a = Ok proc' -> p_nodes proc' = p_nodes proc.
Proof. intros E. apply binder_delete_free_buffer_inv in E as ->. reflexivity. Qed.

Ltac arena_nodes :=
  repeat match goal with
  | E : binder_insert_free_buffer _ _ = Ok _ |- _ =>
      apply binder_insert_free_buffer_nodes in E; cbn in E
  | E : binder_insert_allocated_buffer _ _ = Ok _ |- _ =>
      apply binder_insert_allocated_buffer_nodes in E; cbn in E
  | E : binder_delete_free_buffer _ _ = Ok _ |- _ =>
      apply binder_delete_free_buffer_nodes in E; cbn in E
  end.

Lemma binder_alloc_buf_nodes proc ds os is_async pages_ok r proc' :
  binder_alloc_buf proc ds os is_async pages_ok = Ok (r, proc') ->
  p_nodes proc' = p_nodes proc.
Proof.
  unfold binder_alloc_buf. intros E. result_inv; arena_nodes; cbn;
    repeat match goal with |- context [if ?c then _ else _] => destruct c end;
    cbn; congruence.
Qed.

Lemma binder_free_buf_nodes proc a proc' :
  binder_free_buf proc a = Ok proc' -> p_nodes proc' = p_nodes proc.
Proof.
  unfold binder_free_buf. intros E. result_inv; arena_nodes; cbn in *;
    repeat match goal with
    | E : context [if ?c then _ else _] |- _ => destruct c
    end; cbn in *; congruence.
Qed.

Lemma binder_mmap_nodes proc vm_start vm_end flags area pages_ok r proc' :
  binder_mmap proc vm_start vm_end flags area pages_ok = Ok (r, proc') ->
  p_nodes proc' = p_nodes proc.
Proof.
  unfold binder_mmap. intros E. result_inv; arena_nodes; cbn; congruence.
Qed.

End arena_nodes.

(** *** The relation kept by the driver *)

Global Instance keeps_deaths_preorder : PreOrder keeps_deaths.
Proof.
  split.
  - intros s Hs. split; [exact Hs|]. split; [lia|]. intros d _. split; auto.
  - intros s1 s2 s3 H12 H23 H1.
    destruct (H12 H1) as [H2 [Hn12 P12]]. destruct (H23 H2) as [H3 [Hn23 P23]].
    split; [exact H3|]. split; [lia|]. intros d Hd.
    destruct (P12 d Hd) as [Pa Pb]. destruct (P23 d ltac:(lia)) as [Pc Pd]. split.
    + auto.
    + intros Hs. destruct (Pd Hs) as [Hs'|Hs']; [destruct (Pb Hs'); auto|right; auto].
Qed.

Lemma list_of_ext s s' l : lists s' = lists s -> list_of s' l = list_of s l.
Proof. unfold list_of. intros ->. reflexivity. Qed.

Lemma remove_Z_sublist x l : sublist (remove_Z x l) l.
Proof.
  induction l as [|y l IH]; simpl; [constructor|].
  destruct (y =? x); [apply sublist_cons; reflexivity|apply sublist_skip; exact IH].
Qed.

Lemma sublist_In (l1 l2 : list Z) x : sublist l1 l2 -> In x l1 -> In x l2.
Proof.
  intros Hs Hin. apply list_elem_of_In. eapply elem_of_sublist; [|exact Hs].
  apply list_elem_of_In. exact Hin.
Qed.

Lemma remove_Z_In x y l : In y (remove_Z x l) -> In y l.
Proof. apply sublist_In, remove_Z_sublist. Qed.

(** Objects may go, and what is left of them keeps the fields the invariant
    reads. *)
Lemma keeps_deaths_shrink s s' :
  next_ptr s <= next_ptr s' ->
  (forall d x, deaths s' !! d = Some x -> deaths s !! d = Some x) ->
  entries s' = entries s -> lists s' = lists s ->
  (forall ref r', refs s' !! ref = Some r' ->
     exists r, refs s !! ref = Some r /\ r_node r' = r_node r /\
       (r_death r' = None \/ r_death r' = r_death r)) ->
  (forall node n', nodes s' !! node = Some n' ->
     exists n, nodes s !! node = Some n /\ n_proc n' = n_proc n /\
       forall ref, In ref (n_refs n') -> In ref (n_refs n)) ->
  (forall proc p', procs s' !! proc = Some p' ->
     p_nodes p' = [] \/
     exists p, procs s !! proc = Some p /\ sublist (p_nodes p') (p_nodes p)) ->
  keeps_deaths s s'.
Proof.
  intros Hn Hd He Hl Hr Hnd Hp [S1 S2 S3 S4 S5 L U A O N B]. split.
  - constructor.
    + intros d x Hx. apply Hd in Hx. apply S1 in Hx. lia.
    + intros d l Hx. rewrite He in Hx. apply S2 in Hx. lia.
    + intros ref r' Hx. destruct (Hr _ _ Hx) as (r & Hx' & En & Ed).
      destruct (S3 _ _ Hx') as (a & b & c). rewrite En.
      split; [lia|]. split; [lia|]. intros d Hd'.
      destruct Ed as [Ed|Ed]; rewrite Ed in Hd'; [discriminate|].
      specialize (c d Hd'). lia.
    + intros node n' Hx. destruct (Hnd _ _ Hx) as (n & Hx' & _ & Hin).
      destruct (S4 _ _ Hx') as [a b]. split; [lia|].
      intros ref Href. specialize (b ref (Hin ref Href)). lia.
    + intros proc p' Hx node Hin. destruct (Hp _ _ Hx) as [E|(p & Hx' & Hs)].
      { rewrite E in Hin. destruct Hin. }
      specialize (S5 _ _ Hx' node (sublist_In _ _ _ Hs Hin)). lia.
    + intros l d. rewrite He, (list_of_ext _ _ _ Hl). apply L.
    + intros r1 r2 x1 x2 d H1 H2 D1 D2.
      destruct (Hr _ _ H1) as (y1 & Y1 & _ & [E1|E1]); [congruence|].
      destruct (Hr _ _ H2) as (y2 & Y2 & _ & [E2|E2]); [congruence|].
      eapply (U r1 r2 y1 y2 d); congruence.
    + intros ref r' d x Hx Hd' Hdx.
      destruct (Hr _ _ Hx) as (r & Hx' & En & [Ed|Ed]); [congruence|].
      destruct (A ref r d x Hx' ltac:(congruence) (Hd _ _ Hdx)) as [T|[T Hnone]];
        [left; exact T|right].
      split; [exact T|]. intros n' Hn'. rewrite En in Hn'.
      destruct (Hnd _ _ Hn') as (n & Hn0 & Ep & _). rewrite Ep. eauto.
    + intros proc p' node n' Hx Hin Hn'. destruct (Hp _ _ Hx) as [E|(p & Hx' & Hs)].
      { rewrite E in Hin. destruct Hin. }
      destruct (Hnd _ _ Hn') as (n & Hn0 & Ep & _). rewrite Ep.
      eapply O; [exact Hx'|eapply sublist_In; eassumption|exact Hn0].
    + intros proc p' Hx. destruct (Hp _ _ Hx) as [E|(p & Hx' & Hs)].
      { rewrite E. constructor. }
      eapply sublist_NoDup; [eapply N; exact Hx'|exact Hs].
    + intros node n' ref r' Hn' Hin Hx.
      destruct (Hnd _ _ Hn') as (n & Hn0 & _ & Hsub).
      destruct (Hr _ _ Hx) as (r & Hx' & En & _). rewrite En.
      eapply B; [exact Hn0|apply Hsub; exact Hin|exact Hx'].
  - split; [lia|]. intros d Hlt. split.
    + intros (x & Hx & Hc). exists x. split; [auto|]. rewrite He in Hc. exact Hc.
    + unfold dead_binder_delivered. rewrite He. auto.
Qed.

Ltac shrink_frame :=
  apply keeps_deaths_shrink; cbn;
  try lia; try reflexivity; try solve [eauto];
  try solve [intros ? ? ?; right; eexists; split; [eassumption|reflexivity]].

Lemma keeps_deaths_same s s' :
  next_ptr s <= next_ptr s' -> deaths s' = deaths s -> entries s' = entries s ->
  lists s' = lists s -> refs s' = refs s -> nodes s' = nodes s ->
  procs s' = procs s -> keeps_deaths s s'.
Proof.
  intros Hn Hd He Hl Hr Hnd Hp. apply keeps_deaths_shrink; auto.
  - rewrite Hd. auto.
  - rewrite Hr. eauto.
  - rewrite Hnd. eauto.
  - rewrite Hp. intros proc p' Hx. right. exists p'. split; [exact Hx|reflexivity].
Qed.

Lemma keeps_deaths_upd_proc s proc p p' :
  procs s !! proc = Some p -> sublist (p_nodes p') (p_nodes p) ->
  keeps_deaths s (set_procs (<[proc := p']> (procs s)) s).
Proof.
  intros Hp Hs. shrink_frame.
  intros proc' x Hx. apply lookup_insert_Some in Hx as [[<- <-]|[_ Hx]]; right.
  - eauto.
  - exists x. split; [exact Hx|reflexivity].
Qed.

Lemma keeps_deaths_new_proc s proc p' :
  p_nodes p' = [] -> keeps_deaths s (set_procs (<[proc := p']> (procs s)) s).
Proof.
  intros Hp. shrink_frame.
  intros proc' x Hx. apply lookup_insert_Some in Hx as [[<- <-]|[_ Hx]]; [left; exact Hp|].
  right. exists x. split; [exact Hx|reflexivity].
Qed.

Lemma keeps_deaths_delete_proc s proc :
  keeps_deaths s (set_procs (delete proc (procs s)) s).
Proof.
  shrink_frame.
  intros proc' x Hx. apply lookup_delete_Some in Hx as [_ Hx].
  right. exists x. split; [exact Hx|reflexivity].
Qed.

Lemma keeps_deaths_upd_node s node n n' :
  nodes s !! node = Some n -> n_proc n' = n_proc n ->
  (forall ref, In ref (n_refs n') -> In ref (n_refs n)) ->
  keeps_deaths s (set_nodes (<[node := n']> (nodes s)) s).
Proof.
  intros Hx Hp Hs. shrink_frame.
  intros node' x Hx'. apply lookup_insert_Some in Hx' as [[<- <-]|[_ Hx']]; eauto.
Qed.

Lemma keeps_deaths_delete_node s node :
  keeps_deaths s (set_nodes (delete node (nodes s)) s).
Proof.
  shrink_frame.
  intros node' x Hx'. apply lookup_delete_Some in Hx' as [_ Hx']. eauto.
Qed.

Lemma keeps_deaths_upd_ref s ref r r' :
  refs s !! ref = Some r -> r_node r' = r_node r ->
  r_death r' = None \/ r_death r' = r_death r ->
  keeps_deaths s (set_refs (<[ref := r']> (refs s)) s).
Proof.
  intros Hx Hn Hd. shrink_frame.
  intros ref' x Hx'. apply lookup_insert_Some in Hx' as [[<- <-]|[_ Hx']]; eauto.
Qed.

Lemma keeps_deaths_delete_ref s ref :
  keeps_deaths s (set_refs (delete ref (refs s)) s).
Proof.
  shrink_frame.
  intros ref' x Hx'. apply lookup_delete_Some in Hx' as [_ Hx']. eauto.
Qed.

Lemma keeps_deaths_delete_death s d :
  keeps_deaths s (set_deaths (delete d (deaths s)) s).
Proof.
  shrink_frame.
  intros d' x Hx'. apply lookup_delete_Some in Hx' as [_ Hx']. eauto.
Qed.

(** *** Work lists *)

Lemma count_occ_remove_first (w x : binder_work) l :
  count_occ binder_work_eq_dec (remove_first w l) x =
  if decide (x = w) then pred (count_occ binder_work_eq_dec l x)
  else count_occ binder_work_eq_dec l x.
Proof.
  induction l as [|y l IH]; simpl.
  - destruct (decide (x = w)); reflexivity.
  - destruct (decide (y = w)) as [->|Hy].
    + destruct (decide (x = w)) as [->|Hx].
      * destruct (binder_work_eq_dec w w); [reflexivity|congruence].
      * destruct (binder_work_eq_dec w x); [congruence|reflexivity].
    + simpl. rewrite IH. destruct (decide (x = w)) as [->|Hx].
      * destruct (binder_work_eq_dec y w); [congruence|reflexivity].
      * reflexivity.
Qed.

Lemma count_occ_In_pos (x : binder_work) l :
  In x l -> (0 < count_occ binder_work_eq_dec l x)%nat.
Proof. apply count_occ_In. Qed.

(** A notification found on a list is linked there. *)
Lemma death_on_list s l d :
  death_inv s -> In (work_of_death d) (list_of s l) ->
  entries s !! work_of_death d = Some l.
Proof.
  intros Hs Hin. apply count_occ_In_pos in Hin.
  rewrite (di_lists s Hs) in Hin. destruct (decide _); [assumption|lia].
Qed.

Lemma death_progress_intro s s' :
  next_ptr s <= next_ptr s' ->
  (forall d, d < next_ptr s -> dead_binder_pending s' d -> dead_binder_pending s d) ->
  (forall d p, d < next_ptr s ->
     entries s' !! work_of_death d = Some (proc_delivered_death p) ->
     entries s !! work_of_death d = Some (proc_delivered_death p) \/
     dead_binder_pending s d) ->
  death_progress s s'.
Proof.
  intros Hn Hp Hd. split; [exact Hn|]. intros d Hlt. split; [auto|].
  intros [p Hx]. destruct (Hd d p Hlt Hx) as [Hy|Hy]; [left; exists p; exact Hy|auto].
Qed.

(** Lists and entries change, and no notification gets onto a list. *)
Lemma keeps_deaths_lists s ls es :
  (death_inv s -> forall l d,
     count_occ binder_work_eq_dec (default [] (ls !! l)) (work_of_death d) =
     if decide (es !! work_of_death d = Some l) then 1%nat else 0%nat) ->
  (forall d l, es !! work_of_death d = Some l ->
     entries s !! work_of_death d = Some l) ->
  keeps_deaths s (set_lists ls es s).
Proof.
  intros Hc He Hs. pose proof (Hc Hs) as Hc'. clear Hc.
  destruct Hs as [S1 S2 S3 S4 S5 L U A O N B]. split.
  - constructor; cbn; try assumption.
    intros d l Hx. apply He in Hx. eauto.
  - apply death_progress_intro; cbn; [lia| |].
    + intros d _ (x & Hx & Hc). exists x. split; [exact Hx|].
      destruct Hc as [T|[T (l & Hl & Ht)]]; [left; exact T|right].
      split; [exact T|]. exists l. split; [apply He; exact Hl|exact Ht].
    + intros d p _ Hx. left. apply He. exact Hx.
Qed.

Lemma keeps_deaths_del s w l :
  entries s !! w = Some l ->
  keeps_deaths s
    (set_lists (<[l := remove_first w (list_of s l)]> (lists s)) (delete w (entries s)) s).
Proof.
  intros Hw. apply keeps_deaths_lists.
  - intros Hs l' d. pose proof (di_lists s Hs) as L.
    destruct (decide (l' = l)) as [->|Hl].
    + rewrite lookup_insert_eq. cbn. rewrite count_occ_remove_first, L.
      destruct (decide (work_of_death d = w)) as [<-|Hd].
      * rewrite lookup_delete_eq. rewrite Hw.
        destruct (decide (Some l = Some l)); [|congruence].
        destruct (decide (None = Some l)); [congruence|reflexivity].
      * rewrite lookup_delete_ne by congruence. reflexivity.
    + rewrite lookup_insert_ne by congruence. fold (list_of s l'). rewrite L.
      destruct (decide (work_of_death d = w)) as [<-|Hd].
      * rewrite lookup_delete_eq, Hw.
        destruct (decide (Some l = Some l')); [congruence|].
        destruct (decide (None = Some l')); [congruence|reflexivity].
      * rewrite lookup_delete_ne by congruence. reflexivity.
  - intros d l' Hx. apply lookup_delete_Some in Hx as [_ Hx]. exact Hx.
Qed.

(** Linking a work item that is not a notification. *)
Lemma keeps_deaths_add s w l (items : list binder_work) :
  (forall d, w <> work_of_death d) ->
  (forall d, count_occ binder_work_eq_dec items (work_of_death d) =
             count_occ binder_work_eq_dec (list_of s l) (work_of_death d)) ->
  keeps_deaths s (set_lists (<[l := items]> (lists s)) (<[w := l]> (entries s)) s).
Proof.
  intros Hw Hi. apply keeps_deaths_lists.
  - intros Hs l' d. pose proof (di_lists s Hs) as L.
    rewrite (lookup_insert_ne (entries s)) by apply Hw.
    destruct (decide (l' = l)) as [->|Hl].
    + rewrite lookup_insert_eq. cbn. rewrite Hi. apply L.
    + rewrite lookup_insert_ne by congruence. apply L.
  - intros d l' Hx. rewrite lookup_insert_ne in Hx by apply Hw. exact Hx.
Qed.

Lemma keeps_deaths_add_tail s w l :
  (forall d, w <> work_of_death d) ->
  keeps_deaths s
    (set_lists (<[l := list_of s l ++ [w]]> (lists s)) (<[w := l]> (entries s)) s).
Proof.
  intros Hw. apply keeps_deaths_add; [exact Hw|].
  intros d. rewrite count_occ_app. simpl.
  destruct (binder_work_eq_dec w (work_of_death d)) as [E|_]; [destruct (Hw _ E)|lia].
Qed.

Lemma keeps_deaths_add_head s w l :
  (forall d, w <> work_of_death d) ->
  keeps_deaths s
    (set_lists (<[l := w :: list_of s l]> (lists s)) (<[w := l]> (entries s)) s).
Proof.
  intros Hw. apply keeps_deaths_add; [exact Hw|].
  intros d. simpl.
  destruct (binder_work_eq_dec w (work_of_death d)) as [E|_]; [destruct (Hw _ E)|lia].
Qed.

(** *** Stores that keep the relation whatever the state *)

Ltac deaths_kept :=
  solve
    [ apply keeps_deaths_same; [cbn; lia|reflexivity..]
    | eapply keeps_deaths_upd_proc;
        [eassumption|first [reflexivity|apply remove_Z_sublist]]
    | eapply keeps_deaths_upd_node;
        [eassumption|reflexivity
        |first [intros ? Hin; exact Hin|intros ?; apply remove_Z_In]]
    | eapply keeps_deaths_upd_ref;
        [eassumption|reflexivity|first [right; reflexivity|left; reflexivity]]
    | apply keeps_deaths_delete_proc
    | apply keeps_deaths_delete_node
    | apply keeps_deaths_delete_ref
    | apply keeps_deaths_delete_death
    | eapply keeps_deaths_del; eassumption
    | apply keeps_deaths_add_tail; intros ?; discriminate
    | apply keeps_deaths_add_head; intros ?; discriminate
    | apply keeps_deaths_new_proc; reflexivity
    | reflexivity ].

Ltac keeps_deaths_step := preserves_with deaths_kept.

(** The same for a store in a state built from the first state. *)
Ltac stored :=
  solve
    [ deaths_kept
    | eapply keeps_deaths_upd_proc;
        [lookup_now|first [reflexivity|apply remove_Z_sublist]]
    | eapply keeps_deaths_upd_node;
        [lookup_now|reflexivity
        |first [intros ? Hin; exact Hin|intros ?; apply remove_Z_In]]
    | eapply keeps_deaths_upd_ref;
        [lookup_now|reflexivity|first [right; reflexivity|left; reflexivity]]
    | eapply keeps_deaths_del; lookup_now ].

Lemma binder_inc_node_deaths node strong internal target :
  preserves keeps_deaths (binder_inc_node node strong internal target).
Proof. unfold binder_inc_node. keeps_deaths_step. Qed.
#[export] Hint Resolve binder_inc_node_deaths : preserves.

Lemma binder_dec_node_deaths node strong internal :
  preserves keeps_deaths (binder_dec_node node strong internal).
Proof. unfold binder_dec_node. keeps_deaths_step. Qed.
#[export] Hint Resolve binder_dec_node_deaths : preserves.

Lemma binder_delete_ref_deaths ref : preserves keeps_deaths (binder_delete_ref ref).
Proof. unfold binder_delete_ref. keeps_deaths_step. Qed.
#[export] Hint Resolve binder_delete_ref_deaths : preserves.

Lemma binder_inc_ref_deaths ref strong target :
  preserves keeps_deaths (binder_inc_ref ref strong target).
Proof. unfold binder_inc_ref. keeps_deaths_step. Qed.
#[export] Hint Resolve binder_inc_ref_deaths : preserves.

Lemma binder_dec_ref_deaths ref strong :
  preserves keeps_deaths (binder_dec_ref ref strong).
Proof. unfold binder_dec_ref. keeps_deaths_step. Qed.
#[export] Hint Resolve binder_dec_ref_deaths : preserves.

(** *** Stores that keep the invariant in the states where the driver makes
    them *)

Ltac map_cases :=
  repeat match goal with
  | H : <[_ := _]> _ !! _ = Some _ |- _ =>
      apply lookup_insert_Some in H as [[? ?]|[? H]]; subst
  | H : delete _ _ !! _ = Some _ |- _ => apply lookup_delete_Some in H as [? H]
  end.

(** A notification that is not linked goes onto a list. *)
Lemma death_inv_add s d l (items : list binder_work) :
  death_inv s -> entries s !! work_of_death d = None -> d < next_ptr s ->
  (forall x, count_occ binder_work_eq_dec items x =
     (count_occ binder_work_eq_dec (list_of s l) x +
      if decide (x = work_of_death d) then 1 else 0)%nat) ->
  death_inv
    (set_lists (<[l := items]> (lists s)) (<[work_of_death d := l]> (entries s)) s).
Proof.
  intros [S1 S2 S3 S4 S5 L U A O N B] He Hd Hi.
  constructor; cbn; try assumption.
  - intros d' l' Hx. map_cases; [congruence|eauto].
  - intros l' d'. unfold list_of. cbn.
    destruct (decide (l' = l)) as [->|Hl].
    + rewrite lookup_insert_eq. cbn. rewrite Hi, L.
      destruct (decide (work_of_death d' = work_of_death d)) as [E|E].
      * rewrite E, lookup_insert_eq, He.
        destruct (decide (None = Some l)); [congruence|].
        destruct (decide (Some l = Some l)); [reflexivity|congruence].
      * rewrite lookup_insert_ne by congruence.
        destruct (decide (entries s !! work_of_death d' = Some l)); lia.
    + rewrite lookup_insert_ne by congruence. fold (list_of s l'). rewrite L.
      destruct (decide (work_of_death d' = work_of_death d)) as [E|E].
      * rewrite E, lookup_insert_eq, He.
        destruct (decide (None = Some l')); [congruence|].
        destruct (decide (Some l = Some l')); [congruence|reflexivity].
      * rewrite lookup_insert_ne by congruence. reflexivity.
Qed.

Lemma death_inv_add_tail s d l :
  death_inv s -> entries s !! work_of_death d = None -> d < next_ptr s ->
  death_inv
    (set_lists (<[l := list_of s l ++ [work_of_death d]]> (lists s))
       (<[work_of_death d := l]> (entries s)) s).
Proof.
  intros Hs He Hd. apply death_inv_add; try assumption.
  intros x. rewrite count_occ_app. cbn [count_occ].
  destruct (binder_work_eq_dec (work_of_death d) x), (decide (x = work_of_death d));
    try congruence; lia.
Qed.

Lemma death_inv_add_head s d l :
  death_inv s -> entries s !! work_of_death d = None -> d < next_ptr s ->
  death_inv
    (set_lists (<[l := work_of_death d :: list_of s l]> (lists s))
       (<[work_of_death d := l]> (entries s)) s).
Proof.
  intros Hs He Hd. apply death_inv_add; try assumption.
  intros x. cbn [count_occ].
  destruct (binder_work_eq_dec (work_of_death d) x), (decide (x = work_of_death d));
    try congruence; lia.
Qed.

(** The type of a notification changes: its reference, if it has one, must
    allow the new type. *)
Lemma death_inv_type s d x v :
  death_inv s -> deaths s !! d = Some x ->
  (forall ref r, refs s !! ref = Some r -> r_death r = Some d ->
     v = Some BINDER_WORK_DEAD_BINDER /\
     forall n, nodes s !! r_node r = Some n -> n_proc n = None) ->
  death_inv (set_deaths (<[d := set_d_work_type v x]> (deaths s)) s).
Proof.
  intros [S1 S2 S3 S4 S5 L U A O N B] Hx Hv.
  constructor; cbn; try assumption.
  - intros d' x' Hx'. map_cases; eauto.
  - intros ref r d' x' Hr Hd' Hx'. map_cases; [|eauto].
    right. cbn. apply (Hv ref r Hr Hd').
Qed.

(** [kzalloc] of a notification. *)
Lemma keeps_deaths_alloc_death s script x :
  keeps_deaths s
    (set_deaths (<[next_ptr s := x]> (deaths s))
       (set_kzalloc (next_ptr s + 1) script s)).
Proof.
  intros [S1 S2 S3 S4 S5 L U A O N B]. split.
  - constructor; cbn; try assumption.
    + intros d' x' Hx'. map_cases; [lia|]. apply S1 in Hx'. lia.
    + intros d' l Hx'. apply S2 in Hx'. lia.
    + intros ref r Hr. destruct (S3 _ _ Hr) as (a & b & c).
      split; [lia|]. split; [lia|]. intros d' Hd'. specialize (c d' Hd'). lia.
    + intros node n Hn. destruct (S4 _ _ Hn) as (a & b).
      split; [lia|]. intros ref Hin. specialize (b ref Hin). lia.
    + intros proc p Hp node Hin. specialize (S5 _ _ Hp node Hin). lia.
    + intros ref r d' x' Hr Hd' Hx'. destruct (S3 _ _ Hr) as (_ & _ & c).
      specialize (c d' Hd'). rewrite lookup_insert_ne in Hx' by lia. eauto.
  - apply death_progress_intro; cbn; [lia| |].
    + intros d' Hlt (x' & Hx' & Hc). cbn in Hx', Hc.
      rewrite lookup_insert_ne in Hx' by lia. exists x'. auto.
    + intros d' p _ Hx'. auto.
Qed.

Lemma keeps_deaths_attach s ref r d x :
  refs s !! ref = Some r -> deaths s !! d = Some x -> d_work_type x = None ->
  (forall ref' r', refs s !! ref' = Some r' -> r_death r' <> Some d) ->
  keeps_deaths s (set_refs (<[ref := set_r_death (Some d) r]> (refs s)) s).
Proof.
  intros Hr Hx Ht Hfree [S1 S2 S3 S4 S5 L U A O N B]. split.
  - constructor; cbn; try assumption.
    + intros ref' r' Hr'. map_cases; [|eauto]. cbn.
      destruct (S3 _ _ Hr) as (a & b & c). split; [lia|]. split; [lia|].
      intros d' E. injection E as <-. eauto.
    + intros r1 r2 x1 x2 d' H1 H2 D1 D2.
      map_cases; cbn in *; try reflexivity; try solve [eauto]; exfalso;
        first [eapply Hfree; [exact H2|congruence]|eapply Hfree; [exact H1|congruence]].
    + intros ref' r' d' x' Hr' Hd' Hx'. map_cases; [|eauto]. cbn in Hd'.
      injection Hd' as <-. left. congruence.
    + intros node n ref' r' Hn Hin Hr'. map_cases; [|eauto]. cbn. eauto.
  - apply death_progress_intro; cbn; [lia|auto|auto].
Qed.

Lemma keeps_deaths_orphan s node n :
  nodes s !! node = Some n ->
  (forall proc p, procs s !! proc = Some p -> ~ In node (p_nodes p)) ->
  keeps_deaths s (set_nodes (<[node := set_n_orphan n]> (nodes s)) s).
Proof.
  intros Hn Hout [S1 S2 S3 S4 S5 L U A O N B]. split.
  - constructor; cbn; try assumption.
    + intros node' n' Hn'. map_cases; [|eauto]. cbn. eauto.
    + intros ref r d x Hr Hd Hx. destruct (A _ _ _ _ Hr Hd Hx) as [T|[T Hnone]];
        [left; exact T|right]. split; [exact T|].
      intros n' Hn'. map_cases; [reflexivity|eauto].
    + intros proc p node' n' Hp Hin Hn'. map_cases; [|eauto].
      destruct (Hout _ _ Hp Hin).
    + intros node' n' ref r Hn' Hin Hr. map_cases; [|eauto]. cbn in Hin. eauto.
  - apply death_progress_intro; cbn; [lia|auto|auto].
Qed.

Lemma keeps_deaths_new_node s node n :
  node < next_ptr s -> n_refs n = [] ->
  (forall ref r, refs s !! ref = Some r -> r_node r <> node) ->
  (forall proc p, procs s !! proc = Some p -> ~ In node (p_nodes p)) ->
  keeps_deaths s (set_nodes (<[node := n]> (nodes s)) s).
Proof.
  intros Hlt Hrefs Hfree Hout [S1 S2 S3 S4 S5 L U A O N B]. split.
  - constructor; cbn; try assumption.
    + intros node' n' Hn'. map_cases; [|eauto]. rewrite Hrefs. split; [lia|].
      intros ref [].
    + intros ref r d x Hr Hd Hx. destruct (A _ _ _ _ Hr Hd Hx) as [T|[T Hnone]];
        [left; exact T|right]. split; [exact T|].
      intros n' Hn'. map_cases; [destruct (Hfree _ _ Hr); congruence|eauto].
    + intros proc p node' n' Hp Hin Hn'. map_cases; [|eauto].
      destruct (Hout _ _ Hp Hin).
    + intros node' n' ref r Hn' Hin Hr. map_cases; [|eauto].
      rewrite Hrefs in Hin. destruct Hin.
  - apply death_progress_intro; cbn; [lia|auto|auto].
Qed.

Lemma keeps_deaths_link_node s proc p node n (l' : list Z) :
  procs s !! proc = Some p -> nodes s !! node = Some n -> n_proc n = Some proc ->
  ~ In node (p_nodes p) -> l' ≡ₚ node :: p_nodes p ->
  keeps_deaths s (set_procs (<[proc := set_p_nodes l' p]> (procs s)) s).
Proof.
  intros Hp Hn Ho Hout Hperm [S1 S2 S3 S4 S5 L U A O N B]. split.
  - constructor; cbn; try assumption.
    + intros proc' p' Hp' node' Hin. map_cases; [|eauto]. cbn in Hin.
      apply list_elem_of_In in Hin. rewrite Hperm in Hin.
      apply elem_of_cons in Hin as [->|Hin]; [apply S4 in Hn; lia|].
      apply list_elem_of_In in Hin. eauto.
    + intros proc' p' node' n' Hp' Hin Hn'. map_cases; [|eauto]. cbn in Hin.
      apply list_elem_of_In in Hin. rewrite Hperm in Hin.
      apply elem_of_cons in Hin as [->|Hin]; [congruence|].
      apply list_elem_of_In in Hin. eauto.
    + intros proc' p' Hp'. map_cases; [|eauto]. cbn. rewrite Hperm.
      apply NoDup_cons. split; [|eauto]. rewrite list_elem_of_In. exact Hout.
  - apply death_progress_intro; cbn; [lia|auto|auto].
Qed.

Lemma keeps_deaths_new_ref s ref r :
  ref < next_ptr s -> r_node r < next_ptr s -> r_death r = None ->
  (forall node n, nodes s !! node = Some n -> ~ In ref (n_refs n)) ->
  keeps_deaths s (set_refs (<[ref := r]> (refs s)) s).
Proof.
  intros Hlt Hnode Hd Hfree [S1 S2 S3 S4 S5 L U A O N B]. split.
  - constructor; cbn; try assumption.
    + intros ref' r' Hr'. map_cases; [|eauto]. rewrite Hd.
      split; [lia|]. split; [lia|]. discriminate.
    + intros r1 r2 x1 x2 d' H1 H2 D1 D2. map_cases; try congruence. eauto.
    + intros ref' r' d' x' Hr' Hd' Hx'. map_cases; [congruence|eauto].
    + intros node n ref' r' Hn Hin Hr'. map_cases; [|eauto].
      destruct (Hfree _ _ Hn Hin).
  - apply death_progress_intro; cbn; [lia|auto|auto].
Qed.

Lemma keeps_deaths_link_ref s node n ref r :
  nodes s !! node = Some n -> refs s !! ref = Some r -> r_node r = node ->
  keeps_deaths s (set_nodes (<[node := set_n_refs (ref :: n_refs n) n]> (nodes s)) s).
Proof.
  intros Hn Hr Hnode [S1 S2 S3 S4 S5 L U A O N B]. split.
  - constructor; cbn; try assumption.
    + intros node' n' Hn'. map_cases; [|eauto]. cbn.
      destruct (S4 _ _ Hn) as [a b]. split; [lia|].
      intros ref' [<-|Hin]; [apply S3 in Hr; lia|eauto].
    + intros ref' r' d x Hr' Hd Hx.
      destruct (A _ _ _ _ Hr' Hd Hx) as [T|[T Hnone]]; [left; exact T|right].
      split; [exact T|]. intros n' Hn'. map_cases; [cbn; apply Hnone; congruence|eauto].
    + intros proc p node' n' Hp Hin Hn'. map_cases; [cbn; eauto|eauto].
    + intros node' n' ref' r' Hn' Hin Hr'. map_cases; [|eauto]. cbn in Hin.
      destruct Hin as [<-|Hin]; [congruence|eauto].
  - apply death_progress_intro; cbn; [lia|auto|auto].
Qed.

(** *** What happens to a notification *)

(** The node died: the notification of a reference is typed and queued. *)
Lemma keeps_deaths_mark_dead s d x ref r l :
  deaths s !! d = Some x -> d_work_type x = None ->
  refs s !! ref = Some r -> r_death r = Some d ->
  (forall n, nodes s !! r_node r = Some n -> n_proc n = None) ->
  entries s !! work_of_death d = None -> todo_list l = true ->
  keeps_deaths s
    (set_lists
       (<[l := list_of s l ++ [work_of_death d]]> (lists s))
       (<[work_of_death d := l]> (entries s))
       (set_deaths
          (<[d := set_d_work_type (Some BINDER_WORK_DEAD_BINDER) x]> (deaths s)) s)).
Proof.
  intros Hx Ht Hr Hd Hn He Hl Hs. split.
  - apply (death_inv_add_tail
             (set_deaths
                (<[d := set_d_work_type (Some BINDER_WORK_DEAD_BINDER) x]> (deaths s)) s)).
    + apply death_inv_type; [exact Hs|exact Hx|].
      intros ref' r' Hr' Hd'. split; [reflexivity|].
      assert (ref' = ref) by (eapply (di_unique s Hs); eassumption). subst ref'.
      assert (r' = r) by congruence. subst r'. exact Hn.
    + exact He.
    + cbn. eapply di_deaths_scope; eassumption.
  - apply death_progress_intro; cbn; [lia| |].
    + intros d' _ (x' & Hx' & Hc). cbn in Hx', Hc.
      destruct (decide (d' = d)) as [->|Hne].
      * exists x. auto.
      * rewrite lookup_insert_ne in Hx' by congruence. exists x'. split; [exact Hx'|].
        rewrite lookup_insert_ne in Hc by congruence. exact Hc.
    + intros d' p _ Hx'. destruct (decide (d' = d)) as [->|Hne].
      * rewrite lookup_insert_eq in Hx'. injection Hx' as ->. discriminate.
      * rewrite lookup_insert_ne in Hx' by congruence. auto.
Qed.

(** A notification without a reference is queued as the answer to
    BC_CLEAR_DEATH_NOTIFICATION. *)
Lemma keeps_deaths_requeue s d x l :
  deaths s !! d = Some x ->
  (forall ref r, refs s !! ref = Some r -> r_death r <> Some d) ->
  entries s !! work_of_death d = None -> todo_list l = true ->
  keeps_deaths s
    (set_lists
       (<[l := list_of s l ++ [work_of_death d]]> (lists s))
       (<[work_of_death d := l]> (entries s))
       (set_deaths
          (<[d := set_d_work_type (Some BINDER_WORK_CLEAR_DEATH_NOTIFICATION) x]>
             (deaths s)) s)).
Proof.
  intros Hx Hfree He Hl Hs. split.
  - apply (death_inv_add_tail
             (set_deaths
                (<[d := set_d_work_type (Some BINDER_WORK_CLEAR_DEATH_NOTIFICATION) x]>
                   (deaths s)) s)).
    + apply death_inv_type; [exact Hs|exact Hx|].
      intros ref' r' Hr' Hd'. destruct (Hfree _ _ Hr' Hd').
    + exact He.
    + cbn. eapply di_deaths_scope; eassumption.
  - apply death_progress_intro; cbn; [lia| |].
    + intros d' _ (x' & Hx' & Hc). cbn in Hx', Hc.
      destruct (decide (d' = d)) as [->|Hne].
      * rewrite lookup_insert_eq in Hx'. injection Hx' as <-. cbn in Hc.
        destruct Hc as [T|[[T|T] _]]; discriminate.
      * rewrite lookup_insert_ne in Hx' by congruence. exists x'. split; [exact Hx'|].
        rewrite lookup_insert_ne in Hc by congruence. exact Hc.
    + intros d' p _ Hx'. destruct (decide (d' = d)) as [->|Hne].
      * rewrite lookup_insert_eq in Hx'. injection Hx' as ->. discriminate.
      * rewrite lookup_insert_ne in Hx' by congruence. auto.
Qed.

(** BC_CLEAR_DEATH_NOTIFICATION for a notification that is linked: only the
    type changes. *)
Lemma keeps_deaths_and_clear s d x :
  deaths s !! d = Some x -> d_work_type x = Some BINDER_WORK_DEAD_BINDER ->
  (forall ref r, refs s !! ref = Some r -> r_death r <> Some d) ->
  keeps_deaths s
    (set_deaths
       (<[d := set_d_work_type (Some BINDER_WORK_DEAD_BINDER_AND_CLEAR) x]>
          (deaths s)) s).
Proof.
  intros Hx Ht Hfree Hs. split.
  - apply death_inv_type; [exact Hs|exact Hx|].
    intros ref' r' Hr' Hd'. destruct (Hfree _ _ Hr' Hd').
  - apply death_progress_intro; cbn; [lia| |auto].
    intros d' _ (x' & Hx' & Hc). cbn in Hx', Hc.
    destruct (decide (d' = d)) as [->|Hne].
    + rewrite lookup_insert_eq in Hx'. injection Hx' as <-. cbn in Hc.
      exists x. split; [exact Hx|]. destruct Hc as [T|[_ Hl]]; [discriminate|].
      right. auto.
    + rewrite lookup_insert_ne in Hx' by congruence. exists x'. auto.
Qed.

(** BR_DEAD_BINDER was written: the notification goes from the list it was
    read from to [delivered_death]. *)
Lemma keeps_deaths_deliver s d x l l' :
  deaths s !! d = Some x ->
  d_work_type x = Some BINDER_WORK_DEAD_BINDER \/
  d_work_type x = Some BINDER_WORK_DEAD_BINDER_AND_CLEAR ->
  entries s !! work_of_death d = Some l -> todo_list l = true ->
  keeps_deaths s
    (set_lists
       (<[l' := work_of_death d ::
                default [] (<[l := remove_first (work_of_death d) (list_of s l)]>
                              (lists s) !! l')]>
          (<[l := remove_first (work_of_death d) (list_of s l)]> (lists s)))
       (<[work_of_death d := l']> (delete (work_of_death d) (entries s))) s).
Proof.
  intros Hx Ht He Hl Hs.
  pose proof (keeps_deaths_del s _ _ He Hs) as [Hs1 _]. split.
  - apply (death_inv_add_head _ d l') in Hs1; [exact Hs1| |].
    + cbn. apply lookup_delete_eq.
    + cbn. eapply di_deaths_scope; eassumption.
  - apply death_progress_intro; cbn; [lia| |].
    + intros d' _ (x' & Hx' & Hc). cbn in Hx', Hc. exists x'. split; [exact Hx'|].
      destruct Hc as [T|[T (l0 & Hl0 & Ht0)]]; [left; exact T|right].
      split; [exact T|]. destruct (decide (d' = d)) as [->|Hne].
      * exists l. auto.
      * rewrite lookup_insert_ne, lookup_delete_ne in Hl0 by congruence. eauto.
    + intros d' p _ Hx'. destruct (decide (d' = d)) as [->|Hne].
      * right. exists x. split; [exact Hx|]. right. split; [exact Ht|]. eauto.
      * rewrite lookup_insert_ne, lookup_delete_ne in Hx' by congruence. auto.
Qed.

(** *** Code that allocates *)

Lemma insert_by_key_perm key x l : insert_by_key key x l ≡ₚ x :: l.
Proof.
  induction l as [|y l IH]; simpl; [reflexivity|].
  destruct (key x <? key y); [reflexivity|]. rewrite IH. apply Permutation_swap.
Qed.

(** The last store of a sequence of stores, apart from the ones before it. *)
Ltac peel :=
  lazymatch goal with
  | |- keeps_deaths _ (set_procs _ ?i) => transitivity i
  | |- keeps_deaths _ (set_threads _ ?i) => transitivity i
  | |- keeps_deaths _ (set_nodes _ ?i) => transitivity i
  | |- keeps_deaths _ (set_refs _ ?i) => transitivity i
  | |- keeps_deaths _ (set_deaths _ ?i) => transitivity i
  | |- keeps_deaths _ (set_lists _ _ ?i) => transitivity i
  | |- keeps_deaths _ (set_wakeups _ ?i) => transitivity i
  | |- keeps_deaths _ (set_transactions _ ?i) => transitivity i
  | |- keeps_deaths _ (set_tcompletes _ ?i) => transitivity i
  | |- keeps_deaths _ (set_binder_dead_nodes _ ?i) => transitivity i
  | |- keeps_deaths _ (set_binder_procs _ ?i) => transitivity i
  | |- keeps_deaths _ (set_binder_last_id _ ?i) => transitivity i
  | |- keeps_deaths _ (set_kzalloc _ _ ?i) => transitivity i
  | |- keeps_deaths _ (after_user_error ?i) => transitivity i
  end.

(** A lemma on a store, used at the state the goal starts from. *)
Tactic Notation "from_state" constr(lem) :=
  lazymatch goal with
  | |- keeps_deaths ?i _ => eapply (lem i)
  end.

Ltac peel_death :=
  lazymatch goal with
  | |- keeps_deaths _ (set_lists _ _ (set_deaths _ ?i)) => transitivity i
  end.

Lemma keeps_deaths_kzalloc s ptr script :
  next_ptr s <= ptr -> keeps_deaths s (set_kzalloc ptr script s).
Proof. intros Hle. apply keeps_deaths_same; [cbn; lia|reflexivity..]. Qed.

Lemma keeps_deaths_with s s' : (death_inv s -> keeps_deaths s s') -> keeps_deaths s s'.
Proof. intros Hk Hs. exact (Hk Hs Hs). Qed.

(** Lookups in the states met so far, in terms of the first state. *)
Ltac lookups :=
  repeat match goal with
  | H : _ !! _ = Some _ |- _ => progress cbn in H
  | H : _ !! _ = None |- _ => progress cbn in H
  | H : <[?k := _]> _ !! ?k = Some _ |- _ =>
      rewrite lookup_insert_eq in H; injection H as ?; subst
  | H : <[?k := _]> _ !! ?k' = Some _ |- _ =>
      rewrite lookup_insert_ne in H by (first [assumption|congruence|lia])
  | H : ?m !! ?k = Some ?x, H' : ?m !! ?k = Some ?y |- _ =>
      assert (y = x) by congruence; subst y; clear H'
  end.

Lemma binder_new_node_deaths proc ptr cookie :
  preserves keeps_deaths (binder_new_node proc ptr cookie).
Proof.
  intros s a s' E. unfold binder_new_node in E.
  apply M_bind_Ok in E as (p & s0 & Ep & E). apply get_proc_Ok in Ep as [Ep ->].
  apply M_bind_Ok in E as (existing & s0 & Ef & E).
  pose proof (reads_keep_state _ (find_node_preserves _ _ _) _ _ _ Ef) as ->.
  destruct existing; [apply M_ret_Ok in E as [_ ->]; reflexivity|].
  apply M_bind_Ok in E as (a0 & s1 & Ek & E).
  apply kzalloc_Ok in Ek as (script & [[-> ->]|[-> ->]]).
  { apply M_ret_Ok in E as [_ ->]. apply keeps_deaths_kzalloc. lia. }
  apply M_bind_Ok in E as (id & s2 & Ei & E). apply next_debug_id_Ok in Ei as ->.
  minv. lookups. apply keeps_deaths_with. intros [S1 S2 S3 S4 S5 L U A O N B].
  peel; [peel; [peel; [apply keeps_deaths_kzalloc; lia|deaths_kept]|]|].
  - apply keeps_deaths_new_node; cbn; [lia|reflexivity| |].
    + intros ref r Hr. apply S3 in Hr. lia.
    + intros proc' p' Hp' Hin. specialize (S5 _ _ Hp' _ Hin). lia.
  - eapply keeps_deaths_link_node; cbn.
    + exact Ep.
    + apply lookup_insert_eq.
    + reflexivity.
    + intros Hin. specialize (S5 _ _ Ep _ Hin). lia.
    + apply insert_by_key_perm.
Qed.
#[export] Hint Resolve binder_new_node_deaths : preserves.

(** Inversion through the calls that only read, and through [kzalloc]. *)
Ltac reads_inv_step :=
  match goal with
  | E : find_node _ _ _ = Ok (_, ?s') |- _ =>
      is_var s'; pose proof (reads_keep_state _ (find_node_preserves _ _ _) _ _ _ E);
      subst s'
  | E : find_ref_by_desc _ _ _ = Ok (_, ?s') |- _ =>
      is_var s';
      pose proof (reads_keep_state _ (find_ref_by_desc_preserves _ _ _) _ _ _ E);
      subst s'
  | E : find_ref_by_node _ _ _ = Ok (_, ?s') |- _ =>
      is_var s';
      pose proof (reads_keep_state _ (find_ref_by_node_preserves _ _ _) _ _ _ E);
      subst s'
  | E : scan_desc _ _ _ = Ok (_, ?s') |- _ =>
      is_var s'; pose proof (reads_keep_state _ (scan_desc_preserves _ _ _) _ _ _ E);
      subst s'
  | E : insert_ref_by_desc _ _ _ _ = Ok (_, ?s') |- _ =>
      is_var s';
      pose proof (reads_keep_state _ (insert_ref_by_desc_preserves _ _ _ _) _ _ _ E);
      subst s'
  | E : find_delivered_death _ _ _ = Ok (_, ?s') |- _ =>
      is_var s';
      pose proof (reads_keep_state _ (find_delivered_death_preserves _ _ _) _ _ _ E);
      subst s'
  | E : binder_get_ref _ _ _ = Ok (_, ?s') |- _ =>
      is_var s';
      pose proof (reads_keep_state _ (binder_get_ref_preserves _ _ _) _ _ _ E);
      subst s'
  | E : binder_get_node _ _ _ = Ok (_, ?s') |- _ =>
      is_var s';
      pose proof (reads_keep_state _ (binder_get_node_preserves _ _ _) _ _ _ E);
      subst s'
  | E : kzalloc _ = Ok _ |- _ =>
      apply kzalloc_Ok in E as (? & [[? ?]|[? ?]]); subst;
      try match goal with
          | E' : match _ with _ => _ end _ = Ok _ |- _ => cbv beta iota in E'
          end
  | E : next_debug_id _ = Ok _ |- _ => apply next_debug_id_Ok in E; subst
  end.

Ltac minv_all := repeat first [reads_inv_step|minv_step].

(** The same through the list operations. *)
Ltac lists_inv_step :=
  match goal with
  | E : queue_death _ _ _ _ = Ok _ |- _ => unfold queue_death in E
  | E : list_add_tail _ _ _ = Ok _ |- _ => unfold list_add_tail in E
  | E : list_add _ _ _ = Ok _ |- _ => unfold list_add in E
  | E : list_move _ _ _ = Ok _ |- _ => unfold list_move in E
  | E : list_move_tail _ _ _ = Ok _ |- _ => unfold list_move_tail in E
  | E : list_del _ _ = Ok _ |- _ => unfold list_del in E
  | E : list_del_init _ _ = Ok _ |- _ => unfold list_del_init in E
  | E : wake_up_interruptible _ _ = Ok _ |- _ => unfold wake_up_interruptible in E
  | E : kfree_death _ _ = Ok _ |- _ => unfold kfree_death in E
  end.

Ltac minv_lists := repeat first [reads_inv_step|lists_inv_step|minv_step].

Lemma death_progress_fresh s s' :
  next_ptr s <= next_ptr s' ->
  (forall d, d < next_ptr s ->
     deaths s' !! d = deaths s !! d /\
     entries s' !! work_of_death d = entries s !! work_of_death d) ->
  death_progress s s'.
Proof.
  intros Hn Hsame. apply death_progress_intro; [exact Hn| |].
  - intros d Hlt (x & Hx & Hc). destruct (Hsame d Hlt) as [Ed Ee].
    exists x. rewrite <- Ed, <- Ee. auto.
  - intros d p Hlt Hx. destruct (Hsame d Hlt) as [_ Ee]. left. congruence.
Qed.

Lemma binder_get_ref_for_node_deaths proc node :
  preserves keeps_deaths (binder_get_ref_for_node proc node).
Proof.
  intros s a s' E. unfold binder_get_ref_for_node in E. minv_all; try reflexivity.
  { apply keeps_deaths_kzalloc. lia. }
  lookups. apply keeps_deaths_with. intros [S1 S2 S3 S4 S5 L U A O N B].
  match goal with Hn : nodes s !! node = Some _ |- _ => pose proof (S4 _ _ Hn) as [Hlt Hin] end.
  peel; [peel; [peel; [peel; [peel; [apply keeps_deaths_kzalloc; lia|deaths_kept]|]|]|]|].
  - apply keeps_deaths_new_ref; cbn; [lia|lia|reflexivity|].
    intros node' n' Hn' Hin'. apply S4 in Hn' as [_ Hn']. specialize (Hn' _ Hin'). lia.
  - stored.
  - stored.
  - eapply keeps_deaths_link_ref; [lookup_now|lookup_now|reflexivity].
Qed.
#[export] Hint Resolve binder_get_ref_for_node_deaths : preserves.

(** *** The functions of the driver *)

Section keeps_deaths.
Context `{layout}.

(** The arena changes a process and leaves its nodes. *)
Ltac arena_kept :=
  match goal with
  | Hf : _ = Ok (_, ?x') |- keeps_deaths _ (set_procs (<[_ := ?x']> _) _) =>
      cbv beta in Hf;
      eapply keeps_deaths_upd_proc; [eassumption|];
      first
        [ apply binder_alloc_buf_nodes in Hf
        | apply binder_mmap_nodes in Hf
        | apply bind_Ok in Hf as (? & Hf & ?); result_inv;
          apply binder_free_buf_nodes in Hf ];
      rewrite Hf; reflexivity
  end.

Ltac kept := first [deaths_kept|arena_kept].
Ltac keeps := preserves_with kept.

Lemma task_get_unused_fd_flags_deaths proc cloexec :
  preserves keeps_deaths (task_get_unused_fd_flags proc cloexec).
Proof. unfold task_get_unused_fd_flags. keeps. Qed.
Hint Resolve task_get_unused_fd_flags_deaths : preserves.

Lemma task_fd_install_deaths proc fd file :
  preserves keeps_deaths (task_fd_install proc fd file).
Proof. unfold task_fd_install. keeps. Qed.
Hint Resolve task_fd_install_deaths : preserves.

Lemma task_close_fd_deaths proc fd : preserves keeps_deaths (task_close_fd proc fd).
Proof. unfold task_close_fd. keeps. Qed.
Hint Resolve task_close_fd_deaths : preserves.

Lemma binder_pop_transaction_deaths target t :
  preserves keeps_deaths (binder_pop_transaction target t).
Proof. unfold binder_pop_transaction. keeps. Qed.
Hint Resolve binder_pop_transaction_deaths : preserves.

Lemma send_failed_reply_loop_deaths fuel : forall t e,
  preserves keeps_deaths (send_failed_reply_loop fuel t e).
Proof. induction fuel; intros t e; simpl; keeps. Qed.
Hint Resolve send_failed_reply_loop_deaths : preserves.

Lemma binder_send_failed_reply_deaths t e :
  preserves keeps_deaths (binder_send_failed_reply t e).
Proof. unfold binder_send_failed_reply. keeps. Qed.
Hint Resolve binder_send_failed_reply_deaths : preserves.

Lemma release_object_deaths proc buffer failed_at i :
  preserves keeps_deaths (release_object proc buffer failed_at i).
Proof. unfold release_object. keeps. Qed.
Hint Resolve release_object_deaths : preserves.

Lemma release_objects_deaths proc buffer failed_at count : forall i,
  preserves keeps_deaths (release_objects proc buffer failed_at i count).
Proof. induction count; intros i; simpl; keeps. Qed.
Hint Resolve release_objects_deaths : preserves.

Lemma binder_transaction_buffer_release_deaths proc buffer failed_at :
  preserves keeps_deaths (binder_transaction_buffer_release proc buffer failed_at).
Proof. unfold binder_transaction_buffer_release. keeps. Qed.
Hint Resolve binder_transaction_buffer_release_deaths : preserves.

Lemma binder_transaction_target_deaths proc thread tr reply :
  preserves keeps_deaths (binder_transaction_target proc thread tr reply).
Proof. unfold binder_transaction_target. keeps. Qed.
Hint Resolve binder_transaction_target_deaths : preserves.

Lemma translate_object_deaths proc thread tr reply tg buffer i e :
  preserves keeps_deaths (translate_object proc thread tr reply tg buffer i e).
Proof. unfold translate_object. keeps. Qed.
Hint Resolve translate_object_deaths : preserves.

Lemma translate_objects_deaths proc thread tr reply tg buffer count e : forall i,
  preserves keeps_deaths
    (translate_objects proc thread tr reply tg buffer i count e).
Proof. induction count; intros i; simpl; keeps. Qed.
Hint Resolve translate_objects_deaths : preserves.

Lemma copy_transaction_data_deaths tr buffer :
  preserves keeps_deaths (copy_transaction_data tr buffer).
Proof. unfold copy_transaction_data. keeps. Qed.
Hint Resolve copy_transaction_data_deaths : preserves.

Lemma transaction_unwind_deaths tg t tcomplete buffer failed_at :
  preserves keeps_deaths (transaction_unwind tg t tcomplete buffer failed_at).
Proof. unfold transaction_unwind. keeps. Qed.
Hint Resolve transaction_unwind_deaths : preserves.

Lemma transaction_failed_deaths thread irt e :
  preserves keeps_deaths (transaction_failed thread irt e).
Proof. unfold transaction_failed. keeps. Qed.
Hint Resolve transaction_failed_deaths : preserves.

Lemma transaction_commit_deaths thread reply tg t tcomplete buffer :
  preserves keeps_deaths (transaction_commit thread reply tg t tcomplete buffer).
Proof. unfold transaction_commit. keeps. Qed.
Hint Resolve transaction_commit_deaths : preserves.

Lemma binder_transaction_deaths proc thread tr reply e :
  preserves keeps_deaths (binder_transaction proc thread tr reply e).
Proof. unfold binder_transaction. keeps. Qed.
Hint Resolve binder_transaction_deaths : preserves.

(** BC_FREE_BUFFER moves the next asynchronous transaction of the node to the
    thread; whatever the item is, it goes from a list that is read to a list
    that is read. *)
Lemma list_move_tail_deaths w l0 l s u s' :
  todo_list l0 = true -> todo_list l = true -> In w (list_of s l0) ->
  list_move_tail w l s = Ok (u, s') -> keeps_deaths s s'.
Proof.
  intros Hl0 Hl Hin E. unfold list_move_tail, list_del, list_add_tail in E.
  apply M_bind_Ok in E as ([] & s1 & E1 & E). apply modify_Ok in E1.
  apply modify_Ok in E. subst s'.
  destruct w as [t|c|n|d].
  1-3: transitivity s1;
    [subst s1; destruct (entries s !! _) eqn:Ew; [stored|reflexivity]
    |apply keeps_deaths_add_tail; intros ?; discriminate].
  apply keeps_deaths_with. intros Hs.
  pose proof (death_on_list _ _ _ Hs Hin) as Hw. rewrite Hw in E1.
  assert (K1 : keeps_deaths s s1) by (subst s1; eapply keeps_deaths_del; exact Hw).
  intros _. destruct (K1 Hs) as [Hs1 _]. split.
  - apply death_inv_add_tail; [exact Hs1| |].
    + subst s1. cbn. apply lookup_delete_eq.
    + subst s1. cbn. eapply di_entries_scope; eassumption.
  - subst s1. apply death_progress_intro; cbn; [lia| |].
    + intros d' _ (x & Hx & Hc). cbn in Hx, Hc. exists x. split; [exact Hx|].
      destruct Hc as [T|[T (l' & Hl' & Ht)]]; [left; exact T|right].
      split; [exact T|]. destruct (decide (d' = d)) as [->|Hd].
      * exists l0. auto.
      * rewrite lookup_insert_ne, lookup_delete_ne in Hl' by congruence. eauto.
    + intros d' p _ Hx. destruct (decide (d' = d)) as [->|Hd].
      * rewrite lookup_insert_eq in Hx. injection Hx as ->. discriminate.
      * rewrite lookup_insert_ne, lookup_delete_ne in Hx by congruence. auto.
Qed.

Lemma promote_deaths node thread :
  preserves keeps_deaths
    (s ← get_state;
     next ← deref (head (list_of s (node_async_todo node)));
     list_move_tail next (thread_todo thread)).
Proof.
  intros s u s' E. apply M_bind_Ok in E as (s0 & s1 & E0 & E).
  apply get_state_Ok in E0 as [-> ->].
  apply M_bind_Ok in E as (next & s1 & E0 & E). apply deref_Ok in E0 as [E0 ->].
  apply (list_move_tail_deaths next (node_async_todo node) (thread_todo thread) s u s');
    [reflexivity|reflexivity| |exact E].
  destruct (list_of s (node_async_todo node)); [discriminate|].
  injection E0 as ->. left. reflexivity.
Qed.
Hint Resolve promote_deaths : preserves.

Lemma find_delivered_death_In cookie l : forall s d s',
  find_delivered_death cookie l s = Ok (Some d, s') -> In (work_of_death d) l.
Proof.
  induction l as [|w l IH]; intros s d s' E; simpl in E.
  - apply M_ret_Ok in E as [E _]. discriminate.
  - destruct w; try discriminate. minv.
    + left. congruence.
    + right. eapply IH. eassumption.
Qed.

Lemma binder_command_deaths proc thread cmd e :
  preserves keeps_deaths (binder_command proc thread cmd e).
Proof.
  unfold binder_command. destruct cmd; try solve [keeps].
  - (* BC_REQUEST_DEATH_NOTIFICATION *)
    intros s a s' E. minv_lists; try reflexivity; try stored.
    all: lookups.
    all: apply keeps_deaths_with; intros Hs.
    all: pose proof Hs as [S1 S2 S3 S4 S5 L U A O N B].
    all: assert (He : entries s !! work_of_death (next_ptr s) = None)
      by (destruct (entries s !! _) eqn:Ee; [apply S2 in Ee; lia|reflexivity]).
    all: assert (Hfree : forall ref r, refs s !! ref = Some r ->
                         r_death r <> Some (next_ptr s))
      by (intros ref r Hr Hd; apply S3 in Hr as (_ & _ & Hr);
          specialize (Hr _ Hd); lia).
    all: try (peel; [|stored]).
    all: try (peel_death;
              [|from_state keeps_deaths_mark_dead;
                [lookup_now|reflexivity|lookup_now|reflexivity
                |cbn; intros n Hn;
                 match goal with
                 | Hb : bool_decide (n_proc ?n' = None) = true |- _ =>
                     apply bool_decide_eq_true in Hb; congruence
                 end
                |exact He|reflexivity]]).
    all: peel; [from_state keeps_deaths_alloc_death|].
    all: from_state keeps_deaths_attach; [lookup_now|lookup_now|reflexivity|exact Hfree].
  - (* BC_CLEAR_DEATH_NOTIFICATION *)
    intros s a s' E. minv_lists; try reflexivity; try stored.
    all: lookups.
    all: apply keeps_deaths_with; intros Hs.
    all: match goal with
         | Hr : refs ?s0 !! ?ref = Some ?r, Hd : r_death ?r = Some ?d |- _ =>
             assert (Hfree : forall ref' r',
                       <[ref := set_r_death None r]> (refs s0) !! ref' = Some r' ->
                       r_death r' <> Some d)
               by (intros ref' r' Hr' Hd';
                   apply lookup_insert_Some in Hr' as [[<- <-]|[Hne Hr']];
                   [discriminate|apply Hne; eapply (di_unique s0 Hs); eassumption])
         end.
    all: try (peel; [|stored]).
    all: try (peel_death;
              [stored
              |from_state keeps_deaths_requeue;
                [lookup_now|exact Hfree
                |match goal with
                 | Hb : bool_decide (_ = None) = true |- _ =>
                     apply bool_decide_eq_true in Hb; exact Hb
                 end
                |reflexivity]]).
    peel; [stored|].
    from_state keeps_deaths_and_clear; [lookup_now| |exact Hfree].
    match goal with
    | Hb : bool_decide (d_work_type ?x <> ?v) = false |- _ =>
        apply bool_decide_eq_false in Hb; destruct (decide (d_work_type x = v));
        [assumption|contradiction]
    end.
  - (* BC_DEAD_BINDER_DONE *)
    intros s a s' E.
    apply M_bind_Ok in E as (s0 & s1 & E0 & E). apply get_state_Ok in E0 as [-> ->].
    apply M_bind_Ok in E as (found & s1 & E0 & E). reads_inv_step.
    destruct found as [d|]; [|minv; stored].
    apply keeps_deaths_with. intros Hs.
    pose proof (death_on_list _ _ _ Hs (find_delivered_death_In _ _ _ _ _ E0)) as Hw.
    minv_lists; rewrite ?Hw in *; lookups.
    all: try (peel; [|stored]).
    all: try stored.
    all: match goal with
         | Hb : bool_decide (d_work_type ?x = _) = true |- _ =>
             apply bool_decide_eq_true in Hb;
             assert (Hfree : forall ref r, refs s !! ref = Some r ->
                               r_death r <> Some d)
               by (intros ref r Hr Hd;
                   destruct (di_attached s Hs ref r d x Hr Hd) as [T|[T _]];
                   [assumption|congruence|congruence])
         end.
    all: peel_death;
      [stored
      |from_state keeps_deaths_requeue;
        [lookup_now|exact Hfree|cbn; apply lookup_delete_eq|reflexivity]].
Qed.
Hint Resolve binder_command_deaths : preserves.

Lemma binder_thread_write_deaths proc thread size e buffer : forall consumed,
  preserves keeps_deaths (binder_thread_write proc thread buffer size consumed e).
Proof. induction buffer; intros consumed; simpl; keeps. Qed.
Hint Resolve binder_thread_write_deaths : preserves.

Ltac keeps' := repeat first [preserves_emit_step|progress keeps].

Lemma read_done_deaths proc thread ptr buffer :
  preserves keeps_deaths (read_done proc thread ptr buffer).
Proof. unfold read_done. keeps'. Qed.
Hint Resolve read_done_deaths : preserves.

Lemma preserves_apply {A} R (m : M A) s a s' :
  preserves R m -> m s = Ok (a, s') -> R s s'.
Proof. intros Hm E. eapply Hm. exact E. Qed.

Lemma node_command_frame n :
  n_proc (snd (node_command n)) = n_proc n /\
  n_refs (snd (node_command n)) = n_refs n.
Proof.
  unfold node_command.
  repeat match goal with |- context [if ?c then _ else _] => destruct c end;
    split; reflexivity.
Qed.

Lemma read_from_deaths proc thread size consumed non_block signal_pending fuel :
  forall at_retry ptr buffer w,
  preserves keeps_deaths
    (read_from proc thread size consumed non_block signal_pending fuel at_retry ptr
       buffer w).
Proof.
  induction fuel as [|fuel IH]; intros at_retry ptr buffer wait; simpl; [keeps|].
  destruct at_retry.
  { unfold binder_has_proc_work, binder_has_thread_work, read_woken. keeps'. }
  intros s a s' E.
  apply M_bind_Ok in E as (s0 & s1 & E0 & E). apply get_state_Ok in E0 as [-> ->].
  apply M_bind_Ok in E as (th & s1 & E0 & E). apply get_thread_Ok in E0 as [Hth ->].
  match type of E with
  | match ?next with _ => _ end _ = _ =>
      assert (Hnext : forall w, next = Some w ->
                exists l, todo_list l = true /\ In w (list_of s l));
      [|destruct next as [w|]]
  end.
  { intros w. destruct (list_of s (thread_todo thread)) as [|w1 l1] eqn:E1.
    - destruct (list_of s (proc_todo proc)) as [|w2 l2] eqn:E2; [discriminate|].
      destruct wait; [|discriminate]. intros [= ->].
      exists (proc_todo proc). rewrite E2. split; [reflexivity|left; reflexivity].
    - intros [= ->]. exists (thread_todo thread). rewrite E1.
      split; [reflexivity|left; reflexivity]. }
  2: { eapply preserves_apply; [|exact E]. keeps'. }
  destruct (Hnext w eq_refl) as (l & Hl & Hin). clear Hnext.
  destruct (size_t (size - ptr) <? sizeof_binder_transaction_data + 4);
    [eapply preserves_apply; [|exact E]; keeps'|].
  destruct w as [t|c|node|death].
  - eapply preserves_apply; [|exact E]. keeps'.
  - eapply preserves_apply; [|exact E]. keeps'.
  - apply M_bind_Ok in E as (n & s1 & E0 & E). apply get_node_Ok in E0 as [Hn ->].
    pose proof (node_command_frame n) as [Fp Fr].
    destruct (node_command n) as [cmd n']. cbn [snd] in Fp, Fr.
    apply M_bind_Ok in E as ([] & s1 & E0 & E). apply upd_node_Ok in E0 as (n0 & _ & ->).
    etransitivity;
      [eapply keeps_deaths_upd_node; [exact Hn|exact Fp|rewrite Fr; auto]|].
    eapply preserves_apply; [|exact E]. keeps'.
  - apply M_bind_Ok in E as (d & s1 & E0 & E). apply get_death_Ok in E0 as [Hd ->].
    assert (Hgo : forall k,
              emit [BR_DEAD_BINDER; d_cookie d] ptr buffer consumed (fun buffer =>
                list_move (work_of_death death) (proc_delivered_death proc);;
                read_done proc thread (ptr + 8) buffer) s = Ok (a, s') ->
              d_work_type d = Some BINDER_WORK_DEAD_BINDER \/
              d_work_type d = Some BINDER_WORK_DEAD_BINDER_AND_CLEAR ->
              k = tt -> keeps_deaths s s').
    { intros k E' Ht _. unfold emit in E'.
      destruct (put_words _ ptr buffer) as [b ok]. destruct ok.
      2: { apply M_ret_Ok in E' as [_ ->]. reflexivity. }
      apply M_bind_Ok in E' as ([] & s1 & E0 & E').
      apply keeps_deaths_with. intros Hs.
      pose proof (death_on_list _ _ _ Hs Hin) as Hw.
      unfold list_move, list_del, list_del_init, list_add in E0.
      apply M_bind_Ok in E0 as ([] & s2 & E1 & E0).
      apply modify_Ok in E1. apply modify_Ok in E0. rewrite Hw in E1. subst s2 s1.
      etransitivity; [eapply keeps_deaths_deliver; eassumption|].
      eapply preserves_apply; [|exact E']. auto with preserves. }
    destruct (d_work_type d) as [[]|] eqn:Ht;
      try solve [eapply preserves_apply; [|exact E]; keeps'].
    + apply (Hgo tt E); auto.
    + apply (Hgo tt E); auto.
Qed.
Hint Resolve read_from_deaths : preserves.

Lemma binder_thread_read_deaths proc thread size consumed non_block signal_pending fuel
    buffer :
  preserves keeps_deaths
    (binder_thread_read proc thread size consumed non_block signal_pending fuel buffer).
Proof. unfold binder_thread_read. keeps'. Qed.
Hint Resolve binder_thread_read_deaths : preserves.

Lemma binder_thread_read_resume_deaths proc thread size consumed non_block
    signal_pending fuel ret ptr buffer w :
  preserves keeps_deaths
    (binder_thread_read_resume proc thread size consumed non_block signal_pending fuel
       ret ptr buffer w).
Proof. unfold binder_thread_read_resume, read_woken. keeps'. Qed.

Lemma release_work_loop_deaths l fuel :
  preserves keeps_deaths (release_work_loop fuel l).
Proof. induction fuel; simpl; keeps. Qed.
Hint Resolve release_work_loop_deaths : preserves.

Lemma binder_release_work_deaths l : preserves keeps_deaths (binder_release_work l).
Proof. unfold binder_release_work. keeps. Qed.
Hint Resolve binder_release_work_deaths : preserves.

Lemma binder_get_thread_deaths proc pid :
  preserves keeps_deaths (binder_get_thread proc pid).
Proof. unfold binder_get_thread. keeps. Qed.
Hint Resolve binder_get_thread_deaths : preserves.

Lemma free_thread_loop_deaths thread fuel : forall t n,
  preserves keeps_deaths (free_thread_loop fuel thread t n).
Proof. induction fuel; intros [t|] n; simpl; keeps. Qed.
Hint Resolve free_thread_loop_deaths : preserves.

Lemma binder_free_thread_deaths proc thread :
  preserves keeps_deaths (binder_free_thread proc thread).
Proof. unfold binder_free_thread. keeps. Qed.
Hint Resolve binder_free_thread_deaths : preserves.

Lemma binder_open_deaths pid euid nice rlim :
  preserves keeps_deaths (binder_open pid euid nice rlim).
Proof. unfold binder_open. keeps. Qed.

Lemma mmap_deaths proc vm_start vm_end flags area files :
  preserves keeps_deaths (mmap proc vm_start vm_end flags area files).
Proof. unfold mmap. keeps. Qed.

Lemma binder_vma_close_deaths proc : preserves keeps_deaths (binder_vma_close proc).
Proof. unfold binder_vma_close. keeps. Qed.

Lemma deferred_flush_threads_deaths proc l :
  preserves keeps_deaths (deferred_flush_threads proc l).
Proof. induction l; simpl; keeps. Qed.
Hint Resolve deferred_flush_threads_deaths : preserves.

Lemma binder_deferred_flush_deaths proc :
  preserves keeps_deaths (binder_deferred_flush proc).
Proof. unfold binder_deferred_flush. keeps. Qed.

Lemma release_threads_deaths proc fuel :
  preserves keeps_deaths (release_threads fuel proc).
Proof. induction fuel; simpl; keeps. Qed.
Hint Resolve release_threads_deaths : preserves.

(** The references of a node that died are told, each once: a notification
    that has a type already is still linked, and the loop stops there. *)
Lemma notify_death_deaths l : forall s u s',
  (forall ref r d x, In ref l -> refs s !! ref = Some r -> r_death r = Some d ->
     deaths s !! d = Some x ->
     d_work_type x = None \/ entries s !! work_of_death d <> None) ->
  (forall ref r n, In ref l -> refs s !! ref = Some r ->
     nodes s !! r_node r = Some n -> n_proc n = None) ->
  notify_death l s = Ok (u, s') -> keeps_deaths s s'.
Proof.
  induction l as [|ref l IH]; intros s u s' P1 P2 E; simpl in E.
  { apply M_ret_Ok in E as [_ ->]. reflexivity. }
  apply M_bind_Ok in E as (r & s0 & Er & E). apply get_ref_Ok in Er as [Hr ->].
  apply M_bind_Ok in E as ([] & s1 & E1 & E).
  destruct (r_death r) as [d|] eqn:Hd.
  2: { apply M_ret_Ok in E1 as [_ ->]. eapply IH; [| |exact E].
       - intros ref' r' d' x' Hin. apply P1. right. exact Hin.
       - intros ref' r' n' Hin. apply P2. right. exact Hin. }
  apply M_bind_Ok in E1 as (unlinked & s0 & Eu & E1).
  apply entry_unlinked_Ok in Eu as [-> ->].
  destruct (bool_decide (entries s !! work_of_death d = None)) eqn:Hu; [|discriminate].
  apply bool_decide_eq_true in Hu.
  minv_lists. lookups.
  match goal with
  | Hd0 : deaths s !! d = Some ?x |- _ => rename Hd0 into Hx; rename x into x0
  end.
  assert (Ht : d_work_type x0 = None).
  { destruct (P1 ref r d x0 (or_introl eq_refl) Hr Hd Hx) as [T|T]; [exact T|].
    destruct (T Hu). }
  apply keeps_deaths_with. intros Hs.
  assert (K : keeps_deaths s
    (set_lists
       (<[proc_todo (r_proc r) := list_of s (proc_todo (r_proc r)) ++ [work_of_death d]]>
          (lists s))
       (<[work_of_death d := proc_todo (r_proc r)]> (entries s))
       (set_deaths
          (<[d := set_d_work_type (Some BINDER_WORK_DEAD_BINDER) x0]> (deaths s)) s))).
  { eapply keeps_deaths_mark_dead; try eassumption; [|reflexivity].
    intros n. apply (P2 ref r n (or_introl eq_refl) Hr). }
  match type of E with notify_death _ ?st = _ => transitivity st end;
    [peel; [exact K|stored]|].
  eapply IH; [| |exact E]; cbn.
  - intros ref' r' d' x' Hin Hr' Hd' Hx'.
    destruct (decide (d' = d)) as [->|Hne].
    + right. rewrite lookup_insert_eq. discriminate.
    + rewrite lookup_insert_ne in Hx' by congruence.
      rewrite lookup_insert_ne by congruence. eapply P1; eauto. right. exact Hin.
  - intros ref' r' n' Hin. apply P2. right. exact Hin.
Qed.

Lemma release_nodes_deaths proc fuel : preserves keeps_deaths (release_nodes fuel proc).
Proof.
  induction fuel as [|fuel IH]; simpl; [keeps|].
  intros s u s' E.
  apply M_bind_Ok in E as (p & s0 & E0 & E). apply get_proc_Ok in E0 as [Hp ->].
  destruct (p_nodes p) as [|node rest] eqn:Hnodes.
  { apply M_ret_Ok in E as [_ ->]. reflexivity. }
  apply M_bind_Ok in E as ([] & s1 & E1 & E).
  apply upd_proc_Ok in E1 as (p' & Hp' & ->).
  assert (p' = p) by congruence. subst p'. cbn in E.
  apply M_bind_Ok in E as ([] & s2 & E2 & E).
  apply M_bind_Ok in E as (n & s3 & E3 & E). apply get_node_Ok in E3 as [Hn ->].
  apply M_bind_Ok in E as ([] & s3 & E3 & E).
  assert (K2 : keeps_deaths s s2).
  { match type of E2 with list_del_init _ ?st = _ => transitivity st end;
      [eapply keeps_deaths_upd_proc; [exact Hp|apply remove_Z_sublist]|].
    eapply preserves_apply; [|exact E2]. keeps. }
  etransitivity; [|eapply preserves_apply; [apply IH|exact E]].
  destruct (bool_decide (n_refs n = [])).
  { etransitivity; [exact K2|]. eapply preserves_apply; [|exact E3]. keeps. }
  apply keeps_deaths_with. intros Hs.
  assert (Hnode : nodes s !! node = Some n).
  { unfold list_del_init in E2. apply modify_Ok in E2. subst s2.
    destruct (entries _ !! _); exact Hn. }
  assert (Hrest : rest = remove_Z node (p_nodes p)).
  { rewrite Hnodes. simpl. rewrite Z.eqb_refl. reflexivity. }
  assert (Hprocs : procs s2 = <[proc := set_p_nodes rest p]> (procs s)).
  { unfold list_del_init in E2. apply modify_Ok in E2. subst s2.
    rewrite Hrest. destruct (entries _ !! _); reflexivity. }
  assert (Hrefs : refs s2 = refs s /\ deaths s2 = deaths s).
  { unfold list_del_init in E2. apply modify_Ok in E2. subst s2.
    destruct (entries _ !! _); split; reflexivity. }
  destruct Hrefs as [Hrefs Hdeaths].
  assert (Hown : n_proc n = Some proc).
  { eapply (di_owner s Hs); [exact Hp| |exact Hnode]. rewrite Hnodes. left. reflexivity. }
  minv. lookups.
  etransitivity; [exact K2|].
  match type of E3 with notify_death _ ?st = _ => transitivity st end; [peel|].
  - from_state keeps_deaths_orphan; [exact Hn|].
    intros proc' p' Hp'' Hin. rewrite Hprocs in Hp''.
    apply lookup_insert_Some in Hp'' as [[<- <-]|[Hne Hp'']].
    + cbn in Hin. pose proof (di_nodup s Hs _ _ Hp) as Hnd. rewrite Hnodes in Hnd.
      apply NoDup_cons in Hnd as [Hnd _]. apply Hnd, list_elem_of_In. exact Hin.
    + pose proof (di_owner s Hs _ _ _ _ Hp'' Hin Hnode). congruence.
  - stored.
  - eapply (notify_death_deaths (n_refs n)); [| |eassumption]; cbn.
    + intros ref r d y Hin Hr Hd Hx. rewrite Hrefs in Hr. rewrite Hdeaths in Hx.
      destruct (di_attached s Hs ref r d y Hr Hd Hx) as [T|[_ T]]; [left; exact T|].
      pose proof (di_back s Hs _ _ _ _ Hnode Hin Hr) as Hb. rewrite Hb in T.
      specialize (T _ Hnode). congruence.
    + intros ref r n' Hin Hr Hn'. rewrite Hrefs in Hr.
      pose proof (di_back s Hs _ _ _ _ Hnode Hin Hr) as Hb. rewrite Hb in Hn'.
      rewrite lookup_insert_eq in Hn'. injection Hn' as <-. reflexivity.
Qed.
Hint Resolve release_nodes_deaths : preserves.

Lemma release_refs_deaths proc fuel : preserves keeps_deaths (release_refs fuel proc).
Proof. induction fuel; simpl; keeps. Qed.
Hint Resolve release_refs_deaths : preserves.

Lemma release_buffers_deaths proc fuel :
  preserves keeps_deaths (release_buffers fuel proc).
Proof. induction fuel; simpl; keeps. Qed.
Hint Resolve release_buffers_deaths : preserves.

Lemma binder_deferred_release_deaths proc :
  preserves keeps_deaths (binder_deferred_release proc).
Proof. unfold binder_deferred_release. keeps. Qed.

Lemma ioctl_after_read_deaths proc thread bwr r :
  preserves keeps_deaths (ioctl_after_read proc thread bwr r).
Proof. unfold ioctl_after_read. keeps. Qed.
Hint Resolve ioctl_after_read_deaths : preserves.

Lemma binder_ioctl_deaths proc pid euid cmd fuel non_block signal_pending e :
  preserves keeps_deaths
    (binder_ioctl proc pid euid cmd fuel non_block signal_pending e).
Proof. unfold binder_ioctl. keeps'. Qed.

Lemma driver_step_deaths s s' : driver_step s s' -> keeps_deaths s s'.
Proof.
  intros [pid euid nice rlim proc E|proc vs ve fl area files r E|proc u E
         |proc pid euid cmd fuel nb sp e r E
         |proc thread size consumed nb sp fuel ret ptr buffer w r E
         |proc u E|proc u E].
  - eapply binder_open_deaths; exact E.
  - eapply mmap_deaths; exact E.
  - eapply binder_vma_close_deaths; exact E.
  - eapply binder_ioctl_deaths; exact E.
  - eapply binder_thread_read_resume_deaths; exact E.
  - eapply binder_deferred_flush_deaths; exact E.
  - eapply binder_deferred_release_deaths; exact E.
Qed.

End keeps_deaths.

(** *** Delivery, clear and acknowledgement *)

Section death_events.
Context `{layout}.

(** Delivery: BR_DEAD_BINDER and the cookie are written, the notification
    goes to [delivered_death], and the read ends at [done]. *)
Lemma deliver_run proc thread size consumed nb sp fuel ptr buffer wait s th d x buffer' :
  threads s !! thread = Some th ->
  read_takes s proc thread wait (work_of_death d) ->
  (size_t (size - ptr) <? sizeof_binder_transaction_data + 4) = false ->
  deaths s !! d = Some x ->
  d_work_type x = Some BINDER_WORK_DEAD_BINDER \/
  d_work_type x = Some BINDER_WORK_DEAD_BINDER_AND_CLEAR ->
  put_words [BR_DEAD_BINDER; d_cookie x] ptr buffer = (buffer', true) ->
  exists s1,
    read_from proc thread size consumed nb sp (S fuel) false ptr buffer wait s
      = read_done proc thread (ptr + 8) buffer' s1 /\
    entries s1 !! work_of_death d = Some (proc_delivered_death proc) /\
    deaths s1 = deaths s /\ procs s1 = procs s /\ threads s1 = threads s.
Proof.
  intros Hth Htakes Hsize Hx Ht Hput.
  eexists. split.
  - simpl. rewrite (M_bind_Ok_intro _ _ _ _ _ (get_state_run s)).
    rewrite (M_bind_Ok_intro _ _ _ _ _ (get_thread_run _ _ _ Hth)).
    unfold read_takes in Htakes.
    assert (Hnext :
      match list_of s (thread_todo thread) with
      | w :: _ => Some w
      | [] =>
          match list_of s (proc_todo proc) with
          | w :: _ => if wait then Some w else None
          | [] => None
          end
      end = Some (work_of_death d)).
    { destruct (list_of s (thread_todo thread)); [|congruence].
      destruct Htakes as [-> Htakes].
      destruct (list_of s (proc_todo proc)); [destruct Htakes|congruence]. }
    rewrite Hnext, Hsize.
    rewrite (M_bind_Ok_intro _ _ _ _ _ (get_death_run _ _ _ Hx)).
    assert (Hemit : forall k1 k2 k3 : M read_result,
      match d_work_type x with
      | Some BINDER_WORK_DEAD_BINDER | Some BINDER_WORK_DEAD_BINDER_AND_CLEAR => k1
      | Some BINDER_WORK_CLEAR_DEATH_NOTIFICATION => k2
      | _ => k3
      end = k1) by (intros; destruct Ht as [-> | ->]; reflexivity).
    rewrite Hemit. unfold emit. rewrite Hput.
    unfold list_move, list_del, list_del_init, list_add.
    rewrite M_bind_assoc.
    rewrite (M_bind_Ok_intro _ _ _ _ _ (modify_run _ s)).
    rewrite (M_bind_Ok_intro _ _ _ _ _ (modify_run _ _)). reflexivity.
  - cbn. split; [apply lookup_insert_eq|].
    destruct (entries s !! work_of_death d); repeat split; reflexivity.
Qed.

(** BC_CLEAR_DEATH_NOTIFICATION for a notification that is linked: the
    reference lets go of it and its type becomes dead-binder-and-clear;
    nothing is queued. *)
Lemma clear_linked_run proc thread target cookie e s ref r d x l :
  binder_get_ref proc target s = Ok (Some ref, s) ->
  refs s !! ref = Some r -> r_death r = Some d -> deaths s !! d = Some x ->
  d_cookie x = cookie -> entries s !! work_of_death d = Some l ->
  d_work_type x = Some BINDER_WORK_DEAD_BINDER ->
  binder_command proc thread (BC_CLEAR_DEATH_NOTIFICATION target cookie) e s
    = Ok (None,
          set_deaths
            (<[d := set_d_work_type (Some BINDER_WORK_DEAD_BINDER_AND_CLEAR) x]>
               (deaths s))
            (set_refs (<[ref := set_r_death None r]> (refs s)) s)).
Proof.
  intros Hget Hr Hd Hx Hc Hl Ht. unfold binder_command.
  rewrite (M_bind_Ok_intro _ _ _ _ _ Hget).
  rewrite (M_bind_Ok_intro _ _ _ _ _ (get_ref_run _ _ _ Hr)). rewrite Hd.
  rewrite (M_bind_Ok_intro _ _ _ _ _ (get_death_run _ _ _ Hx)).
  rewrite Hc, Z.eqb_refl. cbn [negb].
  rewrite (M_bind_Ok_intro _ _ _ _ _ (upd_ref_run _ _ _ _ Hr)).
  rewrite (M_bind_Ok_intro _ _ _ _ _ (entry_unlinked_run _ _)). cbn [entries set_refs].
  rewrite Hl. rewrite bool_decide_eq_false_2 by discriminate.
  rewrite M_bind_assoc. rewrite Ht.
  rewrite bool_decide_eq_false_2 by (intros Hne; apply Hne; reflexivity).
  cbn [M_BUG_ON]. mrun.
Qed.

(** BC_DEAD_BINDER_DONE for a notification that was cleared meanwhile: it
    leaves [delivered_death] and is queued, once, as the answer to the
    clear. *)
Lemma done_and_clear_run proc thread cookie e s d x th :
  find_delivered_death cookie (list_of s (proc_delivered_death proc)) s
    = Ok (Some d, s) ->
  entries s !! work_of_death d = Some (proc_delivered_death proc) ->
  deaths s !! d = Some x ->
  d_work_type x = Some BINDER_WORK_DEAD_BINDER_AND_CLEAR ->
  threads s !! thread = Some th ->
  let l := if looper_registered_or_entered (th_looper th)
           then thread_todo thread else proc_todo proc in
  exists s',
    binder_command proc thread (BC_DEAD_BINDER_DONE cookie) e s = Ok (None, s') /\
    deaths s' !! d
      = Some (set_d_work_type (Some BINDER_WORK_CLEAR_DEATH_NOTIFICATION) x) /\
    entries s' !! work_of_death d = Some l /\
    list_of s' l = list_of s l ++ [work_of_death d] /\
    list_of s' (proc_delivered_death proc)
      = remove_first (work_of_death d) (list_of s (proc_delivered_death proc)).
Proof.
  intros Hfind Hw Hx Ht Hth l. unfold binder_command.
  rewrite (M_bind_Ok_intro _ _ _ _ _ (get_state_run s)).
  rewrite (M_bind_Ok_intro _ _ _ _ _ Hfind).
  unfold list_del_init.
  rewrite (M_bind_Ok_intro _ _ _ _ _ (modify_run _ s)). rewrite Hw.
  erewrite (M_bind_Ok_intro (get_death _)); [|apply get_death_run; cbn; exact Hx].
  rewrite Ht. rewrite bool_decide_eq_true_2 by reflexivity. unfold when.
  rewrite !M_bind_assoc.
  erewrite (M_bind_Ok_intro (upd_death _ _)); [|apply upd_death_run; cbn; exact Hx].
  unfold queue_death. rewrite !M_bind_assoc.
  erewrite (M_bind_Ok_intro (get_thread _)); [|apply get_thread_run; cbn; exact Hth].
  subst l. destruct (looper_registered_or_entered (th_looper th)).
  - unfold list_add_tail.
    rewrite (M_bind_Ok_intro _ _ _ _ _ (modify_run _ _)).
    eexists. split; [reflexivity|]. cbn.
    split; [apply lookup_insert_eq|]. split; [apply lookup_insert_eq|].
    unfold list_of. cbn. rewrite lookup_insert_eq. cbn.
    rewrite !lookup_insert_ne by discriminate. rewrite lookup_insert_eq.
    split; reflexivity.
  - unfold list_add_tail, wake_up_interruptible. rewrite !M_bind_assoc.
    rewrite (M_bind_Ok_intro _ _ _ _ _ (modify_run _ _)).
    rewrite (M_bind_Ok_intro _ _ _ _ _ (modify_run _ _)).
    eexists. split; [reflexivity|]. cbn.
    split; [apply lookup_insert_eq|]. split; [apply lookup_insert_eq|].
    unfold list_of. cbn. rewrite lookup_insert_eq. cbn.
    rewrite !lookup_insert_ne by discriminate. rewrite lookup_insert_eq.
    split; reflexivity.
Qed.

End death_events.

Lemma death_inv_empty : death_inv empty_state.
Proof.
  constructor; cbn; intros;
    repeat match goal with
    | Hx : ∅ !! _ = Some _ |- _ => rewrite lookup_empty in Hx; discriminate Hx
    end.
  destruct (decide _) as [E|_]; [|reflexivity].
  rewrite lookup_empty in E. discriminate.
Qed.

Lemma driver_steps_deaths `{layout} s s' : rtc driver_step s s' -> keeps_deaths s s'.
Proof.
  induction 1 as [s|s1 s2 s3 H12 _ IH]; [reflexivity|].
  etransitivity; [apply driver_step_deaths; exact H12|exact IH].
Qed.

Lemma read_done_deaths_same `{layout} proc thread ptr buffer s res s' :
  read_done proc thread ptr buffer s = Ok (res, s') ->
  entries s' = entries s /\ deaths s' = deaths s /\
  exists ret buffer'',
    res = read_returned ret ptr buffer'' /\
    (buffer'' = buffer \/ put_user BR_SPAWN_LOOPER 0 buffer = Some buffer'').
Proof.
  intros E. unfold read_done in E.
  apply M_bind_Ok in E as (p & s0 & E0 & E). apply get_proc_Ok in E0 as [Hp ->].
  apply M_bind_Ok in E as (th & s0 & E0 & E). apply get_thread_Ok in E0 as [Hth ->].
  destruct (_ && _ && _).
  - apply M_bind_Ok in E as ([] & s1 & E0 & E). apply upd_proc_Ok in E0 as (p' & _ & ->).
    unfold emit, put_words in E.
    destruct (put_user BR_SPAWN_LOOPER 0 buffer) as [b|] eqn:Hput;
      apply M_ret_Ok in E as [-> ->]; cbn; eauto 8.
  - apply M_ret_Ok in E as [-> ->]. eauto 8.
Qed.



(** ** File descriptors: [task_get_unused_fd_flags], [task_fd_install],
    [task_close_fd] *)

Lemma find_next_zero_bit_from_spec bits size : forall fuel i,
  (Z.to_nat (size - i) <= fuel)%nat ->
  let r := find_next_zero_bit_from bits size i fuel in
  (i <= size -> i <= r <= size) /\ (size < i -> r = size) /\
  (r < size -> r ∉ bits) /\ (forall j, i <= j < r -> j ∈ bits).
Proof.
  induction fuel as [|fuel IH]; intros i Hfuel; simpl.
  - repeat split; try lia; intros j Hj; lia.
  - destruct (size <=? i) eqn:Hsi.
    + apply Z.leb_le in Hsi. repeat split; try lia; intros j Hj; lia.
    + apply Z.leb_gt in Hsi. destruct (bool_decide (i ∈ bits)) eqn:Hb.
      * apply bool_decide_eq_true in Hb.
        destruct (IH (i + 1) ltac:(lia)) as (H1 & H2 & H3 & H4).
        split; [lia|]. split; [lia|]. split; [exact H3|].
        intros j Hj. destruct (decide (j = i)) as [->|Hne]; [exact Hb|].
        apply H4. lia.
      * apply bool_decide_eq_false in Hb.
        split; [lia|]. split; [lia|]. split; [intros _; exact Hb|]. intros j Hj. lia.
Qed.

Lemma find_next_zero_bit_spec bits size offset :
  let r := find_next_zero_bit bits size offset in
  (offset <= size -> offset <= r <= size) /\ (size < offset -> r = size) /\
  (r < size -> r ∉ bits) /\ (forall j, offset <= j < r -> j ∈ bits).
Proof. apply find_next_zero_bit_from_spec. lia. Qed.

Lemma files_of_Some s proc files :
  files_of s proc = Some files ->
  exists p, procs s !! proc = Some p /\ p_files p = Some files.
Proof.
  unfold files_of. destruct (procs s !! proc) as [p|]; [|discriminate].
  cbn. eauto.
Qed.

Lemma files_of_upd s proc p files :
  files_of (set_procs (<[proc := set_p_files (Some files) p]> (procs s)) s) proc
    = Some files.
Proof. unfold files_of. cbn. rewrite lookup_insert_eq. reflexivity. Qed.



Lemma find_next_zero_bit_free bits size offset :
  offset < size -> offset ∉ bits -> find_next_zero_bit bits size offset = offset.
Proof.
  intros Hlt Hfree.
  pose proof (find_next_zero_bit_spec bits size offset) as (H1 & _ & _ & H4).
  destruct (Z.eq_dec (find_next_zero_bit bits size offset) offset) as [E|Hne];
    [exact E|].
  exfalso. apply Hfree, H4. lia.
Qed.

Lemma task_close_fd_run proc fd s p files filp :
  procs s !! proc = Some p -> p_files p = Some files ->
  fd < fdt_max_fds files -> fdt_fd files !! fd = Some filp ->
  task_close_fd proc fd s =
    Ok (0, set_procs
             (<[proc := set_p_files (Some
                  (mk_files_struct (delete fd (fdt_fd files))
                     (fdt_open_fds files ∖ {[fd]}) (fdt_close_on_exec files ∖ {[fd]})
                     (fdt_max_fds files)
                     (if fd <? next_fd files then fd else next_fd files))) p]>
                (procs s)) s).
Proof.
  intros Hp Hf Hmax Hslot. unfold task_close_fd.
  rewrite (M_bind_Ok_intro _ _ _ _ _ (get_proc_run _ _ _ Hp)). rewrite Hf.
  destruct (fdt_max_fds files <=? fd) eqn:Hm; [apply Z.leb_le in Hm; lia|].
  rewrite Hslot. rewrite (M_bind_Ok_intro _ _ _ _ _ (upd_proc_run _ _ _ _ Hp)).
  reflexivity.
Qed.

Lemma task_fd_install_run proc fd file s p files :
  procs s !! proc = Some p -> p_files p = Some files -> fdt_fd files !! fd = None ->
  task_fd_install proc fd file s =
    Ok (tt, set_procs
              (<[proc := set_p_files (Some
                   (mk_files_struct (<[fd := file]> (fdt_fd files)) (fdt_open_fds files)
                      (fdt_close_on_exec files) (fdt_max_fds files) (next_fd files))) p]>
                 (procs s)) s).
Proof.
  intros Hp Hf Hslot. unfold task_fd_install.
  rewrite (M_bind_Ok_intro _ _ _ _ _ (get_proc_run _ _ _ Hp)). rewrite Hf, Hslot.
  rewrite bool_decide_eq_false_2 by (intros Hne; apply Hne; reflexivity).
  cbn [M_BUG_ON]. rewrite (M_bind_Ok_intro _ _ _ _ _ (mret_run tt s)).
  rewrite (upd_proc_run _ _ _ _ Hp). reflexivity.
Qed.

Lemma fget_run proc fd s p files :
  procs s !! proc = Some p -> p_files p = Some files ->
  fget proc fd s = Ok (fdt_fd files !! fd, s).
Proof.
  intros Hp Hf. unfold fget.
  rewrite (M_bind_Ok_intro _ _ _ _ _ (get_proc_run _ _ _ Hp)). rewrite Hf. reflexivity.
Qed.





(** ** Insertion and lookup in the trees of a process *)

Lemma insert_by_key_In key x y l : In y (insert_by_key key x l) <-> y = x \/ In y l.
Proof.
  rewrite <- !list_elem_of_In, insert_by_key_perm, elem_of_cons. reflexivity.
Qed.

Lemma insert_by_key_sorted key key' x l :
  StronglySorted Z.lt (map key l) ->
  (forall y, In y l -> key' y = key y /\ key y <> key' x) ->
  StronglySorted Z.lt (map key' (insert_by_key key' x l)).
Proof.
  induction l as [|y l IH]; intros Hs Hk; simpl.
  - repeat constructor.
  - simpl in Hs. apply StronglySorted_inv in Hs as [Hs Hall].
    assert (Hl : forall z, In z l -> key' z = key z /\ key z <> key' x)
      by (intros z Hz; apply Hk; right; exact Hz).
    assert (Hmap : map key' l = map key l)
      by (apply map_ext_in; intros z Hz; apply Hl; exact Hz).
    destruct (Hk y (or_introl eq_refl)) as [Hy Hne].
    destruct (key' x <? key' y) eqn:Hlt.
    + apply Z.ltb_lt in Hlt. simpl. constructor.
      * constructor; [rewrite Hmap; exact Hs|]. rewrite Hmap, Hy. exact Hall.
      * constructor; [exact Hlt|]. rewrite Hmap. rewrite List.Forall_forall in Hall |- *.
        intros z Hz. specialize (Hall z Hz). lia.
    + apply Z.ltb_ge in Hlt. simpl. constructor; [apply IH; assumption|].
      rewrite List.Forall_forall. intros z Hz. apply in_map_iff in Hz as (w & <- & Hw).
      apply insert_by_key_In in Hw as [->|Hw]; [lia|].
      rewrite List.Forall_forall in Hall. destruct (Hl w Hw) as [-> _]. rewrite Hy.
      apply Hall. apply in_map. exact Hw.
Qed.

(** *** Nodes *)

Lemma find_node_None ptr l : forall s r s',
  find_node ptr l s = Ok (r, s') ->
  s' = s /\
  (r = None -> forall n, In n l -> exists x, nodes s !! n = Some x /\ n_ptr x <> ptr).
Proof.
  induction l as [|n l IH]; intros s r s' E; simpl in E.
  - apply M_ret_Ok in E as [-> ->]. split; [reflexivity|]. intros _ n [].
  - apply M_bind_Ok in E as (x & s0 & E0 & E). apply get_node_Ok in E0 as [Hx ->].
    destruct (n_ptr x =? ptr) eqn:Hp.
    + apply M_ret_Ok in E as [-> ->]. split; [reflexivity|]. discriminate.
    + apply Z.eqb_neq in Hp. destruct (IH _ _ _ E) as [-> Hrest].
      split; [reflexivity|]. intros Hr m [<-|Hm]; eauto.
Qed.

Lemma find_node_ext ptr l s s' :
  (forall n, In n l -> nodes s' !! n = nodes s !! n) ->
  forall r, find_node ptr l s = Ok (r, s) -> find_node ptr l s' = Ok (r, s').
Proof.
  induction l as [|n l IH]; intros Hsame r E; simpl in *.
  - apply M_ret_Ok in E as [-> _]. reflexivity.
  - apply M_bind_Ok in E as (x & s0 & E0 & E). apply get_node_Ok in E0 as [Hx ->].
    rewrite <- (Hsame n (or_introl eq_refl)) in Hx.
    rewrite (M_bind_Ok_intro _ _ _ _ _ (get_node_run _ _ _ Hx)).
    destruct (n_ptr x =? ptr).
    + apply M_ret_Ok in E as [-> _]. reflexivity.
    + apply IH; [intros m Hm; apply Hsame; right; exact Hm|exact E].
Qed.

Lemma find_node_inserted key ptr node x0 s' : forall l,
  nodes s' !! node = Some x0 -> n_ptr x0 = ptr ->
  (forall n, In n l -> exists x, nodes s' !! n = Some x /\ n_ptr x <> ptr) ->
  find_node ptr (insert_by_key key node l) s' = Ok (Some node, s').
Proof.
  intros l Hnode Hptr. induction l as [|n l IH]; intros Hl; simpl.
  - rewrite (M_bind_Ok_intro _ _ _ _ _ (get_node_run _ _ _ Hnode)).
    rewrite Hptr, Z.eqb_refl. reflexivity.
  - destruct (key node <? key n); simpl.
    + rewrite (M_bind_Ok_intro _ _ _ _ _ (get_node_run _ _ _ Hnode)).
      rewrite Hptr, Z.eqb_refl. reflexivity.
    + destruct (Hl n (or_introl eq_refl)) as (x & Hx & Hne).
      rewrite (M_bind_Ok_intro _ _ _ _ _ (get_node_run _ _ _ Hx)).
      apply Z.eqb_neq in Hne. rewrite Hne.
      apply IH. intros m Hm. apply Hl. right. exact Hm.
Qed.

Lemma find_node_other key ptr ptr' node x0 s' : forall l r,
  nodes s' !! node = Some x0 -> n_ptr x0 = ptr -> ptr' <> ptr ->
  find_node ptr' l s' = Ok (r, s') ->
  find_node ptr' (insert_by_key key node l) s' = Ok (r, s').
Proof.
  intros l r Hnode Hptr Hne. induction l as [|n l IH]; intros E; simpl in *.
  - rewrite (M_bind_Ok_intro _ _ _ _ _ (get_node_run _ _ _ Hnode)).
    rewrite Hptr. destruct (ptr =? ptr') eqn:Hp; [apply Z.eqb_eq in Hp; congruence|].
    exact E.
  - apply M_bind_Ok in E as (x & s0 & E0 & E). apply get_node_Ok in E0 as [Hx ->].
    destruct (key node <? key n); simpl.
    + rewrite (M_bind_Ok_intro _ _ _ _ _ (get_node_run _ _ _ Hnode)).
      rewrite Hptr. destruct (ptr =? ptr') eqn:Hp; [apply Z.eqb_eq in Hp; congruence|].
      rewrite (M_bind_Ok_intro _ _ _ _ _ (get_node_run _ _ _ Hx)). exact E.
    + rewrite (M_bind_Ok_intro _ _ _ _ _ (get_node_run _ _ _ Hx)).
      destruct (n_ptr x =? ptr'); [exact E|]. apply IH. exact E.
Qed.

(** [binder_new_node] refuses a [ptr] that the process has a node for.  A
    node it creates is the one [binder_get_node] finds for [ptr] afterwards;
    the nodes of the process stay in the order of the search tree (strictly
    increasing [ptr]), and lookups of other addresses give what they gave. *)
Theorem binder_new_node_found proc ptr cookie s p :
  procs s !! proc = Some p ->
  (forall existing,
     binder_get_node proc ptr s = Ok (Some existing, s) ->
     binder_new_node proc ptr cookie s = Ok (None, s)) /\
  (forall node s',
     binder_new_node proc ptr cookie s = Ok (Some node, s') ->
     nodes s !! node = None ->
     StronglySorted Z.lt (map (node_ptr_of s) (p_nodes p)) ->
     binder_get_node proc ptr s = Ok (None, s) /\
     binder_get_node proc ptr s' = Ok (Some node, s') /\
     (exists x, nodes s' !! node = Some x /\ n_proc x = Some proc /\
        n_ptr x = ptr /\ n_cookie x = cookie /\ n_refs x = []) /\
     (exists p', procs s' !! proc = Some p' /\
        StronglySorted Z.lt (map (node_ptr_of s') (p_nodes p')) /\
        forall n, In n (p_nodes p') <-> n = node \/ In n (p_nodes p)) /\
     forall ptr' r, ptr' <> ptr ->
       binder_get_node proc ptr' s = Ok (r, s) ->
       binder_get_node proc ptr' s' = Ok (r, s')).
Proof.
  intros Hp. split.
  - intros existing E. unfold binder_get_node in E. unfold binder_new_node.
    rewrite (M_bind_Ok_intro _ _ _ _ _ (get_proc_run _ _ _ Hp)) in E.
    rewrite (M_bind_Ok_intro _ _ _ _ _ (get_proc_run _ _ _ Hp)).
    rewrite (M_bind_Ok_intro _ _ _ _ _ E). reflexivity.
  - intros node s' E Hfresh Hsorted. unfold binder_new_node in E.
    rewrite (M_bind_Ok_intro _ _ _ _ _ (get_proc_run _ _ _ Hp)) in E.
    apply M_bind_Ok in E as (existing & s0 & Ef & E).
    destruct (find_node_None _ _ _ _ _ Ef) as [-> Hall].
    destruct existing as [e|]; [apply M_ret_Ok in E as [E _]; discriminate|].
    specialize (Hall eq_refl).
    minv_all; try discriminate. lookups.
    match goal with Hn : Some node = Some _ |- _ => injection Hn as -> end.
    set (nd := mk_binder_node _ (Some proc) [] 0 0 0 false false false false cookie ptr
                 false false 0) in *.
    match goal with
    | |- context [set_procs _ ?st] => set (s1 := st) in *
    end.
    assert (Hother : forall n, In n (p_nodes p) -> nodes s1 !! n = nodes s !! n).
    { intros n Hn. subst s1. cbn. apply lookup_insert_ne.
      destruct (Hall n Hn) as (xn & Hx & _). congruence. }
    assert (Hget0 : binder_get_node proc ptr s = Ok (None, s)).
    { unfold binder_get_node.
      rewrite (M_bind_Ok_intro _ _ _ _ _ (get_proc_run _ _ _ Hp)). exact Ef. }
    match goal with |- context [set_procs ?m s1] => set (s2 := set_procs m s1) end.
    assert (Hp2 : procs s2 !! proc
                  = Some (set_p_nodes
                            (insert_by_key (node_ptr_of s1) (next_ptr s) (p_nodes p)) p))
      by (subst s2; cbn; apply lookup_insert_eq).
    assert (Hnode2 : nodes s2 !! next_ptr s = Some nd)
      by (subst s2 s1; cbn; apply lookup_insert_eq).
    assert (Hall2 : forall n, In n (p_nodes p) ->
              exists x, nodes s2 !! n = Some x /\ n_ptr x <> ptr).
    { intros n Hn. destruct (Hall n Hn) as (xn & Hx & Hne). exists xn.
      split; [|exact Hne]. change (nodes s1 !! n = Some xn). rewrite Hother; auto. }
    split; [exact Hget0|]. split; [|split; [|split]].
    + unfold binder_get_node.
      rewrite (M_bind_Ok_intro _ _ _ _ _ (get_proc_run _ _ _ Hp2)). cbn [p_nodes set_p_nodes].
      apply (find_node_inserted _ ptr _ nd); [exact Hnode2|reflexivity|exact Hall2].
    + exists nd. split; [exact Hnode2|]. repeat split.
    + eexists. split; [exact Hp2|]. cbn [p_nodes set_p_nodes]. split.
      * assert (Hkey : forall n, node_ptr_of s2 n = node_ptr_of s1 n) by reflexivity.
        rewrite (map_ext _ _ Hkey).
        apply (insert_by_key_sorted (node_ptr_of s)); [exact Hsorted|].
        intros y Hy. unfold node_ptr_of. rewrite (Hother y Hy).
        destruct (Hall y Hy) as (xn & -> & Hne). split; [reflexivity|].
        change (nodes s1 !! next_ptr s) with (nodes s2 !! next_ptr s).
        rewrite Hnode2. exact Hne.
      * intros n. apply insert_by_key_In.
    + intros ptr' r Hne E'. unfold binder_get_node in E' |- *.
      rewrite (M_bind_Ok_intro _ _ _ _ _ (get_proc_run _ _ _ Hp)) in E'.
      rewrite (M_bind_Ok_intro _ _ _ _ _ (get_proc_run _ _ _ Hp2)). cbn [p_nodes set_p_nodes].
      apply (find_node_other _ ptr ptr' _ nd); [exact Hnode2|reflexivity|exact Hne|].
      apply (find_node_ext ptr' _ s); [|exact E'].
      intros n Hn. change (nodes s1 !! n = nodes s !! n). auto.
Qed.

Lemma binder_new_node_found_witness :
  exists s',
    binder_new_node 0x100 500 600 witness_files = Ok (Some 0x1000, s') /\
    binder_get_node 0x100 500 s' = Ok (Some 0x1000, s') /\
    binder_new_node 0x100 500 601 s' = Ok (None, s').
Proof.
  eassert (Hp : procs witness_files !! 0x100 = Some _) by reflexivity.
  eassert (E : binder_new_node 0x100 500 600 witness_files = Ok (Some 0x1000, _))
    by (vm_compute; reflexivity).
  destruct (proj2 (binder_new_node_found 0x100 500 600 witness_files _ Hp) _ _ E
              eq_refl ltac:(constructor)) as (_ & Hget & _ & (p' & Hp' & _) & _).
  eexists. split; [exact E|]. split; [exact Hget|].
  exact (proj1 (binder_new_node_found 0x100 500 601 _ _ Hp') _ Hget).
Defined.

(** *** References *)

Lemma descs_sorted_exists s : forall l lo r,
  descs_sorted s lo l -> In r l -> exists x, refs s !! r = Some x /\ lo <= r_desc x < 2 ^ 32 - 1.
Proof.
  induction l as [|a l IH]; intros lo r Hs Hin; simpl in *; [contradiction|].
  destruct Hs as (x & Hx & Hd & Hs). destruct Hin as [<-|Hin]; [eauto|].
  destruct (IH _ _ Hs Hin) as (y & Hy & Hb). exists y. split; [exact Hy|lia].
Qed.

Lemma descs_sorted_weaken s : forall l lo lo',
  descs_sorted s lo l -> lo' <= lo -> descs_sorted s lo' l.
Proof.
  destruct l as [|a l]; intros lo lo' Hs Hle; simpl in *; [exact I|].
  destruct Hs as (x & Hx & Hd & Hs). exists x. split; [exact Hx|]. split; [lia|exact Hs].
Qed.

Lemma descs_sorted_same s s1 : forall l lo,
  (forall r, In r l -> refs s1 !! r = refs s !! r) ->
  descs_sorted s lo l -> descs_sorted s1 lo l.
Proof.
  induction l as [|a l IH]; intros lo Hsame Hs; simpl in *; [exact I|].
  destruct Hs as (x & Hx & Hd & Hs). exists x.
  rewrite (Hsame a (or_introl eq_refl)). split; [exact Hx|]. split; [exact Hd|].
  apply IH; [intros r Hr; apply Hsame; right; exact Hr|exact Hs].
Qed.

Lemma find_ref_by_node_total node s : forall l,
  (forall r, In r l -> is_Some (refs s !! r)) ->
  exists q, find_ref_by_node node l s = Ok (q, s) /\
    match q with
    | Some ref => In ref l /\ exists x, refs s !! ref = Some x /\ r_node x = node
    | None => forall r, In r l -> exists x, refs s !! r = Some x /\ r_node x <> node
    end.
Proof.
  induction l as [|a l IH]; intros Hl; simpl.
  - exists None. split; [reflexivity|]. intros r [].
  - destruct (Hl a (or_introl eq_refl)) as [x Hx].
    rewrite (M_bind_Ok_intro _ _ _ _ _ (get_ref_run _ _ _ Hx)).
    destruct (r_node x =? node) eqn:Hn.
    + apply Z.eqb_eq in Hn. exists (Some a). split; [reflexivity|]. eauto.
    + apply Z.eqb_neq in Hn.
      destruct IH as (q & E & Hq); [intros r Hr; apply Hl; right; exact Hr|].
      exists q. split; [exact E|]. destruct q as [ref|].
      * destruct Hq as [Hin Hq]. split; [right; exact Hin|exact Hq].
      * intros r [<-|Hr]; eauto.
Qed.

Lemma find_ref_by_desc_total d s : forall l,
  (forall r, In r l -> is_Some (refs s !! r)) ->
  exists q, find_ref_by_desc d l s = Ok (q, s) /\
    match q with
    | Some ref => In ref l /\ exists x, refs s !! ref = Some x /\ r_desc x = d
    | None => forall r, In r l -> exists x, refs s !! r = Some x /\ r_desc x <> d
    end.
Proof.
  induction l as [|a l IH]; intros Hl; simpl.
  - exists None. split; [reflexivity|]. intros r [].
  - destruct (Hl a (or_introl eq_refl)) as [x Hx].
    rewrite (M_bind_Ok_intro _ _ _ _ _ (get_ref_run _ _ _ Hx)).
    destruct (r_desc x =? d) eqn:Hn.
    + apply Z.eqb_eq in Hn. exists (Some a). split; [reflexivity|]. eauto.
    + apply Z.eqb_neq in Hn.
      destruct IH as (q & E & Hq); [intros r Hr; apply Hl; right; exact Hr|].
      exists q. split; [exact E|]. destruct q as [ref|].
      * destruct Hq as [Hin Hq]. split; [right; exact Hin|exact Hq].
      * intros r [<-|Hr]; eauto.
Qed.

Lemma find_ref_by_node_first node key ref x s : forall l,
  refs s !! ref = Some x -> r_node x = node ->
  (forall r, In r l -> exists y, refs s !! r = Some y /\ r_node y <> node) ->
  find_ref_by_node node (insert_by_key key ref l) s = Ok (Some ref, s).
Proof.
  intros l Hx Hn. induction l as [|a l IH]; intros Hl; simpl.
  - rewrite (M_bind_Ok_intro _ _ _ _ _ (get_ref_run _ _ _ Hx)).
    rewrite Hn, Z.eqb_refl. reflexivity.
  - destruct (key ref <? key a); simpl.
    + rewrite (M_bind_Ok_intro _ _ _ _ _ (get_ref_run _ _ _ Hx)).
      rewrite Hn, Z.eqb_refl. reflexivity.
    + destruct (Hl a (or_introl eq_refl)) as (y & Hy & Hne).
      rewrite (M_bind_Ok_intro _ _ _ _ _ (get_ref_run _ _ _ Hy)).
      apply Z.eqb_neq in Hne. rewrite Hne.
      apply IH. intros r Hr. apply Hl. right. exact Hr.
Qed.

(** In a search tree a descriptor leads to the one reference that has it. *)
Lemma find_ref_by_desc_sorted s : forall l lo ref x,
  descs_sorted s lo l -> In ref l -> refs s !! ref = Some x ->
  find_ref_by_desc (r_desc x) l s = Ok (Some ref, s).
Proof.
  induction l as [|a l IH]; intros lo ref x Hs Hin Hx; simpl in *; [contradiction|].
  destruct Hs as (y & Hy & Hd & Hs).
  rewrite (M_bind_Ok_intro _ _ _ _ _ (get_ref_run _ _ _ Hy)).
  destruct Hin as [->|Hin].
  - assert (y = x) by congruence. subst y. rewrite Z.eqb_refl. reflexivity.
  - destruct (descs_sorted_exists _ _ _ _ Hs Hin) as (x' & Hx' & Hb).
    assert (x' = x) by congruence. subst x'.
    destruct (r_desc y =? r_desc x) eqn:He; [apply Z.eqb_eq in He; lia|].
    eapply IH; eassumption.
Qed.

Lemma scan_desc_total s : forall l c lo,
  descs_sorted s lo l -> c - 1 <= lo -> 0 <= lo ->
  exists c', scan_desc c l s = Ok (c', s) /\ c' <= c + Z.of_nat (length l).
Proof.
  induction l as [|a l IH]; intros c lo Hs Hc Hlo; simpl in Hs |- *.
  - exists c. split; [reflexivity|]. lia.
  - destruct Hs as (x & Hx & Hd & Hs).
    rewrite (M_bind_Ok_intro _ _ _ _ _ (get_ref_run _ _ _ Hx)).
    destruct (c <? r_desc x) eqn:Hlt.
    + exists c. split; [reflexivity|]. lia.
    + apply Z.ltb_ge in Hlt. rewrite u32_small by lia.
      destruct (IH (r_desc x + 1) (r_desc x + 1) Hs) as (c' & E & Hle); [lia|lia|].
      exists c'. split; [exact E|]. lia.
Qed.

Lemma insert_ref_by_desc_total s new x : forall l lo lo',
  refs s !! new = Some x ->
  descs_sorted s lo l -> ~ In (r_desc x) (map (ref_desc_of s) l) ->
  lo' <= lo -> lo' <= r_desc x < 2 ^ 32 - 1 ->
  exists l', insert_ref_by_desc new (r_desc x) l s = Ok (l', s) /\
    descs_sorted s lo' l' /\ forall r, In r l' <-> r = new \/ In r l.
Proof.
  induction l as [|a l IH]; intros lo lo' Hnew Hs Hnot Hlo Hd; simpl in Hs, Hnot |- *.
  - exists [new]. split; [reflexivity|]. split; [exists x; auto|].
    intros r. simpl. intuition congruence.
  - destruct Hs as (y & Hy & Hb & Hs).
    rewrite (M_bind_Ok_intro _ _ _ _ _ (get_ref_run _ _ _ Hy)).
    assert (Hne : r_desc y <> r_desc x).
    { intros He. apply Hnot. left. unfold ref_desc_of. rewrite Hy. exact He. }
    destruct (r_desc x <? r_desc y) eqn:Hlt.
    + apply Z.ltb_lt in Hlt. exists (new :: a :: l). split; [reflexivity|]. split.
      * exists x. split; [exact Hnew|]. split; [exact Hd|].
        exists y. split; [exact Hy|]. split; [lia|exact Hs].
      * intros r. simpl. intuition congruence.
    + apply Z.ltb_ge in Hlt.
      assert (Hgt : (r_desc y <? r_desc x) = true) by (apply Z.ltb_lt; lia).
      rewrite Hgt.
      destruct (IH (r_desc y + 1) (r_desc y + 1) Hnew Hs) as (l' & E & Hs' & Hin);
        [tauto|lia|lia|].
      rewrite (M_bind_Ok_intro _ _ _ _ _ E).
      exists (a :: l'). split; [reflexivity|]. split.
      * exists y. split; [exact Hy|]. split; [lia|exact Hs'].
      * intros r. simpl. rewrite Hin. intuition congruence.
Qed.

Lemma kzalloc_cases s :
  exists script,
    (kzalloc s = Ok (None, set_kzalloc (next_ptr s) script s)) \/
    (kzalloc s = Ok (Some (next_ptr s), set_kzalloc (next_ptr s + 1) script s)).
Proof.
  unfold kzalloc. destruct (kzalloc_script s) as [|[] rest]; eauto.
Qed.

(** [binder_get_ref_for_node] on a process whose reference trees are
    well-formed and hold fewer than 2^32 - 2 references: the call returns
    (the insertion never meets an equal descriptor); without memory it
    changes no table; otherwise the reference it gives is one to [node], the
    trees stay well-formed, [binder_get_ref] finds the reference under its
    descriptor, a second call gives the same reference and changes nothing,
    and the other descriptors lead where they led. *)
Theorem binder_get_ref_for_node_found proc node s p n :
  procs s !! proc = Some p -> nodes s !! node = Some n ->
  ref_tables_ok s p ->
  Z.of_nat (length (p_refs_by_desc p)) < 2 ^ 32 - 2 ->
  refs s !! next_ptr s = None ->
  exists r s',
    binder_get_ref_for_node proc node s = Ok (r, s') /\
    match r with
    | None => procs s' = procs s /\ refs s' = refs s /\ nodes s' = nodes s
    | Some ref =>
        exists x p',
          refs s' !! ref = Some x /\ r_node x = node /\
          procs s' !! proc = Some p' /\ ref_tables_ok s' p' /\
          binder_get_ref proc (r_desc x) s' = Ok (Some ref, s') /\
          binder_get_ref_for_node proc node s' = Ok (Some ref, s') /\
          forall d q, d <> r_desc x ->
            binder_get_ref proc d s = Ok (q, s) ->
            binder_get_ref proc d s' = Ok (q, s')
    end.
Proof.
  intros Hp Hnode [Hsorted Hsame] Hlen Hfresh.
  assert (Hex : forall r, In r (p_refs_by_desc p) -> is_Some (refs s !! r)).
  { intros r Hr. destruct (descs_sorted_exists _ _ _ _ Hsorted Hr) as (x & Hx & _). eauto. }
  destruct (find_ref_by_node_total node s (p_refs_by_node p)) as (q & Ef & Hq).
  { intros r Hr. apply Hex, Hsame, Hr. }
  assert (Hget : forall s0 p0 d, procs s0 !! proc = Some p0 ->
            binder_get_ref proc d s0 = find_ref_by_desc d (p_refs_by_desc p0) s0).
  { intros s0 p0 d H0. unfold binder_get_ref.
    rewrite (M_bind_Ok_intro _ _ _ _ _ (get_proc_run _ _ _ H0)). reflexivity. }
  unfold binder_get_ref_for_node at 1.
  rewrite (M_bind_Ok_intro _ _ _ _ _ (get_proc_run _ _ _ Hp)).
  rewrite (M_bind_Ok_intro _ _ _ _ _ Ef).
  destruct q as [ref|].
  { destruct Hq as (Hin & x & Hx & Hn).
    exists (Some ref), s. split; [reflexivity|]. exists x, p.
    split; [exact Hx|]. split; [exact Hn|]. split; [exact Hp|].
    split; [split; assumption|]. split; [|split].
    - rewrite (Hget _ _ _ Hp).
      eapply find_ref_by_desc_sorted; [exact Hsorted|apply Hsame; exact Hin|exact Hx].
    - unfold binder_get_ref_for_node.
      rewrite (M_bind_Ok_intro _ _ _ _ _ (get_proc_run _ _ _ Hp)).
      rewrite (M_bind_Ok_intro _ _ _ _ _ Ef). reflexivity.
    - intros d q' _ E. exact E. }
  destruct (kzalloc_cases s) as (script & [Ek|Ek]);
    rewrite (M_bind_Ok_intro _ _ _ _ _ Ek).
  { eexists None, _. split; [reflexivity|]. repeat split. }
  set (s1 := set_kzalloc (next_ptr s + 1) script s).
  set (id := int32 (binder_last_id s1 + 1)).
  set (s2 := set_binder_last_id id s1).
  assert (Ei : next_debug_id s1 = Ok (id, s2)) by reflexivity.
  rewrite (M_bind_Ok_intro _ _ _ _ _ Ei).
  rewrite (M_bind_Ok_intro _ _ _ _ _ (get_state_run s2)).
  set (start := if bool_decide (Some node = binder_context_mgr_node s2) then 0 else 1).
  assert (Hsorted2 : descs_sorted s2 0 (p_refs_by_desc p))
    by (apply (descs_sorted_ext s); [reflexivity|exact Hsorted]).
  destruct (scan_desc_total s2 (p_refs_by_desc p) start 0 Hsorted2) as (desc & Es & Hle);
    [subst start; destruct (bool_decide _); lia|lia|].
  destruct (scan_desc_least s2 (p_refs_by_desc p) start 0 desc s2 Hsorted2)
    as (Hge & Hunused & _);
    [subst start; destruct (bool_decide _); lia|lia|exact Es|].
  assert (Hdesc : 0 <= desc < 2 ^ 32 - 1)
    by (subst start; destruct (bool_decide _); lia).
  rewrite (M_bind_Ok_intro _ _ _ _ _ Es).
  set (new := next_ptr s) in *.
  set (x := mk_binder_ref id node desc proc 0 0 None).
  set (s3 := set_refs (<[new := x]> (refs s2)) s2).
  rewrite (M_bind_Ok_intro _ _ _ _ _ (modify_run _ s2)).
  fold s3.
  assert (Hp3 : procs s3 !! proc = Some p) by exact Hp.
  rewrite (M_bind_Ok_intro _ _ _ _ _ (upd_proc_run _ _ _ _ Hp3)).
  match goal with
  | |- context [set_procs (<[proc := ?q]> (procs s3)) s3] =>
      set (p4 := q); set (s4 := set_procs (<[proc := p4]> (procs s3)) s3)
  end.
  assert (Hx4 : refs s4 !! new = Some x) by (subst s4 s3; cbn; apply lookup_insert_eq).
  assert (Hold : forall r, In r (p_refs_by_desc p) -> refs s4 !! r = refs s !! r).
  { intros r Hr. subst s4 s3. cbn. apply lookup_insert_ne.
    destruct (Hex r Hr) as [y Hy]. intros <-. subst new. congruence. }
  assert (Hsorted4 : descs_sorted s4 0 (p_refs_by_desc p))
    by (apply (descs_sorted_same s); assumption).
  assert (Hunused4 : ~ In (r_desc x) (map (ref_desc_of s4) (p_refs_by_desc p))).
  { intros Hin. apply Hunused. apply in_map_iff in Hin as (r & Hd & Hr).
    apply in_map_iff. exists r. split; [|exact Hr].
    change (ref_desc_of s4 r = desc) in Hd. rewrite <- Hd.
    unfold ref_desc_of. rewrite (Hold r Hr). reflexivity. }
  destruct (insert_ref_by_desc_total s4 new x (p_refs_by_desc p) 0 0 Hx4 Hsorted4 Hunused4)
    as (by_desc & Eb & Hsorted' & Hin'); [lia|exact Hdesc|].
  change (insert_ref_by_desc new desc (p_refs_by_desc p4) s4 = Ok (by_desc, s4)) in Eb.
  rewrite (M_bind_Ok_intro _ _ _ _ _ Eb).
  assert (Hp4 : procs s4 !! proc = Some p4) by (subst s4; cbn; apply lookup_insert_eq).
  rewrite (M_bind_Ok_intro _ _ _ _ _ (upd_proc_run _ _ _ _ Hp4)).
  set (p5 := set_p_refs_by_desc by_desc p4).
  set (s5 := set_procs (<[proc := p5]> (procs s4)) s4).
  assert (Hn5 : nodes s5 !! node = Some n) by exact Hnode.
  rewrite (M_bind_Ok_intro _ _ _ _ _ (upd_node_run _ _ _ _ Hn5)).
  match goal with
  | |- context [set_nodes ?m s5] => set (s6 := set_nodes m s5)
  end.
  exists (Some new), s6. split; [reflexivity|].
  assert (Hp6 : procs s6 !! proc = Some p5) by (subst s6 s5; cbn; apply lookup_insert_eq).
  assert (Hx6 : refs s6 !! new = Some x) by exact Hx4.
  assert (Hsorted6 : descs_sorted s6 0 (p_refs_by_desc p5))
    by (apply (descs_sorted_ext s4); [reflexivity|exact Hsorted']).
  exists x, p5. split; [exact Hx6|]. split; [reflexivity|]. split; [exact Hp6|].
  split; [|split; [|split]].
  - split; [exact Hsorted6|]. intros r. subst p5 p4. cbn [p_refs_by_node p_refs_by_desc
      set_p_refs_by_desc set_p_refs_by_node].
    rewrite insert_by_key_In, Hin', Hsame. reflexivity.
  - rewrite (Hget _ _ _ Hp6).
    eapply find_ref_by_desc_sorted; [exact Hsorted6| |exact Hx6].
    apply Hin'. left. reflexivity.
  - unfold binder_get_ref_for_node.
    rewrite (M_bind_Ok_intro _ _ _ _ _ (get_proc_run _ _ _ Hp6)).
    assert (Ef6 : find_ref_by_node node (p_refs_by_node p5) s6 = Ok (Some new, s6)).
    { subst p5 p4. cbn [p_refs_by_node set_p_refs_by_desc set_p_refs_by_node].
      apply (find_ref_by_node_first node _ new x); [exact Hx6|reflexivity|].
      intros r Hr. destruct (Hq r Hr) as (y & Hy & Hne). exists y. split; [|exact Hne].
      change (refs s4 !! r = Some y). rewrite Hold; [exact Hy|]. apply Hsame, Hr. }
    rewrite (M_bind_Ok_intro _ _ _ _ _ Ef6). reflexivity.
  - intros d q Hd E. rewrite (Hget _ _ _ Hp) in E. rewrite (Hget _ _ _ Hp6).
    destruct (find_ref_by_desc_total d s6 (p_refs_by_desc p5)) as (q6 & E6 & Hq6).
    { intros r Hr. destruct (descs_sorted_exists _ _ _ _ Hsorted6 Hr) as (y & Hy & _). eauto. }
    rewrite E6. f_equal. f_equal.
    destruct (find_ref_by_desc_total d s (p_refs_by_desc p) Hex) as (q0 & E0 & Hq0).
    rewrite E0 in E. injection E as <-.
    destruct q0 as [r0|].
    + destruct Hq0 as (Hin0 & y & Hy & Hdy). subst d.
      assert (E' : find_ref_by_desc (r_desc y) (p_refs_by_desc p5) s6 = Ok (Some r0, s6)).
      { eapply find_ref_by_desc_sorted; [exact Hsorted6|apply Hin'; right; exact Hin0|].
        change (refs s4 !! r0 = Some y). rewrite Hold; assumption. }
      congruence.
    + destruct q6 as [r6|]; [|reflexivity].
      destruct Hq6 as (Hin6 & y & Hy & Hdy). exfalso.
      apply Hin' in Hin6 as [->|Hin6].
      * assert (y = x) by congruence. subst y. apply Hd. symmetry. exact Hdy.
      * destruct (Hq0 r6 Hin6) as (y0 & Hy0 & Hne). apply Hne.
        change (refs s4 !! r6 = Some y) in Hy. rewrite Hold in Hy by assumption. congruence.
Qed.

Lemma binder_get_ref_for_node_found_witness :
  exists r s',
    binder_get_ref_for_node 0x101 0x300 witness_refs = Ok (r, s') /\
    match r with
    | None => procs s' = procs witness_refs /\ refs s' = refs witness_refs /\
              nodes s' = nodes witness_refs
    | Some ref =>
        exists x p',
          refs s' !! ref = Some x /\ r_node x = 0x300 /\
          procs s' !! 0x101 = Some p' /\ ref_tables_ok s' p' /\
          binder_get_ref 0x101 (r_desc x) s' = Ok (Some ref, s') /\
          binder_get_ref_for_node 0x101 0x300 s' = Ok (Some ref, s') /\
          forall d q, d <> r_desc x ->
            binder_get_ref 0x101 d witness_refs = Ok (q, witness_refs) ->
            binder_get_ref 0x101 d s' = Ok (q, s')
    end.
Proof.
  eapply (binder_get_ref_for_node_found 0x101 0x300 witness_refs).
  - reflexivity.
  - reflexivity.
  - split; [exact I|]. intros ref. reflexivity.
  - simpl. lia.
  - reflexivity.
Defined.

(** ** The context manager *)

Global Instance mgr_same_preorder : PreOrder mgr_same.
Proof.
  split.
  - intros s. split; reflexivity.
  - intros s1 s2 s3 [Hu12 Hn12] [Hu23 Hn23]. split; congruence.
Qed.

Ltac mgr_kept := solve [split; reflexivity | reflexivity].

Ltac keeps_mgr := preserves_with mgr_kept.

Lemma binder_new_node_mgr proc ptr cookie :
  preserves mgr_same (binder_new_node proc ptr cookie).
Proof. unfold binder_new_node. keeps_mgr. Qed.
#[local] Hint Resolve binder_new_node_mgr : preserves.

Lemma binder_inc_node_mgr node strong internal target :
  preserves mgr_same (binder_inc_node node strong internal target).
Proof. unfold binder_inc_node. keeps_mgr. Qed.
#[local] Hint Resolve binder_inc_node_mgr : preserves.

Lemma binder_dec_node_mgr node strong internal :
  preserves mgr_same (binder_dec_node node strong internal).
Proof. unfold binder_dec_node. keeps_mgr. Qed.
#[local] Hint Resolve binder_dec_node_mgr : preserves.

Lemma binder_delete_ref_mgr ref : preserves mgr_same (binder_delete_ref ref).
Proof. unfold binder_delete_ref. keeps_mgr. Qed.
#[local] Hint Resolve binder_delete_ref_mgr : preserves.

Lemma binder_inc_ref_mgr ref strong target :
  preserves mgr_same (binder_inc_ref ref strong target).
Proof. unfold binder_inc_ref. keeps_mgr. Qed.
#[local] Hint Resolve binder_inc_ref_mgr : preserves.

Lemma binder_dec_ref_mgr ref strong :
  preserves mgr_same (binder_dec_ref ref strong).
Proof. unfold binder_dec_ref. keeps_mgr. Qed.
#[local] Hint Resolve binder_dec_ref_mgr : preserves.

Lemma binder_get_ref_for_node_mgr proc node :
  preserves mgr_same (binder_get_ref_for_node proc node).
Proof. unfold binder_get_ref_for_node. keeps_mgr. Qed.
#[local] Hint Resolve binder_get_ref_for_node_mgr : preserves.

Section keeps_mgr.
Context `{layout}.

Lemma task_get_unused_fd_flags_mgr proc cloexec :
  preserves mgr_same (task_get_unused_fd_flags proc cloexec).
Proof. unfold task_get_unused_fd_flags. keeps_mgr. Qed.
Hint Resolve task_get_unused_fd_flags_mgr : preserves.

Lemma task_fd_install_mgr proc fd file :
  preserves mgr_same (task_fd_install proc fd file).
Proof. unfold task_fd_install. keeps_mgr. Qed.
Hint Resolve task_fd_install_mgr : preserves.

Lemma task_close_fd_mgr proc fd : preserves mgr_same (task_close_fd proc fd).
Proof. unfold task_close_fd. keeps_mgr. Qed.
Hint Resolve task_close_fd_mgr : preserves.

Lemma binder_pop_transaction_mgr target t :
  preserves mgr_same (binder_pop_transaction target t).
Proof. unfold binder_pop_transaction. keeps_mgr. Qed.
Hint Resolve binder_pop_transaction_mgr : preserves.

Lemma send_failed_reply_loop_mgr fuel : forall t e,
  preserves mgr_same (send_failed_reply_loop fuel t e).
Proof. induction fuel; intros t e; simpl; keeps_mgr. Qed.
Hint Resolve send_failed_reply_loop_mgr : preserves.

Lemma binder_send_failed_reply_mgr t e :
  preserves mgr_same (binder_send_failed_reply t e).
Proof. unfold binder_send_failed_reply. keeps_mgr. Qed.
Hint Resolve binder_send_failed_reply_mgr : preserves.

Lemma release_object_mgr proc buffer failed_at i :
  preserves mgr_same (release_object proc buffer failed_at i).
Proof. unfold release_object. keeps_mgr. Qed.
Hint Resolve release_object_mgr : preserves.

Lemma release_objects_mgr proc buffer failed_at count : forall i,
  preserves mgr_same (release_objects proc buffer failed_at i count).
Proof. induction count; intros i; simpl; keeps_mgr. Qed.
Hint Resolve release_objects_mgr : preserves.

Lemma binder_transaction_buffer_release_mgr proc buffer failed_at :
  preserves mgr_same (binder_transaction_buffer_release proc buffer failed_at).
Proof. unfold binder_transaction_buffer_release. keeps_mgr. Qed.
Hint Resolve binder_transaction_buffer_release_mgr : preserves.

Lemma binder_transaction_target_mgr proc thread tr reply :
  preserves mgr_same (binder_transaction_target proc thread tr reply).
Proof. unfold binder_transaction_target. keeps_mgr. Qed.
Hint Resolve binder_transaction_target_mgr : preserves.

Lemma translate_object_mgr proc thread tr reply tg buffer i e :
  preserves mgr_same (translate_object proc thread tr reply tg buffer i e).
Proof. unfold translate_object. keeps_mgr. Qed.
Hint Resolve translate_object_mgr : preserves.

Lemma translate_objects_mgr proc thread tr reply tg buffer count e : forall i,
  preserves mgr_same
    (translate_objects proc thread tr reply tg buffer i count e).
Proof. induction count; intros i; simpl; keeps_mgr. Qed.
Hint Resolve translate_objects_mgr : preserves.

Lemma copy_transaction_data_mgr tr buffer :
  preserves mgr_same (copy_transaction_data tr buffer).
Proof. unfold copy_transaction_data. keeps_mgr. Qed.
Hint Resolve copy_transaction_data_mgr : preserves.

Lemma transaction_unwind_mgr tg t tcomplete buffer failed_at :
  preserves mgr_same (transaction_unwind tg t tcomplete buffer failed_at).
Proof. unfold transaction_unwind. keeps_mgr. Qed.
Hint Resolve transaction_unwind_mgr : preserves.

Lemma transaction_failed_mgr thread irt e :
  preserves mgr_same (transaction_failed thread irt e).
Proof. unfold transaction_failed. keeps_mgr. Qed.
Hint Resolve transaction_failed_mgr : preserves.

Lemma transaction_commit_mgr thread reply tg t tcomplete buffer :
  preserves mgr_same (transaction_commit thread reply tg t tcomplete buffer).
Proof. unfold transaction_commit. keeps_mgr. Qed.
Hint Resolve transaction_commit_mgr : preserves.

Lemma binder_transaction_mgr proc thread tr reply e :
  preserves mgr_same (binder_transaction proc thread tr reply e).
Proof. unfold binder_transaction. keeps_mgr. Qed.
Hint Resolve binder_transaction_mgr : preserves.

Lemma binder_command_mgr proc thread cmd e :
  preserves mgr_same (binder_command proc thread cmd e).
Proof. unfold binder_command. destruct cmd; keeps_mgr. Qed.
Hint Resolve binder_command_mgr : preserves.

Lemma binder_thread_write_mgr proc thread size e buffer : forall consumed,
  preserves mgr_same (binder_thread_write proc thread buffer size consumed e).
Proof. induction buffer; intros consumed; simpl; keeps_mgr. Qed.
Hint Resolve binder_thread_write_mgr : preserves.

Ltac keeps_mgr' := repeat first [preserves_emit_step | progress keeps_mgr].

Lemma read_done_mgr proc thread ptr buffer :
  preserves mgr_same (read_done proc thread ptr buffer).
Proof. unfold read_done. keeps_mgr'. Qed.
Hint Resolve read_done_mgr : preserves.

Lemma read_from_mgr proc thread size consumed non_block signal_pending fuel :
  forall at_retry ptr buffer w,
  preserves mgr_same
    (read_from proc thread size consumed non_block signal_pending fuel at_retry ptr
       buffer w).
Proof.
  induction fuel; intros at_retry ptr buffer w; simpl; [keeps_mgr|].
  unfold binder_has_proc_work, binder_has_thread_work, read_woken. keeps_mgr'.
Qed.
Hint Resolve read_from_mgr : preserves.

Lemma binder_thread_read_mgr proc thread size consumed non_block signal_pending fuel
    buffer :
  preserves mgr_same
    (binder_thread_read proc thread size consumed non_block signal_pending fuel buffer).
Proof. unfold binder_thread_read. keeps_mgr'. Qed.
Hint Resolve binder_thread_read_mgr : preserves.

Lemma binder_thread_read_resume_mgr proc thread size consumed non_block
    signal_pending fuel ret ptr buffer w :
  preserves mgr_same
    (binder_thread_read_resume proc thread size consumed non_block signal_pending fuel
       ret ptr buffer w).
Proof. unfold binder_thread_read_resume, read_woken. keeps_mgr'. Qed.

Lemma release_work_loop_mgr l fuel :
  preserves mgr_same (release_work_loop fuel l).
Proof. induction fuel; simpl; keeps_mgr. Qed.
Hint Resolve release_work_loop_mgr : preserves.

Lemma binder_release_work_mgr l : preserves mgr_same (binder_release_work l).
Proof. unfold binder_release_work. keeps_mgr. Qed.
Hint Resolve binder_release_work_mgr : preserves.

Lemma binder_get_thread_mgr proc pid :
  preserves mgr_same (binder_get_thread proc pid).
Proof. unfold binder_get_thread. keeps_mgr. Qed.
Hint Resolve binder_get_thread_mgr : preserves.

Lemma free_thread_loop_mgr thread fuel : forall t n,
  preserves mgr_same (free_thread_loop fuel thread t n).
Proof. induction fuel; intros [t|] n; simpl; keeps_mgr. Qed.
Hint Resolve free_thread_loop_mgr : preserves.

Lemma binder_free_thread_mgr proc thread :
  preserves mgr_same (binder_free_thread proc thread).
Proof. unfold binder_free_thread. keeps_mgr. Qed.
Hint Resolve binder_free_thread_mgr : preserves.

Lemma binder_open_mgr pid euid nice rlim :
  preserves mgr_same (binder_open pid euid nice rlim).
Proof. unfold binder_open. keeps_mgr. Qed.

Lemma mmap_mgr proc vm_start vm_end flags area files :
  preserves mgr_same (mmap proc vm_start vm_end flags area files).
Proof. unfold mmap. keeps_mgr. Qed.

Lemma binder_vma_close_mgr proc : preserves mgr_same (binder_vma_close proc).
Proof. unfold binder_vma_close. keeps_mgr. Qed.

Lemma deferred_flush_threads_mgr proc l :
  preserves mgr_same (deferred_flush_threads proc l).
Proof. induction l; simpl; keeps_mgr. Qed.
Hint Resolve deferred_flush_threads_mgr : preserves.

Lemma binder_deferred_flush_mgr proc :
  preserves mgr_same (binder_deferred_flush proc).
Proof. unfold binder_deferred_flush. keeps_mgr. Qed.

Lemma release_threads_mgr proc fuel :
  preserves mgr_same (release_threads fuel proc).
Proof. induction fuel; simpl; keeps_mgr. Qed.
Hint Resolve release_threads_mgr : preserves.

Lemma notify_death_mgr l : preserves mgr_same (notify_death l).
Proof. induction l; simpl; keeps_mgr. Qed.
Hint Resolve notify_death_mgr : preserves.

Lemma release_nodes_mgr proc fuel : preserves mgr_same (release_nodes fuel proc).
Proof. induction fuel; simpl; keeps_mgr. Qed.
Hint Resolve release_nodes_mgr : preserves.

Lemma release_refs_mgr proc fuel : preserves mgr_same (release_refs fuel proc).
Proof. induction fuel; simpl; keeps_mgr. Qed.
Hint Resolve release_refs_mgr : preserves.

Lemma release_buffers_mgr proc fuel :
  preserves mgr_same (release_buffers fuel proc).
Proof. induction fuel; simpl; keeps_mgr. Qed.
Hint Resolve release_buffers_mgr : preserves.

Lemma ioctl_after_read_mgr proc thread bwr r :
  preserves mgr_same (ioctl_after_read proc thread bwr r).
Proof. unfold ioctl_after_read. keeps_mgr. Qed.
Hint Resolve ioctl_after_read_mgr : preserves.

Lemma binder_ioctl_mgr s proc pid euid cmd fuel nb sp e r s' :
  binder_ioctl proc pid euid cmd fuel nb sp e s = Ok (r, s') ->
  mgr_same s s' \/
  (cmd = BINDER_SET_CONTEXT_MGR /\ binder_context_mgr_node s = None /\
   (binder_context_mgr_uid s = None \/ binder_context_mgr_uid s = Some euid) /\
   binder_context_mgr_uid s' = Some euid).
Proof.
  intros E. unfold binder_ioctl in E.
    apply M_bind_Ok in E as (s0 & s1 & E0 & E). apply get_state_Ok in E0 as [-> ->].
    apply M_bind_Ok in E as ([] & s1 & E0 & E).
    assert (s1 = s) as -> by (destruct (2 <=? _); [discriminate|];
                               apply M_ret_Ok in E0 as [_ ->]; reflexivity).
    clear E0.
    apply M_bind_Ok in E as (found & s1 & Eg & E).
    pose proof (binder_get_thread_mgr _ _ _ _ _ Eg) as Hg.
    destruct found as [thread|];
      [|apply M_ret_Ok in E as [_ ->]; left; exact Hg].
    destruct cmd;
      try (left; etransitivity; [exact Hg|]; revert E;
           match goal with |- ?m s1 = _ -> _ =>
             assert (Hm : preserves mgr_same m) by keeps_mgr'; apply Hm end).
    destruct (bool_decide (binder_context_mgr_node s <> None)) eqn:Hnode.
    { left. etransitivity; [exact Hg|]. revert E.
      match goal with |- ?m s1 = _ -> _ =>
        assert (Hm : preserves mgr_same m) by keeps_mgr'; apply Hm end. }
    apply bool_decide_eq_false in Hnode.
    assert (Hnone : binder_context_mgr_node s = None)
      by (destruct (binder_context_mgr_node s); [exfalso; apply Hnode; discriminate|reflexivity]).
    destruct (bool_decide (binder_context_mgr_uid s <> None) &&
              bool_decide (binder_context_mgr_uid s <> Some euid)) eqn:Huid.
    { left. etransitivity; [exact Hg|]. revert E.
      match goal with |- ?m s1 = _ -> _ =>
        assert (Hm : preserves mgr_same m) by keeps_mgr'; apply Hm end. }
    right. split; [reflexivity|]. split; [exact Hnone|]. split.
    { apply andb_false_iff in Huid as [Hu|Hu]; apply bool_decide_eq_false in Hu.
      - left. destruct (binder_context_mgr_uid s); [exfalso; apply Hu; discriminate|reflexivity].
      - right. destruct (decide (binder_context_mgr_uid s = Some euid)); tauto. }
    apply M_bind_Ok in E as ([] & s2 & E0 & E). apply modify_Ok in E0 as ->.
    apply M_bind_Ok in E as (node & s3 & En & E).
    destruct (binder_new_node_mgr _ _ _ _ _ _ En) as [Hu3 _]. cbn in Hu3.
    apply M_bind_Ok in E as ([] & s4 & E0 & E). apply modify_Ok in E0 as ->.
    assert (Hrest : forall (m : M ioctl_result) sa r sb,
              preserves mgr_same m -> binder_context_mgr_uid sa = Some euid ->
              m sa = Ok (r, sb) -> binder_context_mgr_uid sb = Some euid).
    { intros m sa r0 sb Hm Hsa Em. destruct (Hm _ _ _ Em) as [Hu _]. congruence. }
    destruct node as [mgr|];
      match type of E with ?m ?sa = _ =>
        apply (Hrest m sa r); [keeps_mgr'|cbn; exact Hu3|exact E] end.
Qed.

Lemma binder_deferred_release_mgr s proc u s' :
  binder_deferred_release proc s = Ok (u, s') ->
  binder_context_mgr_uid s' = binder_context_mgr_uid s /\
  (binder_context_mgr_node s' = binder_context_mgr_node s \/
   binder_context_mgr_node s' = None).
Proof.
  intros E. unfold binder_deferred_release in E.
    apply M_bind_Ok in E as (p & s0 & E0 & E). apply get_proc_Ok in E0 as [_ ->].
    apply M_bind_Ok in E as ([] & s0 & E0 & E). apply M_BUG_ON_Ok in E0 as [_ ->].
    apply M_bind_Ok in E as ([] & s0 & E0 & E). apply M_BUG_ON_Ok in E0 as [_ ->].
    apply M_bind_Ok in E as ([] & s0 & E0 & E). apply modify_Ok in E0 as ->.
    apply M_bind_Ok in E as (s1 & s0 & E0 & E). apply get_state_Ok in E0 as [-> ->].
    apply M_bind_Ok in E as ([] & s2 & Ec & E).
    assert (Hrest : mgr_same s2 s').
    { revert E. match goal with |- ?m s2 = _ -> _ =>
        assert (Hm : preserves mgr_same m) by keeps_mgr; apply Hm end. }
    destruct Hrest as [Hu Hn]. rewrite Hu, Hn.
    cbn [binder_context_mgr_node set_binder_procs] in Ec.
    destruct (binder_context_mgr_node s) as [mgr|] eqn:Hmgr.
    - apply M_bind_Ok in Ec as (n & s3 & E0 & Ec). apply get_node_Ok in E0 as [_ ->].
      unfold when in Ec. destruct (bool_decide (n_proc n = Some proc)).
      + apply modify_Ok in Ec as ->. split; [reflexivity|]. right. reflexivity.
      + apply M_ret_Ok in Ec as [_ ->]. split; [reflexivity|]. left. exact Hmgr.
    - apply M_ret_Ok in Ec as [_ ->]. split; [reflexivity|]. left. exact Hmgr.
Qed.

Lemma driver_step_mgr s s' :
  driver_step s s' ->
  (mgr_same s s' \/
   (binder_context_mgr_uid s' = binder_context_mgr_uid s /\
    binder_context_mgr_node s' = None)) \/
  (binder_context_mgr_node s = None /\
   exists euid, (binder_context_mgr_uid s = None \/ binder_context_mgr_uid s = Some euid) /\
                binder_context_mgr_uid s' = Some euid).
Proof.
  intros [pid euid nice rlim proc E|proc vs ve fl area files r E|proc u E
                |proc pid euid cmd fuel nb sp e r E
                |proc thread size consumed nb sp fuel ret ptr buffer w r E
                |proc u E|proc u E].
    - left. left. eapply binder_open_mgr; exact E.
    - left. left. eapply mmap_mgr; exact E.
    - left. left. eapply binder_vma_close_mgr; exact E.
    - destruct (binder_ioctl_mgr _ _ _ _ _ _ _ _ _ _ _ E) as [Hs|(_ & Hn & Hu & Hu')];
        [left; left; exact Hs|right; eauto].
    - left. left. eapply binder_thread_read_resume_mgr; exact E.
    - left. left. eapply binder_deferred_flush_mgr; exact E.
    - destruct (binder_deferred_release_mgr _ _ _ _ E) as [Hu [Hn|Hn]];
        [left; left; split; assumption|left; right; split; assumption].
Qed.

End keeps_mgr.

(** The user that first became context manager is the only one that ever
    can: [binder_context_mgr_uid], once set, stays as it is through every
    entry point of the driver; BINDER_SET_CONTEXT_MGR of another user fails
    with [-EBUSY] or [-EPERM] ([-ENOMEM] if the calling thread cannot be
    allocated) and leaves the context manager as it is; and an entry point
    never puts another node in the place of a context manager: the node
    stays, or the entry is cleared. *)
Theorem context_manager_uid_final `{layout} :
  (forall s s' u,
     rtc driver_step s s' ->
     binder_context_mgr_uid s = Some u -> binder_context_mgr_uid s' = Some u) /\
  (forall s proc pid euid fuel non_block signal_pending e r s' u,
     binder_context_mgr_uid s = Some u -> euid <> u ->
     binder_ioctl proc pid euid BINDER_SET_CONTEXT_MGR fuel non_block signal_pending e s
       = Ok (r, s') ->
     binder_context_mgr_node s' = binder_context_mgr_node s /\
     exists ret, r = ioctl_returned ret None /\
                 (ret = - EBUSY \/ ret = - EPERM \/ ret = - ENOMEM)) /\
  (forall s s' node,
     driver_step s s' -> binder_context_mgr_node s = Some node ->
     binder_context_mgr_node s' = Some node \/ binder_context_mgr_node s' = None).
Proof.
  split; [|split].
  - intros s s' u Hsteps. induction Hsteps as [s|s1 s2 s3 H12 _ IH]; [auto|].
    intros Hu. apply IH.
    destruct (driver_step_mgr _ _ H12) as [[[Hu' _]|[Hu' _]]|(_ & euid & [Hn|He] & Hu')]; congruence.
  - intros s proc pid euid fuel nb sp e r s' u Hu Hne E.
    destruct (binder_ioctl_mgr _ _ _ _ _ _ _ _ _ _ _ E) as [[_ Hn]|(_ & _ & [Hn|He] & _)];
      [|congruence|congruence].
    split; [exact Hn|].
    unfold binder_ioctl in E.
    apply M_bind_Ok in E as (s0 & s1 & E0 & E). apply get_state_Ok in E0 as [-> ->].
    apply M_bind_Ok in E as ([] & s1 & _ & E).
    apply M_bind_Ok in E as (found & s2 & _ & E).
    destruct found as [thread|]; [|apply M_ret_Ok in E as [-> _]; eauto].
    destruct (bool_decide (binder_context_mgr_node s <> None)).
    { apply M_bind_Ok in E as ([] & s3 & _ & E). apply M_ret_Ok in E as [-> _]. eauto. }
    assert (Huid : bool_decide (binder_context_mgr_uid s <> None) &&
                   bool_decide (binder_context_mgr_uid s <> Some euid) = true).
    { rewrite Hu. apply andb_true_iff. split; apply bool_decide_eq_true; congruence. }
    rewrite Huid in E.
    apply M_bind_Ok in E as ([] & s3 & _ & E). apply M_ret_Ok in E as [-> _]. eauto.
  - intros s s' node Hs Hnode.
    destruct (driver_step_mgr _ _ Hs) as [[[_ Hn]|[_ Hn]]|(Hn & _)]; [left|right|]; congruence.
Qed.

Lemma context_manager_uid_final_witness :
  exists r s',
    @binder_ioctl ilp32_layout 0x1000 1 5 BINDER_SET_CONTEXT_MGR 0 true false 0
      witness_second_manager = Ok (r, s') /\
    binder_context_mgr_uid s' = Some 0 /\
    binder_context_mgr_node s' = binder_context_mgr_node witness_second_manager /\
    exists ret, r = ioctl_returned ret None /\
                (ret = - EBUSY \/ ret = - EPERM \/ ret = - ENOMEM).
Proof.
  destruct (@context_manager_uid_final ilp32_layout) as (Hfinal & Hother & _).
  destruct (@binder_ioctl ilp32_layout 0x1000 1 5 BINDER_SET_CONTEXT_MGR 0 true false 0
              witness_second_manager) as [[r s']| | |] eqn:E;
    try (vm_compute in E; discriminate E).
  exists r, s'. split; [reflexivity|]. split.
  - apply (Hfinal witness_second_manager); [|reflexivity].
    eapply rtc_l; [|apply rtc_refl]. eapply step_ioctl. exact E.
  - apply (Hother witness_second_manager 0x1000 1 5 O true false 0 r s' 0);
      [reflexivity|discriminate|exact E].
Defined.

(** ** The write half of BINDER_WRITE_READ *)

Lemma bc_size_pos cmd : 4 <= bc_size cmd.
Proof. destruct cmd; vm_compute; discriminate. Qed.

Lemma bc_sizes_nonneg cmds : 0 <= bc_sizes cmds.
Proof.
  induction cmds as [|cmd cmds IH]; simpl; [lia|]. pose proof (bc_size_pos cmd). lia.
Qed.

(** [binder_thread_write] runs the commands of the buffer in order and stops
    at the first that fails: when it returns, a prefix of the commands has
    been carried out, [*consumed] has advanced by exactly the bytes of that
    prefix, and either the call returns 0 because the buffer is used up or
    the thread has an error to report, or it returns [-EFAULT] because no
    further command can be read, or it returns the error of the command
    [*consumed] now points at.  Conversely the loop, having carried out a
    prefix, goes on like a call on the rest. *)
Theorem binder_thread_write_commands `{layout} proc thread size e :
  (forall buffer consumed s ret c s',
     binder_thread_write proc thread buffer size consumed e s = Ok ((ret, c), s') ->
     exists done rest s1,
       buffer = done ++ rest /\
       commands_done proc thread size e done consumed s s1 /\
       c = consumed + bc_sizes done /\
       ((ret = 0 /\ s' = s1 /\
         (size <= c \/
          exists th, threads s1 !! thread = Some th /\ th_return_error th <> BR_OK)) \/
        (ret = - EFAULT /\ s' = s1 /\ rest = [] /\ c < size) \/
        (exists cmd rest',
           rest = cmd :: rest' /\ c < size /\
           binder_command proc thread cmd e s1 = Ok (Some ret, s')))) /\
  (forall done rest consumed s s1,
     commands_done proc thread size e done consumed s s1 ->
     binder_thread_write proc thread (done ++ rest) size consumed e s
     = binder_thread_write proc thread rest size (consumed + bc_sizes done) e s1).
Proof.
  split.
  - induction buffer as [|cmd buffer IH]; intros consumed s ret c s' E; simpl in E.
    + apply M_bind_Ok in E as (th & s0 & E0 & E). apply get_thread_Ok in E0 as [Hth ->].
      exists [], [], s. split; [reflexivity|]. split; [reflexivity|].
      destruct (consumed <? size) eqn:Hlt; simpl in E.
      * destruct (th_return_error th =? BR_OK) eqn:Herr.
        -- apply M_ret_Ok in E as [E ->]. injection E as -> ->.
           apply Z.ltb_lt in Hlt. simpl. split; [lia|]. right. left.
           repeat split; lia.
        -- apply M_ret_Ok in E as [E ->]. injection E as -> ->.
           apply Z.eqb_neq in Herr. simpl. split; [lia|]. left.
           repeat split. right. eauto.
      * apply M_ret_Ok in E as [E ->]. injection E as -> ->.
        apply Z.ltb_ge in Hlt. simpl. split; [lia|]. left.
        repeat split. left. lia.
    + apply M_bind_Ok in E as (th & s0 & E0 & E). apply get_thread_Ok in E0 as [Hth ->].
      destruct (consumed <? size) eqn:Hlt; simpl in E.
      * destruct (th_return_error th =? BR_OK) eqn:Herr.
        -- apply Z.ltb_lt in Hlt. apply Z.eqb_eq in Herr.
           apply M_bind_Ok in E as (r & s1 & Ec & E). destruct r as [ret0|].
           ++ apply M_ret_Ok in E as [E ->]. injection E as -> ->.
              exists [], (cmd :: buffer), s. split; [reflexivity|]. split; [reflexivity|].
              simpl. split; [lia|]. right. right. exists cmd, buffer. auto.
           ++ destruct (IH _ _ _ _ _ E) as (done & rest & s2 & -> & Hdone & -> & Hend).
              exists (cmd :: done), rest, s2. split; [reflexivity|]. split.
              { simpl. split; [exact Hlt|]. split; [eauto|]. eauto. }
              split; [simpl; lia|].
              replace (consumed + bc_sizes (cmd :: done))
                with (consumed + bc_size cmd + bc_sizes done) by (simpl; lia).
              exact Hend.
        -- apply M_ret_Ok in E as [E ->]. injection E as -> ->.
           apply Z.eqb_neq in Herr.
           exists [], (cmd :: buffer), s. split; [reflexivity|]. split; [reflexivity|].
           simpl. split; [lia|]. left. repeat split. right. eauto.
      * apply M_ret_Ok in E as [E ->]. injection E as -> ->.
        apply Z.ltb_ge in Hlt.
        exists [], (cmd :: buffer), s. split; [reflexivity|]. split; [reflexivity|].
        simpl. split; [lia|]. left. repeat split. left. lia.
  - induction done as [|cmd done IH]; intros rest consumed s s1 Hdone; simpl in Hdone.
    + subst s1. simpl. rewrite Z.add_0_r. reflexivity.
    + destruct Hdone as (Hlt & (th & Hth & Herr) & s2 & Ec & Hdone).
      change ((cmd :: done) ++ rest) with (cmd :: done ++ rest).
      cbn [binder_thread_write].
      rewrite (M_bind_Ok_intro _ _ _ _ _ (get_thread_run _ _ _ Hth)).
      apply Z.ltb_lt in Hlt. rewrite Hlt, Herr, Z.eqb_refl. cbn [andb].
      rewrite (M_bind_Ok_intro _ _ _ _ _ Ec).
      rewrite (IH _ _ _ _ Hdone). f_equal. simpl. lia.
Qed.

Lemma binder_thread_write_commands_witness :
  (exists ret c s',
     @binder_thread_write ilp32_layout 0x100 0x200 [BC_ENTER_LOOPER; BC_unknown] 8 0 0
       witness_looper = Ok ((ret, c), s') /\
     exists done rest s1,
       [BC_ENTER_LOOPER; BC_unknown] = done ++ rest /\
       @commands_done ilp32_layout 0x100 0x200 8 0 done 0 witness_looper s1 /\
       c = 0 + bc_sizes done) /\
  (exists s1,
     @commands_done ilp32_layout 0x100 0x200 8 0 [BC_ENTER_LOOPER] 0 witness_looper s1 /\
     @binder_thread_write ilp32_layout 0x100 0x200 ([BC_ENTER_LOOPER] ++ [BC_unknown]) 8 0 0
       witness_looper
     = @binder_thread_write ilp32_layout 0x100 0x200 [BC_unknown] 8
         (0 + bc_sizes [BC_ENTER_LOOPER]) 0 s1).
Proof.
  destruct (@binder_thread_write_commands ilp32_layout 0x100 0x200 8 0) as [Hsplit Hjoin].
  split.
  - destruct (@binder_thread_write ilp32_layout 0x100 0x200 [BC_ENTER_LOOPER; BC_unknown]
                8 0 0 witness_looper) as [[[ret c] s']| | |] eqn:E;
      try (vm_compute in E; discriminate E).
    exists ret, c, s'. split; [reflexivity|].
    destruct (Hsplit _ _ _ _ _ _ E) as (done & rest & s1 & Hb & Hd & Hc & _).
    exists done, rest, s1. auto.
  - destruct (@binder_command ilp32_layout 0x100 0x200 BC_ENTER_LOOPER 0 witness_looper)
      as [[[ret|] s1]| | |] eqn:E; try (vm_compute in E; discriminate E).
    assert (Hdone : @commands_done ilp32_layout 0x100 0x200 8 0 [BC_ENTER_LOOPER] 0
                      witness_looper s1).
    { simpl. split; [lia|]. split.
      - eexists. split; reflexivity.
      - exists s1. split; [exact E|reflexivity]. }
    exists s1. split; [exact Hdone|]. apply (Hjoin _ _ _ _ _ Hdone).
Defined.

(** ** The read half of BINDER_WRITE_READ *)

Lemma put_user_kept v ptr buffer b :
  put_user v ptr buffer = Some b ->
  length b = length buffer /\
  forall i : nat, ptr + 4 <= 4 * Z.of_nat i -> b !! i = buffer !! i.
Proof.
  unfold put_user. destruct ((0 <=? ptr) && (ptr / 4 <? Z.of_nat (length buffer))) eqn:Hc;
    [|discriminate].
  intros E. injection E as <-. apply andb_true_iff in Hc as [Hp _]. apply Z.leb_le in Hp.
  split; [apply length_insert|].
  intros i Hi. apply list_lookup_insert_ne.
  pose proof (Z.mul_div_le ptr 4 ltac:(lia)). lia.
Qed.

Lemma put_words_kept vs : forall ptr buffer b ok,
  put_words vs ptr buffer = (b, ok) ->
  length b = length buffer /\
  forall i : nat, ptr + 4 * Z.of_nat (length vs) <= 4 * Z.of_nat i -> b !! i = buffer !! i.
Proof.
  induction vs as [|v vs IH]; intros ptr buffer b ok E; simpl in E.
  - injection E as <- <-. auto.
  - destruct (put_user v ptr buffer) as [b1|] eqn:Eu.
    + destruct (put_user_kept _ _ _ _ Eu) as [Hl1 Hk1].
      destruct (IH _ _ _ _ E) as [Hl Hk]. split; [congruence|].
      intros i Hi. cbn [length] in Hi. rewrite Hk by lia. apply Hk1. lia.
    + injection E as <- <-. auto.
Qed.

Section read_bounds.
Context `{layout}.
Variables (proc thread size consumed : Z) (non_block signal_pending : bool).
Variable buffer0 : list Z.
Hypothesis size_range : 0 < size < 2 ^ 32.
Hypothesis size_aligned : size mod 4 = 0.
Hypothesis consumed_range : 0 <= consumed <= size.
Hypothesis consumed_aligned : consumed mod 4 = 0.

Local Abbreviation within := (reads_within size consumed buffer0).
Local Abbreviation read_pos := (read_pos size consumed buffer0).

Lemma within_bind {A} (m : M A) (f : A -> M read_result) :
  (forall a, within (f a)) -> within (m ≫= f).
Proof.
  intros Hf s res s' E. apply M_bind_Ok in E as (a & s1 & _ & E). eapply Hf; exact E.
Qed.

Lemma within_spin : within spin.
Proof. intros s res s' E. discriminate. Qed.

Lemma within_error ret buffer :
  ret <> 0 -> length buffer = length buffer0 ->
  within (mret (read_returned ret consumed buffer)).
Proof.
  intros Hret Hl s res s' E. apply M_ret_Ok in E as [-> _]. simpl.
  split; [lia|]. split; [exact Hl|]. intros; contradiction.
Qed.

Lemma within_sleeping ptr buffer w :
  read_pos ptr buffer -> within (mret (read_sleeping ptr buffer w)).
Proof.
  intros (Hp & Hc & Ha & Hk) s res s' E. apply M_ret_Ok in E as [-> _]. simpl.
  repeat split; try lia; apply Hk.
Qed.

Lemma within_emit vs ptr buffer k :
  read_pos ptr buffer -> ptr + 4 * Z.of_nat (length vs) <= size ->
  (forall b, read_pos (ptr + 4 * Z.of_nat (length vs)) b -> within (k b)) ->
  within (emit vs ptr buffer consumed k).
Proof.
  intros (Hp & Hc & Ha & Hl & Hk) Hfit Hnext. unfold emit.
  destruct (put_words vs ptr buffer) as [b ok] eqn:Ew.
  destruct (put_words_kept _ _ _ _ _ Ew) as [Hlb Hkb].
  destruct ok.
  - apply Hnext. split; [lia|]. split; [lia|]. split.
    + rewrite Z.add_mod, Ha by lia. rewrite Z.mul_comm, Z.mod_mul by lia. reflexivity.
    + split; [congruence|]. intros i Hi. rewrite Hkb by lia. apply Hk. lia.
  - apply within_error; [unfold EFAULT; lia|congruence].
Qed.

Lemma within_done ptr buffer :
  read_pos ptr buffer -> within (read_done proc thread ptr buffer).
Proof.
  intros (Hp & Hc & Ha & Hl & Hk). unfold read_done.
  apply within_bind; intros p. apply within_bind; intros th.
  assert (Hret : forall b, read_buffer_kept buffer0 ptr b ->
            within (mret (read_returned 0 ptr b))).
  { intros b [Hlb Hkb] s res s' E. apply M_ret_Ok in E as [-> _]. simpl.
    split; [lia|]. split; [exact Hlb|]. intros _. split; assumption. }
  destruct (_ && _ && _); [|apply Hret; split; assumption].
  apply within_bind; intros []. unfold emit.
  destruct (put_words [BR_SPAWN_LOOPER] 0 buffer) as [b ok] eqn:Ew.
  destruct (put_words_kept _ _ _ _ _ Ew) as [Hlb Hkb]. cbn [length] in Hkb.
  destruct ok.
  - apply Hret. split; [congruence|]. intros i Hi. rewrite Hkb by lia. apply Hk. lia.
  - intros s res s' E. apply M_ret_Ok in E as [-> _]. simpl.
    split; [lia|]. split; [congruence|]. unfold EFAULT. lia.
Qed.

Ltac read_facts :=
  repeat match goal with
  | H : (_ && _) = true |- _ => apply andb_true_iff in H as [? ?]
  | H : negb _ = true |- _ => apply negb_true_iff in H
  | H : negb _ = false |- _ => apply negb_false_iff in H
  | H : (_ <? _) = true |- _ => apply Z.ltb_lt in H
  | H : (_ <? _) = false |- _ => apply Z.ltb_ge in H
  | H : (_ =? _) = true |- _ => apply Z.eqb_eq in H
  | H : (_ =? _) = false |- _ => apply Z.eqb_neq in H
  end.

Lemma aligned_step ptr : ptr mod 4 = 0 -> ptr < size -> ptr + 4 <= size.
Proof.
  intros Ha Hlt.
  pose proof (Z.div_mod ptr 4 ltac:(lia)). pose proof (Z.div_mod size 4 ltac:(lia)). lia.
Qed.

Lemma room_for_work ptr :
  4 <= ptr <= size ->
  (size_t (size - ptr) <? sizeof_binder_transaction_data + 4) = false ->
  ptr + 44 <= size.
Proof.
  intros Hp Hroom. apply Z.ltb_ge in Hroom.
  rewrite size_t_small in Hroom by lia. unfold sizeof_binder_transaction_data in Hroom. lia.
Qed.

Ltac pos_side :=
  match goal with
  | Hpos : read_pos ?ptr _ |- _ => destruct Hpos as (? & ? & ? & ?)
  end.

Lemma read_from_within fuel : forall at_retry ptr buffer w,
  read_pos ptr buffer ->
  within (read_from proc thread size consumed non_block signal_pending fuel at_retry ptr
            buffer w).
Proof.
  induction fuel as [|fuel IH]; intros at_retry ptr buffer w Hpos; simpl.
  - apply within_spin.
  - destruct at_retry.
    + apply within_bind; intros th. apply within_bind; intros empty.
      destruct (negb (th_return_error th =? BR_OK) && (ptr <? size)) eqn:Herr.
      * read_facts.
        assert (Hfit : ptr + 4 <= size) by (apply aligned_step; [apply Hpos|assumption]).
        assert (Hsecond : forall p b, read_pos p b -> p + 4 <= size ->
                  within (emit [th_return_error th] p b consumed (fun b =>
                    upd_thread thread (set_th_return_error BR_OK);;
                    read_done proc thread (p + 4) b))).
        { intros p b Hp Hf. apply within_emit; [exact Hp|cbn [length]; lia|].
          intros b' Hb'. apply within_bind; intros []. apply within_done. exact Hb'. }
        destruct (negb (th_return_error2 th =? BR_OK)); [|apply Hsecond; assumption].
        apply within_emit; [exact Hpos|cbn [length]; lia|]. intros b Hb.
        cbn [length] in Hb. change (4 * Z.of_nat 1) with 4 in Hb.
        destruct (ptr + 4 =? size) eqn:Hend; [apply within_done; exact Hb|].
        read_facts. apply within_bind; intros []. apply Hsecond; [exact Hb|].
        apply aligned_step; [apply Hb|lia].
      * apply within_bind; intros []. apply within_bind; intros [].
        apply within_bind; intros condition.
        destruct (wait_event non_block signal_pending condition) as [ret|];
          [|apply within_sleeping; exact Hpos].
        apply within_bind; intros [].
        destruct (negb (ret =? 0)) eqn:Hret.
        -- read_facts. apply within_error; [exact Hret|apply Hpos].
        -- apply IH. exact Hpos.
    + apply within_bind; intros s. apply within_bind; intros th.
      match goal with |- within (match ?next with _ => _ end) => destruct next as [work|] end.
      2: { destruct (_ && _); [apply IH|apply within_done]; exact Hpos. }
      destruct (size_t (size - ptr) <? sizeof_binder_transaction_data + 4) eqn:Hroom;
        [apply within_done; exact Hpos|].
      assert (Hfit : ptr + 44 <= size) by (apply room_for_work; [apply Hpos|exact Hroom]).
      destruct work as [t|c|n|d].
      * apply within_bind; intros x. apply within_bind; intros [].
        apply within_bind; intros buf. apply within_bind; intros b.
        apply within_bind; intros [[cmd target_ptr] cookie].
        apply within_bind; intros sender_pid. apply within_bind; intros p.
        apply within_emit; [exact Hpos|cbn [length]; lia|]. intros b' Hb'.
        apply within_bind; intros []. apply within_bind; intros [].
        apply within_bind; intros []. cbn [length] in Hb'.
        replace (ptr + 4 + sizeof_binder_transaction_data) with (ptr + 4 * Z.of_nat 11)
          by (unfold sizeof_binder_transaction_data; lia).
        apply within_done. exact Hb'.
      * apply within_emit; [exact Hpos|cbn [length]; lia|]. intros b Hb.
        apply within_bind; intros []. apply within_bind; intros [].
        apply IH. exact Hb.
      * apply within_bind; intros nd. destruct (node_command nd) as [cmd n'].
        apply within_bind; intros [].
        destruct (negb (cmd =? BR_NOOP)).
        -- apply within_emit; [exact Hpos|cbn [length]; lia|]. intros b Hb.
           apply IH. exact Hb.
        -- apply within_bind; intros []. apply within_bind; intros []. apply IH. exact Hpos.
      * apply within_bind; intros dd.
        destruct (d_work_type dd) as [[]|]; try (apply IH; exact Hpos).
        -- apply within_emit; [exact Hpos|cbn [length]; lia|]. intros b Hb.
           apply within_bind; intros []. apply within_done. exact Hb.
        -- apply within_emit; [exact Hpos|cbn [length]; lia|]. intros b Hb.
           apply within_bind; intros []. apply within_done. exact Hb.
        -- apply within_emit; [exact Hpos|cbn [length]; lia|]. intros b Hb.
           apply within_bind; intros []. apply within_bind; intros []. apply IH. exact Hb.
Qed.

Lemma binder_thread_read_within fuel :
  within (binder_thread_read proc thread size consumed non_block signal_pending fuel
            buffer0).
Proof.
  unfold binder_thread_read.
  assert (Hkept : forall p, read_buffer_kept buffer0 p buffer0) by (split; auto).
  destruct (consumed =? 0) eqn:Hc.
  - apply Z.eqb_eq in Hc.
    assert (Hfit : 0 + 4 <= size) by (apply aligned_step; [reflexivity|lia]).
    unfold emit. destruct (put_words [BR_NOOP] consumed buffer0) as [b ok] eqn:Ew.
    destruct (put_words_kept _ _ _ _ _ Ew) as [Hlb Hkb]. cbn [length] in Hkb.
    destruct ok.
    + apply read_from_within. rewrite Hc in *. split; [lia|]. split; [lia|].
      split; [reflexivity|]. split; [exact Hlb|]. intros i Hi. apply Hkb. lia.
    + apply within_error; [unfold EFAULT; lia|exact Hlb].
  - apply Z.eqb_neq in Hc. apply read_from_within.
    assert (4 <= consumed).
    { pose proof (Z.div_mod consumed 4 ltac:(lia)). lia. }
    split; [lia|]. split; [lia|]. split; [exact consumed_aligned|apply Hkept].
Qed.

Lemma binder_thread_read_resume_within fuel ret ptr buffer w :
  read_pos ptr buffer ->
  within (binder_thread_read_resume proc thread size consumed non_block signal_pending
            fuel ret ptr buffer w).
Proof.
  intros Hpos. unfold binder_thread_read_resume.
  apply within_bind; intros [].
  destruct (negb (ret =? 0)) eqn:Hret.
  - read_facts. apply within_error; [exact Hret|apply Hpos].
  - apply read_from_within. exact Hpos.
Qed.

End read_bounds.

(** [binder_thread_read] on a buffer of [size] bytes, [size] and the
    [*consumed] it is entered with being multiples of four and [*consumed]
    not beyond [size], stays inside the buffer: the [*consumed] it returns
    is at least the one it found and at most [size], the call that returns 0
    has changed no word from there on, and a call that went to sleep keeps
    to that when it is resumed. *)
Theorem binder_thread_read_stays_within `{layout} proc thread size consumed non_block
    signal_pending buffer0 :
  0 < size < 2 ^ 32 -> size mod 4 = 0 ->
  0 <= consumed <= size -> consumed mod 4 = 0 ->
  (forall fuel s res s',
     binder_thread_read proc thread size consumed non_block signal_pending fuel buffer0 s
       = Ok (res, s') ->
     read_within size consumed buffer0 res) /\
  (forall fuel s ptr buffer w s1 fuel' ret res s',
     binder_thread_read proc thread size consumed non_block signal_pending fuel buffer0 s
       = Ok (read_sleeping ptr buffer w, s1) ->
     binder_thread_read_resume proc thread size consumed non_block signal_pending fuel'
       ret ptr buffer w s1 = Ok (res, s') ->
     read_within size consumed buffer0 res).
Proof.
  intros Hsize Hsa Hc Hca. split.
  - intros fuel s res s' E. eapply binder_thread_read_within; eauto.
  - intros fuel s ptr buffer w s1 fuel' ret res s' E E'.
    pose proof (binder_thread_read_within proc thread size consumed non_block
                  signal_pending buffer0 Hsize Hsa Hc Hca fuel _ _ _ E) as Hs.
    simpl in Hs. destruct Hs as (Hp & Ha & H4 & Hk).
    eapply binder_thread_read_resume_within; [..|exact E']; try eassumption.
    split; [lia|]. split; [lia|]. split; assumption.
Qed.

Lemma binder_thread_read_stays_within_witness :
  exists res s',
    @binder_thread_read ilp32_layout 0x100 0x200 64 0 true false 5 (replicate 16 0)
      witness_no_looper = Ok (res, s') /\
    read_within 64 0 (replicate 16 0) res.
Proof.
  destruct (@binder_thread_read ilp32_layout 0x100 0x200 64 0 true false 5 (replicate 16 0)
              witness_no_looper) as [[res s']| | |] eqn:E;
    try (vm_compute in E; discriminate E).
  exists res, s'. split; [reflexivity|].
  refine (proj1 (@binder_thread_read_stays_within ilp32_layout 0x100 0x200 64 0 true false
                   (replicate 16 0) _ _ _ _) 5%nat witness_no_looper res s' E).
  - lia.
  - reflexivity.
  - lia.
  - reflexivity.
Defined.

(** ** A read that finds no work *)

Section idle_read.
Context `{layout}.
Variables (proc thread size : Z) (non_block signal_pending : bool).

(** From the label [retry] to [wait_event], for a thread that has nothing to
    do and no error to report. *)
Lemma read_idle_wait fuel b s p th :
  procs s !! proc = Some p -> threads s !! thread = Some th ->
  list_of s (thread_todo thread) = [] -> list_of s (proc_todo proc) = [] ->
  th_transaction_stack th = None -> th_return_error th = BR_OK ->
  looper_registered_or_entered (th_looper th) = true ->
  let th1 := set_th_looper (Z.lor (th_looper th) BINDER_LOOPER_STATE_WAITING) th in
  let s1 := set_threads (<[thread := th1]> (threads s)) s in
  let p1 := set_p_ready_threads (int32 (p_ready_threads p + 1)) p in
  let s2 := set_procs (<[proc := p1]> (procs s1)) s1 in
  read_from proc thread size 0 non_block signal_pending (S fuel) true 4 b false s
  = match wait_event non_block signal_pending
            (has_flag (th_looper th) BINDER_LOOPER_STATE_NEED_RETURN) with
    | None => Ok (read_sleeping 4 b true, s2)
    | Some ret =>
        (read_woken proc thread true;;
         if negb (ret =? 0) then mret (read_returned ret 0 b)
         else read_from proc thread size 0 non_block signal_pending fuel false 4 b true) s2
    end.
Proof.
  intros Hp Hth Htodo Hptodo Hstack Herr Hlooper th1 s1 p1 s2.
  assert (Hl1 : looper_registered_or_entered
                  (Z.lor (th_looper th) BINDER_LOOPER_STATE_WAITING) = true)
    by (apply has_flag_lor_mono; exact Hlooper).
  assert (Hn1 : has_flag (Z.lor (th_looper th) BINDER_LOOPER_STATE_WAITING)
                  BINDER_LOOPER_STATE_NEED_RETURN
                = has_flag (th_looper th) BINDER_LOOPER_STATE_NEED_RETURN)
    by (apply has_flag_lor_other; reflexivity).
  cbn [read_from].
  rewrite (M_bind_Ok_intro _ _ _ _ _ (get_thread_run _ _ _ Hth)).
  rewrite (M_bind_Ok_intro _ _ _ _ _ (list_empty_run _ _)).
  rewrite Herr, Z.eqb_refl. cbn [negb andb].
  rewrite Hstack, Htodo. rewrite !bool_decide_eq_true_2 by reflexivity. cbn [andb].
  rewrite (M_bind_Ok_intro _ _ _ _ _ (upd_thread_run _ _ _ _ Hth)). fold th1 s1.
  cbn [when].
  assert (Hp1 : procs s1 !! proc = Some p) by exact Hp.
  rewrite (M_bind_Ok_intro _ _ _ _ _ (upd_proc_run _ _ _ _ Hp1)). fold p1 s2.
  assert (Hth2 : threads s2 !! thread = Some th1) by (subst s2 s1; cbn; apply lookup_insert_eq).
  rewrite M_bind_assoc.
  rewrite (M_bind_Ok_intro _ _ _ _ _ (get_thread_run _ _ _ Hth2)).
  rewrite M_bind_assoc.
  change (th_looper th1) with (Z.lor (th_looper th) BINDER_LOOPER_STATE_WAITING).
  rewrite Hl1. cbn [negb when].
  rewrite (M_bind_Ok_intro _ _ _ _ _ (mret_run _ _)).
  unfold binder_has_proc_work. rewrite M_bind_assoc.
  rewrite (M_bind_Ok_intro _ _ _ _ _ (list_empty_run _ _)).
  rewrite M_bind_assoc.
  rewrite (M_bind_Ok_intro _ _ _ _ _ (get_thread_run _ _ _ Hth2)).
  rewrite (M_bind_Ok_intro _ _ _ _ _ (mret_run _ _)).
  change (list_of s2 (proc_todo proc)) with (list_of s (proc_todo proc)).
  rewrite Hptodo. rewrite bool_decide_eq_true_2 by reflexivity. cbn [negb orb].
  change (th_looper th1) with (Z.lor (th_looper th) BINDER_LOOPER_STATE_WAITING).
  rewrite Hn1.
  destruct (wait_event _ _ _); reflexivity.
Qed.


Lemma has_flag_clear_other x g f :
  Z.land g f = 0 -> has_flag (Z.land (Z.lor x g) (Z.lnot g)) f = has_flag x f.
Proof.
  intros Hg. unfold has_flag. f_equal. f_equal.
  apply Z.bits_inj'. intros n Hn.
  rewrite !Z.land_spec, Z.lor_spec, Z.lnot_spec by exact Hn.
  assert (Hb : Z.testbit g n && Z.testbit f n = false).
  { rewrite <- Z.land_spec, Hg. apply Z.bits_0. }
  destruct (Z.testbit x n), (Z.testbit g n), (Z.testbit f n); try reflexivity; discriminate.
Qed.

(** The read of a thread that has nothing to do, step by step. *)
Lemma read_without_work_run fuel w0 buffer s p th :
  procs s !! proc = Some p -> threads s !! thread = Some th ->
  list_of s (thread_todo thread) = [] -> list_of s (proc_todo proc) = [] ->
  th_transaction_stack th = None -> th_return_error th = BR_OK ->
  looper_registered_or_entered (th_looper th) = true ->
  let b := BR_NOOP :: buffer in
  let waiting := set_th_looper (Z.lor (th_looper th) BINDER_LOOPER_STATE_WAITING) th in
  let ready := set_p_ready_threads (int32 (p_ready_threads p + 1)) p in
  let asleep :=
    set_procs (<[proc := ready]> (procs s))
      (set_threads (<[thread := waiting]> (threads s)) s) in
  let awake :=
    set_threads
      (<[thread := set_th_looper
                     (Z.land (th_looper waiting) (Z.lnot BINDER_LOOPER_STATE_WAITING))
                     waiting]> (threads asleep))
      (set_procs
         (<[proc := set_p_ready_threads (int32 (p_ready_threads ready - 1)) ready]>
            (procs asleep)) asleep) in
  binder_thread_read proc thread size 0 non_block signal_pending (S (S fuel))
    (w0 :: buffer) s
  = if has_flag (th_looper th) BINDER_LOOPER_STATE_NEED_RETURN
    then read_done proc thread 4 b awake
    else if non_block then Ok (read_returned (- EAGAIN) 0 b, awake)
    else if signal_pending then Ok (read_returned (- ERESTARTSYS) 0 b, awake)
    else Ok (read_sleeping 4 b true, asleep).
Proof.
  intros Hp Hth Htodo Hptodo Hstack Herr Hlooper b waiting ready asleep awake.
  unfold binder_thread_read. rewrite Z.eqb_refl.
  unfold emit. cbn [put_words]. unfold put_user. cbn [length].
  change (0 / 4) with 0.
  assert (Hlen : (0 <? Z.of_nat (S (length buffer))) = true) by (apply Z.ltb_lt; lia).
  rewrite Hlen. cbn [Z.leb andb Z.compare]. change (Z.to_nat 0) with O.
  cbn [insert list_insert]. fold b.
  change (0 + 4) with 4.
  rewrite (read_idle_wait (S fuel) b s p th Hp Hth Htodo Hptodo Hstack Herr Hlooper).
  fold waiting ready asleep.
  assert (Hwoken : read_woken proc thread true asleep = Ok (tt, awake)).
  { unfold read_woken. cbn [when].
    assert (Hp2 : procs asleep !! proc = Some ready)
      by (subst asleep; cbn; apply lookup_insert_eq).
    rewrite (M_bind_Ok_intro _ _ _ _ _ (upd_proc_run _ _ _ _ Hp2)).
    match goal with |- upd_thread _ _ ?s3 = _ =>
      assert (Hth3 : threads s3 !! thread = Some waiting)
        by (cbn; apply lookup_insert_eq);
      exact (upd_thread_run _ _ _ _ Hth3)
    end. }
  assert (Hflag : has_flag (Z.land (Z.lor (th_looper th) BINDER_LOOPER_STATE_WAITING)
                              (Z.lnot BINDER_LOOPER_STATE_WAITING))
                    BINDER_LOOPER_STATE_NEED_RETURN
                  = has_flag (th_looper th) BINDER_LOOPER_STATE_NEED_RETURN)
    by (apply has_flag_clear_other; reflexivity).
  unfold wait_event.
  destruct (has_flag (th_looper th) BINDER_LOOPER_STATE_NEED_RETURN) eqn:Hneed.
  - assert (Hgo : (read_woken proc thread true;;
                   if negb (0 =? 0) then mret (read_returned 0 0 b)
                   else read_from proc thread size 0 non_block signal_pending (S fuel)
                          false 4 b true) asleep
                  = read_done proc thread 4 b awake).
    { rewrite (M_bind_Ok_intro _ _ _ _ _ Hwoken). cbn [Z.eqb negb read_from].
      rewrite (M_bind_Ok_intro _ _ _ _ _ (get_state_run _)).
      assert (Hth4 : threads awake !! thread = Some _)
        by (subst awake; cbn; apply lookup_insert_eq).
      rewrite (M_bind_Ok_intro _ _ _ _ _ (get_thread_run _ _ _ Hth4)).
      change (list_of awake (thread_todo thread)) with (list_of s (thread_todo thread)).
      change (list_of awake (proc_todo proc)) with (list_of s (proc_todo proc)).
      rewrite Htodo, Hptodo. cbn [th_looper set_th_looper].
      rewrite Hflag. reflexivity. }
    destruct non_block; exact Hgo.
  - destruct non_block.
    + rewrite (M_bind_Ok_intro _ _ _ _ _ Hwoken). reflexivity.
    + destruct signal_pending; [|reflexivity].
      rewrite (M_bind_Ok_intro _ _ _ _ _ Hwoken). reflexivity.
Qed.

(** [binder_thread_read] entered with [*consumed = 0] by a thread that has
    nothing to do and no error to report, of a process with nothing to do:
    BR_NOOP is stored; then the call goes to the label [done] if the thread
    is marked NEED_RETURN, returns [-EAGAIN] if the file is non-blocking,
    [-ERESTARTSYS] if a signal is pending, and sleeps otherwise, counted as
    a ready thread and marked WAITING.  When it does not sleep the count is
    taken back and the mark removed. *)
Theorem read_without_work fuel w0 buffer s p th :
  procs s !! proc = Some p -> threads s !! thread = Some th ->
  list_of s (thread_todo thread) = [] -> list_of s (proc_todo proc) = [] ->
  th_transaction_stack th = None -> th_return_error th = BR_OK ->
  looper_registered_or_entered (th_looper th) = true ->
  let b := BR_NOOP :: buffer in
  let waiting := set_th_looper (Z.lor (th_looper th) BINDER_LOOPER_STATE_WAITING) th in
  let ready := set_p_ready_threads (int32 (p_ready_threads p + 1)) p in
  let asleep :=
    set_procs (<[proc := ready]> (procs s))
      (set_threads (<[thread := waiting]> (threads s)) s) in
  let awake :=
    set_threads
      (<[thread := set_th_looper
                     (Z.land (th_looper waiting) (Z.lnot BINDER_LOOPER_STATE_WAITING))
                     waiting]> (threads asleep))
      (set_procs
         (<[proc := set_p_ready_threads (int32 (p_ready_threads ready - 1)) ready]>
            (procs asleep)) asleep) in
  binder_thread_read proc thread size 0 non_block signal_pending (S (S fuel))
    (w0 :: buffer) s
  = if has_flag (th_looper th) BINDER_LOOPER_STATE_NEED_RETURN
    then read_done proc thread 4 b awake
    else if non_block then Ok (read_returned (- EAGAIN) 0 b, awake)
    else if signal_pending then Ok (read_returned (- ERESTARTSYS) 0 b, awake)
    else Ok (read_sleeping 4 b true, asleep).
Proof. exact (read_without_work_run fuel w0 buffer s p th). Qed.

End idle_read.

Lemma read_without_work_witness :
  @binder_thread_read ilp32_layout 0x100 0x200 64 0 false false 2 [0; 0] witness_looper_idle
  = Ok (read_sleeping 4 [BR_NOOP; 0] true,
        set_procs
          (<[0x100 := set_p_ready_threads 1 (set_p_threads [0x200] (binder_open_proc 1))]>
             (procs witness_looper_idle))
          (set_threads
             (<[0x200 := mk_binder_thread 0x100 1
                           (Z.lor BINDER_LOOPER_STATE_ENTERED BINDER_LOOPER_STATE_WAITING)
                           None BR_OK BR_OK]> (threads witness_looper_idle))
             witness_looper_idle)).
Proof.
  apply (@read_without_work ilp32_layout 0x100 0x200 64 false false 0 0 [0]
           witness_looper_idle (set_p_threads [0x200] (binder_open_proc 1))
           (mk_binder_thread 0x100 1 BINDER_LOOPER_STATE_ENTERED None BR_OK BR_OK));
    reflexivity.
Defined.

(** ** Flushing a process *)

Lemma need_return_idem th : need_return (need_return th) = need_return th.
Proof.
  unfold need_return. destruct th. cbn.
  rewrite <- Z.lor_assoc, Z.lor_diag. reflexivity.
Qed.

Lemma deferred_flush_threads_run proc : forall l s,
  (forall t, In t l -> is_Some (threads s !! t)) ->
  exists s',
    deferred_flush_threads proc l s = Ok (tt, s') /\
    procs s' = procs s /\ lists s' = lists s /\
    (forall t, In t l -> threads s' !! t = need_return <$> threads s !! t) /\
    (forall t, ~ In t l -> threads s' !! t = threads s !! t) /\
    wakeups s' = wakeups s ++ map thread_wait (List.filter (is_waiting s) l).
Proof.
  induction l as [|a l IH]; intros s Hl; simpl.
  - exists s. split; [reflexivity|]. repeat split; try tauto.
    rewrite app_nil_r. reflexivity.
  - destruct (Hl a (or_introl eq_refl)) as [th Hth].
    rewrite (M_bind_Ok_intro _ _ _ _ _ (upd_thread_run _ _ _ _ Hth)).
    fold (need_return th).
    set (s1 := set_threads (<[a := need_return th]> (threads s)) s).
    assert (Hth1 : threads s1 !! a = Some (need_return th)) by apply lookup_insert_eq.
    rewrite (M_bind_Ok_intro _ _ _ _ _ (get_thread_run _ _ _ Hth1)).
    assert (Hflag : has_flag (th_looper (need_return th)) BINDER_LOOPER_STATE_WAITING
                    = is_waiting s a).
    { unfold is_waiting. rewrite Hth. apply has_flag_lor_other. reflexivity. }
    rewrite Hflag.
    set (s2 := if is_waiting s a
               then set_wakeups (wakeups s1 ++ [thread_wait a]) s1 else s1).
    assert (Ew : when (is_waiting s a) (wake_up_interruptible (thread_wait a)) s1
                 = Ok (tt, s2)) by (subst s2; destruct (is_waiting s a); reflexivity).
    rewrite (M_bind_Ok_intro _ _ _ _ _ Ew).
    assert (Ht2 : threads s2 = <[a := need_return th]> (threads s))
      by (subst s2; destruct (is_waiting s a); reflexivity).
    assert (Hw2 : forall t, is_waiting s2 t = is_waiting s t).
    { intros t. unfold is_waiting. rewrite Ht2.
      destruct (decide (t = a)) as [->|Hne].
      - rewrite lookup_insert_eq, Hth. apply has_flag_lor_other. reflexivity.
      - rewrite lookup_insert_ne by congruence. reflexivity. }
    destruct (IH s2) as (s' & E & Hp & Hlists & Hin & Hout & Hwake).
    { intros t Ht. rewrite Ht2. destruct (decide (t = a)) as [->|Hne].
      - rewrite lookup_insert_eq. eauto.
      - rewrite lookup_insert_ne by congruence. apply Hl. right. exact Ht. }
    exists s'. split; [exact E|].
    split; [rewrite Hp; subst s2; destruct (is_waiting s a); reflexivity|].
    split; [rewrite Hlists; subst s2; destruct (is_waiting s a); reflexivity|].
    split; [|split].
    + intros t [<-|Ht].
      * destruct (in_dec Z.eq_dec a l) as [Ha|Ha].
        -- rewrite (Hin a Ha), Ht2, lookup_insert_eq, Hth. cbn.
           rewrite need_return_idem. reflexivity.
        -- rewrite (Hout a Ha), Ht2, lookup_insert_eq, Hth. reflexivity.
      * rewrite (Hin t Ht), Ht2. destruct (decide (t = a)) as [->|Hne].
        -- rewrite lookup_insert_eq, Hth. cbn. rewrite need_return_idem. reflexivity.
        -- rewrite lookup_insert_ne by congruence. reflexivity.
    + intros t Ht. rewrite Hout by tauto. rewrite Ht2.
      apply lookup_insert_ne. intros <-. apply Ht. left. reflexivity.
    + rewrite Hwake. rewrite (List.filter_ext _ _ Hw2).
      subst s2. destruct (is_waiting s a); cbn [wakeups set_wakeups map].
      * rewrite <- app_assoc. reflexivity.
      * reflexivity.
Qed.

(** [binder_deferred_flush] marks every thread of the process NEED_RETURN,
    wakes those that sleep in a read and then the waiters of the process,
    and changes nothing else of the threads, processes and lists.  A thread
    that slept in [binder_thread_read] with nothing to do then leaves the
    read through the label [done] once it runs again. *)
Theorem binder_deferred_flush_kicks `{layout} proc s p :
  procs s !! proc = Some p ->
  (forall t, In t (p_threads p) -> is_Some (threads s !! t)) ->
  exists s',
    binder_deferred_flush proc s = Ok (tt, s') /\
    (forall t, In t (p_threads p) -> threads s' !! t = need_return <$> threads s !! t) /\
    (forall t, ~ In t (p_threads p) -> threads s' !! t = threads s !! t) /\
    wakeups s' = wakeups s ++
                 map thread_wait (List.filter (is_waiting s) (p_threads p)) ++
                 [proc_wait proc] /\
    procs s' = procs s /\ lists s' = lists s /\
    forall t size consumed non_block signal_pending fuel ptr buffer w,
      In t (p_threads p) ->
      list_of s (thread_todo t) = [] -> (w = true -> list_of s (proc_todo proc) = []) ->
      exists s'',
        read_woken proc t w s' = Ok (tt, s'') /\
        binder_thread_read_resume proc t size consumed non_block signal_pending (S fuel)
          0 ptr buffer w s'
        = read_done proc t ptr buffer s''.
Proof.
  intros Hp Hl.
  destruct (deferred_flush_threads_run proc (p_threads p) s Hl)
    as (s1 & E & Hp1 & Hlists1 & Hin & Hout & Hwake).
  exists (set_wakeups (wakeups s1 ++ [proc_wait proc]) s1).
  split.
  { unfold binder_deferred_flush.
    rewrite (M_bind_Ok_intro _ _ _ _ _ (get_proc_run _ _ _ Hp)).
    rewrite (M_bind_Ok_intro _ _ _ _ _ E). reflexivity. }
  split; [exact Hin|]. split; [exact Hout|].
  split; [cbn; rewrite Hwake, <- app_assoc; reflexivity|].
  split; [exact Hp1|]. split; [exact Hlists1|].
  intros t size consumed nb sp fuel ptr buffer w Ht Htodo Hptodo.
  set (s2 := set_wakeups (wakeups s1 ++ [proc_wait proc]) s1).
  destruct (Hl t Ht) as [th Hth].
  assert (Hth2 : threads s2 !! t = Some (need_return th))
    by (change (threads s1 !! t = Some (need_return th)); rewrite (Hin t Ht), Hth; reflexivity).
  assert (Hp2 : procs s2 !! proc = Some p)
    by (change (procs s1 !! proc = Some p); rewrite Hp1; exact Hp).
  set (s3 := if w then set_procs (<[proc := set_p_ready_threads
                                              (int32 (p_ready_threads p - 1)) p]> (procs s2)) s2
             else s2).
  assert (E3 : when w (upd_proc proc (fun p =>
                 set_p_ready_threads (int32 (p_ready_threads p - 1)) p)) s2 = Ok (tt, s3)).
  { subst s3. destruct w; [|reflexivity]. exact (upd_proc_run _ _ _ _ Hp2). }
  assert (Hth3 : threads s3 !! t = Some (need_return th))
    by (subst s3; destruct w; exact Hth2).
  set (awake := set_th_looper (Z.land (th_looper (need_return th))
                                 (Z.lnot BINDER_LOOPER_STATE_WAITING)) (need_return th)).
  set (s4 := set_threads (<[t := awake]> (threads s3)) s3).
  assert (Ewoken : read_woken proc t w s2 = Ok (tt, s4)).
  { unfold read_woken. rewrite (M_bind_Ok_intro _ _ _ _ _ E3).
    exact (upd_thread_run _ _ _ _ Hth3). }
  exists s4. split; [exact Ewoken|].
  unfold binder_thread_read_resume. rewrite (M_bind_Ok_intro _ _ _ _ _ Ewoken).
  cbn [Z.eqb negb read_from].
  rewrite (M_bind_Ok_intro _ _ _ _ _ (get_state_run _)).
  assert (Hth4 : threads s4 !! t = Some awake) by apply lookup_insert_eq.
  rewrite (M_bind_Ok_intro _ _ _ _ _ (get_thread_run _ _ _ Hth4)).
  assert (Hl4 : lists s4 = lists s)
    by (subst s4 s3 s2; destruct w; cbn; exact Hlists1).
  unfold list_of. rewrite Hl4. fold (list_of s (thread_todo t)).
  fold (list_of s (proc_todo proc)). rewrite Htodo.
  assert (Hneed : has_flag (th_looper awake) BINDER_LOOPER_STATE_NEED_RETURN = true).
  { subst awake. unfold need_return. cbn [th_looper set_th_looper].
    unfold has_flag. apply negb_true_iff, Z.eqb_neq.
    intros E0. apply (f_equal (fun z => Z.testbit z 5)) in E0.
    rewrite !Z.land_spec, Z.lor_spec, Z.lnot_spec in E0 by lia.
    change (Z.testbit BINDER_LOOPER_STATE_NEED_RETURN 5) with true in E0.
    change (Z.testbit BINDER_LOOPER_STATE_WAITING 5) with false in E0.
    rewrite orb_true_r in E0. discriminate E0. }
  rewrite Hneed, andb_false_r.
  destruct (list_of s (proc_todo proc)) as [|w1 rest] eqn:Hq; [reflexivity|].
  destruct w; [|reflexivity]. discriminate (Hptodo eq_refl).
Qed.

Lemma binder_deferred_flush_kicks_witness :
  exists s',
    binder_deferred_flush 0x100 witness_looper_idle = Ok (tt, s') /\
    threads s' !! 0x200 = need_return <$> threads witness_looper_idle !! 0x200 /\
    wakeups s' = [proc_wait 0x100].
Proof.
  destruct (@binder_deferred_flush_kicks ilp32_layout 0x100 witness_looper_idle
              (set_p_threads [0x200] (binder_open_proc 1)) eq_refl)
    as (s' & E & Hin & _ & Hw & _).
  - intros t [<-|[]]. eexists. reflexivity.
  - exists s'. split; [exact E|]. split; [apply Hin; left; reflexivity|exact Hw].
Defined.

(** ** A read by a thread that has an error to report *)

Section pending_error.
Context `{layout}.
Variables (proc thread size : Z) (non_block signal_pending : bool).

(** [binder_thread_read] entered with [*consumed = 0] by a thread whose
    [return_error] is set, on a buffer of more than four bytes: after BR_NOOP
    the errors are stored and the call goes to the label [done] without
    looking at any queue and without sleeping.  With one error, it is stored
    and cleared.  With two, [return_error2] comes first; if the buffer ends
    right after it the call leaves with both errors still set (so
    [return_error2] is reported again by the next read), else both are
    stored and cleared. *)
Theorem read_reports_errors fuel w0 w1 w2 buffer s th :
  threads s !! thread = Some th ->
  th_return_error th <> BR_OK -> 4 < size ->
  let clear f := set_threads (<[thread := f th]> (threads s)) s in
  binder_thread_read proc thread size 0 non_block signal_pending (S fuel)
    (w0 :: w1 :: w2 :: buffer) s
  = if th_return_error2 th =? BR_OK then
      read_done proc thread 8 (BR_NOOP :: th_return_error th :: w2 :: buffer)
        (clear (set_th_return_error BR_OK))
    else if size =? 8 then
      read_done proc thread 8 (BR_NOOP :: th_return_error2 th :: w2 :: buffer) s
    else
      read_done proc thread 12
        (BR_NOOP :: th_return_error2 th :: th_return_error th :: buffer)
        (clear (fun th => set_th_return_error BR_OK (set_th_return_error2 BR_OK th))).
Proof.
  intros Hth Herr Hsize clear.
  unfold binder_thread_read. rewrite Z.eqb_refl.
  assert (Hput : forall v (i : nat) (l : list Z),
            (i < length l)%nat ->
            put_user v (4 * Z.of_nat i) l = Some (<[i := v]> l)).
  { intros v i l Hi. unfold put_user.
    replace (4 * Z.of_nat i / 4) with (Z.of_nat i)
      by (rewrite Z.mul_comm, Z.div_mul; lia).
    rewrite Nat2Z.id.
    assert (Hc : (0 <=? 4 * Z.of_nat i) && (Z.of_nat i <? Z.of_nat (length l)) = true).
    { apply andb_true_iff. split; [apply Z.leb_le; lia|apply Z.ltb_lt; lia]. }
    rewrite Hc. reflexivity. }
  assert (Hemit : forall v ptr (i : nat) (l : list Z) c k,
            ptr = 4 * Z.of_nat i -> (i < length l)%nat ->
            emit [v] ptr l c k = k (<[i := v]> l)).
  { intros v ptr i l c k -> Hi. unfold emit. cbn [put_words].
    rewrite (Hput v i l Hi). reflexivity. }
  rewrite (Hemit BR_NOOP 0 0%nat) by (cbn; lia).
  cbn [insert list_insert]. change (0 + 4) with 4.
  cbn [read_from].
  rewrite (M_bind_Ok_intro _ _ _ _ _ (get_thread_run _ _ _ Hth)).
  rewrite (M_bind_Ok_intro _ _ _ _ _ (list_empty_run _ _)).
  apply Z.eqb_neq in Herr. rewrite Herr.
  assert (Hlt : (4 <? size) = true) by (apply Z.ltb_lt; lia). rewrite Hlt.
  cbn [negb andb].
  destruct (th_return_error2 th =? BR_OK) eqn:Herr2; cbn [negb].
  - rewrite (Hemit _ 4 1%nat) by (cbn; lia).
    cbn [insert list_insert].
    rewrite (M_bind_Ok_intro _ _ _ _ _ (upd_thread_run _ _ _ _ Hth)). reflexivity.
  - rewrite (Hemit _ 4 1%nat) by (cbn; lia).
    cbn [insert list_insert]. change (4 + 4) with 8.
    destruct (size =? 8) eqn:Hend.
    + apply Z.eqb_eq in Hend. subst size. reflexivity.
    + assert (Hne : (8 =? size) = false) by (apply Z.eqb_neq; apply Z.eqb_neq in Hend; lia).
      rewrite Hne.
      rewrite (M_bind_Ok_intro _ _ _ _ _ (upd_thread_run _ _ _ _ Hth)).
      rewrite (Hemit _ 8 2%nat) by (cbn; lia).
      cbn [insert list_insert].
      match goal with |- (upd_thread _ _ ≫= _) ?s1 = _ =>
        assert (Hth1 : threads s1 !! thread = Some (set_th_return_error2 BR_OK th))
          by apply lookup_insert_eq;
        rewrite (M_bind_Ok_intro _ _ _ _ _ (upd_thread_run _ _ _ _ Hth1))
      end.
      change (8 + 4) with 12. unfold clear. cbn [threads set_threads].
      rewrite insert_insert_eq. reflexivity.
Qed.

End pending_error.

Lemma read_reports_errors_witness :
  @binder_thread_read ilp32_layout 0x100 0x200 8 0 false false 1 [0; 0; 0]
    witness_two_errors
  = read_done 0x100 0x200 8 [BR_NOOP; BR_FAILED_REPLY; 0] witness_two_errors.
Proof.
  apply (@read_reports_errors ilp32_layout 0x100 0x200 8 false false 0 0 0 0 []
           witness_two_errors
           (mk_binder_thread 0x100 1 BINDER_LOOPER_STATE_ENTERED None BR_DEAD_REPLY
              BR_FAILED_REPLY)).
  - reflexivity.
  - discriminate.
  - lia.
Defined.

(** ** The threads of a process *)

Lemma find_thread_total pid s : forall l,
  (forall t, In t l -> is_Some (threads s !! t)) ->
  exists q, find_thread pid l s = Ok (q, s) /\
    match q with
    | Some t => In t l /\ exists th, threads s !! t = Some th /\ th_pid th = pid
    | None => forall t, In t l -> exists th, threads s !! t = Some th /\ th_pid th <> pid
    end.
Proof.
  induction l as [|a l IH]; intros Hl; simpl.
  - exists None. split; [reflexivity|]. intros t [].
  - destruct (Hl a (or_introl eq_refl)) as [x Hx].
    rewrite (M_bind_Ok_intro _ _ _ _ _ (get_thread_run _ _ _ Hx)).
    destruct (th_pid x =? pid) eqn:Hn.
    + apply Z.eqb_eq in Hn. exists (Some a). split; [reflexivity|]. eauto.
    + apply Z.eqb_neq in Hn.
      destruct IH as (q & E & Hq); [intros t Ht; apply Hl; right; exact Ht|].
      exists q. split; [exact E|]. destruct q as [t|].
      * destruct Hq as [Hin Hq]. split; [right; exact Hin|exact Hq].
      * intros t [<-|Ht]; eauto.
Qed.

Lemma find_thread_same pid s s' : forall l,
  (forall t, In t l -> threads s' !! t = threads s !! t) ->
  forall q, find_thread pid l s = Ok (q, s) -> find_thread pid l s' = Ok (q, s').
Proof.
  induction l as [|a l IH]; intros Hsame q E; simpl in *.
  - apply M_ret_Ok in E as [-> _]. reflexivity.
  - apply M_bind_Ok in E as (x & s0 & E0 & E). apply get_thread_Ok in E0 as [Hx ->].
    rewrite <- (Hsame a (or_introl eq_refl)) in Hx.
    rewrite (M_bind_Ok_intro _ _ _ _ _ (get_thread_run _ _ _ Hx)).
    destruct (th_pid x =? pid).
    + apply M_ret_Ok in E as [-> _]. reflexivity.
    + apply IH; [intros t Ht; apply Hsame; right; exact Ht|exact E].
Qed.

Lemma find_thread_inserted key pid t x s : forall l,
  threads s !! t = Some x -> th_pid x = pid ->
  (forall a, In a l -> exists y, threads s !! a = Some y /\ th_pid y <> pid) ->
  find_thread pid (insert_by_key key t l) s = Ok (Some t, s).
Proof.
  intros l Hx Hn. induction l as [|a l IH]; intros Hl; simpl.
  - rewrite (M_bind_Ok_intro _ _ _ _ _ (get_thread_run _ _ _ Hx)).
    rewrite Hn, Z.eqb_refl. reflexivity.
  - destruct (key t <? key a); simpl.
    + rewrite (M_bind_Ok_intro _ _ _ _ _ (get_thread_run _ _ _ Hx)).
      rewrite Hn, Z.eqb_refl. reflexivity.
    + destruct (Hl a (or_introl eq_refl)) as (y & Hy & Hne).
      rewrite (M_bind_Ok_intro _ _ _ _ _ (get_thread_run _ _ _ Hy)).
      apply Z.eqb_neq in Hne. rewrite Hne.
      apply IH. intros r Hr. apply Hl. right. exact Hr.
Qed.

Lemma find_thread_other key pid pid' t x s : forall l q,
  threads s !! t = Some x -> th_pid x = pid -> pid' <> pid ->
  find_thread pid' l s = Ok (q, s) ->
  find_thread pid' (insert_by_key key t l) s = Ok (q, s).
Proof.
  intros l q Hx Hn Hne. induction l as [|a l IH]; intros E; simpl in *.
  - rewrite (M_bind_Ok_intro _ _ _ _ _ (get_thread_run _ _ _ Hx)).
    rewrite Hn. destruct (pid =? pid') eqn:Hp; [apply Z.eqb_eq in Hp; congruence|].
    exact E.
  - apply M_bind_Ok in E as (y & s0 & E0 & E). apply get_thread_Ok in E0 as [Hy ->].
    destruct (key t <? key a); simpl.
    + rewrite (M_bind_Ok_intro _ _ _ _ _ (get_thread_run _ _ _ Hx)).
      rewrite Hn. destruct (pid =? pid') eqn:Hp; [apply Z.eqb_eq in Hp; congruence|].
      rewrite (M_bind_Ok_intro _ _ _ _ _ (get_thread_run _ _ _ Hy)). exact E.
    + rewrite (M_bind_Ok_intro _ _ _ _ _ (get_thread_run _ _ _ Hy)).
      destruct (th_pid y =? pid'); [exact E|]. apply IH. exact E.
Qed.

(** [binder_get_thread] on a process whose threads exist always returns.
    Without memory nothing changes.  A thread found for the pid is returned
    with the state as it is.  A thread created is marked NEED_RETURN, has no
    transaction stack and no error to report, and belongs to the process.
    In both cases a second call gives the same thread and changes nothing,
    and other pids lead to the threads they led to. *)
Theorem binder_get_thread_found proc pid s p :
  procs s !! proc = Some p ->
  (forall t, In t (p_threads p) -> is_Some (threads s !! t)) ->
  threads s !! next_ptr s = None ->
  exists r s',
    binder_get_thread proc pid s = Ok (r, s') /\
    match r with
    | None => procs s' = procs s /\ threads s' = threads s
    | Some t =>
        exists th p',
          threads s' !! t = Some th /\ th_pid th = pid /\
          procs s' !! proc = Some p' /\ In t (p_threads p') /\
          (forall t', In t' (p_threads p') <-> t' = t \/ In t' (p_threads p)) /\
          (is_Some (threads s !! t) -> s' = s) /\
          (threads s !! t = None ->
           th = mk_binder_thread proc pid BINDER_LOOPER_STATE_NEED_RETURN None BR_OK BR_OK) /\
          binder_get_thread proc pid s' = Ok (Some t, s') /\
          forall pid' t', pid' <> pid ->
            binder_get_thread proc pid' s = Ok (Some t', s) ->
            binder_get_thread proc pid' s' = Ok (Some t', s')
    end.
Proof.
  intros Hp Hl Hfresh.
  destruct (find_thread_total pid s (p_threads p) Hl) as (q & Ef & Hq).
  assert (Hget : forall s0 p0 d, procs s0 !! proc = Some p0 ->
            forall q0 s1, find_thread d (p_threads p0) s0 = Ok (Some q0, s1) ->
            binder_get_thread proc d s0 = Ok (Some q0, s1)).
  { intros s0 p0 d H0 q0 s1 E. unfold binder_get_thread.
    rewrite (M_bind_Ok_intro _ _ _ _ _ (get_proc_run _ _ _ H0)).
    rewrite (M_bind_Ok_intro _ _ _ _ _ E). reflexivity. }
  destruct q as [t|].
  { destruct Hq as (Hin & th & Hth & Hpid).
    exists (Some t), s. split; [apply (Hget _ _ _ Hp _ _ Ef)|].
    exists th, p. split; [exact Hth|]. split; [exact Hpid|]. split; [exact Hp|].
    split; [exact Hin|]. split; [intros t'; split; [tauto|intros [->|Ht']; assumption]|].
    split; [reflexivity|]. split; [congruence|].
    split; [apply (Hget _ _ _ Hp _ _ Ef)|]. intros pid' t' _ E. exact E. }
  unfold binder_get_thread at 1.
  rewrite (M_bind_Ok_intro _ _ _ _ _ (get_proc_run _ _ _ Hp)).
  rewrite (M_bind_Ok_intro _ _ _ _ _ Ef).
  destruct (kzalloc_cases s) as (script & [Ek|Ek]);
    rewrite (M_bind_Ok_intro _ _ _ _ _ Ek).
  { eexists None, _. split; [reflexivity|]. split; reflexivity. }
  set (t := next_ptr s) in *.
  set (th := mk_binder_thread proc pid BINDER_LOOPER_STATE_NEED_RETURN None BR_OK BR_OK).
  set (s1 := set_kzalloc (t + 1) script s).
  rewrite (M_bind_Ok_intro _ _ _ _ _ (modify_run _ s1)).
  set (s2 := set_threads (<[t := th]> (threads s1)) s1).
  rewrite (M_bind_Ok_intro _ _ _ _ _ (get_state_run s2)).
  assert (Hp2 : procs s2 !! proc = Some p) by exact Hp.
  rewrite (M_bind_Ok_intro _ _ _ _ _ (upd_proc_run _ _ _ _ Hp2)).
  match goal with
  | |- context [set_procs (<[proc := ?q]> (procs s2)) s2] =>
      set (p3 := q); set (s3 := set_procs (<[proc := p3]> (procs s2)) s2)
  end.
  exists (Some t), s3. split; [reflexivity|].
  assert (Hth3 : threads s3 !! t = Some th) by apply lookup_insert_eq.
  assert (Hp3 : procs s3 !! proc = Some p3) by apply lookup_insert_eq.
  assert (Hold : forall a, In a (p_threads p) -> threads s3 !! a = threads s !! a).
  { intros a Ha. apply lookup_insert_ne. destruct (Hl a Ha) as [y Hy]. congruence. }
  assert (Hq3 : forall a, In a (p_threads p) ->
            exists y, threads s3 !! a = Some y /\ th_pid y <> pid).
  { intros a Ha. rewrite (Hold a Ha). apply Hq. exact Ha. }
  assert (Hin3 : forall t', In t' (p_threads p3) <-> t' = t \/ In t' (p_threads p))
    by (intros t'; apply insert_by_key_In).
  exists th, p3. split; [exact Hth3|]. split; [reflexivity|]. split; [exact Hp3|].
  split; [apply Hin3; left; reflexivity|]. split; [exact Hin3|].
  split; [intros [y Hy]; congruence|]. split; [reflexivity|]. split.
  - apply (Hget _ _ _ Hp3).
    apply (find_thread_inserted _ pid t th); [exact Hth3|reflexivity|exact Hq3].
  - intros pid' t' Hne E. unfold binder_get_thread in E |- *.
    rewrite (M_bind_Ok_intro _ _ _ _ _ (get_proc_run _ _ _ Hp)) in E.
    rewrite (M_bind_Ok_intro _ _ _ _ _ (get_proc_run _ _ _ Hp3)).
    apply M_bind_Ok in E as (found & s0 & E0 & E).
    pose proof (reads_keep_state _ (find_thread_preserves _ _ _) _ _ _ E0) as ->.
    assert (E3 : find_thread pid' (p_threads p3) s3 = Ok (found, s3)).
    { apply (find_thread_other _ pid pid' t th); [exact Hth3|reflexivity|exact Hne|].
      apply (find_thread_same pid' s); [exact Hold|exact E0]. }
    rewrite (M_bind_Ok_intro _ _ _ _ _ E3).
    destruct found as [f|].
    + apply M_ret_Ok in E as [E _]. rewrite E. reflexivity.
    + exfalso. destruct (kzalloc_cases s) as (script' & [Ek'|Ek']);
        rewrite (M_bind_Ok_intro _ _ _ _ _ Ek') in E.
      * apply M_ret_Ok in E as [E _]. discriminate E.
      * minv_all.
        all: match goal with E : ?x = set_procs _ _ |- _ =>
               apply (f_equal next_ptr) in E; cbn in E; lia end.
Qed.

Lemma binder_get_thread_found_witness :
  exists r s',
    binder_get_thread 0x100 7 witness_looper_idle = Ok (r, s') /\
    match r with
    | None => procs s' = procs witness_looper_idle /\ threads s' = threads witness_looper_idle
    | Some t =>
        exists th, threads s' !! t = Some th /\ th_pid th = 7 /\
                   binder_get_thread 0x100 7 s' = Ok (Some t, s')
    end.
Proof.
  destruct (binder_get_thread_found 0x100 7 witness_looper_idle
              (set_p_threads [0x200] (binder_open_proc 1)) eq_refl)
    as (r & s' & E & Hr).
  - intros t [<-|[]]. eexists. reflexivity.
  - reflexivity.
  - exists r, s'. split; [exact E|]. destruct r as [t|]; [|exact Hr].
    destruct Hr as (th & p' & Hth & Hpid & _ & _ & _ & _ & _ & Hagain & _).
    exists th. auto.
Defined.

(** ** The trees of the arena *)

Section arena_trees_proofs.
Context `{layout}.

Lemma tree_strict_join l r :
  tree_strict l -> tree_strict r ->
  (forall x y, In x (rb_inorder l) -> In y (rb_inorder r) -> x < y) ->
  tree_strict (rb_join l r).
Proof.
  induction l as [|ll IHl a lr IHr]; simpl; intros Hl Hr Hlr; [exact Hr|].
  destruct Hl as (Hll & Hlrs & Hlt & Hgt).
  split; [exact Hll|]. split.
  - apply IHr; [exact Hlrs|exact Hr|].
    intros x y Hx Hy. apply Hlr; [|exact Hy]. apply in_or_app. right. right. exact Hx.
  - split; [exact Hlt|]. intros x Hx. rewrite rb_inorder_join in Hx.
    apply in_app_or in Hx as [Hx|Hx]; [apply Hgt; exact Hx|].
    apply Hlr; [|exact Hx]. apply in_or_app. right. left. reflexivity.
Qed.

Lemma tree_strict_erase a t : tree_strict t -> tree_strict (rb_erase a t).
Proof.
  induction t as [|l IHl e r IHr]; simpl; [auto|].
  intros (Hl & Hr & Hlt & Hgt).
  destruct (e =? a).
  - apply tree_strict_join; [auto|auto|].
    intros x y Hx Hy. apply rb_erase_In in Hx as [Hx _]. apply rb_erase_In in Hy as [Hy _].
    specialize (Hlt x Hx). specialize (Hgt y Hy). lia.
  - simpl. split; [auto|]. split; [auto|]. split.
    + intros x Hx. apply rb_erase_In in Hx as [Hx _]. auto.
    + intros x Hx. apply rb_erase_In in Hx as [Hx _]. auto.
Qed.

Lemma tree_strict_NoDup t : tree_strict t -> NoDup (rb_inorder t).
Proof.
  induction t as [|l IHl e r IHr]; simpl; [constructor|].
  intros (Hl & Hr & Hlt & Hgt).
  apply NoDup_app. split; [auto|]. split.
  - intros x Hx Hx'. apply list_elem_of_In in Hx, Hx'.
    destruct Hx' as [<-|Hx']; [specialize (Hlt _ Hx); lia|].
    specialize (Hlt _ Hx). specialize (Hgt _ Hx'). lia.
  - apply NoDup_cons. split; [|auto].
    intros Hx. apply list_elem_of_In in Hx. specialize (Hgt _ Hx). lia.
Qed.

Lemma insert_allocated_descend_spec p new : forall t t',
  insert_allocated_descend p new t = Ok t' ->
  (forall x, In x (rb_inorder t') <-> x = new \/ In x (rb_inorder t)) /\
  (tree_strict t -> tree_strict t' /\ ~ In new (rb_inorder t)).
Proof.
  induction t as [|l IHl a r IHr]; simpl; intros t' E.
  - injection E as <-. simpl. split; [intros x; intuition congruence|].
    intros _. split; [|tauto]. repeat split; intros x [].
  - apply bind_Ok in E as (buf & Ef & E). apply bind_Ok in E as (u & Efree & E).
    destruct (new <? a) eqn:Hlt.
    + apply Z.ltb_lt in Hlt. apply bind_Ok in E as (l' & El & E). injection E as <-.
      destruct (IHl _ El) as [Hin Hs]. simpl. split.
      * intros x. rewrite !in_app_iff. simpl. rewrite Hin. intuition.
      * intros (Hl & Hr & Hlo & Hhi). destruct (Hs Hl) as [Hl' Hnot].
        split.
        -- split; [exact Hl'|]. split; [exact Hr|]. split; [|exact Hhi].
           intros x Hx. apply Hin in Hx as [->|Hx]; [lia|auto].
        -- rewrite in_app_iff. simpl. intros [Hx|[Hx|Hx]]; [tauto|lia|].
           specialize (Hhi _ Hx). lia.
    + apply Z.ltb_ge in Hlt. destruct (a <? new) eqn:Hgt; [|discriminate].
      apply Z.ltb_lt in Hgt. apply bind_Ok in E as (r' & Er & E). injection E as <-.
      destruct (IHr _ Er) as [Hin Hs]. simpl. split.
      * intros x. rewrite !in_app_iff. simpl. rewrite Hin. intuition.
      * intros (Hl & Hr & Hlo & Hhi). destruct (Hs Hr) as [Hr' Hnot].
        split.
        -- split; [exact Hl|]. split; [exact Hr'|]. split; [exact Hlo|].
           intros x Hx. apply Hin in Hx as [->|Hx]; [lia|auto].
        -- rewrite in_app_iff. simpl. intros [Hx|[Hx|Hx]]; [|lia|tauto].
           specialize (Hlo _ Hx). lia.
Qed.

Lemma insert_allocated_descend_total p new : forall t,
  tree_strict t -> ~ In new (rb_inorder t) ->
  (forall x, In x (rb_inorder t) -> allocated_in p x) ->
  exists t', insert_allocated_descend p new t = Ok t'.
Proof.
  induction t as [|l IHl a r IHr]; simpl; intros Hs Hnot Hall; [eauto|].
  destruct Hs as (Hl & Hr & Hlo & Hhi).
  destruct (Hall a) as (b & Hb & Hfree); [apply in_or_app; right; left; reflexivity|].
  rewrite Hb. simpl. rewrite Hfree. simpl.
  destruct (new <? a) eqn:Hlt.
  - destruct IHl as [l' El]; [exact Hl| |intros x Hx; apply Hall; apply in_or_app; auto|].
    { intros Hx. apply Hnot. apply in_or_app. auto. }
    rewrite El. simpl. eauto.
  - destruct (a <? new) eqn:Hgt.
    + destruct IHr as [r' Er]; [exact Hr| |intros x Hx; apply Hall; apply in_or_app; simpl; auto|].
      { intros Hx. apply Hnot. apply in_or_app. simpl. auto. }
      rewrite Er. simpl. eauto.
    + exfalso. apply Hnot. apply in_or_app. right. left.
      apply Z.ltb_ge in Hlt, Hgt. lia.
Qed.

Lemma buffer_lookup_descend_spec p k : forall t,
  tree_strict t -> (forall x, In x (rb_inorder t) -> allocated_in p x) ->
  (In k (rb_inorder t) -> buffer_lookup_descend p k t = Ok (Some k)) /\
  (~ In k (rb_inorder t) -> buffer_lookup_descend p k t = Ok None).
Proof.
  induction t as [|l IHl a r IHr]; simpl; intros Hs Hall.
  - split; [tauto|reflexivity].
  - destruct Hs as (Hl & Hr & Hlo & Hhi).
    destruct (Hall a) as (b & Hb & Hfree); [apply in_or_app; right; left; reflexivity|].
    rewrite Hb. simpl. rewrite Hfree. simpl.
    destruct IHl as [IHl1 IHl2];
      [exact Hl|intros x Hx; apply Hall; apply in_or_app; auto|].
    destruct IHr as [IHr1 IHr2];
      [exact Hr|intros x Hx; apply Hall; apply in_or_app; simpl; auto|].
    rewrite in_app_iff. simpl.
    destruct (k <? a) eqn:Hlt.
    + apply Z.ltb_lt in Hlt. split.
      * intros [Hx|[Hx|Hx]]; [auto|lia|specialize (Hhi _ Hx); lia].
      * intros Hnot. apply IHl2. tauto.
    + apply Z.ltb_ge in Hlt. destruct (a <? k) eqn:Hgt.
      * apply Z.ltb_lt in Hgt. split.
        -- intros [Hx|[Hx|Hx]]; [specialize (Hlo _ Hx); lia|lia|auto].
        -- intros Hnot. apply IHr2. tauto.
      * apply Z.ltb_ge in Hgt. assert (k = a) by lia. subst k.
        split; [reflexivity|tauto].
Qed.

Lemma rb_inorder_erase a t :
  rb_inorder (rb_erase a t) = List.filter (fun x => negb (x =? a)) (rb_inorder t).
Proof.
  induction t as [|l IHl e r IHr]; simpl; [reflexivity|].
  rewrite List.filter_app. simpl. destruct (e =? a); simpl.
  - rewrite rb_inorder_join, IHl, IHr. reflexivity.
  - rewrite IHl, IHr. reflexivity.
Qed.

Lemma NoDup_erase a t : NoDup (rb_inorder t) -> NoDup (rb_inorder (rb_erase a t)).
Proof.
  rewrite rb_inorder_erase. intros Hn.
  apply NoDup_ListNoDup. apply List.NoDup_filter. apply NoDup_ListNoDup. exact Hn.
Qed.

Lemma insert_free_descend_perm p new sz : forall t t',
  insert_free_descend p new sz t = Ok t' ->
  rb_inorder t' ≡ₚ new :: rb_inorder t.
Proof.
  induction t as [|l IHl a r IHr]; simpl; intros t' E.
  - injection E as <-. reflexivity.
  - apply bind_Ok in E as (buf & Ef & E). apply bind_Ok in E as (u & Efree & E).
    apply bind_Ok in E as (bs & Esz & E).
    destruct (sz <? bs).
    + apply bind_Ok in E as (l' & El & E). injection E as <-. simpl.
      rewrite (IHl _ El). reflexivity.
    + apply bind_Ok in E as (r' & Er & E). injection E as <-. simpl.
      rewrite (IHr _ Er). rewrite <- !Permutation_middle. apply perm_swap.
Qed.

Lemma add_addr_after_fresh a n addrs :
  NoDup (add_addr_after a n addrs) -> In a addrs -> ~ In n addrs.
Proof.
  induction addrs as [|x rest IH]; simpl; [tauto|].
  destruct (x =? a) eqn:E.
  - intros Hn _. apply NoDup_cons in Hn as [Hx Hn]. apply NoDup_cons in Hn as [Hn' _].
    intros [->|Hin].
    + apply Hx. left.
    + apply Hn'. apply list_elem_of_In. exact Hin.
  - apply Z.eqb_neq in E. intros Hn [Ha|Ha]; [congruence|].
    apply NoDup_cons in Hn as [Hx Hn]. intros [->|Hin].
    + apply Hx. apply list_elem_of_In.
      clear -Ha. induction rest as [|y rest IH]; simpl in *; [tauto|].
      destruct (y =? a) eqn:Ey; simpl; [auto|].
      destruct Ha as [->|Ha]; [rewrite Z.eqb_refl in Ey; discriminate|]. auto.
    + exact (IH Hn Ha Hin).
Qed.

Lemma find_add_after_other a new x bs :
  x <> b_addr new -> find_buffer x (list_add_after a new bs) = find_buffer x bs.
Proof.
  intros Hne. induction bs as [|y rest IH]; simpl; [reflexivity|].
  destruct (b_addr y =? a) eqn:E; simpl.
  - destruct (b_addr y =? x); [reflexivity|].
    destruct (b_addr new =? x) eqn:En; [apply Z.eqb_eq in En; congruence|reflexivity].
  - destruct (b_addr y =? x); [reflexivity|exact IH].
Qed.

Lemma find_add_after_new a new bs :
  In a (map b_addr bs) -> ~ In (b_addr new) (map b_addr bs) ->
  find_buffer (b_addr new) (list_add_after a new bs) = Some new.
Proof.
  induction bs as [|y rest IH]; simpl; [tauto|].
  intros Ha Hn.
  assert (Hy : (b_addr y =? b_addr new) = false) by (apply Z.eqb_neq; tauto).
  destruct (b_addr y =? a) eqn:E; simpl; rewrite Hy.
  - rewrite Z.eqb_refl. reflexivity.
  - apply Z.eqb_neq in E. apply IH; [destruct Ha; [congruence|assumption]|tauto].
Qed.

Lemma binder_alloc_buf_allocated p ds os is_async pages a p' :
  binder_alloc_buf p ds os is_async pages = Ok (alloc_buffer a, p') ->
  exists p1,
    p_buffers p1 = update_buffer a (set_b_free false) (p_buffers p) /\
    insert_allocated_descend p1 a (p_allocated_buffers p)
    = Ok (p_allocated_buffers p').
Proof.
  unfold binder_alloc_buf. intros E.
  destruct (negb (p_vma p)); [discriminate|].
  destruct (_ || _); [discriminate|].
  destruct (is_async && _); [discriminate|].
  apply bind_Ok in E as ([best exact] & Es & E).
  destruct best as [a0|]; [|discriminate].
  apply bind_Ok in E as (z & Ez & E).
  destruct (negb pages); [discriminate|].
  apply bind_Ok in E as (pa & Epa & E).
  apply bind_Ok in E as (pf & Epf & E).
  injection E as <- <-.
  unfold binder_insert_allocated_buffer in Epa.
  apply bind_Ok in Epa as (nb & Ef & Epa). apply bind_Ok in Epa as (u & Efree & Epa).
  apply bind_Ok in Epa as (t & Et & Epa). injection Epa as <-.
  eexists. split; [|].
  2: { assert (Hab : p_allocated_buffers pf = t).
       { destruct (negb _).
         - apply binder_insert_free_buffer_inv in Epf as (fb & -> & _). reflexivity.
         - injection Epf as <-. reflexivity. }
       destruct is_async; cbn; rewrite Hab; exact Et. }
  reflexivity.
Qed.

Lemma binder_alloc_buf_free_tree p ds os is_async pages a p' :
  layout_ok -> arena_wf p -> 0 <= p_free_async_space p < 2 ^ 32 ->
  binder_alloc_buf p ds os is_async pages = Ok (alloc_buffer a, p') ->
  if aligned_size ds os + sizeof_binder_buffer + 4 <? bsize p a
  then exists p2 sz,
         insert_free_descend p2 (buffer_data a + aligned_size ds os) sz
           (rb_erase a (p_free_buffers p)) = Ok (p_free_buffers p')
  else p_free_buffers p' = rb_erase a (p_free_buffers p).
Proof.
  intros Hl Hwf Hfas E. unfold binder_alloc_buf in E.
  fold (aligned_size ds os) in E. set (S := aligned_size ds os) in *.
  destruct (negb (p_vma p)); [discriminate|].
  destruct ((S <? ds) || (S <? os)); [discriminate|].
  destruct (is_async && (p_free_async_space p <? size_t (S + sizeof_binder_buffer)));
    [discriminate|].
  apply bind_Ok in E as ([best exact] & Es & E).
  destruct best as [a0|]; [|discriminate].
  apply bind_Ok in E as (z & Ez & E).
  apply best_fit_search_sound in Es as [[? _]|(Ia & b & z' & Ef & Efree & Ez' & Hz)];
    [discriminate|].
  rewrite Ez in Ez'. injection Ez' as <-.
  destruct (binder_buffer_size_wf p a0 b Hl Hwf Ef) as (base & Hb & Ez2 & Rz).
  rewrite Ez in Ez2. injection Ez2 as Ez2. rewrite <- Ez2 in Rz. clear Ez2.
  pose proof (aligned_size_range ds os) as RS. fold S in RS.
  destruct Hl as (L1 & L2 & L3).
  destruct Hwf as (base' & Hb' & B0 & B1 & B2 & Hlo & C).
  assert (Sz : S <= z) by (destruct exact; lia).
  assert (W1 : size_t (S + sizeof_binder_buffer) = S + sizeof_binder_buffer)
    by (apply size_t_small; unfold SZ_4M in *; lia).
  assert (W2 : size_t (S + sizeof_binder_buffer + 4) = S + sizeof_binder_buffer + 4)
    by (apply size_t_small; unfold SZ_4M in *; lia).
  rewrite W1, W2 in *.
  destruct (negb pages); [discriminate|].
  apply bind_Ok in E as (pa & Epa & E).
  apply binder_insert_allocated_buffer_inv in Epa as (ab & ->).
  apply bind_Ok in E as (pf & Epf & E).
  injection E as <- <-.
  rewrite (bsize_Ok _ _ _ Ez).
  assert (Split : negb ((if exact then z
                          else if S + sizeof_binder_buffer + 4 >=? z then S
                               else S + sizeof_binder_buffer) =? S)
                  = (S + sizeof_binder_buffer + 4 <? z)).
  { destruct exact.
    - subst z. rewrite Z.eqb_refl. simpl. symmetry. apply Z.ltb_ge. lia.
    - destruct (S + sizeof_binder_buffer + 4 >=? z) eqn:G.
      + rewrite Z.eqb_refl. simpl. symmetry. apply Z.ltb_ge. lia.
      + assert (Hne : (S + sizeof_binder_buffer =? S) = false) by (apply Z.eqb_neq; lia).
        rewrite Hne. simpl. symmetry. apply Z.ltb_lt. lia. }
  rewrite Split in Epf. clear Split.
  destruct (S + sizeof_binder_buffer + 4 <? z).
  - unfold binder_insert_free_buffer in Epf.
    apply bind_Ok in Epf as (nb & Ef' & Epf). apply bind_Ok in Epf as (u & Efree' & Epf).
    apply bind_Ok in Epf as (sz & Esz & Epf). apply bind_Ok in Epf as (t & Et & Epf).
    injection Epf as <-. cbn in Et. eexists _, sz.
    destruct is_async; cbn; exact Et.
  - injection Epf as <-. destruct is_async; reflexivity.
Qed.

Lemma binder_alloc_buf_trees p ds os is_async pages r p' :
  layout_ok -> arena_trees_ok p ->
  binder_alloc_buf p ds os is_async pages = Ok (r, p') ->
  arena_trees_ok p' /\
  match r with
  | alloc_buffer a =>
      free_in p a /\ allocated_in p' a /\
      forall x, allocated_in p' x <-> x = a \/ allocated_in p x
  | _ => p' = p
  end.
Proof.
  intros Hl (Hq & Hstrict & Halloc & Hfree & Hnd) E.
  pose proof (quota_inv_fas _ Hl Hq) as Hfas.
  pose proof Hq as (Hwf & _).
  pose proof (binder_alloc_buf_quota _ _ _ _ _ _ _ Hl Hq E) as Hq'.
  pose proof (binder_alloc_buf_inv _ _ _ _ _ _ _ Hl Hwf Hfas E) as I.
  destruct r as [a| |];
    [|subst p'; split;
        [exact (conj Hq (conj Hstrict (conj Halloc (conj Hfree Hnd))))|reflexivity]
     |subst p'; split;
        [exact (conj Hq (conj Hstrict (conj Halloc (conj Hfree Hnd))))|reflexivity]].
  destruct (binder_alloc_buf_allocated _ _ _ _ _ _ _ E) as (p1 & Hp1 & Eab).
  destruct I as (b & fb & ab & Ef & Efree & Ia & Sz & Hch & -> & Hfb).
  cbn in Eab. set (S := aligned_size ds os) in *.
  set (nw := buffer_data a + S) in *.
  set (split := S + sizeof_binder_buffer + 4 <? bsize p a) in *.
  set (bufs1 := update_buffer a (set_b_free false) (p_buffers p)) in *.
  set (bufs2 := (if split then list_add_after a (new_free_buffer nw) else id) bufs1) in *.
  set (bufs' := update_buffer a (set_b_sizes ds os is_async) bufs2) in *.
  (* the address list before and after *)
  destruct Hl as (L1 & L2 & L3).
  assert (Hnd0 : NoDup (map b_addr (p_buffers p))).
  { destruct Hwf as (base & _ & _ & _ & _ & _ & C). exact (chain_NoDup _ _ L1 C). }
  assert (Hnd' : NoDup (map b_addr bufs')).
  { destruct Hq' as ((base & _ & _ & _ & _ & _ & C) & _). exact (chain_NoDup _ _ L1 C). }
  assert (Hina : In a (map b_addr bufs1)).
  { unfold bufs1. rewrite map_addr_update by reflexivity. exact (find_buffer_In _ _ _ Ef). }
  assert (Hfresh : split = true -> ~ In nw (map b_addr bufs1)).
  { intros Hs. unfold bufs', bufs2 in Hnd'. rewrite Hs in Hnd'.
    rewrite map_addr_update, map_addr_add in Hnd' by reflexivity.
    exact (add_addr_after_fresh _ _ _ Hnd' Hina). }
  assert (Hne : split = true -> nw <> a).
  { intros Hs ->. apply (Hfresh Hs). exact Hina. }
  (* what the new list holds *)
  assert (Fa : find_buffer a bufs' = Some (set_b_sizes ds os is_async (set_b_free false b))).
  { unfold bufs'. apply find_update_same; [reflexivity|]. unfold bufs2.
    destruct split; [rewrite find_add_after_same|unfold id];
      apply find_update_same; auto. }
  assert (Fnew : split = true -> find_buffer nw bufs' = Some (new_free_buffer nw)).
  { intros Hs. unfold bufs'. rewrite find_update_other by (auto || reflexivity).
    unfold bufs2. rewrite Hs. apply (find_add_after_new a (new_free_buffer nw)); auto. }
  assert (Fother : forall x, x <> a -> (split = true -> x <> nw) ->
            find_buffer x bufs' = find_buffer x (p_buffers p)).
  { intros x Hxa Hxn. unfold bufs'. rewrite find_update_other by (auto || reflexivity).
    unfold bufs2. destruct split.
    - rewrite (find_add_after_other a (new_free_buffer nw)) by (apply Hxn; reflexivity).
      unfold bufs1. apply find_update_other; auto.
    - unfold id, bufs1. apply find_update_other; auto. }
  assert (Fold_new : split = true -> find_buffer nw (p_buffers p) = None).
  { intros Hs. destruct (find_buffer nw (p_buffers p)) as [bn|] eqn:En; [|reflexivity].
    exfalso. apply (Hfresh Hs). unfold bufs1. rewrite map_addr_update by reflexivity.
    exact (find_buffer_In _ _ _ En). }
  assert (Hallocated : forall x,
            allocated_in (set_p_arena bufs' fb ab
                            (if is_async then p_free_async_space p - (S + sizeof_binder_buffer)
                             else p_free_async_space p) p) x
            <-> x = a \/ allocated_in p x).
  { intros x. unfold allocated_in. cbn [p_buffers set_p_arena].
    destruct (Z.eq_dec x a) as [->|Hxa].
    - rewrite Fa. split; [auto|]. intros _. eexists. split; reflexivity.
    - destruct split eqn:Hs.
      + destruct (Z.eq_dec x nw) as [->|Hxn].
        * rewrite (Fnew eq_refl), (Fold_new eq_refl). split.
          -- intros (b0 & [= <-] & Hb0). discriminate Hb0.
          -- intros [->|(b0 & Hb0 & _)]; [congruence|discriminate].
        * rewrite Fother by auto. tauto.
      + rewrite Fother by (auto || discriminate). tauto. }
  split; [|split; [exists b; auto|split; [apply Hallocated; auto|exact Hallocated]]].
  destruct (insert_allocated_descend_spec _ _ _ _ Eab) as [Hab Hab'].
  destruct (Hab' Hstrict) as [Hstrict' Hnota].
  split; [exact Hq'|]. split; [exact Hstrict'|]. split; [|split].
  - intros x. cbn [p_allocated_buffers set_p_arena]. rewrite Hab, Hallocated, Halloc.
    reflexivity.
  - intros x. cbn [p_free_buffers set_p_arena]. rewrite Hfb. unfold free_in.
    cbn [p_buffers set_p_arena]. fold S nw split.
    destruct (Z.eq_dec x a) as [->|Hxa].
    + rewrite Fa. split.
      * intros [[_ Hx]|[Hs Hx]]; [congruence|].
        exfalso. apply Hne; [apply Z.ltb_lt; exact Hs|symmetry; exact Hx].
      * intros (b0 & [= <-] & Hb0). discriminate Hb0.
    + destruct split eqn:Hs.
      * destruct (Z.eq_dec x nw) as [->|Hxn].
        -- rewrite (Fnew eq_refl). split; [intros _; eexists; split; reflexivity|].
           intros _. right. split; [apply Z.ltb_lt; exact Hs|reflexivity].
        -- rewrite Fother by auto. rewrite Hfree. unfold free_in. split.
           ++ intros [[Hx _]|[_ ->]]; [exact Hx|congruence].
           ++ intros Hx. left. auto.
      * rewrite Fother by (auto || discriminate). rewrite Hfree. unfold free_in. split.
        -- intros [[Hx _]|[Hlt _]]; [exact Hx|]. apply Z.ltb_ge in Hs. lia.
        -- intros Hx. left. auto.
  - cbn [p_free_buffers set_p_arena].
    pose proof (binder_alloc_buf_free_tree _ _ _ _ _ _ _
                  (conj L1 (conj L2 L3)) Hwf Hfas E) as Efb.
    cbn [p_free_buffers set_p_arena] in Efb. fold S nw split in Efb.
    destruct split eqn:Hs.
    + destruct Efb as (p2 & sz & Efb).
      rewrite (insert_free_descend_perm _ _ _ _ _ Efb). apply NoDup_cons. split.
      * intros Hin. apply list_elem_of_In, rb_erase_In in Hin as [Hin _].
        apply Hfree in Hin as (b0 & Hb0 & _).
        rewrite (Fold_new eq_refl) in Hb0. discriminate.
      * apply NoDup_erase. exact Hnd.
    + rewrite Efb. apply NoDup_erase. exact Hnd.
Qed.


Lemma find_del_same a bs :
  NoDup (map b_addr bs) -> find_buffer a (list_del_buffer a bs) = None.
Proof.
  induction bs as [|y rest IH]; simpl; [reflexivity|].
  intros Hn. apply NoDup_cons in Hn as [Hy Hn].
  destruct (b_addr y =? a) eqn:E.
  - apply Z.eqb_eq in E. subst a.
    destruct (find_buffer (b_addr y) rest) as [b0|] eqn:Eb; [|reflexivity].
    exfalso. apply Hy. apply list_elem_of_In. exact (find_buffer_In _ _ _ Eb).
  - simpl. rewrite E. auto.
Qed.

Lemma NoDup_del a bs :
  NoDup (map b_addr bs) -> NoDup (map b_addr (list_del_buffer a bs)).
Proof.
  induction bs as [|y rest IH]; simpl; [auto|].
  intros Hn. apply NoDup_cons in Hn as [Hy Hn].
  destruct (b_addr y =? a); [exact Hn|].
  simpl. apply NoDup_cons. split; [|auto].
  intros Hin. apply Hy. apply list_elem_of_In. apply list_elem_of_In in Hin.
  rewrite map_addr_del in Hin. eapply In_del_addr; exact Hin.
Qed.

Lemma prev_buffer_neq a bs n :
  NoDup (map b_addr bs) -> prev_buffer a bs = Some n -> b_addr n <> a.
Proof.
  induction bs as [|x rest IH]; simpl; [discriminate|].
  intros Hn E. apply NoDup_cons in Hn as [Hx Hn].
  destruct rest as [|y rest']; [discriminate|].
  destruct (b_addr y =? a) eqn:Ey.
  - apply Z.eqb_eq in Ey. injection E as <-. intros Heq. apply Hx.
    rewrite Heq, <- Ey. left.
  - apply IH; assumption.
Qed.

(** What [binder_free_buf] does to the list and the trees. *)
Lemma binder_free_buf_shape p a p' :
  binder_free_buf p a = Ok p' ->
  let bufs1 := update_buffer a (set_b_free true) (p_buffers p) in
  let mnext := match next_buffer a bufs1 with
               | Some n => if b_free n then Some (b_addr n) else None
               | None => None
               end in
  let bufs2 := match mnext with Some n => list_del_buffer n bufs1 | None => bufs1 end in
  let mprev := match prev_buffer a bufs2 with
               | Some pv => if b_free pv then Some (b_addr pv) else None
               | None => None
               end in
  let bufs3 := match mprev with Some _ => list_del_buffer a bufs2 | None => bufs2 end in
  let t1 := match mnext with
            | Some n => rb_erase n (p_free_buffers p)
            | None => p_free_buffers p
            end in
  let t2 := match mprev with Some pv => rb_erase pv t1 | None => t1 end in
  exists b,
    find_buffer a (p_buffers p) = Some b /\ b_free b = false /\
    b_transaction b = None /\
    p_buffers p' = bufs3 /\
    p_allocated_buffers p' = rb_erase a (p_allocated_buffers p) /\
    exists p4 sz,
      insert_free_descend p4 (match mprev with Some pv => pv | None => a end) sz t2
      = Ok (p_free_buffers p').
Proof.
  intros E bufs1 mnext bufs2 mprev bufs3 t1 t2. unfold binder_free_buf in E.
  apply bind_Ok in E as (b & Ef & E). apply of_option_Ok in Ef.
  apply bind_Ok in E as (z & Ez & E).
  apply bind_Ok in E as (u1 & U1 & E). apply BUG_ON_Ok in U1.
  apply bind_Ok in E as (u2 & U2 & E).
  apply bind_Ok in E as (u3 & U3 & E). apply BUG_ON_Ok in U3.
  apply bool_decide_eq_false in U3.
  assert (Tn : b_transaction b = None)
    by (destruct (b_transaction b); [exfalso; apply U3; discriminate|reflexivity]).
  apply bind_Ok in E as (base & Hb & E).
  apply bind_Ok in E as (u4 & U4 & E). apply bind_Ok in E as (u5 & U5 & E).
  cbv zeta in E.
  match type of E with
  | context [next_buffer a (p_buffers ?q)] => set (p3 := q) in *
  end.
  assert (B3 : p_buffers p3 = bufs1 /\ p_free_buffers p3 = p_free_buffers p /\
               p_allocated_buffers p3 = rb_erase a (p_allocated_buffers p))
    by (unfold p3; destruct (b_async_transaction b); auto).
  destruct B3 as (B3 & F3 & A3). clearbody p3.
  apply bind_Ok in E as (p4 & E4 & E).
  assert (B4 : p_buffers p4 = bufs2 /\ p_free_buffers p4 = t1 /\
               p_allocated_buffers p4 = rb_erase a (p_allocated_buffers p)).
  { unfold bufs2, t1, mnext. rewrite <- B3, <- F3, <- A3.
    destruct (next_buffer a (p_buffers p3)) as [n|]; [|injection E4 as <-; auto].
    destruct (b_free n); [|injection E4 as <-; auto].
    apply binder_delete_free_buffer_inv in E4. subst p4. auto. }
  destruct B4 as (B4 & F4 & A4).
  apply bind_Ok in E as ([p5 a5] & E5 & E).
  assert (B5 : p_buffers p5 = bufs3 /\ p_free_buffers p5 = t2 /\
               p_allocated_buffers p5 = rb_erase a (p_allocated_buffers p) /\
               a5 = match mprev with Some pv => pv | None => a end).
  { unfold bufs3, t2, mprev. rewrite <- B4, <- F4, <- A4.
    destruct (prev_buffer a (p_buffers p4)) as [pv|]; [|injection E5 as <- <-; auto].
    destruct (b_free pv); [|injection E5 as <- <-; auto].
    apply bind_Ok in E5 as (q & Ed & E5). injection E5 as <- <-.
    apply binder_delete_free_buffer_inv in Ed. subst q. auto. }
  destruct B5 as (B5 & F5 & A5 & Ha5).
  unfold binder_insert_free_buffer in E.
  apply bind_Ok in E as (nb & Efn & E). apply bind_Ok in E as (u & Efree & E).
  apply bind_Ok in E as (sz & Esz & E). apply bind_Ok in E as (t & Et & E).
  injection E as <-.
  exists b. split; [exact Ef|]. split; [exact U1|]. split; [exact Tn|].
  split; [exact B5|]. split; [exact A5|].
  exists p5, sz. rewrite <- Ha5, <- F5. exact Et.
Qed.

(** The list of blocks on the way through [binder_free_buf]: which
    neighbours are merged, and what is found where afterwards. *)
Lemma free_merge_facts p a b :
  NoDup (map b_addr (p_buffers p)) ->
  find_buffer a (p_buffers p) = Some b -> b_free b = false ->
  let bufs1 := update_buffer a (set_b_free true) (p_buffers p) in
  let mnext := match next_buffer a bufs1 with
               | Some n => if b_free n then Some (b_addr n) else None
               | None => None
               end in
  let bufs2 := match mnext with Some n => list_del_buffer n bufs1 | None => bufs1 end in
  let mprev := match prev_buffer a bufs2 with
               | Some pv => if b_free pv then Some (b_addr pv) else None
               | None => None
               end in
  let bufs3 := match mprev with Some _ => list_del_buffer a bufs2 | None => bufs2 end in
  NoDup (map b_addr bufs1) /\ NoDup (map b_addr bufs2) /\
  find_buffer a bufs1 = Some (set_b_free true b) /\
  find_buffer a bufs2 = Some (set_b_free true b) /\
  (forall n, mnext = Some n -> n <> a /\ free_in p n) /\
  (forall pv, mprev = Some pv -> pv <> a /\ mnext <> Some pv /\ free_in p pv) /\
  find_buffer a bufs3
  = match mprev with Some _ => None | None => Some (set_b_free true b) end /\
  (forall x, x <> a -> mnext <> Some x ->
     find_buffer x bufs3 = find_buffer x (p_buffers p)) /\
  (forall n, mnext = Some n -> find_buffer n bufs3 = None).
Proof.
  intros Hnd0 Ef Efree. cbv zeta.
  set (bufs1 := update_buffer a (set_b_free true) (p_buffers p)) in *.
  assert (Hnd1 : NoDup (map b_addr bufs1))
    by (unfold bufs1; rewrite map_addr_update by reflexivity; exact Hnd0).
  assert (F1a : find_buffer a bufs1 = Some (set_b_free true b))
    by (apply find_update_same; auto).
  assert (F1 : forall x, x <> a -> find_buffer x bufs1 = find_buffer x (p_buffers p))
    by (intros x Hx; apply find_update_other; auto).
  (* the successor that is merged *)
  set (mnext := match next_buffer a bufs1 with
                | Some n => if b_free n then Some (b_addr n) else None
                | None => None
                end) in *.
  assert (Hnext : forall n, mnext = Some n -> n <> a /\ free_in p n).
  { intros n Hn. unfold mnext in Hn.
    destruct (next_buffer a bufs1) as [nb|] eqn:En; [|discriminate].
    destruct (b_free nb) eqn:Fn; [|discriminate]. injection Hn as <-.
    pose proof (next_buffer_neq _ _ _ Hnd1 En) as Hne. split; [exact Hne|].
    exists nb. split; [|exact Fn]. rewrite <- F1 by exact Hne.
    apply NoDup_find; [exact Hnd1|exact (next_buffer_In _ _ _ En)]. }
  set (bufs2 := match mnext with Some n => list_del_buffer n bufs1 | None => bufs1 end) in *.
  assert (Hnd2 : NoDup (map b_addr bufs2))
    by (unfold bufs2; destruct mnext; [apply NoDup_del|]; exact Hnd1).
  assert (F2 : forall x, mnext <> Some x -> find_buffer x bufs2 = find_buffer x bufs1).
  { intros x Hx. unfold bufs2. destruct mnext as [n|]; [|reflexivity].
    apply find_del_other. congruence. }
  assert (F2n : forall n, mnext = Some n -> find_buffer n bufs2 = None).
  { intros n Hn. unfold bufs2. rewrite Hn. apply find_del_same. exact Hnd1. }
  (* the predecessor it is merged into *)
  set (mprev := match prev_buffer a bufs2 with
                | Some pv => if b_free pv then Some (b_addr pv) else None
                | None => None
                end) in *.
  assert (Hprev : forall pv, mprev = Some pv ->
            pv <> a /\ mnext <> Some pv /\ free_in p pv).
  { intros pv Hpv. unfold mprev in Hpv.
    destruct (prev_buffer a bufs2) as [pb|] eqn:Ep; [|discriminate].
    destruct (b_free pb) eqn:Fp; [|discriminate]. injection Hpv as <-.
    pose proof (prev_buffer_neq _ _ _ Hnd2 Ep) as Hne.
    pose proof (NoDup_find _ _ Hnd2 (prev_buffer_In _ _ _ Ep)) as Fpb.
    assert (Hnn : mnext <> Some (b_addr pb)).
    { intros Hn. rewrite (F2n _ Hn) in Fpb. discriminate. }
    split; [exact Hne|]. split; [exact Hnn|].
    exists pb. split; [|exact Fp]. rewrite <- F1, <- F2 by assumption. exact Fpb. }
  set (bufs3 := match mprev with Some _ => list_del_buffer a bufs2 | None => bufs2 end) in *.
  assert (F2a : find_buffer a bufs2 = Some (set_b_free true b)).
  { rewrite F2; [exact F1a|]. intros Hn. apply Hnext in Hn as [Hn _]. congruence. }
  assert (F3a : find_buffer a bufs3
                = match mprev with Some _ => None | None => Some (set_b_free true b) end).
  { unfold bufs3. destruct mprev; [apply find_del_same; exact Hnd2|exact F2a]. }
  assert (F3 : forall x, x <> a -> mnext <> Some x ->
            find_buffer x bufs3 = find_buffer x (p_buffers p)).
  { intros x Hxa Hxn. unfold bufs3.
    destruct mprev; [rewrite find_del_other by exact Hxa|];
      rewrite F2, F1 by assumption; reflexivity. }
  assert (F3n : forall n, mnext = Some n -> find_buffer n bufs3 = None).
  { intros n Hn. unfold bufs3. destruct (Hnext n Hn) as [Hne _].
    destruct mprev; [rewrite find_del_other by exact Hne|]; apply F2n; exact Hn. }
  auto 10.
Qed.

Lemma binder_free_buf_trees p a p' :
  layout_ok -> arena_trees_ok p ->
  binder_free_buf p a = Ok p' ->
  arena_trees_ok p' /\ allocated_in p a /\
  forall x, allocated_in p' x <-> allocated_in p x /\ x <> a.
Proof.
  intros Hl (Hq & Hstrict & Halloc & Hfree & Hnd) E.
  destruct (binder_free_buf_inv _ _ _ Hl Hq E) as [Hq' _].
  destruct (binder_free_buf_shape _ _ _ E)
    as (b & Ef & Efree & _ & Hbufs & Hab & p4 & sz & Efb).
  cbv zeta in Hbufs, Efb.
  destruct Hl as (L1 & L2 & L3).
  assert (Hnd0 : NoDup (map b_addr (p_buffers p))).
  { destruct Hq as ((base & _ & _ & _ & _ & _ & C) & _). exact (chain_NoDup _ _ L1 C). }
  destruct (free_merge_facts p a b Hnd0 Ef Efree)
    as (Hnd1 & Hnd2 & F1a & F2a & Hnext & Hprev & F3a & F3 & F3n).
  cbv zeta in Hnd1, Hnd2, F1a, F2a, Hnext, Hprev, F3a, F3, F3n.
  set (bufs1 := update_buffer a (set_b_free true) (p_buffers p)) in *.
  set (mnext := match next_buffer a bufs1 with
                | Some n => if b_free n then Some (b_addr n) else None
                | None => None
                end) in *.
  set (bufs2 := match mnext with Some n => list_del_buffer n bufs1 | None => bufs1 end) in *.
  set (mprev := match prev_buffer a bufs2 with
                | Some pv => if b_free pv then Some (b_addr pv) else None
                | None => None
                end) in *.
  set (bufs3 := match mprev with Some _ => list_del_buffer a bufs2 | None => bufs2 end) in *.
  assert (Hnotfree : ~ free_in p a).
  { intros (b0 & Hb0 & Hf0). congruence. }
  assert (Hallocated : forall x, allocated_in p' x <-> allocated_in p x /\ x <> a).
  { intros x. unfold allocated_in. rewrite Hbufs.
    destruct (Z.eq_dec x a) as [->|Hxa].
    - rewrite F3a. split; [|tauto].
      destruct mprev; intros (b0 & Hb0 & Hf0); [discriminate|].
      injection Hb0 as <-. discriminate Hf0.
    - destruct (decide (mnext = Some x)) as [Hn|Hn].
      + rewrite (F3n _ Hn). destruct (Hnext _ Hn) as [_ (bn & Hbn & Hfn)]. split.
        * intros (b0 & Hb0 & _). discriminate.
        * intros [(b0 & Hb0 & Hf0) _]. congruence.
      + rewrite F3 by assumption. tauto. }
  assert (Ht2 : forall x,
            In x (rb_inorder
                    match mprev with
                    | Some pv => rb_erase pv
                                   match mnext with
                                   | Some n => rb_erase n (p_free_buffers p)
                                   | None => p_free_buffers p
                                   end
                    | None => match mnext with
                              | Some n => rb_erase n (p_free_buffers p)
                              | None => p_free_buffers p
                              end
                    end)
            <-> In x (rb_inorder (p_free_buffers p)) /\ mnext <> Some x /\ mprev <> Some x).
  { intros x. destruct mprev as [pv|], mnext as [n|]; rewrite ?rb_erase_In;
      intuition congruence. }
  split; [|split; [exists b; auto|exact Hallocated]].
  split; [exact Hq'|]. split; [rewrite Hab; apply tree_strict_erase; exact Hstrict|].
  split; [|split].
  - intros x. rewrite Hab, rb_erase_In, Halloc, Hallocated. reflexivity.
  - intros x. unfold free_in. rewrite Hbufs.
    rewrite <- list_elem_of_In, (insert_free_descend_perm _ _ _ _ _ Efb).
    rewrite elem_of_cons, list_elem_of_In, Ht2, Hfree. apply iff_sym.
    destruct (Z.eq_dec x a) as [->|Hxa].
    + rewrite F3a. destruct mprev as [pv|] eqn:Hpv.
      * destruct (Hprev pv eq_refl) as (Hpa & _). split.
        -- intros (b0 & Hb0 & _). discriminate.
        -- intros [Hx|(Hx & _)]; [congruence|tauto].
      * split; [auto|]. intros _. eexists. split; reflexivity.
    + destruct (decide (mnext = Some x)) as [Hn|Hn].
      * rewrite (F3n _ Hn). split.
        -- intros (b0 & Hb0 & _). discriminate.
        -- intros [Hx|(_ & Hx & _)]; [|tauto].
           destruct mprev as [pv|] eqn:Hpv; [|congruence].
           subst x. destruct (Hprev pv eq_refl) as (_ & Hx & _). tauto.
      * rewrite F3 by assumption. fold (free_in p x). split.
        -- intros Hx. destruct (decide (mprev = Some x)) as [Hp|Hp].
           ++ left. rewrite Hp. reflexivity.
           ++ right. auto.
        -- intros [Hx|(Hx & _)]; [|exact Hx].
           destruct mprev as [pv|] eqn:Hpv; [|congruence].
           subst x. destruct (Hprev pv eq_refl) as (_ & _ & Hx). exact Hx.
  - rewrite (insert_free_descend_perm _ _ _ _ _ Efb). apply NoDup_cons. split.
    + rewrite list_elem_of_In, Ht2. intros (Hin & Hn & Hp).
      destruct mprev as [pv|]; [congruence|]. apply Hfree in Hin. tauto.
    + destruct mprev, mnext; repeat apply NoDup_erase; exact Hnd.
Qed.


Lemma binder_mmap_trees p vm_start vm_end flags addr pages p' :
  layout_ok -> vm_area_ok vm_start vm_end addr ->
  p_allocated_buffers p = rb_nil -> p_free_buffers p = rb_nil ->
  binder_mmap p vm_start vm_end flags (Some addr) pages = Ok (mmap_ok, p') ->
  arena_trees_ok p'.
Proof.
  intros Hl Hv Hab Hfb E.
  destruct (binder_mmap_inv _ _ _ _ _ _ _ Hl Hv E) as [Hq _].
  split; [exact Hq|]. unfold binder_mmap in E.
  destruct flags; [discriminate|].
  destruct (bool_decide (p_buffer p <> None)); [discriminate|].
  destruct (negb pages); [discriminate|].
  apply bind_Ok in E as (p1 & E1 & E). injection E as <-.
  unfold binder_insert_free_buffer in E1.
  apply bind_Ok in E1 as (nb & Ef & E1). apply bind_Ok in E1 as (u & Efree & E1).
  apply bind_Ok in E1 as (sz & Esz & E1). apply bind_Ok in E1 as (t & Et & E1).
  injection E1 as <-. cbn in Et. rewrite Hfb in Et. cbn in Et. injection Et as <-.
  cbn. rewrite Hab. cbn.
  assert (Hfind : forall a, find_buffer a [new_free_buffer addr]
                            = if addr =? a then Some (new_free_buffer addr) else None)
    by reflexivity.
  split; [exact I|]. split; [|split].
  - intros a. unfold allocated_in. cbn [p_buffers set_p_mapping set_p_free_async_space
      set_p_free_buffers set_p_buffers]. rewrite Hfind. split; [tauto|].
    intros (b & Hb & Hf). destruct (addr =? a); [|discriminate].
    injection Hb as <-. discriminate Hf.
  - intros a. unfold free_in. cbn [p_buffers set_p_mapping set_p_free_async_space
      set_p_free_buffers set_p_buffers]. rewrite Hfind. split.
    + intros [<-|[]]. rewrite Z.eqb_refl. eexists. split; reflexivity.
    + intros (b & Hb & _). destruct (addr =? a) eqn:Ea; [|discriminate].
      apply Z.eqb_eq in Ea. left. exact Ea.
  - apply NoDup_singleton.
Qed.


End arena_trees_proofs.


(** ** The allocator never reaches BUG *)

Section arena_total.
Context `{layout}.

Lemma binder_buffer_size_total p a b base :
  find_buffer a (p_buffers p) = Some b -> p_buffer p = Some base ->
  exists z, binder_buffer_size p a = Ok z.
Proof.
  intros Hb Hbase. unfold binder_buffer_size. rewrite Hb. simpl.
  destruct (next_buffer a (p_buffers p)); [eauto|]. rewrite Hbase. simpl. eauto.
Qed.

Lemma insert_free_descend_total p new sz : forall t,
  (forall x, In x (rb_inorder t) -> free_in p x) -> is_Some (p_buffer p) ->
  exists t', insert_free_descend p new sz t = Ok t'.
Proof.
  intros t Hall [base Hbase]. induction t as [|l IHl a r IHr]; simpl; [eauto|].
  destruct (Hall a) as (b & Hb & Hfree); [apply in_or_app; right; left; reflexivity|].
  rewrite Hb. simpl. rewrite Hfree. simpl.
  destruct (binder_buffer_size_total p a b base Hb Hbase) as [z Ez]. rewrite Ez. simpl.
  destruct (sz <? z).
  - destruct IHl as [l' El]; [intros x Hx; apply Hall; apply in_or_app; auto|].
    rewrite El. simpl. eauto.
  - destruct IHr as [r' Er]; [intros x Hx; apply Hall; apply in_or_app; simpl; auto|].
    rewrite Er. simpl. eauto.
Qed.

Lemma binder_insert_free_buffer_total p a :
  free_in p a -> (forall x, In x (rb_inorder (p_free_buffers p)) -> free_in p x) ->
  is_Some (p_buffer p) ->
  exists p', binder_insert_free_buffer p a = Ok p'.
Proof.
  intros (b & Hb & Hfree) Hall [base Hbase]. unfold binder_insert_free_buffer.
  rewrite Hb. simpl. rewrite Hfree. simpl.
  destruct (binder_buffer_size_total p a b base Hb Hbase) as [z Ez]. rewrite Ez. simpl.
  destruct (insert_free_descend_total p a z (p_free_buffers p) Hall) as [t Et]; [eauto|].
  rewrite Et. simpl. eauto.
Qed.

Lemma best_fit_search_total p size : forall t best,
  (forall x, In x (rb_inorder t) -> free_in p x) -> is_Some (p_buffer p) ->
  exists res, best_fit_search p size t best = Ok res.
Proof.
  intros t best Hall [base Hbase]. revert best.
  induction t as [|l IHl a r IHr]; simpl; intros best; [eauto|].
  destruct (Hall a) as (b & Hb & Hfree); [apply in_or_app; right; left; reflexivity|].
  rewrite Hb. simpl. rewrite Hfree. simpl.
  destruct (binder_buffer_size_total p a b base Hb Hbase) as [z Ez]. rewrite Ez. simpl.
  destruct (size <? z).
  - apply IHl. intros x Hx. apply Hall. apply in_or_app. auto.
  - destruct (z <? size); [|eauto].
    apply IHr. intros x Hx. apply Hall. apply in_or_app. simpl. auto.
Qed.

(** Between a block and its successor there is no other block. *)
Lemma chain_gap hi : forall addrs a x,
  0 < offsetof_data -> chain hi addrs -> In a addrs -> In x addrs ->
  x <= a \/ succ_addr hi a addrs <= x.
Proof.
  induction addrs as [|y rest IH]; intros a x Hd C Ha Hx; [destruct Ha|].
  pose proof (chain_tail _ _ _ C) as Ct. simpl.
  destruct (y =? a) eqn:E.
  - apply Z.eqb_eq in E. subst y. destruct Hx as [<-|Hx]; [left; lia|].
    right. destruct rest as [|n rest']; [destruct Hx|].
    destruct Hx as [<-|Hx]; [lia|].
    pose proof (chain_head_lt hi n rest' Hd Ct x Hx). unfold buffer_data in *. lia.
  - apply Z.eqb_neq in E. destruct Ha as [Ha|Ha]; [congruence|].
    destruct Hx as [<-|Hx].
    + left. pose proof (chain_head_lt hi y rest Hd C a Ha). unfold buffer_data in *. lia.
    + apply IH; assumption.
Qed.

Lemma binder_alloc_buf_total p ds os is_async pages :
  layout_ok -> arena_trees_ok p ->
  exists r p', binder_alloc_buf p ds os is_async pages = Ok (r, p').
Proof.
  intros Hl (Hq & Hstrict & Halloc & Hfree & Hnd).
  pose proof (quota_inv_fas _ Hl Hq) as Hfas.
  pose proof Hq as (Hwf & _).
  pose proof Hwf as (base & Hbase & B0 & B1 & B2 & Hlo & C).
  pose proof Hl as (L1 & L2 & L3).
  unfold binder_alloc_buf. fold (aligned_size ds os). set (S := aligned_size ds os).
  pose proof (aligned_size_range ds os) as RS. fold S in RS.
  destruct (negb (p_vma p)); [eauto|].
  destruct ((S <? ds) || (S <? os)); [eauto|].
  destruct (is_async && _); [eauto|].
  destruct (best_fit_search_total p S (p_free_buffers p) None) as [[best exact] Es];
    [intros x Hx; apply Hfree; exact Hx|eauto|].
  rewrite Es. cbn [mbind result_bind].
  destruct best as [a|]; [|eauto].
  apply best_fit_search_sound in Es as [[? _]|(Ia & b & z & Ef & Efree & Ez & Hz)];
    [discriminate|].
  rewrite Ez. cbn [mbind result_bind].
  destruct (negb pages); [eauto|].
  destruct (binder_buffer_size_wf p a b Hl Hwf Ef) as (base0 & Hbase0 & Ez2 & Rz).
  rewrite Ez in Ez2. injection Ez2 as Ez2.
  rewrite Hbase in Hbase0. injection Hbase0 as <-.
  assert (Sz : S <= z) by (destruct exact; lia).
  assert (W1 : size_t (S + sizeof_binder_buffer) = S + sizeof_binder_buffer)
    by (apply size_t_small; unfold SZ_4M in *; lia).
  assert (W2 : size_t (S + sizeof_binder_buffer + 4) = S + sizeof_binder_buffer + 4)
    by (apply size_t_small; unfold SZ_4M in *; lia).
  rewrite W1, W2.
  assert (Split : negb ((if exact then z
                          else if S + sizeof_binder_buffer + 4 >=? z then S
                               else S + sizeof_binder_buffer) =? S)
                  = (S + sizeof_binder_buffer + 4 <? z)).
  { destruct exact.
    - subst z. rewrite Z.eqb_refl. simpl. symmetry. apply Z.ltb_ge. lia.
    - destruct (S + sizeof_binder_buffer + 4 >=? z) eqn:G.
      + rewrite Z.eqb_refl. simpl. symmetry. apply Z.ltb_ge. lia.
      + assert (Hne : (S + sizeof_binder_buffer =? S) = false) by (apply Z.eqb_neq; lia).
        rewrite Hne. simpl. symmetry. apply Z.ltb_lt. lia. }
  rewrite Split. clear Split.
  set (bufs1 := update_buffer a (set_b_free false) (p_buffers p)).
  set (p2 := set_p_buffers bufs1 (set_p_free_buffers (rb_erase a (p_free_buffers p)) p)).
  assert (F1a : find_buffer a bufs1 = Some (set_b_free false b))
    by (apply find_update_same; auto).
  assert (F1 : forall x, x <> a -> find_buffer x bufs1 = find_buffer x (p_buffers p))
    by (intros x Hx; apply find_update_other; auto).
  assert (Hnota : ~ In a (rb_inorder (p_allocated_buffers p))).
  { intros Hin. apply Halloc in Hin as (b0 & Hb0 & Hf0). congruence. }
  destruct (insert_allocated_descend_total p2 a (p_allocated_buffers p) Hstrict Hnota)
    as [ab Eab].
  { intros x Hx. assert (x <> a) by congruence.
    apply Halloc in Hx as (b0 & Hb0 & Hf0). exists b0. split; [|exact Hf0].
    change (find_buffer x bufs1 = Some b0). rewrite F1; assumption. }
  assert (Eins : binder_insert_allocated_buffer p2 a
                 = Ok (set_p_allocated_buffers ab p2)).
  { unfold binder_insert_allocated_buffer. change (p_buffers p2) with bufs1.
    rewrite F1a. simpl. change (p_allocated_buffers p2) with (p_allocated_buffers p) in *.
    rewrite Eab. reflexivity. }
  change (binder_insert_allocated_buffer _ a) with (binder_insert_allocated_buffer p2 a).
  rewrite Eins. cbn [mbind result_bind].
  destruct (S + sizeof_binder_buffer + 4 <? z) eqn:Hs; cbn [negb]; [|eauto].
  apply Z.ltb_lt in Hs.
  set (nw := buffer_data a + S).
  set (p3 := set_p_buffers (list_add_after a (new_free_buffer nw) bufs1)
               (set_p_allocated_buffers ab p2)).
  assert (Hina : In a (map b_addr bufs1)).
  { unfold bufs1. rewrite map_addr_update by reflexivity. exact (find_buffer_In _ _ _ Ef). }
  assert (Hfresh : ~ In nw (map b_addr bufs1)).
  { unfold bufs1. rewrite map_addr_update by reflexivity. intros Hin.
    destruct (chain_gap _ _ a nw L1 C (find_buffer_In _ _ _ Ef) Hin) as [Hle|Hge];
      unfold nw, buffer_data in *; lia. }
  assert (Hnw : free_in p3 nw).
  { exists (new_free_buffer nw). split; [|reflexivity].
    apply (find_add_after_new a (new_free_buffer nw)); assumption. }
  destruct (binder_insert_free_buffer_total p3 nw Hnw) as [p4 E4]; [|eauto|].
  { intros x Hx. change (In x (rb_inorder (rb_erase a (p_free_buffers p)))) in Hx.
    apply rb_erase_In in Hx as [Hx Hxa]. apply Hfree in Hx as (b0 & Hb0 & Hf0).
    exists b0. split; [|exact Hf0].
    assert (Hxn : x <> nw).
    { intros ->. apply Hfresh. unfold bufs1. rewrite map_addr_update by reflexivity.
      exact (find_buffer_In _ _ _ Hb0). }
    change (find_buffer x (list_add_after a (new_free_buffer nw) bufs1) = Some b0).
    rewrite (find_add_after_other a (new_free_buffer nw)) by exact Hxn.
    rewrite F1; assumption. }
  change (binder_insert_free_buffer _ nw) with (binder_insert_free_buffer p3 nw).
  rewrite E4. cbn [mbind result_bind]. eauto.
Qed.

(** *** Every allocated block holds what was asked for *)

Lemma bsize_succ p a b :
  layout_ok -> arena_wf p -> find_buffer a (p_buffers p) = Some b ->
  exists base, p_buffer p = Some base /\
    bsize p a = succ_addr (base + p_buffer_size p) a (map b_addr (p_buffers p))
                - buffer_data a.
Proof.
  intros Hl Hwf Hb.
  destruct (binder_buffer_size_wf p a b Hl Hwf Hb) as (base & Hbase & E & _).
  exists base. split; [exact Hbase|]. exact (bsize_Ok _ _ _ E).
Qed.

Lemma succ_addr_add_other hi a n x addrs :
  x <> a -> x <> n ->
  succ_addr hi x (add_addr_after a n addrs) = succ_addr hi x addrs.
Proof.
  intros Ha Hn. induction addrs as [|y rest IH]; simpl; [reflexivity|].
  destruct (y =? a) eqn:E; simpl.
  - apply Z.eqb_eq in E. subst y.
    destruct (a =? x) eqn:E1; [apply Z.eqb_eq in E1; congruence|].
    destruct (n =? x) eqn:E2; [apply Z.eqb_eq in E2; congruence|]. reflexivity.
  - destruct (y =? x); [|exact IH].
    destruct rest as [|z rest']; simpl; [reflexivity|].
    destruct (z =? a); reflexivity.
Qed.

Lemma succ_addr_del_ge hi y x addrs :
  0 <= offsetof_data -> chain hi addrs -> x <> y ->
  succ_addr hi x addrs <= succ_addr hi x (del_addr y addrs).
Proof.
  intros Hd C Hne. induction addrs as [|h rest IH]; simpl; [lia|].
  destruct C as [C1 C2]. destruct (h =? y) eqn:Ey.
  - apply Z.eqb_eq in Ey. subst h.
    destruct (y =? x) eqn:E1; [apply Z.eqb_eq in E1; congruence|]. lia.
  - simpl. destruct (h =? x); [|exact (IH C2)].
    destruct rest as [|n rest']; simpl; [lia|].
    destruct (n =? y); [|lia].
    simpl in C2. destruct C2 as [C2 _]. unfold buffer_data in C2.
    destruct rest'; lia.
Qed.

Lemma binder_alloc_buf_sizes p ds os is_async pages r p' :
  layout_ok -> arena_ok p ->
  binder_alloc_buf p ds os is_async pages = Ok (r, p') ->
  sizes_ok p'.
Proof.
  intros Hl [Ht Hs] E. pose proof Ht as (Hq & _).
  pose proof (quota_inv_fas _ Hl Hq) as Hfas. pose proof Hq as (Hwf & _).
  pose proof (binder_alloc_buf_wf _ _ _ _ _ _ _ Hl Hwf Hfas E) as Hwf'.
  pose proof (binder_alloc_buf_inv _ _ _ _ _ _ _ Hl Hwf Hfas E) as I.
  destruct r as [a| |]; [|subst; exact Hs|subst; exact Hs].
  destruct I as (b & fb & ab & Ef & Efree & Ia & Sz & _ & Hp' & _).
  set (S := aligned_size ds os) in *.
  intros x bx Hx Hfx.
  destruct (bsize_succ p' x bx Hl Hwf' Hx) as (base' & Hbase' & ->).
  assert (Hin : In a (map b_addr (p_buffers p))) by exact (find_buffer_In _ _ _ Ef).
  destruct (bsize_succ p a b Hl Hwf Ef) as (base & Hbase & Ba).
  assert (base' = base /\ p_buffer_size p' = p_buffer_size p) as [-> Hsz].
  { subst p'. simpl in Hbase'. split; [congruence|reflexivity]. }
  rewrite Hsz. set (hi := base + p_buffer_size p) in *.
  assert (Hbufs : p_buffers p' =
            update_buffer a (set_b_sizes ds os is_async)
              ((if S + sizeof_binder_buffer + 4 <? bsize p a
                then list_add_after a (new_free_buffer (buffer_data a + S))
                else id) (update_buffer a (set_b_free false) (p_buffers p))))
    by (subst p'; reflexivity).
  clear Hp'. rewrite Hbufs in Hx |- *.
  rewrite map_addr_update by reflexivity.
  destruct (Z.eq_dec x a) as [->|Hxa].
  - (* the block handed out *)
    assert (Fa : find_buffer a
              ((if S + sizeof_binder_buffer + 4 <? bsize p a
                then list_add_after a (new_free_buffer (buffer_data a + S))
                else id) (update_buffer a (set_b_free false) (p_buffers p)))
              = Some (set_b_free false b)).
    { destruct (_ <? _).
      - rewrite find_add_after_same. apply find_update_same; auto.
      - unfold id. apply find_update_same; auto. }
    rewrite (find_update_same a (set_b_sizes ds os is_async) _ _ (fun _ => eq_refl) Fa) in Hx.
    injection Hx as <-. simpl. fold S.
    destruct (S + sizeof_binder_buffer + 4 <? bsize p a).
    + rewrite map_addr_add, map_addr_update by reflexivity.
      rewrite succ_addr_add_same by exact Hin. simpl. unfold buffer_data. lia.
    + unfold id. rewrite map_addr_update by reflexivity. fold hi in Ba. lia.
  - (* the others are as before *)
    rewrite find_update_other in Hx by (try reflexivity; auto).
    assert (Hold : find_buffer x (p_buffers p) = Some bx /\
              succ_addr hi x
                (map b_addr
                   ((if S + sizeof_binder_buffer + 4 <? bsize p a
                     then list_add_after a (new_free_buffer (buffer_data a + S))
                     else id) (update_buffer a (set_b_free false) (p_buffers p))))
              = succ_addr hi x (map b_addr (p_buffers p))).
    { destruct (_ <? _).
      - rewrite map_addr_add, map_addr_update by reflexivity.
        destruct (Z.eq_dec x (buffer_data a + S)) as [->|Hxn].
        + exfalso.
          assert (Hfresh : ~ In (buffer_data a + S) (map b_addr (p_buffers p))).
          { destruct Hwf' as (b0 & _ & _ & _ & _ & _ & C').
            rewrite Hbufs, map_addr_update, map_addr_add, map_addr_update in C'
              by reflexivity.
            destruct Hl as (L1 & _).
            exact (add_addr_after_fresh _ _ _ (chain_NoDup _ _ L1 C') Hin). }
          pose proof (find_add_after_new a (new_free_buffer (buffer_data a + S))
                        (update_buffer a (set_b_free false) (p_buffers p))) as Fn.
          rewrite map_addr_update in Fn by reflexivity.
          specialize (Fn Hin Hfresh).
          change (b_addr (new_free_buffer (buffer_data a + S)))
            with (buffer_data a + S) in Fn.
          rewrite Fn in Hx. injection Hx as <-. discriminate Hfx.
        + rewrite find_add_after_other in Hx by exact Hxn.
          rewrite find_update_other in Hx by (try reflexivity; auto).
          split; [exact Hx|]. apply succ_addr_add_other; assumption.
      - unfold id in *. rewrite map_addr_update by reflexivity.
        rewrite find_update_other in Hx by (try reflexivity; auto). auto. }
    destruct Hold as [Hx0 ->].
    destruct (bsize_succ p x bx Hl Hwf Hx0) as (base0 & Hbase0 & Bx).
    rewrite Hbase in Hbase0. injection Hbase0 as <-. fold hi in Bx.
    rewrite <- Bx. exact (Hs x bx Hx0 Hfx).
Qed.

Lemma binder_free_buf_sizes p a p' :
  layout_ok -> arena_ok p -> binder_free_buf p a = Ok p' -> sizes_ok p'.
Proof.
  intros Hl [Ht Hs] E. pose proof Ht as (Hq & _). pose proof Hq as (Hwf & _).
  destruct (binder_free_buf_inv _ _ _ Hl Hq E)
    as [Hq' (b0 & _ & _ & _ & _ & Hbase' & Hsz)].
  pose proof Hq' as (Hwf' & _).
  destruct (binder_free_buf_shape _ _ _ E) as (b & Ef & Efree & _ & Hbufs & _).
  pose proof Hl as (L1 & L2 & L3).
  pose proof Hwf as (base & Hbase & B0 & B1 & B2 & Hlo & C).
  pose proof (chain_NoDup _ _ L1 C) as Hnd0.
  destruct (free_merge_facts p a b Hnd0 Ef Efree)
    as (_ & _ & _ & _ & Hnext & _ & F3a & F3 & F3n).
  cbv zeta in Hbufs, Hnext, F3a, F3, F3n.
  set (bufs1 := update_buffer a (set_b_free true) (p_buffers p)) in *.
  set (mnext := match next_buffer a bufs1 with
                | Some n => if b_free n then Some (b_addr n) else None
                | None => None
                end) in *.
  set (bufs2 := match mnext with Some n => list_del_buffer n bufs1 | None => bufs1 end) in *.
  set (mprev := match prev_buffer a bufs2 with
                | Some pv => if b_free pv then Some (b_addr pv) else None
                | None => None
                end) in *.
  set (bufs3 := match mprev with Some _ => list_del_buffer a bufs2 | None => bufs2 end) in *.
  intros x bx Hx Hfx. rewrite Hbufs in Hx.
  assert (Hxa : x <> a).
  { intros ->. rewrite F3a in Hx. destruct mprev; [discriminate|].
    injection Hx as <-. discriminate Hfx. }
  assert (Hxn : mnext <> Some x).
  { intros Hn. rewrite (F3n _ Hn) in Hx. discriminate. }
  rewrite F3 in Hx by assumption.
  destruct (bsize_succ p x bx Hl Hwf Hx) as (base0 & Hbase0 & Bx).
  rewrite Hbase in Hbase0. injection Hbase0 as <-.
  assert (Hx' : find_buffer x (p_buffers p') = Some bx)
    by (rewrite Hbufs, F3; assumption).
  destruct (bsize_succ p' x bx Hl Hwf' Hx') as (base' & Hb' & ->).
  rewrite Hbase' in Hb'. rewrite Hbase in Hb'. injection Hb' as <-.
  rewrite Hsz, Hbufs. specialize (Hs x bx Hx Hfx). rewrite Bx in Hs.
  set (hi := base + p_buffer_size p) in *.
  assert (C1 : chain hi (map b_addr bufs1))
    by (unfold bufs1; rewrite map_addr_update by reflexivity; exact C).
  assert (S1 : succ_addr hi x (map b_addr (p_buffers p))
               <= succ_addr hi x (map b_addr bufs2)).
  { unfold bufs2. destruct mnext as [n|].
    - rewrite map_addr_del. unfold bufs1 at 1. rewrite map_addr_update by reflexivity.
      apply succ_addr_del_ge; [lia|exact C|congruence].
    - unfold bufs1. rewrite map_addr_update by reflexivity. lia. }
  assert (C2 : chain hi (map b_addr bufs2)).
  { unfold bufs2. destruct mnext; [|exact C1].
    rewrite map_addr_del. apply chain_del; [lia|exact C1]. }
  assert (S2 : succ_addr hi x (map b_addr bufs2) <= succ_addr hi x (map b_addr bufs3)).
  { unfold bufs3. destruct mprev; [|lia].
    rewrite map_addr_del. apply succ_addr_del_ge; [lia|exact C2|exact Hxa]. }
  lia.
Qed.

(** *** [binder_free_buf] on an allocated block *)

Lemma prev_buffer_target a f rest pv :
  prev_buffer a (f :: rest) = Some pv -> In a (map b_addr rest).
Proof.
  revert f. induction rest as [|y rest' IH]; intros f; simpl; [discriminate|].
  destruct (b_addr y =? a) eqn:Ey.
  - apply Z.eqb_eq in Ey. auto.
  - intros E. right. exact (IH y E).
Qed.

Lemma prev_not_head a bs pv f :
  NoDup (map b_addr bs) -> prev_buffer a bs = Some pv -> head bs = Some f ->
  b_addr f <> a.
Proof.
  destruct bs as [|x rest]; [discriminate|]. simpl map.
  intros Hn E [= ->] Heq. apply NoDup_cons in Hn as [Hx _]. apply Hx.
  apply list_elem_of_In. rewrite Heq. exact (prev_buffer_target _ _ _ _ E).
Qed.

Lemma next_prev a bs n :
  NoDup (map b_addr bs) -> next_buffer a bs = Some n ->
  exists ba, prev_buffer (b_addr n) bs = Some ba /\ b_addr ba = a.
Proof.
  induction bs as [|x rest IH]; [discriminate|].
  intros Hn E. pose proof Hn as Hn0. simpl in Hn. apply NoDup_cons in Hn as [Hx Hn].
  simpl in E. destruct (b_addr x =? a) eqn:Ex.
  - apply Z.eqb_eq in Ex. destruct rest as [|y rest']; [discriminate|].
    injection E as ->. exists x. simpl. rewrite Z.eqb_refl. auto.
  - destruct (IH Hn E) as (ba & Hp & Ha). exists ba. split; [|exact Ha].
    destruct rest as [|y rest']; [discriminate|].
    change (prev_buffer (b_addr n) (x :: y :: rest'))
      with (if b_addr y =? b_addr n then Some x
            else prev_buffer (b_addr n) (y :: rest')).
    destruct (b_addr y =? b_addr n) eqn:Ey; [|exact Hp].
    apply Z.eqb_eq in Ey. exfalso.
    exact (prev_not_head _ _ _ y Hn Hp eq_refl Ey).
Qed.

Lemma binder_delete_free_buffer_total q x f pv :
  head (p_buffers q) = Some f -> b_addr f <> x ->
  prev_buffer x (p_buffers q) = Some pv -> b_free pv = true ->
  binder_delete_free_buffer q x
  = Ok (set_p_buffers (list_del_buffer x (p_buffers q)) q).
Proof.
  intros Hh Hne Hp Hf. unfold binder_delete_free_buffer.
  rewrite Hh. simpl. apply Z.eqb_neq in Hne. rewrite Hne. simpl.
  rewrite Hp. simpl. rewrite Hf. reflexivity.
Qed.

Lemma binder_free_buf_total p a b :
  layout_ok -> arena_ok p ->
  find_buffer a (p_buffers p) = Some b -> b_free b = false ->
  b_transaction b = None ->
  exists p', binder_free_buf p a = Ok p'.
Proof.
  intros Hl [Ht Hs] Ef Efree Htr.
  pose proof Ht as (Hq & Hstrict & Halloc & Hfree & Hnd).
  pose proof Hq as (Hwf & _).
  pose proof Hl as (L1 & L2 & L3).
  pose proof Hwf as (base & Hbase & B0 & B1 & B2 & Hlo & C).
  pose proof (chain_NoDup _ _ L1 C) as Hnd0.
  destruct (binder_buffer_size_wf p a b Hl Hwf Ef) as (base0 & Hbase0 & Ez & Rz).
  rewrite Hbase in Hbase0. injection Hbase0 as <-.
  pose proof (Hs a b Ef Efree) as Hsize. rewrite (bsize_Ok _ _ _ Ez) in Hsize.
  pose proof (Hlo a (find_buffer_In _ _ _ Ef)) as Hlo_a.
  assert (L0 : 0 <= offsetof_data) by lia.
  pose proof (chain_le_data _ _ L0 C a (find_buffer_In _ _ _ Ef)) as Hhi_a.
  unfold binder_free_buf. rewrite Ef. cbn [mbind result_bind of_option].
  rewrite Ez. cbn [mbind result_bind]. rewrite Efree.
  fold (aligned_size (b_data_size b) (b_offsets_size b)).
  assert (Hs1 : (succ_addr (base + p_buffer_size p) a (map b_addr (p_buffers p))
                 - buffer_data a <? aligned_size (b_data_size b) (b_offsets_size b))
                = false) by (apply Z.ltb_ge; exact Hsize).
  rewrite Hs1, Htr, Hbase.
  assert (Hs2 : (a <? base) = false) by (apply Z.ltb_ge; exact Hlo_a).
  assert (Hs3 : (base + p_buffer_size p <? a) = false)
    by (apply Z.ltb_ge; unfold buffer_data in Hhi_a; lia).
  cbn [mbind result_bind of_option BUG_ON]. rewrite Hs2, Hs3.
  match goal with
  | |- context [@bool_decide ?P ?I] =>
      assert (Hs4 : @bool_decide P I = false)
        by (apply bool_decide_eq_false; intros Hn; apply Hn; reflexivity);
      rewrite Hs4
  end.
  cbn [mbind result_bind of_option BUG_ON].
  set (p1 := if b_async_transaction b then _ else p).
  assert (P1 : p_buffers p1 = p_buffers p /\ p_free_buffers p1 = p_free_buffers p /\
               p_buffer p1 = Some base)
    by (unfold p1; destruct (b_async_transaction b); cbn; auto).
  destruct P1 as (P1b & P1f & P1base).
  set (p2 := set_p_allocated_buffers _ p1).
  change (p_buffers p2) with (p_buffers p1). rewrite P1b.
  destruct (free_merge_facts p a b Hnd0 Ef Efree)
    as (Hnd1 & Hnd2 & F1a & F2a & Hnext & Hprev & F3a & F3 & F3n).
  cbv zeta in Hnd1, Hnd2, F1a, F2a, Hnext, Hprev, F3a, F3, F3n.
  set (bufs1 := update_buffer a (set_b_free true) (p_buffers p)) in *.
  set (p3 := set_p_buffers bufs1 p2).
  (* merging the successor *)
  match goal with
  | |- exists p', ?m ≫= _ = _ =>
      assert (St1 : exists p4, m = Ok p4 /\
                p_buffers p4
                = match match next_buffer a bufs1 with
                        | Some n => if b_free n then Some (b_addr n) else None
                        | None => None
                        end
                  with Some n => list_del_buffer n bufs1 | None => bufs1 end /\
                p_free_buffers p4
                = match match next_buffer a bufs1 with
                        | Some n => if b_free n then Some (b_addr n) else None
                        | None => None
                        end
                  with
                  | Some n => rb_erase n (p_free_buffers p)
                  | None => p_free_buffers p
                  end /\
                p_buffer p4 = Some base)
  end.
  { change (p_buffers p3) with bufs1.
    destruct (next_buffer a bufs1) as [n|] eqn:En;
      [destruct (b_free n) eqn:Fn|];
      [|exists p3; repeat split; assumption..].
    destruct (next_prev _ _ _ Hnd1 En) as (ba & Hp & Hba).
    assert (Fba : b_free ba = true).
    { pose proof (NoDup_find _ _ Hnd1 (prev_buffer_In _ _ _ Hp)) as Fb.
      rewrite Hba, F1a in Fb. injection Fb as <-. reflexivity. }
    destruct bufs1 as [|f rest] eqn:Eb1; [discriminate|].
    pose proof (prev_not_head _ _ _ f Hnd1 Hp eq_refl) as Hh.
    eexists. split.
    - apply (binder_delete_free_buffer_total _ (b_addr n) f ba);
        [reflexivity|exact Hh|exact Hp|exact Fba].
    - cbn. rewrite P1f. auto. }
  destruct St1 as (p4 & -> & B4 & T4 & Hb4). cbn [mbind result_bind].
  set (mnext := match next_buffer a bufs1 with
                | Some n => if b_free n then Some (b_addr n) else None
                | None => None
                end) in *.
  set (bufs2 := match mnext with Some n => list_del_buffer n bufs1 | None => bufs1 end) in *.
  set (t1 := match mnext with
             | Some n => rb_erase n (p_free_buffers p)
             | None => p_free_buffers p
             end) in *.
  (* merging into the predecessor *)
  match goal with
  | |- exists p', ?m ≫= _ = _ =>
      assert (St2 : exists p5 a5, m = Ok (p5, a5) /\
                a5 = match match prev_buffer a bufs2 with
                           | Some pv => if b_free pv then Some (b_addr pv) else None
                           | None => None
                           end
                     with Some pv => pv | None => a end /\
                p_buffers p5
                = match match prev_buffer a bufs2 with
                        | Some pv => if b_free pv then Some (b_addr pv) else None
                        | None => None
                        end
                  with Some _ => list_del_buffer a bufs2 | None => bufs2 end /\
                p_free_buffers p5
                = match match prev_buffer a bufs2 with
                        | Some pv => if b_free pv then Some (b_addr pv) else None
                        | None => None
                        end
                  with Some pv => rb_erase pv t1 | None => t1 end /\
                p_buffer p5 = Some base)
  end.
  { rewrite B4.
    destruct (prev_buffer a bufs2) as [pv|] eqn:Ep;
      [destruct (b_free pv) eqn:Fp|];
      [|exists p4, a; repeat split; assumption..].
    assert (Hh : exists f, head (p_buffers p4) = Some f /\ b_addr f <> a).
    { rewrite B4. destruct bufs2 as [|f rest] eqn:Eb2; [discriminate|].
      exists f. split; [reflexivity|].
      exact (prev_not_head _ _ _ f Hnd2 Ep eq_refl). }
    destruct Hh as (f & Hh & Hne).
    rewrite (binder_delete_free_buffer_total p4 a f pv Hh Hne)
      by (rewrite ?B4; assumption).
    cbn [mbind result_bind]. eexists _, _. split; [reflexivity|].
    cbn. rewrite B4, T4. auto. }
  destruct St2 as (p5 & a5 & -> & A5 & B5 & T5 & Hb5). cbn [mbind result_bind].
  set (mprev := match prev_buffer a bufs2 with
                | Some pv => if b_free pv then Some (b_addr pv) else None
                | None => None
                end) in *.
  set (bufs3 := match mprev with Some _ => list_del_buffer a bufs2 | None => bufs2 end) in *.
  (* the merged block goes back into the tree of free blocks *)
  assert (Hnota : ~ free_in p a).
  { intros (b0 & Hb0 & Hf0). congruence. }
  apply binder_insert_free_buffer_total; [| |eauto].
  - unfold free_in. rewrite B5, A5. destruct mprev as [pv|] eqn:Emp.
    + destruct (Hprev pv eq_refl) as (Hpa & Hpn & bp & Hbp & Hfp).
      exists bp. rewrite F3 by assumption. auto.
    + exists (set_b_free true b). split; [exact F3a|reflexivity].
  - intros x Hx. rewrite T5 in Hx.
    assert (Hx1 : In x (rb_inorder (p_free_buffers p)) /\ mnext <> Some x).
    { assert (Hxt : In x (rb_inorder t1))
        by (destruct mprev; [apply rb_erase_In in Hx as [Hx _]|]; exact Hx).
      unfold t1 in Hxt. destruct mnext as [n|].
      - apply rb_erase_In in Hxt as [Hxt Hxn]. split; [exact Hxt|congruence].
      - split; [exact Hxt|discriminate]. }
    destruct Hx1 as [Hxf Hxn]. apply Hfree in Hxf.
    assert (Hxa : x <> a) by (intros ->; exact (Hnota Hxf)).
    destruct Hxf as (bx & Hbx & Hfx). exists bx. rewrite B5, F3 by assumption. auto.
Qed.

Lemma binder_free_buf_twice p a :
  is_Some (p_buffer p) -> free_in p a -> binder_free_buf p a = Bug.
Proof.
  intros [base Hbase] (b & Hb & Hf). unfold binder_free_buf. rewrite Hb.
  cbn [mbind result_bind of_option].
  destruct (binder_buffer_size_total p a b base Hb Hbase) as [z ->].
  cbn [mbind result_bind]. rewrite Hf. reflexivity.
Qed.

Lemma binder_alloc_buf_block p ds os is_async pages a p' :
  layout_ok -> arena_ok p ->
  binder_alloc_buf p ds os is_async pages = Ok (alloc_buffer a, p') ->
  exists b, find_buffer a (p_buffers p') = Some b /\ b_free b = false /\
    b_data_size b = ds /\ b_offsets_size b = os /\ b_async_transaction b = is_async.
Proof.
  intros Hl [(Hq & _) _] E.
  pose proof (quota_inv_fas _ Hl Hq) as Hfas. pose proof Hq as (Hwf & _).
  destruct (binder_alloc_buf_inv _ _ _ _ _ _ _ Hl Hwf Hfas E)
    as (b & fb & ab & Ef & Efree & _ & _ & _ & -> & _).
  exists (set_b_sizes ds os is_async (set_b_free false b)).
  split; [|repeat split]. cbn [p_buffers set_p_arena].
  apply find_update_same; [reflexivity|].
  destruct (_ <? _).
  - rewrite find_add_after_same. apply find_update_same; auto.
  - unfold id. apply find_update_same; auto.
Qed.

Lemma binder_mmap_sizes p vm_start vm_end flags addr pages p' :
  binder_mmap p vm_start vm_end flags (Some addr) pages = Ok (mmap_ok, p') ->
  sizes_ok p'.
Proof.
  intros E. unfold binder_mmap in E.
  destruct flags; [discriminate|].
  destruct (bool_decide (p_buffer p <> None)); [discriminate|].
  destruct (negb pages); [discriminate|].
  apply bind_Ok in E as (p1 & E1 & E). injection E as <-.
  apply binder_insert_free_buffer_inv in E1 as (t & -> & _).
  intros x bx Hx Hfx. cbn in Hx.
  destruct (addr =? x); [|discriminate]. injection Hx as <-. discriminate Hfx.
Qed.


End arena_total.

(** ** BC_FREE_BUFFER gives a buffer back once *)

Lemma arena_equiv_refl x : arena_equiv x x.
Proof. repeat split. Qed.

Lemma arena_equiv_trans x y z : arena_equiv x y -> arena_equiv y z -> arena_equiv x z.
Proof.
  intros ((A1 & A2 & A3 & A4) & A5 & A6 & A7) ((B1 & B2 & B3 & B4) & B5 & B6 & B7).
  repeat split; congruence.
Qed.

Global Instance arena_kept_preorder : PreOrder arena_kept.
Proof.
  split.
  - intros s p x Hx. exists x. split; [exact Hx|apply arena_equiv_refl].
  - intros s1 s2 s3 H12 H23 p x Hx.
    destruct (H12 p x Hx) as (y & Hy & Exy).
    destruct (H23 p y Hy) as (z & Hz & Eyz).
    exists z. split; [exact Hz|exact (arena_equiv_trans _ _ _ Exy Eyz)].
Qed.

Lemma arena_kept_same s s' : procs s' = procs s -> arena_kept s s'.
Proof. intros E p x Hx. exists x. rewrite E. split; [exact Hx|apply arena_equiv_refl]. Qed.

Lemma arena_kept_upd s p x y :
  procs s !! p = Some x -> arena_equiv x y ->
  arena_kept s (set_procs (<[p := y]> (procs s)) s).
Proof.
  intros Hx Exy q z Hz. cbn. destruct (decide (q = p)) as [->|Hne].
  - assert (z = x) by congruence. subst z. exists y.
    split; [apply lookup_insert_eq|exact Exy].
  - rewrite lookup_insert_ne by congruence. exists z.
    split; [exact Hz|apply arena_equiv_refl].
Qed.

Lemma skeleton_update a f bs :
  (forall b, skeleton (f b) = skeleton b) ->
  map skeleton (update_buffer a f bs) = map skeleton bs.
Proof.
  intros Hf. unfold update_buffer. rewrite map_map. apply map_ext.
  intros b. destruct (b_addr b =? a); [apply Hf|reflexivity].
Qed.

Ltac arena_kept_fin :=
  solve [ apply arena_kept_same; reflexivity
        | eapply arena_kept_upd; [eassumption|];
          repeat split; try reflexivity;
          apply skeleton_update; reflexivity
        | reflexivity ].

Ltac keeps_arena := preserves_with arena_kept_fin.

Lemma binder_dec_node_arena node strong internal :
  preserves arena_kept (binder_dec_node node strong internal).
Proof. unfold binder_dec_node. keeps_arena. Qed.
#[local] Hint Resolve binder_dec_node_arena : preserves.

Lemma binder_delete_ref_arena ref : preserves arena_kept (binder_delete_ref ref).
Proof. unfold binder_delete_ref. keeps_arena. Qed.
#[local] Hint Resolve binder_delete_ref_arena : preserves.

Lemma binder_dec_ref_arena ref strong :
  preserves arena_kept (binder_dec_ref ref strong).
Proof. unfold binder_dec_ref. keeps_arena. Qed.
#[local] Hint Resolve binder_dec_ref_arena : preserves.

Lemma task_close_fd_arena proc fd : preserves arena_kept (task_close_fd proc fd).
Proof. unfold task_close_fd. keeps_arena. Qed.
#[local] Hint Resolve task_close_fd_arena : preserves.

Section free_buffer.
Context `{layout}.

Lemma release_object_arena proc buffer failed_at i :
  preserves arena_kept (release_object proc buffer failed_at i).
Proof. unfold release_object. keeps_arena. Qed.
Hint Resolve release_object_arena : preserves.

Lemma release_objects_arena proc buffer failed_at count : forall i,
  preserves arena_kept (release_objects proc buffer failed_at i count).
Proof. induction count; intros i; simpl; keeps_arena. Qed.
Hint Resolve release_objects_arena : preserves.

Lemma binder_transaction_buffer_release_arena proc buffer failed_at :
  preserves arena_kept (binder_transaction_buffer_release proc buffer failed_at).
Proof. unfold binder_transaction_buffer_release. keeps_arena. Qed.
Hint Resolve binder_transaction_buffer_release_arena : preserves.

Lemma find_skeleton a : forall bs bs',
  map skeleton bs' = map skeleton bs ->
  match find_buffer a bs', find_buffer a bs with
  | Some b', Some b => skeleton b' = skeleton b
  | None, None => True
  | _, _ => False
  end.
Proof.
  induction bs as [|x rest IH]; intros [|y rest']; simpl; intros E;
    try discriminate; auto.
  assert (E1 : skeleton y = skeleton x) by congruence.
  assert (E2 : map skeleton rest' = map skeleton rest) by congruence.
  assert (Ha : b_addr y = b_addr x) by (unfold skeleton in E1; congruence).
  rewrite Ha. destruct (b_addr x =? a); [exact E1|apply IH; exact E2].
Qed.

Lemma find_equiv x x' a b' :
  arena_equiv x x' -> find_buffer a (p_buffers x') = Some b' ->
  exists b, find_buffer a (p_buffers x) = Some b /\ skeleton b' = skeleton b.
Proof.
  intros ((_ & _ & _ & Esk) & _) Hb'.
  pose proof (find_skeleton a _ _ Esk) as Hs. rewrite Hb' in Hs.
  destruct (find_buffer a (p_buffers x)) as [b|]; [eauto|destruct Hs].
Qed.

Lemma arena_equiv_sym x x' : arena_equiv x x' -> arena_equiv x' x.
Proof. intros ((A1 & A2 & A3 & A4) & A5 & A6 & A7). repeat split; congruence. Qed.

Lemma in_use_equiv x x' a (free : bool) :
  arena_equiv x x' ->
  (exists b, find_buffer a (p_buffers x') = Some b /\ b_free b = free) <->
  (exists b, find_buffer a (p_buffers x) = Some b /\ b_free b = free).
Proof.
  intros Heq. split; intros (b & Hb & Hf).
  - destruct (find_equiv _ _ _ _ Heq Hb) as (b0 & Hb0 & Hs).
    exists b0. split; [exact Hb0|]. unfold skeleton in Hs. congruence.
  - destruct (find_equiv _ _ _ _ (arena_equiv_sym _ _ Heq) Hb) as (b0 & Hb0 & Hs).
    exists b0. split; [exact Hb0|]. unfold skeleton in Hs. congruence.
Qed.

Lemma arena_ok_equiv x x' : layout_ok -> arena_equiv x x' -> arena_ok x -> arena_ok x'.
Proof.
  intros Hl Heq [(Hq & Hstrict & Halloc & Hfree & Hnd) Hs].
  pose proof Heq as (Hsame & Ef & Ea & _).
  pose proof (quota_inv_same_arena _ _ Hsame Hq) as Hq'.
  split; [split; [exact Hq'|]|].
  - rewrite Ef, Ea. split; [exact Hstrict|]. split; [|split; [|exact Hnd]].
    + intros a. rewrite Halloc. symmetry. apply (in_use_equiv _ _ _ false Heq).
    + intros a. rewrite Hfree. symmetry. apply (in_use_equiv _ _ _ true Heq).
  - intros a b' Hb' Hf'.
    destruct (find_equiv _ _ _ _ Heq Hb') as (b & Hb & Hsk).
    assert (Hf : b_free b = false) by (unfold skeleton in Hsk; congruence).
    pose proof (Hs a b Hb Hf) as Hsz.
    destruct (bsize_succ x a b Hl (proj1 Hq) Hb) as (base & Hbase & Bx).
    destruct (bsize_succ x' a b' Hl (proj1 Hq') Hb') as (base' & Hbase' & ->).
    destruct Hsame as (S1 & S2 & _ & S4).
    rewrite S1, Hbase in Hbase'. injection Hbase' as <-.
    rewrite S2, (skeleton_addrs _ _ S4), <- Bx.
    unfold skeleton in Hsk. injection Hsk as _ _ _ -> ->. exact Hsz.
Qed.

Lemma binder_buffer_lookup_spec p user_ptr :
  arena_trees_ok p ->
  let k := user_ptr - p_user_buffer_offset p - offsetof_data in
  (allocated_in p k -> binder_buffer_lookup p user_ptr = Ok (Some k)) /\
  (~ allocated_in p k -> binder_buffer_lookup p user_ptr = Ok None).
Proof.
  intros (_ & Hstrict & Halloc & _) k. unfold binder_buffer_lookup. fold k.
  destruct (buffer_lookup_descend_spec p k _ Hstrict) as [Hyes Hno].
  - intros x Hx. apply Halloc. exact Hx.
  - split; intros Hk; [apply Hyes|apply Hno]; rewrite Halloc; exact Hk.
Qed.

Lemma binder_free_buf_offset p a p' :
  binder_free_buf p a = Ok p' -> p_user_buffer_offset p' = p_user_buffer_offset p.
Proof.
  intros E. unfold binder_free_buf in E.
  apply bind_Ok in E as (b & Ef & E). apply bind_Ok in E as (z & Ez & E).
  apply bind_Ok in E as (u1 & U1 & E). apply bind_Ok in E as (u2 & U2 & E).
  apply bind_Ok in E as (u3 & U3 & E). apply bind_Ok in E as (base & Hbase & E).
  apply bind_Ok in E as (u4 & U4 & E). apply bind_Ok in E as (u5 & U5 & E).
  apply bind_Ok in E as (p4 & E4 & E). apply bind_Ok in E as ([p5 a5] & E5 & E).
  apply binder_insert_free_buffer_inv in E as (fb & -> & _).
  assert (H5 : p_user_buffer_offset p5 = p_user_buffer_offset p4).
  { destruct (prev_buffer a (p_buffers p4)) as [pv|]; [destruct (b_free pv)|];
      [|injection E5 as <- <-; reflexivity..].
    apply bind_Ok in E5 as (q & Eq & E5). injection E5 as <- <-.
    apply binder_delete_free_buffer_inv in Eq as ->. reflexivity. }
  cbn. rewrite H5. clear H5 E5.
  match type of E4 with
  | match next_buffer a (p_buffers ?q) with _ => _ end = _ =>
      assert (H4 : p_user_buffer_offset p4 = p_user_buffer_offset q)
  end.
  { match type of E4 with
    | match ?n with _ => _ end = _ => destruct n as [nx|]
    end; [destruct (b_free nx)|]; [|injection E4 as <-; reflexivity..].
    apply binder_delete_free_buffer_inv in E4 as ->. reflexivity. }
  rewrite H4. destruct (b_async_transaction b); reflexivity.
Qed.


End free_buffer.

(** ** The deferred work of a process *)

Global Instance deferred_kept_preorder : PreOrder deferred_kept.
Proof.
  split.
  - intros s q x Hx. eauto.
  - intros s1 s2 s3 H12 H23 q z Hz.
    destruct (H23 q z Hz) as (y & Hy & Eyz).
    destruct (H12 q y Hy) as (x & Hx & Exy).
    exists x. split; [exact Hx|congruence].
Qed.

Lemma deferred_kept_same s s' : procs s' = procs s -> deferred_kept s s'.
Proof. intros E q x Hx. rewrite E in Hx. eauto. Qed.

Lemma deferred_kept_upd s p x y :
  procs s !! p = Some x -> p_deferred_work y = p_deferred_work x ->
  deferred_kept s (set_procs (<[p := y]> (procs s)) s).
Proof.
  intros Hx Exy q z Hz. cbn in Hz.
  apply lookup_insert_Some in Hz as [[<- <-]|[_ Hz]]; eauto.
Qed.

Lemma deferred_kept_delete s p :
  deferred_kept s (set_procs (delete p (procs s)) s).
Proof.
  intros q z Hz. cbn in Hz. apply lookup_delete_Some in Hz as [_ Hz]. eauto.
Qed.

Section arena_rest.
Context `{layout}.

Lemma binder_insert_free_buffer_rest p a p' :
  binder_insert_free_buffer p a = Ok p' -> p_deferred_work p' = p_deferred_work p.
Proof. intros E. apply binder_insert_free_buffer_inv in E as (t & -> & _). reflexivity. Qed.

Lemma binder_alloc_buf_rest p ds os is_async pages r p' :
  binder_alloc_buf p ds os is_async pages = Ok (r, p') ->
  p_deferred_work p' = p_deferred_work p.
Proof.
  unfold binder_alloc_buf. intros E.
  destruct (negb (p_vma p)); [injection E as <- <-; reflexivity|].
  destruct (_ || _); [injection E as <- <-; reflexivity|].
  destruct (is_async && _); [injection E as <- <-; reflexivity|].
  apply bind_Ok in E as ([best exact] & Es & E).
  destruct best as [a0|]; [|injection E as <- <-; reflexivity].
  apply bind_Ok in E as (z & Ez & E).
  destruct (negb pages); [injection E as <- <-; reflexivity|].
  apply bind_Ok in E as (pa & Epa & E).
  apply bind_Ok in E as (pf & Epf & E).
  injection E as <- <-.
  apply binder_insert_allocated_buffer_inv in Epa as (ab & ->).
  assert (Hpf : p_deferred_work pf = p_deferred_work p).
  { destruct (negb _).
    - apply binder_insert_free_buffer_rest in Epf. rewrite Epf. reflexivity.
    - injection Epf as <-. reflexivity. }
  destruct is_async; cbn; exact Hpf.
Qed.

Lemma binder_free_buf_rest p a p' :
  binder_free_buf p a = Ok p' -> p_deferred_work p' = p_deferred_work p.
Proof.
  intros E. unfold binder_free_buf in E.
  apply bind_Ok in E as (b & Ef & E). apply bind_Ok in E as (z & Ez & E).
  apply bind_Ok in E as (u1 & U1 & E). apply bind_Ok in E as (u2 & U2 & E).
  apply bind_Ok in E as (u3 & U3 & E). apply bind_Ok in E as (base & Hbase & E).
  apply bind_Ok in E as (u4 & U4 & E). apply bind_Ok in E as (u5 & U5 & E).
  apply bind_Ok in E as (p4 & E4 & E). apply bind_Ok in E as ([p5 a5] & E5 & E).
  apply binder_insert_free_buffer_rest in E. rewrite E.
  assert (H5 : p_deferred_work p5 = p_deferred_work p4).
  { destruct (prev_buffer a (p_buffers p4)) as [pv|]; [destruct (b_free pv)|];
      [|injection E5 as <- <-; reflexivity..].
    apply bind_Ok in E5 as (q & Eq & E5). injection E5 as <- <-.
    apply binder_delete_free_buffer_inv in Eq as ->. reflexivity. }
  rewrite H5. clear H5 E5 E.
  match type of E4 with
  | match next_buffer a (p_buffers ?q) with _ => _ end = _ =>
      assert (H4 : p_deferred_work p4 = p_deferred_work q)
  end.
  { match type of E4 with
    | match ?n with _ => _ end = _ => destruct n as [nx|]
    end; [destruct (b_free nx)|]; [|injection E4 as <-; reflexivity..].
    apply binder_delete_free_buffer_inv in E4 as ->. reflexivity. }
  rewrite H4. destruct (b_async_transaction b); reflexivity.
Qed.

Lemma binder_mmap_rest p vm_start vm_end flags area pages r p' :
  binder_mmap p vm_start vm_end flags area pages = Ok (r, p') ->
  p_deferred_work p' = p_deferred_work p.
Proof.
  unfold binder_mmap. intros E.
  destruct flags; [injection E as <- <-; reflexivity|].
  destruct (bool_decide _); [injection E as <- <-; reflexivity|].
  destruct area as [addr|]; [|injection E as <- <-; reflexivity].
  destruct (negb pages); [injection E as <- <-; reflexivity|].
  apply bind_Ok in E as (p1 & E1 & E). injection E as <- <-.
  apply binder_insert_free_buffer_rest in E1. cbn. rewrite E1. reflexivity.
Qed.

End arena_rest.

Ltac dw_kept :=
  solve [ apply deferred_kept_same; reflexivity
        | eapply deferred_kept_upd; [eassumption|reflexivity]
        | apply deferred_kept_delete
        | eapply deferred_kept_upd; [eassumption|];
          match goal with
          | Hf : binder_alloc_buf _ _ _ _ _ = Ok _ |- _ =>
              exact (binder_alloc_buf_rest _ _ _ _ _ _ _ Hf)
          | Hf : binder_mmap _ _ _ _ _ _ = Ok _ |- _ =>
              exact (binder_mmap_rest _ _ _ _ _ _ _ _ Hf)
          | Hf : mbind _ (binder_free_buf _ _) = Ok _ |- _ =>
              let Hr := fresh in
              apply bind_Ok in Hf as (? & Hf & Hr); injection Hr as _ <-;
              exact (binder_free_buf_rest _ _ _ Hf)
          end
        | reflexivity ].

Ltac keeps_dw := preserves_with dw_kept.

Lemma binder_new_node_dw proc ptr cookie :
  preserves deferred_kept (binder_new_node proc ptr cookie).
Proof. unfold binder_new_node. keeps_dw. Qed.
#[local] Hint Resolve binder_new_node_dw : preserves.

Lemma binder_inc_node_dw node strong internal target :
  preserves deferred_kept (binder_inc_node node strong internal target).
Proof. unfold binder_inc_node. keeps_dw. Qed.
#[local] Hint Resolve binder_inc_node_dw : preserves.

Lemma binder_dec_node_dw node strong internal :
  preserves deferred_kept (binder_dec_node node strong internal).
Proof. unfold binder_dec_node. keeps_dw. Qed.
#[local] Hint Resolve binder_dec_node_dw : preserves.

Lemma binder_delete_ref_dw ref : preserves deferred_kept (binder_delete_ref ref).
Proof. unfold binder_delete_ref. keeps_dw. Qed.
#[local] Hint Resolve binder_delete_ref_dw : preserves.

Lemma binder_inc_ref_dw ref strong target :
  preserves deferred_kept (binder_inc_ref ref strong target).
Proof. unfold binder_inc_ref. keeps_dw. Qed.
#[local] Hint Resolve binder_inc_ref_dw : preserves.

Lemma binder_dec_ref_dw ref strong :
  preserves deferred_kept (binder_dec_ref ref strong).
Proof. unfold binder_dec_ref. keeps_dw. Qed.
#[local] Hint Resolve binder_dec_ref_dw : preserves.

Lemma binder_get_ref_for_node_dw proc node :
  preserves deferred_kept (binder_get_ref_for_node proc node).
Proof. unfold binder_get_ref_for_node. keeps_dw. Qed.
#[local] Hint Resolve binder_get_ref_for_node_dw : preserves.

Section keeps_dw.
Context `{layout}.

Lemma task_get_unused_fd_flags_dw proc cloexec :
  preserves deferred_kept (task_get_unused_fd_flags proc cloexec).
Proof. unfold task_get_unused_fd_flags. keeps_dw. Qed.
Hint Resolve task_get_unused_fd_flags_dw : preserves.

Lemma task_fd_install_dw proc fd file :
  preserves deferred_kept (task_fd_install proc fd file).
Proof. unfold task_fd_install. keeps_dw. Qed.
Hint Resolve task_fd_install_dw : preserves.

Lemma task_close_fd_dw proc fd : preserves deferred_kept (task_close_fd proc fd).
Proof. unfold task_close_fd. keeps_dw. Qed.
Hint Resolve task_close_fd_dw : preserves.

Lemma binder_pop_transaction_dw target t :
  preserves deferred_kept (binder_pop_transaction target t).
Proof. unfold binder_pop_transaction. keeps_dw. Qed.
Hint Resolve binder_pop_transaction_dw : preserves.

Lemma send_failed_reply_loop_dw fuel : forall t e,
  preserves deferred_kept (send_failed_reply_loop fuel t e).
Proof. induction fuel; intros t e; simpl; keeps_dw. Qed.
Hint Resolve send_failed_reply_loop_dw : preserves.

Lemma binder_send_failed_reply_dw t e :
  preserves deferred_kept (binder_send_failed_reply t e).
Proof. unfold binder_send_failed_reply. keeps_dw. Qed.
Hint Resolve binder_send_failed_reply_dw : preserves.

Lemma release_object_dw proc buffer failed_at i :
  preserves deferred_kept (release_object proc buffer failed_at i).
Proof. unfold release_object. keeps_dw. Qed.
Hint Resolve release_object_dw : preserves.

Lemma release_objects_dw proc buffer failed_at count : forall i,
  preserves deferred_kept (release_objects proc buffer failed_at i count).
Proof. induction count; intros i; simpl; keeps_dw. Qed.
Hint Resolve release_objects_dw : preserves.

Lemma binder_transaction_buffer_release_dw proc buffer failed_at :
  preserves deferred_kept (binder_transaction_buffer_release proc buffer failed_at).
Proof. unfold binder_transaction_buffer_release. keeps_dw. Qed.
Hint Resolve binder_transaction_buffer_release_dw : preserves.

Lemma binder_transaction_target_dw proc thread tr reply :
  preserves deferred_kept (binder_transaction_target proc thread tr reply).
Proof. unfold binder_transaction_target. keeps_dw. Qed.
Hint Resolve binder_transaction_target_dw : preserves.

Lemma translate_object_dw proc thread tr reply tg buffer i e :
  preserves deferred_kept (translate_object proc thread tr reply tg buffer i e).
Proof. unfold translate_object. keeps_dw. Qed.
Hint Resolve translate_object_dw : preserves.

Lemma translate_objects_dw proc thread tr reply tg buffer count e : forall i,
  preserves deferred_kept
    (translate_objects proc thread tr reply tg buffer i count e).
Proof. induction count; intros i; simpl; keeps_dw. Qed.
Hint Resolve translate_objects_dw : preserves.

Lemma copy_transaction_data_dw tr buffer :
  preserves deferred_kept (copy_transaction_data tr buffer).
Proof. unfold copy_transaction_data. keeps_dw. Qed.
Hint Resolve copy_transaction_data_dw : preserves.

Lemma transaction_unwind_dw tg t tcomplete buffer failed_at :
  preserves deferred_kept (transaction_unwind tg t tcomplete buffer failed_at).
Proof. unfold transaction_unwind. keeps_dw. Qed.
Hint Resolve transaction_unwind_dw : preserves.

Lemma transaction_failed_dw thread irt e :
  preserves deferred_kept (transaction_failed thread irt e).
Proof. unfold transaction_failed. keeps_dw. Qed.
Hint Resolve transaction_failed_dw : preserves.

Lemma transaction_commit_dw thread reply tg t tcomplete buffer :
  preserves deferred_kept (transaction_commit thread reply tg t tcomplete buffer).
Proof. unfold transaction_commit. keeps_dw. Qed.
Hint Resolve transaction_commit_dw : preserves.

Lemma binder_transaction_dw proc thread tr reply e :
  preserves deferred_kept (binder_transaction proc thread tr reply e).
Proof. unfold binder_transaction. keeps_dw. Qed.
Hint Resolve binder_transaction_dw : preserves.

Lemma binder_command_dw proc thread cmd e :
  preserves deferred_kept (binder_command proc thread cmd e).
Proof. unfold binder_command. destruct cmd; keeps_dw. Qed.
Hint Resolve binder_command_dw : preserves.

Lemma binder_thread_write_dw proc thread size e buffer : forall consumed,
  preserves deferred_kept (binder_thread_write proc thread buffer size consumed e).
Proof. induction buffer; intros consumed; simpl; keeps_dw. Qed.
Hint Resolve binder_thread_write_dw : preserves.

Ltac keeps_dw' := repeat first [preserves_emit_step | progress keeps_dw].

Lemma read_done_dw proc thread ptr buffer :
  preserves deferred_kept (read_done proc thread ptr buffer).
Proof. unfold read_done. keeps_dw'. Qed.
Hint Resolve read_done_dw : preserves.

Lemma read_from_dw proc thread size consumed non_block signal_pending fuel :
  forall at_retry ptr buffer w,
  preserves deferred_kept
    (read_from proc thread size consumed non_block signal_pending fuel at_retry ptr
       buffer w).
Proof.
  induction fuel; intros at_retry ptr buffer w; simpl; [keeps_dw|].
  unfold binder_has_proc_work, binder_has_thread_work, read_woken. keeps_dw'.
Qed.
Hint Resolve read_from_dw : preserves.

Lemma binder_thread_read_dw proc thread size consumed non_block signal_pending fuel
    buffer :
  preserves deferred_kept
    (binder_thread_read proc thread size consumed non_block signal_pending fuel buffer).
Proof. unfold binder_thread_read. keeps_dw'. Qed.
Hint Resolve binder_thread_read_dw : preserves.

Lemma binder_thread_read_resume_dw proc thread size consumed non_block
    signal_pending fuel ret ptr buffer w :
  preserves deferred_kept
    (binder_thread_read_resume proc thread size consumed non_block signal_pending fuel
       ret ptr buffer w).
Proof. unfold binder_thread_read_resume, read_woken. keeps_dw'. Qed.

Lemma release_work_loop_dw l fuel :
  preserves deferred_kept (release_work_loop fuel l).
Proof. induction fuel; simpl; keeps_dw. Qed.
Hint Resolve release_work_loop_dw : preserves.

Lemma binder_release_work_dw l : preserves deferred_kept (binder_release_work l).
Proof. unfold binder_release_work. keeps_dw. Qed.
Hint Resolve binder_release_work_dw : preserves.

Lemma binder_get_thread_dw proc pid :
  preserves deferred_kept (binder_get_thread proc pid).
Proof. unfold binder_get_thread. keeps_dw. Qed.
Hint Resolve binder_get_thread_dw : preserves.

Lemma free_thread_loop_dw thread fuel : forall t n,
  preserves deferred_kept (free_thread_loop fuel thread t n).
Proof. induction fuel; intros [t|] n; simpl; keeps_dw. Qed.
Hint Resolve free_thread_loop_dw : preserves.

Lemma binder_free_thread_dw proc thread :
  preserves deferred_kept (binder_free_thread proc thread).
Proof. unfold binder_free_thread. keeps_dw. Qed.
Hint Resolve binder_free_thread_dw : preserves.

Lemma mmap_dw proc vm_start vm_end flags area files :
  preserves deferred_kept (mmap proc vm_start vm_end flags area files).
Proof. unfold mmap. keeps_dw. Qed.

Lemma binder_vma_close_dw proc : preserves deferred_kept (binder_vma_close proc).
Proof. unfold binder_vma_close. keeps_dw. Qed.

Lemma deferred_flush_threads_dw proc l :
  preserves deferred_kept (deferred_flush_threads proc l).
Proof. induction l; simpl; keeps_dw. Qed.
Hint Resolve deferred_flush_threads_dw : preserves.

Lemma binder_deferred_flush_dw proc :
  preserves deferred_kept (binder_deferred_flush proc).
Proof. unfold binder_deferred_flush. keeps_dw. Qed.

Lemma release_threads_dw proc fuel :
  preserves deferred_kept (release_threads fuel proc).
Proof. induction fuel; simpl; keeps_dw. Qed.
Hint Resolve release_threads_dw : preserves.

Lemma notify_death_dw l : preserves deferred_kept (notify_death l).
Proof. induction l; simpl; keeps_dw. Qed.
Hint Resolve notify_death_dw : preserves.

Lemma release_nodes_dw proc fuel : preserves deferred_kept (release_nodes fuel proc).
Proof. induction fuel; simpl; keeps_dw. Qed.
Hint Resolve release_nodes_dw : preserves.

Lemma release_refs_dw proc fuel : preserves deferred_kept (release_refs fuel proc).
Proof. induction fuel; simpl; keeps_dw. Qed.
Hint Resolve release_refs_dw : preserves.

Lemma release_buffers_dw proc fuel :
  preserves deferred_kept (release_buffers fuel proc).
Proof. induction fuel; simpl; keeps_dw. Qed.
Hint Resolve release_buffers_dw : preserves.

Lemma ioctl_after_read_dw proc thread bwr r :
  preserves deferred_kept (ioctl_after_read proc thread bwr r).
Proof. unfold ioctl_after_read. keeps_dw. Qed.
Hint Resolve ioctl_after_read_dw : preserves.

Lemma binder_ioctl_dw proc pid euid cmd fuel nb sp e :
  preserves deferred_kept (binder_ioctl proc pid euid cmd fuel nb sp e).
Proof. unfold binder_ioctl. keeps_dw'. Qed.

Lemma binder_deferred_release_dw proc :
  preserves deferred_kept (binder_deferred_release proc).
Proof. unfold binder_deferred_release. keeps_dw. Qed.

Lemma deferred_ok_kept dl s s' : deferred_kept s s' -> deferred_ok dl s -> deferred_ok dl s'.
Proof.
  intros K [Hnd Hin]. split; [exact Hnd|]. intros proc p' Hp' Hbits.
  destruct (K proc p' Hp') as (p & Hp & Hw). rewrite Hw in Hbits. eauto.
Qed.

Lemma binder_open_deferred dl pid euid nice rlim s proc s' :
  binder_open pid euid nice rlim s = Ok (proc, s') ->
  deferred_ok dl s -> deferred_ok dl s'.
Proof.
  intros E [Hnd Hin]. split; [exact Hnd|]. unfold binder_open in E.
  apply M_bind_Ok in E as (a & s1 & Ea & E).
  apply kzalloc_Ok in Ea as (script & [[-> ->]|[-> ->]]).
  - apply M_ret_Ok in E as [_ ->]. cbn. exact Hin.
  - apply M_bind_Ok in E as ([] & s2 & E0 & E). apply modify_Ok in E0 as ->.
    apply M_bind_Ok in E as ([] & s3 & E0 & E). apply modify_Ok in E0 as ->.
    apply M_ret_Ok in E as [_ ->]. cbn. intros q x Hx Hbits.
    apply lookup_insert_Some in Hx as [[_ <-]|[_ Hx]]; [|eauto].
    exfalso. apply Hbits. reflexivity.
Qed.

Lemma driver_step_deferred dl s s' :
  driver_step s s' -> deferred_ok dl s -> deferred_ok dl s'.
Proof.
  intros [pid euid nice rlim proc E|proc vs ve fl area files r E|proc u E
         |proc pid euid cmd fuel nb sp e r E
         |proc thread size consumed nb sp fuel ret ptr buffer w r E
         |proc u E|proc u E].
  - exact (binder_open_deferred _ _ _ _ _ _ _ _ E).
  - apply deferred_ok_kept. exact (mmap_dw _ _ _ _ _ _ _ _ _ E).
  - apply deferred_ok_kept. exact (binder_vma_close_dw _ _ _ _ E).
  - apply deferred_ok_kept. exact (binder_ioctl_dw _ _ _ _ _ _ _ _ _ _ _ E).
  - apply deferred_ok_kept.
    exact (binder_thread_read_resume_dw _ _ _ _ _ _ _ _ _ _ _ _ _ _ E).
  - apply deferred_ok_kept. exact (binder_deferred_flush_dw _ _ _ _ E).
  - apply deferred_ok_kept. exact (binder_deferred_release_dw _ _ _ _ E).
Qed.

Lemma binder_defer_work_run proc defer dl s p :
  procs s !! proc = Some p ->
  Deferred.binder_defer_work proc defer dl s
  = Ok ((if bool_decide (proc ∈ dl) then dl else proc :: dl,
         negb (bool_decide (proc ∈ dl))),
        set_procs (<[proc := set_p_deferred_work (Z.lor (p_deferred_work p) defer) p]>
                     (procs s)) s).
Proof.
  intros Hp. unfold Deferred.binder_defer_work.
  rewrite (M_bind_Ok_intro _ _ _ _ _ (upd_proc_run _ _ _ _ Hp)).
  destruct (bool_decide (proc ∈ dl)); reflexivity.
Qed.

Lemma binder_deferred_func_clears : forall dl s put s',
  (forall proc p, procs s !! proc = Some p -> p_deferred_work p <> 0 -> proc ∈ dl) ->
  Deferred.binder_deferred_func dl s = Ok (put, s') ->
  forall proc p, procs s' !! proc = Some p -> p_deferred_work p = 0.
Proof.
  induction dl as [|proc rest IH]; intros s put s' Hin E.
  - apply M_ret_Ok in E as [_ ->]. intros q x Hx.
    destruct (Z.eq_dec (p_deferred_work x) 0) as [|Hne]; [assumption|].
    apply (Hin q x Hx) in Hne. inversion Hne.
  - cbn [Deferred.binder_deferred_func] in E.
    apply M_bind_Ok in E as (p & s0 & E0 & E). apply get_proc_Ok in E0 as [Hp ->].
    apply M_bind_Ok in E as ([] & s1 & E1 & E).
    apply upd_proc_Ok in E1 as (p0 & Hp0 & ->).
    rewrite Hp in Hp0. injection Hp0 as <-.
    apply M_bind_Ok in E as (files & s2 & E2 & E).
    apply M_bind_Ok in E as ([] & s3 & E3 & E).
    apply M_bind_Ok in E as ([] & s4 & E4 & E).
    apply M_bind_Ok in E as (put' & s5 & E5 & E).
    apply M_ret_Ok in E as [_ ->].
    apply (IH s4 put' s5); [|exact E5].
    set (s1 := set_procs (<[proc := set_p_deferred_work 0 p]> (procs s)) s) in *.
    assert (H1 : forall q x, procs s1 !! q = Some x -> p_deferred_work x <> 0 -> q ∈ rest).
    { intros q x Hx Hbits. unfold s1 in Hx. cbn in Hx.
      apply lookup_insert_Some in Hx as [[<- <-]|[Hne Hx]].
      - exfalso. apply Hbits. reflexivity.
      - pose proof (Hin q x Hx Hbits) as Hq.
        apply elem_of_cons in Hq as [->|Hq]; [congruence|exact Hq]. }
    assert (K : deferred_kept s1 s4).
    { transitivity s2; [|transitivity s3].
      - match type of E2 with
        | ?m _ = _ => assert (P : preserves deferred_kept m) by keeps_dw
        end.
        exact (P _ _ _ E2).
      - unfold when in E3. destruct (has_flag _ BINDER_DEFERRED_FLUSH).
        + exact (binder_deferred_flush_dw _ _ _ _ E3).
        + apply M_ret_Ok in E3 as [_ ->]. reflexivity.
      - unfold when in E4. destruct (has_flag _ BINDER_DEFERRED_RELEASE).
        + exact (binder_deferred_release_dw _ _ _ _ E4).
        + apply M_ret_Ok in E4 as [_ ->]. reflexivity. }
    intros q x' Hx' Hbits. destruct (K q x' Hx') as (x & Hx & Hw).
    rewrite Hw in Hbits. eauto.
Qed.

(** No request for deferred work is lost.  While every process with a bit
    set in [deferred_work] is on [binder_deferred_list], once:
    [binder_defer_work] adds the bits asked for to those pending, puts the
    process on the list if it is not there and calls [schedule_work] only
    then; a run of [binder_deferred_func] that returns leaves the list empty
    and no bit set in any process; and every other entry point of the
    driver leaves the bits as they are. *)
Theorem deferred_work_not_lost dl s :
  deferred_ok dl s ->
  (forall proc defer p,
     procs s !! proc = Some p ->
     exists dl' s',
       Deferred.binder_defer_work proc defer dl s
         = Ok ((dl', negb (bool_decide (proc ∈ dl))), s') /\
       procs s' !! proc
         = Some (set_p_deferred_work (Z.lor (p_deferred_work p) defer) p) /\
       (forall q, q ∈ dl' <-> q = proc \/ q ∈ dl) /\
       deferred_ok dl' s') /\
  (forall put s',
     Deferred.binder_deferred_func dl s = Ok (put, s') -> deferred_ok [] s') /\
  (forall s', driver_step s s' -> deferred_ok dl s').
Proof.
  intros Hok. split; [|split].
  - intros proc defer p Hp. eexists _, _.
    split; [exact (binder_defer_work_run proc defer dl s p Hp)|].
    split; [cbn; apply lookup_insert_eq|].
    destruct Hok as [Hnd Hin]. destruct (bool_decide (proc ∈ dl)) eqn:Hd.
    + apply bool_decide_eq_true in Hd. split; [|split; [exact Hnd|]].
      * intros q. split; [auto|]. intros [->|Hq]; assumption.
      * intros q x Hx Hbits. cbn in Hx.
        apply lookup_insert_Some in Hx as [[<- _]|[_ Hx]]; eauto.
    + apply bool_decide_eq_false in Hd. split; [|split].
      * intros q. apply elem_of_cons.
      * apply NoDup_cons. split; assumption.
      * intros q x Hx Hbits. cbn in Hx. apply elem_of_cons.
        apply lookup_insert_Some in Hx as [[<- _]|[_ Hx]]; eauto.
  - intros put s' E. split; [apply NoDup_nil; exact I|].
    intros proc p Hp Hbits. exfalso. apply Hbits.
    exact (binder_deferred_func_clears dl s put s' (proj2 Hok) E proc p Hp).
  - intros s' Hstep. exact (driver_step_deferred dl s s' Hstep Hok).
Qed.

(** Closing a process.  [binder_vma_close] followed by [binder_release]
    queues the process once, with both bits; the work function then takes
    the file table away and hands it to [put_files_struct], and only then
    runs [binder_deferred_release], which so finds neither a mapping nor a
    file table.  A release that was not preceded by the close of the
    mapping ends in [BUG_ON]. *)
Theorem release_after_close s proc p :
  procs s !! proc = Some p -> p_deferred_work p = 0 ->
  let close_and_release :=
    r1 ← Deferred.binder_vma_close proc [];
    r2 ← Deferred.binder_release proc (fst r1);
    Deferred.binder_deferred_func (fst r2) in
  let release_only :=
    r ← Deferred.binder_release proc [];
    Deferred.binder_deferred_func (fst r) in
  close_and_release s
  = (binder_deferred_release proc;;
     mret (match p_files p with Some files => [files] | None => [] end))
      (set_procs
         (<[proc := set_p_deferred_work 0 (set_p_files None (set_p_vma false p))]>
            (procs s)) s) /\
  (p_vma p = true \/ p_files p <> None -> release_only s = Bug).
Proof.
  intros Hp Hw close_and_release release_only. split.
  - unfold close_and_release, Deferred.binder_vma_close, Deferred.binder_release.
    rewrite M_bind_assoc.
    rewrite (M_bind_Ok_intro _ _ _ _ _ (upd_proc_run _ _ _ _ Hp)).
    set (s1 := set_procs (<[proc := set_p_vma false p]> (procs s)) s).
    assert (Hp1 : procs s1 !! proc = Some (set_p_vma false p))
      by (cbn; apply lookup_insert_eq).
    rewrite (M_bind_Ok_intro _ _ _ _ _
               (binder_defer_work_run proc BINDER_DEFERRED_PUT_FILES [] s1 _ Hp1)).
    cbn [fst bool_decide]. rewrite bool_decide_eq_false_2 by (intros Hin; inversion Hin).
    match goal with
    | |- mbind _ _ ?s = _ => set (s2 := s)
    end.
    assert (Hp2 : procs s2 !! proc
                  = Some (set_p_deferred_work 1 (set_p_vma false p))).
    { unfold s2. cbn. rewrite Hw. apply lookup_insert_eq. }
    rewrite (M_bind_Ok_intro _ _ _ _ _
               (binder_defer_work_run proc BINDER_DEFERRED_RELEASE [proc] s2 _ Hp2)).
    cbn [fst]. rewrite bool_decide_eq_true_2 by (apply elem_of_cons; left; reflexivity).
    match goal with
    | |- _ ?s = _ => set (s3 := s)
    end.
    assert (Hp3 : procs s3 !! proc
                  = Some (set_p_deferred_work 5 (set_p_vma false p)))
      by (unfold s3; cbn; apply lookup_insert_eq).
    cbn [Deferred.binder_deferred_func].
    rewrite (M_bind_Ok_intro _ _ _ _ _ (get_proc_run _ _ _ Hp3)).
    rewrite (M_bind_Ok_intro _ _ _ _ _ (upd_proc_run _ _ _ _ Hp3)).
    change (has_flag (p_deferred_work (set_p_deferred_work 5 (set_p_vma false p)))
              BINDER_DEFERRED_PUT_FILES) with true.
    change (has_flag (p_deferred_work (set_p_deferred_work 5 (set_p_vma false p)))
              BINDER_DEFERRED_FLUSH) with false.
    change (has_flag (p_deferred_work (set_p_deferred_work 5 (set_p_vma false p)))
              BINDER_DEFERRED_RELEASE) with true.
    cbv beta iota. unfold when.
    change (p_files (set_p_deferred_work 5 (set_p_vma false p))) with (p_files p).
    match goal with
    | |- mbind _ _ ?s = _ => set (s4 := s)
    end.
    assert (Hp4 : procs s4 !! proc
                  = Some (set_p_deferred_work 0 (set_p_vma false p)))
      by (unfold s4; cbn; apply lookup_insert_eq).
    assert (Hs4 : forall q, set_procs (<[proc := q]> (procs s4)) s4
                            = set_procs (<[proc := q]> (procs s)) s).
    { intros q. unfold s4, s3, s2, s1. cbn. rewrite !insert_insert_eq. reflexivity. }
    destruct (p_files p) as [files|] eqn:Hf.
    + rewrite M_bind_assoc.
      rewrite (M_bind_Ok_intro _ _ _ _ _ (upd_proc_run _ _ _ _ Hp4)).
      rewrite Hs4. rewrite (M_bind_Ok_intro _ _ _ _ _ (mret_run _ _)).
      rewrite (M_bind_Ok_intro _ _ _ _ _ (mret_run _ _)).
      reflexivity.
    + rewrite (M_bind_Ok_intro _ _ _ _ _ (mret_run _ _)).
      rewrite (M_bind_Ok_intro _ _ _ _ _ (mret_run _ _)).
      assert (Hsame : s4 = set_procs
                (<[proc := set_p_deferred_work 0 (set_p_files None (set_p_vma false p))]>
                   (procs s)) s).
      { rewrite <- Hs4.
        assert (Hq : <[proc := set_p_deferred_work 0
                                 (set_p_files None (set_p_vma false p))]> (procs s4)
                     = procs s4).
        { apply map_eq. intros q. destruct (decide (q = proc)) as [->|Hne].
          - rewrite lookup_insert_eq, Hp4. f_equal.
            destruct p; cbn in *; subst; reflexivity.
          - rewrite lookup_insert_ne by congruence. reflexivity. }
        rewrite Hq. reflexivity. }
      rewrite Hsame. reflexivity.
  - intros Hbad. unfold release_only, Deferred.binder_release.
    rewrite (M_bind_Ok_intro _ _ _ _ _
               (binder_defer_work_run proc BINDER_DEFERRED_RELEASE [] s _ Hp)).
    cbn [fst]. rewrite bool_decide_eq_false_2 by (intros Hin; inversion Hin).
    rewrite Hw. change (Z.lor 0 BINDER_DEFERRED_RELEASE) with 4.
    match goal with
    | |- _ ?s = _ => set (s1 := s)
    end.
    assert (Hp1 : procs s1 !! proc = Some (set_p_deferred_work 4 p))
      by (unfold s1; cbn; apply lookup_insert_eq).
    cbn [Deferred.binder_deferred_func].
    rewrite (M_bind_Ok_intro _ _ _ _ _ (get_proc_run _ _ _ Hp1)).
    rewrite (M_bind_Ok_intro _ _ _ _ _ (upd_proc_run _ _ _ _ Hp1)).
    change (has_flag (p_deferred_work (set_p_deferred_work 4 p))
              BINDER_DEFERRED_PUT_FILES) with false.
    change (has_flag (p_deferred_work (set_p_deferred_work 4 p))
              BINDER_DEFERRED_FLUSH) with false.
    change (has_flag (p_deferred_work (set_p_deferred_work 4 p))
              BINDER_DEFERRED_RELEASE) with true.
    cbv beta iota. unfold when.
    rewrite (M_bind_Ok_intro _ _ _ _ _ (mret_run _ _)).
    rewrite (M_bind_Ok_intro _ _ _ _ _ (mret_run _ _)).
    match goal with
    | |- mbind _ _ ?s = _ => set (s2 := s)
    end.
    assert (Hp2 : procs s2 !! proc = Some (set_p_deferred_work 0 (set_p_deferred_work 4 p)))
      by (unfold s2; cbn; apply lookup_insert_eq).
    assert (Hrel : binder_deferred_release proc s2 = Bug).
    { unfold binder_deferred_release.
      rewrite (M_bind_Ok_intro _ _ _ _ _ (get_proc_run _ _ _ Hp2)).
      change (p_vma (set_p_deferred_work 0 (set_p_deferred_work 4 p))) with (p_vma p).
      change (p_files (set_p_deferred_work 0 (set_p_deferred_work 4 p))) with (p_files p).
      destruct (p_vma p) eqn:Hv; [reflexivity|].
      destruct Hbad as [Hbad|Hbad]; [discriminate Hbad|].
      rewrite (M_bind_Ok_intro _ _ _ _ _ (M_BUG_ON_run _ _ eq_refl)).
      rewrite (bool_decide_eq_true_2 _ Hbad). reflexivity. }
    unfold mbind at 1, M_bind. rewrite Hrel. reflexivity.
Qed.

End keeps_dw.

Lemma witness_open_mapped_ok : deferred_ok [] witness_open_mapped.
Proof.
  split; [apply NoDup_nil; exact I|]. intros proc p Hp Hbits.
  unfold witness_open_mapped in Hp. cbn in Hp.
  apply lookup_insert_Some in Hp as [[_ <-]|[_ Hp]].
  - exfalso. apply Hbits. reflexivity.
  - rewrite lookup_empty in Hp. discriminate Hp.
Qed.

Lemma deferred_work_not_lost_witness :
  deferred_ok [] witness_open_mapped /\
  exists dl' s',
    Deferred.binder_defer_work 0x100 BINDER_DEFERRED_FLUSH [] witness_open_mapped
      = Ok ((dl', true), s') /\
    deferred_ok dl' s'.
Proof.
  split; [exact witness_open_mapped_ok|].
  destruct (@deferred_work_not_lost ilp32_layout [] witness_open_mapped
              witness_open_mapped_ok) as (Hdefer & _).
  destruct (procs witness_open_mapped !! 0x100) as [p|] eqn:Hp;
    [|vm_compute in Hp; discriminate Hp].
  destruct (Hdefer 0x100 BINDER_DEFERRED_FLUSH p Hp) as (dl' & s' & E & _ & _ & Hok).
  exists dl', s'. split; [exact E|exact Hok].
Defined.

Lemma release_after_close_witness :
  exists p,
    procs witness_open_mapped !! 0x100 = Some p /\ p_deferred_work p = 0 /\
    exists s',
      (r1 ← Deferred.binder_vma_close 0x100 [];
       r2 ← Deferred.binder_release 0x100 (fst r1);
       @Deferred.binder_deferred_func ilp32_layout (fst r2)) witness_open_mapped
      = Ok ([mk_files_struct ∅ ∅ ∅ 64 0], s') /\
      procs s' !! 0x100 = None.
Proof.
  destruct (procs witness_open_mapped !! 0x100) as [p|] eqn:Hp;
    [|vm_compute in Hp; discriminate Hp].
  assert (Hw : p_deferred_work p = 0)
    by (vm_compute in Hp; injection Hp as <-; reflexivity).
  exists p. split; [reflexivity|]. split; [exact Hw|].
  destruct (@release_after_close ilp32_layout witness_open_mapped 0x100 p Hp Hw)
    as [Hclose _].
  cbv zeta in Hclose. rewrite Hclose.
  vm_compute in Hp. injection Hp as <-.
  eexists. split; [vm_compute; reflexivity|]. vm_compute. reflexivity.
Defined.
(** ** The transaction log is a ring of 32 entries *)

Lemma binder_transaction_log_add_ok log :
  log_ok log ->
  exists log',
    binder_transaction_log_add log = Ok (log_next log, log') /\
    log_ok log' /\
    log_next log' = (log_next log + 1) mod 32 /\
    log_full log' = (if log_next log =? 31 then 1 else log_full log) /\
    log_entry log' !! Z.to_nat (log_next log) = Some zero_entry /\
    forall i, i <> Z.to_nat (log_next log) -> log_entry log' !! i = log_entry log !! i.
Proof.
  intros [Hlen Hnext]. unfold binder_transaction_log_add. rewrite Hlen.
  assert (Hin : (0 <=? log_next log) && (log_next log <? Z.of_nat 32) = true).
  { apply andb_true_iff. split; [apply Z.leb_le|apply Z.ltb_lt]; lia. }
  rewrite Hin. rewrite int32_small by lia.
  assert (Hlookup : <[Z.to_nat (log_next log) := zero_entry]> (log_entry log)
                      !! Z.to_nat (log_next log) = Some zero_entry)
    by (apply list_lookup_insert_eq; lia).
  assert (Hother : forall i, i <> Z.to_nat (log_next log) ->
            <[Z.to_nat (log_next log) := zero_entry]> (log_entry log) !! i
            = log_entry log !! i)
    by (intros i Hi; apply list_lookup_insert_ne; congruence).
  destruct (log_next log + 1 =? 32) eqn:Hwrap.
  - apply Z.eqb_eq in Hwrap. eexists. split; [reflexivity|]. cbn.
    assert (Hn : log_next log = 31) by lia. rewrite Hn in *.
    split; [split; [cbn; rewrite length_insert; exact Hlen|cbn; lia]|].
    split; [reflexivity|]. split; [reflexivity|]. split; [exact Hlookup|exact Hother].
  - apply Z.eqb_neq in Hwrap. eexists. split; [reflexivity|]. cbn.
    assert (Hn : (log_next log =? 31) = false) by (apply Z.eqb_neq; lia).
    rewrite Hn. rewrite Z.mod_small by lia.
    split; [split; [cbn; rewrite length_insert; exact Hlen|cbn; lia]|].
    split; [reflexivity|]. split; [reflexivity|]. split; [exact Hlookup|exact Hother].
Qed.

(** [binder_transaction_log_add] never stores outside the array.  From the
    log as it is initialised, [n] calls all return; [next] is then [n]
    modulo 32 and [full] is set exactly when [n] has reached 32.  Each call
    returns the entry at the old [next], cleared, and leaves the other
    entries as they are. *)
Theorem transaction_log_ring n :
  exists log,
    log_adds n empty_log = Ok log /\
    log_ok log /\
    log_next log = Z.of_nat n mod 32 /\
    log_full log = (if 32 <=? Z.of_nat n then 1 else 0) /\
    exists log',
      binder_transaction_log_add log = Ok (Z.of_nat n mod 32, log') /\
      log_entry log' !! (n mod 32)%nat = Some zero_entry /\
      forall i, i <> (n mod 32)%nat -> log_entry log' !! i = log_entry log !! i.
Proof.
  assert (Hmain : exists log,
            log_adds n empty_log = Ok log /\ log_ok log /\
            log_next log = Z.of_nat n mod 32 /\
            log_full log = (if 32 <=? Z.of_nat n then 1 else 0)).
  { induction n as [|n IH].
    - exists empty_log. repeat split; cbn; lia.
    - destruct IH as (log & E & Hok & Hnext & Hfull).
      destruct (binder_transaction_log_add_ok log Hok)
        as (log' & E' & Hok' & Hnext' & Hfull' & _).
      exists log'. cbn [log_adds]. rewrite E. cbn [mbind result_bind].
      rewrite E'. cbn [mbind result_bind snd].
      split; [reflexivity|]. split; [exact Hok'|]. split.
      + rewrite Hnext', Hnext. rewrite Nat2Z.inj_succ.
        rewrite Zplus_mod_idemp_l. reflexivity.
      + rewrite Hfull', Hfull, Hnext. rewrite Nat2Z.inj_succ.
        pose proof (Z.mod_pos_bound (Z.of_nat n) 32 ltac:(lia)) as Hm.
        pose proof (Z.div_mod (Z.of_nat n) 32 ltac:(lia)) as Hd.
        destruct (Z.of_nat n mod 32 =? 31) eqn:H31.
        * apply Z.eqb_eq in H31.
          assert (0 <= Z.of_nat n / 32) by (apply Z.div_pos; lia).
          assert (Hge : (32 <=? Z.succ (Z.of_nat n)) = true) by (apply Z.leb_le; lia).
          rewrite Hge. reflexivity.
        * apply Z.eqb_neq in H31.
          destruct (32 <=? Z.of_nat n) eqn:Hn.
          -- apply Z.leb_le in Hn.
             assert (Hge : (32 <=? Z.succ (Z.of_nat n)) = true) by (apply Z.leb_le; lia).
             rewrite Hge. reflexivity.
          -- apply Z.leb_gt in Hn. rewrite Z.mod_small in H31 by lia.
             assert (Hge : (32 <=? Z.succ (Z.of_nat n)) = false) by (apply Z.leb_gt; lia).
             rewrite Hge. reflexivity. }
  destruct Hmain as (log & E & Hok & Hnext & Hfull).
  exists log. split; [exact E|]. split; [exact Hok|]. split; [exact Hnext|].
  split; [exact Hfull|].
  destruct (binder_transaction_log_add_ok log Hok)
    as (log' & E' & _ & _ & _ & Hzero & Hother).
  assert (Hidx : Z.to_nat (log_next log) = (n mod 32)%nat).
  { rewrite Hnext. change 32 with (Z.of_nat 32).
    rewrite <- Nat2Z.inj_mod. apply Nat2Z.id. }
  exists log'. rewrite <- Hnext. split; [exact E'|].
  rewrite <- Hidx. split; [exact Hzero|exact Hother].
Qed.
(** ** binder_poll *)

Section poll.
Context `{layout}.
Variables (proc pid size : Z).

(** From the label [retry] to [wait_event], for a thread that waits for the
    reply to a call of its own. *)
Lemma read_stack_wait thread fuel b s th :
  threads s !! thread = Some th ->
  list_of s (thread_todo thread) = [] ->
  th_transaction_stack th <> None -> th_return_error th = BR_OK ->
  has_flag (th_looper th) BINDER_LOOPER_STATE_NEED_RETURN = false ->
  let th1 := set_th_looper (Z.lor (th_looper th) BINDER_LOOPER_STATE_WAITING) th in
  read_from proc thread size 0 false false (S fuel) true 4 b false s
  = Ok (read_sleeping 4 b false, set_threads (<[thread := th1]> (threads s)) s).
Proof.
  intros Hth Htodo Hstack Herr Hneed th1.
  cbn [read_from].
  rewrite (M_bind_Ok_intro _ _ _ _ _ (get_thread_run _ _ _ Hth)).
  rewrite (M_bind_Ok_intro _ _ _ _ _ (list_empty_run _ _)).
  rewrite Herr, Z.eqb_refl. cbn [negb andb].
  rewrite (bool_decide_eq_false_2 _ Hstack). cbn [andb].
  rewrite (M_bind_Ok_intro _ _ _ _ _ (upd_thread_run _ _ _ _ Hth)). fold th1.
  cbn [when]. rewrite (M_bind_Ok_intro _ _ _ _ _ (mret_run _ _)).
  match goal with
  | |- mbind _ _ ?s1 = _ =>
      assert (Hth1 : threads s1 !! thread = Some th1) by (cbn; apply lookup_insert_eq)
  end.
  unfold binder_has_thread_work. rewrite M_bind_assoc.
  rewrite (M_bind_Ok_intro _ _ _ _ _ (list_empty_run _ _)).
  rewrite M_bind_assoc.
  rewrite (M_bind_Ok_intro _ _ _ _ _ (get_thread_run _ _ _ Hth1)).
  rewrite (M_bind_Ok_intro _ _ _ _ _ (mret_run _ _)).
  match goal with
  | |- context [list_of ?s1 (thread_todo thread)] =>
      change (list_of s1 (thread_todo thread)) with (list_of s (thread_todo thread))
  end.
  rewrite Htodo. rewrite bool_decide_eq_true_2 by reflexivity.
  change (th_return_error th1) with (th_return_error th).
  change (th_looper th1) with (Z.lor (th_looper th) BINDER_LOOPER_STATE_WAITING).
  rewrite Herr, Z.eqb_refl, has_flag_lor_other, Hneed by reflexivity.
  reflexivity.
Qed.


End poll.

(** ** Strong references are counted *)

Lemma binder_dec_node_spec node strong internal s ret s' :
  binder_dec_node node strong internal s = Ok (ret, s') ->
  refs s' = refs s /\
  exists n n',
    nodes s !! node = Some n /\ n_refs n' = n_refs n /\
    n_internal_strong_refs n'
    = (if strong && internal then int32 (n_internal_strong_refs n - 1)
       else n_internal_strong_refs n) /\
    (nodes s' = <[node := n']> (nodes s) \/
     (n_refs n = [] /\ nodes s' = delete node (nodes s))).
Proof.
  intros E. unfold binder_dec_node in E.
  apply M_bind_Ok in E as ([] & s1 & E1 & E).
  assert (H1 : refs s1 = refs s /\ forall n1, nodes s1 !! node = Some n1 ->
            exists n, nodes s !! node = Some n /\ n_refs n1 = n_refs n /\
            n_internal_strong_refs n1
            = (if strong && internal then int32 (n_internal_strong_refs n - 1)
               else n_internal_strong_refs n) /\
            nodes s1 = <[node := n1]> (nodes s)).
  { clear E. destruct strong, internal; cbn [andb negb] in *; minv; cbn.
    3: { split; [reflexivity|]. intros n1 Hn1. exists n1.
         rewrite insert_id by exact Hn1. auto. }
    all: split; [reflexivity|]; intros n1 Hn1;
      rewrite lookup_insert_eq in Hn1; injection Hn1 as <-;
      eexists; split; [eassumption|]; repeat split. }
  destruct H1 as [Hr1 H1]. clear E1.
  apply M_bind_Ok in E as (n1 & s2 & E2 & E). apply get_node_Ok in E2 as [Hn1 ->].
  destruct (H1 n1 Hn1) as (n & Hn & Hrefs & Hcount & Hnodes).
  assert (Hgoal : refs s' = refs s1 /\
            (nodes s' = nodes s1 \/ (n_refs n1 = [] /\ nodes s' = delete node (nodes s1)))).
  { clear H1 Hcount. minv_lists; cbn; try (split; [reflexivity|left; reflexivity]).
    all: match goal with
         | Hd : bool_decide (n_refs _ = []) && _ && _ = true |- _ =>
             apply andb_true_iff in Hd as [Hd _]; apply andb_true_iff in Hd as [Hd _];
             apply bool_decide_eq_true in Hd
         end;
      destruct (entries s1 !! work_of_node node); cbn;
      (split; [reflexivity|right; split; [assumption|reflexivity]]). }
  destruct Hgoal as [Hr' Hn']. split; [congruence|].
  exists n, n1. split; [exact Hn|]. split; [exact Hrefs|]. split; [exact Hcount|].
  destruct Hn' as [Hn'|[Hempty Hn']]; rewrite Hn', Hnodes.
  - left. reflexivity.
  - right. split; [congruence|]. apply delete_insert_eq.
Qed.

Lemma binder_inc_node_spec node strong internal target s ret s' :
  binder_inc_node node strong internal target s = Ok (ret, s') ->
  refs s' = refs s /\
  exists n,
    nodes s !! node = Some n /\
    ((nodes s' = nodes s /\ (strong && internal = true -> ret <> 0)) \/
     (exists n',
        nodes s' = <[node := n']> (nodes s) /\ n_refs n' = n_refs n /\
        n_internal_strong_refs n'
        = (if strong && internal then int32 (n_internal_strong_refs n + 1)
           else n_internal_strong_refs n) /\
        (strong && internal = true -> ret = 0))).
Proof.
  intros E. unfold binder_inc_node in E.
  apply M_bind_Ok in E as (n & s0 & E0 & E). apply get_node_Ok in E0 as [Hn ->].
  apply M_bind_Ok in E as (s1 & s0 & E0 & E). apply get_state_Ok in E0 as [-> ->].
  destruct strong, internal; cbn [andb negb] in *; minv_lists; lookups; cbn.
  all: try (match goal with
            | |- context [entries ?st !! ?w] => destruct (entries st !! w)
            end; cbn).
  all: split; [reflexivity|]; exists n; split; [assumption|].
  all: try (left; split; [reflexivity|]; first [discriminate|intros _; discriminate]).
  all: try (right; eexists; split; [reflexivity|]; repeat split; fail).
  right. eexists. split; [reflexivity|]. repeat split. discriminate.
Qed.

(** *** Counting the strong references of a list *)

Lemma strong_count_ext rs rs' l :
  (forall ref, ref ∈ l -> ref_is_strong rs' ref = ref_is_strong rs ref) ->
  strong_count rs' l = strong_count rs l.
Proof.
  induction l as [|x l IH]; intros Hsame; cbn; [reflexivity|].
  rewrite Hsame by (apply elem_of_cons; auto).
  rewrite IH; [reflexivity|]. intros ref Hin. apply Hsame. apply elem_of_cons. auto.
Qed.

Lemma ref_is_strong_insert_ne rs ref r x :
  x <> ref -> ref_is_strong (<[ref := r]> rs) x = ref_is_strong rs x.
Proof. intros Hne. unfold ref_is_strong. rewrite lookup_insert_ne by congruence. reflexivity. Qed.

Lemma ref_is_strong_delete_ne rs ref x :
  x <> ref -> ref_is_strong (delete ref rs) x = ref_is_strong rs x.
Proof. intros Hne. unfold ref_is_strong. rewrite lookup_delete_ne by congruence. reflexivity. Qed.

Lemma strong_count_insert_notin rs ref r l :
  ref ∉ l -> strong_count (<[ref := r]> rs) l = strong_count rs l.
Proof.
  intros Hnot. apply strong_count_ext. intros x Hx.
  apply ref_is_strong_insert_ne. intros ->. exact (Hnot Hx).
Qed.

Lemma strong_count_insert_in rs ref r l :
  NoDup l -> ref ∈ l ->
  strong_count (<[ref := r]> rs) l
  = strong_count rs l
    + (if negb (r_strong r =? 0) then 1 else 0)
    - (if ref_is_strong rs ref then 1 else 0).
Proof.
  induction l as [|x l IH]; intros Hnd Hin; [inversion Hin|].
  apply NoDup_cons in Hnd as [Hx Hnd]. cbn [strong_count].
  destruct (decide (x = ref)) as [->|Hne].
  - rewrite strong_count_insert_notin by exact Hx.
    unfold ref_is_strong at 1. rewrite lookup_insert_eq. lia.
  - apply elem_of_cons in Hin as [->|Hin]; [congruence|].
    rewrite IH by assumption. rewrite ref_is_strong_insert_ne by exact Hne. lia.
Qed.

Lemma strong_count_range rs l : 0 <= strong_count rs l <= Z.of_nat (length l).
Proof.
  induction l as [|x l IH]; cbn [strong_count length]; [lia|].
  destruct (ref_is_strong rs x); lia.
Qed.

Lemma strong_count_remove rs ref l :
  NoDup l -> ref ∈ l ->
  strong_count rs (remove_Z ref l)
  = strong_count rs l - (if ref_is_strong rs ref then 1 else 0).
Proof.
  induction l as [|x l IH]; intros Hnd Hin; [inversion Hin|].
  apply NoDup_cons in Hnd as [Hx Hnd]. cbn [strong_count remove_Z].
  destruct (x =? ref) eqn:E.
  - apply Z.eqb_eq in E. subst x. lia.
  - apply Z.eqb_neq in E. apply elem_of_cons in Hin as [->|Hin]; [congruence|].
    cbn [strong_count]. rewrite IH by assumption. lia.
Qed.

(** *** Changes that keep [node_refs_ok] *)

Lemma node_refs_ok_same s s' :
  refs s' = refs s -> nodes s' = nodes s -> node_refs_ok s -> node_refs_ok s'.
Proof. intros Hr Hn Hok. unfold node_refs_ok. rewrite Hr, Hn. exact Hok. Qed.

Lemma NoDup_remove_Z x l : NoDup l -> NoDup (remove_Z x l).
Proof.
  induction l as [|y l IH]; intros Hnd; cbn; [exact Hnd|].
  apply NoDup_cons in Hnd as [Hy Hnd]. destruct (y =? x); [exact Hnd|].
  apply NoDup_cons. split; [|auto].
  intros Hin. apply Hy. clear -Hin.
  induction l as [|z l IH]; cbn in Hin; [inversion Hin|].
  destruct (z =? x); [apply elem_of_cons; auto|].
  apply elem_of_cons in Hin as [->|Hin]; apply elem_of_cons; auto.
Qed.

Lemma elem_of_remove_Z x y l :
  NoDup l -> (y ∈ remove_Z x l <-> y ∈ l /\ y <> x).
Proof.
  induction l as [|z l IH]; intros Hnd; cbn.
  - split; [intros Hin; inversion Hin|intros [Hin _]; inversion Hin].
  - apply NoDup_cons in Hnd as [Hz Hnd]. destruct (z =? x) eqn:E.
    + apply Z.eqb_eq in E. subst z. rewrite elem_of_cons. split.
      * intros Hin. split; [auto|]. intros ->. exact (Hz Hin).
      * intros [[->|Hin] Hne]; [congruence|exact Hin].
    + apply Z.eqb_neq in E. rewrite !elem_of_cons, IH by exact Hnd.
      split; [intros [->|[Hin Hne]]; auto|intros [[->|Hin] Hne]; auto].
Qed.

(** A node changes, its list and its count stay. *)
Lemma node_refs_ok_node s s' node n n' :
  node_refs_ok s -> nodes s !! node = Some n ->
  refs s' = refs s -> nodes s' = <[node := n']> (nodes s) ->
  n_refs n' = n_refs n -> n_internal_strong_refs n' = n_internal_strong_refs n ->
  node_refs_ok s'.
Proof.
  intros [Hnodes Hrefs] Hn Hr Hn' Hl Hc. split.
  - intros m x Hx. rewrite Hn' in Hx. rewrite Hr.
    apply lookup_insert_Some in Hx as [[<- <-]|[_ Hx]]; [|exact (Hnodes m x Hx)].
    rewrite Hl, Hc. exact (Hnodes node n Hn).
  - intros ref r Hx. rewrite Hr in Hx. destruct (Hrefs ref r Hx) as [Hs (m & Hm & Hin)].
    split; [exact Hs|]. rewrite Hn'. destruct (decide (r_node r = node)) as [Heq|Hne].
    + exists n'. rewrite Heq, lookup_insert_eq. split; [reflexivity|].
      rewrite Hl. rewrite Heq, Hn in Hm. injection Hm as <-. exact Hin.
    + exists m. rewrite lookup_insert_ne by congruence. auto.
Qed.

(** A node without references goes away. *)
Lemma node_refs_ok_node_deleted s s' node n :
  node_refs_ok s -> nodes s !! node = Some n -> n_refs n = [] ->
  refs s' = refs s -> nodes s' = delete node (nodes s) ->
  node_refs_ok s'.
Proof.
  intros [Hnodes Hrefs] Hn Hempty Hr Hn'. split.
  - intros m x Hx. rewrite Hn' in Hx. rewrite Hr.
    apply lookup_delete_Some in Hx as [_ Hx]. exact (Hnodes m x Hx).
  - intros ref r Hx. rewrite Hr in Hx. destruct (Hrefs ref r Hx) as [Hs (m & Hm & Hin)].
    split; [exact Hs|]. exists m. split; [|exact Hin].
    rewrite Hn'. apply lookup_delete_Some. split; [|exact Hm].
    intros Heq. rewrite <- Heq, Hn in Hm. injection Hm as <-. rewrite Hempty in Hin.
    inversion Hin.
Qed.

(** The counts of a reference change, and the count of its node with them. *)
Lemma node_refs_ok_ref s s' ref r r' n n' :
  node_refs_ok s -> refs s !! ref = Some r -> nodes s !! r_node r = Some n ->
  refs s' = <[ref := r']> (refs s) -> r_node r' = r_node r ->
  0 <= r_strong r' < 2 ^ 31 ->
  nodes s' = <[r_node r := n']> (nodes s) -> n_refs n' = n_refs n ->
  n_internal_strong_refs n'
  = n_internal_strong_refs n + (if r_strong r' =? 0 then 0 else 1)
    - (if r_strong r =? 0 then 0 else 1) ->
  n_internal_strong_refs n' < 2 ^ 31 ->
  node_refs_ok s'.
Proof.
  intros [Hnodes Hrefs] Href Hn Hr' Hnode Hrange Hn' Hl Hc Hbound.
  destruct (Hrefs ref r Href) as [_ (n0 & Hn0 & Hin)].
  rewrite Hn in Hn0. injection Hn0 as <-.
  split.
  - intros m x Hx. rewrite Hn' in Hx. rewrite Hr'.
    apply lookup_insert_Some in Hx as [[<- <-]|[Hne Hx]].
    + destruct (Hnodes _ n Hn) as (Hnd & Hmem & Hcount & _). rewrite Hl.
      split; [exact Hnd|]. split; [|split; [|exact Hbound]].
      * intros x Hx. destruct (decide (x = ref)) as [->|Hxne].
        -- exists r'. rewrite lookup_insert_eq. auto.
        -- rewrite lookup_insert_ne by congruence. exact (Hmem x Hx).
      * rewrite Hc, Hcount, (strong_count_insert_in _ _ _ _ Hnd Hin).
        unfold ref_is_strong. rewrite Href.
        destruct (r_strong r' =? 0), (r_strong r =? 0); cbn; lia.
    + destruct (Hnodes m x Hx) as (Hnd & Hmem & Hcount & Hb).
      assert (Hnot : ref ∉ n_refs x).
      { intros Hx'. destruct (Hmem ref Hx') as (r0 & Hr0 & Hm).
        rewrite Href in Hr0. injection Hr0 as <-. congruence. }
      split; [exact Hnd|]. split; [|split; [|exact Hb]].
      * intros y Hy. rewrite lookup_insert_ne by (intros <-; exact (Hnot Hy)).
        exact (Hmem y Hy).
      * rewrite strong_count_insert_notin by exact Hnot. exact Hcount.
  - intros x rx Hx. rewrite Hr' in Hx. rewrite Hn'.
    apply lookup_insert_Some in Hx as [[<- <-]|[Hne Hx]].
    + split; [exact Hrange|]. exists n'. rewrite Hnode, lookup_insert_eq.
      split; [reflexivity|]. rewrite Hl. exact Hin.
    + destruct (Hrefs x rx Hx) as [Hs (m & Hm & Hxin)]. split; [exact Hs|].
      destruct (decide (r_node rx = r_node r)) as [Heq|Hneq].
      * exists n'. rewrite Heq, lookup_insert_eq. split; [reflexivity|].
        rewrite Hl. rewrite Heq, Hn in Hm. injection Hm as <-. exact Hxin.
      * exists m. rewrite lookup_insert_ne by congruence. auto.
Qed.

(** A reference goes away, and perhaps its node with it. *)
Lemma node_refs_ok_ref_deleted s s' ref r n :
  node_refs_ok s -> refs s !! ref = Some r -> nodes s !! r_node r = Some n ->
  refs s' = delete ref (refs s) ->
  (exists n',
     nodes s' = <[r_node r := n']> (nodes s) /\
     n_refs n' = remove_Z ref (n_refs n) /\
     n_internal_strong_refs n'
     = n_internal_strong_refs n - (if r_strong r =? 0 then 0 else 1)) \/
  (remove_Z ref (n_refs n) = [] /\ nodes s' = delete (r_node r) (nodes s)) ->
  node_refs_ok s'.
Proof.
  intros [Hnodes Hrefs] Href Hn Hr' Hcases.
  destruct (Hrefs ref r Href) as [_ (n0 & Hn0 & Hin)].
  rewrite Hn in Hn0. injection Hn0 as <-.
  destruct (Hnodes _ n Hn) as (Hnd & Hmem & Hcount & Hb).
  assert (Hother : forall m x, m <> r_node r -> nodes s !! m = Some x ->
            NoDup (n_refs x) /\
            (forall y, y ∈ n_refs x ->
               exists ry, delete ref (refs s) !! y = Some ry /\ r_node ry = m) /\
            n_internal_strong_refs x = strong_count (delete ref (refs s)) (n_refs x) /\
            n_internal_strong_refs x < 2 ^ 31).
  { intros m x Hne Hx. destruct (Hnodes m x Hx) as (Hndx & Hmemx & Hcountx & Hbx).
    assert (Hnot : ref ∉ n_refs x).
    { intros Hx'. destruct (Hmemx ref Hx') as (r0 & Hr0 & Hm).
      rewrite Href in Hr0. injection Hr0 as <-. congruence. }
    split; [exact Hndx|]. split; [|split; [|exact Hbx]].
    - intros y Hy. rewrite lookup_delete_ne by (intros <-; exact (Hnot Hy)).
      exact (Hmemx y Hy).
    - rewrite Hcountx. symmetry. apply strong_count_ext. intros y Hy.
      apply ref_is_strong_delete_ne. intros ->. exact (Hnot Hy). }
  split.
  - intros m x Hx. rewrite Hr'.
    destruct Hcases as [(n' & Hn' & Hl & Hc)|[Hempty Hn']]; rewrite Hn' in Hx.
    + apply lookup_insert_Some in Hx as [[<- <-]|[Hne Hx]];
        [|apply Hother; [congruence|exact Hx]].
      rewrite Hl. split; [apply NoDup_remove_Z; exact Hnd|].
      split; [|split].
      * intros y Hy. apply (elem_of_remove_Z _ _ _ Hnd) in Hy as [Hy Hne].
        rewrite lookup_delete_ne by congruence. exact (Hmem y Hy).
      * rewrite Hc, Hcount.
        rewrite (strong_count_ext (refs s) (delete ref (refs s))
                   (remove_Z ref (n_refs n))).
        -- rewrite (strong_count_remove _ _ _ Hnd Hin). unfold ref_is_strong.
           rewrite Href. destruct (r_strong r =? 0); reflexivity.
        -- intros y Hy. apply (elem_of_remove_Z _ _ _ Hnd) in Hy as [_ Hne].
           apply ref_is_strong_delete_ne. exact Hne.
      * rewrite Hc. destruct (r_strong r =? 0); lia.
    + apply lookup_delete_Some in Hx as [Hne Hx]. apply Hother; [congruence|exact Hx].
  - intros x rx Hx. rewrite Hr' in Hx. apply lookup_delete_Some in Hx as [Hne Hx].
    destruct (Hrefs x rx Hx) as [Hs (m & Hm & Hxin)]. split; [exact Hs|].
    destruct (decide (r_node rx = r_node r)) as [Heq|Hneq].
    + rewrite Heq, Hn in Hm. injection Hm as <-.
      assert (Hxin' : x ∈ remove_Z ref (n_refs n))
        by (apply (elem_of_remove_Z _ _ _ Hnd); split; [exact Hxin|congruence]).
      destruct Hcases as [(n' & Hn' & Hl & Hc)|[Hempty Hn']].
      * exists n'. rewrite Hn', Heq, lookup_insert_eq. split; [reflexivity|].
        rewrite Hl. exact Hxin'.
      * rewrite Hempty in Hxin'. inversion Hxin'.
    + exists m. split; [|exact Hxin].
      destruct Hcases as [(n' & Hn' & _)|[_ Hn']]; rewrite Hn'.
      * rewrite lookup_insert_ne by congruence. exact Hm.
      * apply lookup_delete_Some. split; [congruence|exact Hm].
Qed.

(** A new reference, without counts, is put on the list of its node. *)
Lemma node_refs_ok_ref_added s s' new r0 node n :
  node_refs_ok s -> refs s !! new = None -> nodes s !! node = Some n ->
  refs s' = <[new := r0]> (refs s) -> r_node r0 = node -> r_strong r0 = 0 ->
  nodes s' = <[node := set_n_refs (new :: n_refs n) n]> (nodes s) ->
  node_refs_ok s'.
Proof.
  intros [Hnodes Hrefs] Hnew Hn Hr' Hnode Hstrong Hn'.
  assert (Hnot : forall m x, nodes s !! m = Some x -> new ∉ n_refs x).
  { intros m x Hx Hin. destruct (Hnodes m x Hx) as (_ & Hmem & _).
    destruct (Hmem new Hin) as (r1 & Hr1 & _). congruence. }
  assert (Hkeep : forall m x, nodes s !! m = Some x ->
            (forall y, y ∈ n_refs x ->
               exists ry, <[new := r0]> (refs s) !! y = Some ry /\ r_node ry = m) /\
            strong_count (<[new := r0]> (refs s)) (n_refs x)
            = strong_count (refs s) (n_refs x)).
  { intros m x Hx. destruct (Hnodes m x Hx) as (_ & Hmem & _). split.
    - intros y Hy. rewrite lookup_insert_ne by (intros <-; exact (Hnot m x Hx Hy)).
      exact (Hmem y Hy).
    - apply strong_count_insert_notin. exact (Hnot m x Hx). }
  split.
  - intros m x Hx. rewrite Hn' in Hx. rewrite Hr'.
    apply lookup_insert_Some in Hx as [[<- <-]|[Hne Hx]].
    + destruct (Hnodes _ n Hn) as (Hnd & Hmem & Hcount & Hb).
      destruct (Hkeep _ n Hn) as [Hmem' Hcount']. cbn [n_refs set_n_refs].
      split; [apply NoDup_cons; split; [exact (Hnot _ n Hn)|exact Hnd]|].
      split; [|split; [|exact Hb]].
      * intros y Hy. apply elem_of_cons in Hy as [->|Hy]; [|exact (Hmem' y Hy)].
        exists r0. rewrite lookup_insert_eq. auto.
      * cbn [strong_count n_internal_strong_refs set_n_refs].
        unfold ref_is_strong at 1. rewrite lookup_insert_eq, Hstrong. cbn.
        rewrite Hcount'. exact Hcount.
    + destruct (Hnodes m x Hx) as (Hnd & _ & Hcount & Hb).
      destruct (Hkeep m x Hx) as [Hmem' Hcount'].
      split; [exact Hnd|]. split; [exact Hmem'|]. split; [|exact Hb].
      rewrite Hcount'. exact Hcount.
  - intros x rx Hx. rewrite Hr' in Hx. rewrite Hn'.
    apply lookup_insert_Some in Hx as [[<- <-]|[Hne Hx]].
    + split; [rewrite Hstrong; lia|]. eexists. rewrite Hnode, lookup_insert_eq.
      split; [reflexivity|]. cbn. apply elem_of_cons. auto.
    + destruct (Hrefs x rx Hx) as [Hs (m & Hm & Hxin)]. split; [exact Hs|].
      destruct (decide (r_node rx = node)) as [Heq|Hneq].
      * eexists. rewrite Heq, lookup_insert_eq. split; [reflexivity|].
        cbn. rewrite Heq, Hn in Hm. injection Hm as <-. apply elem_of_cons. auto.
      * exists m. rewrite lookup_insert_ne by congruence. auto.
Qed.

(** *** The operations on nodes and references *)

Lemma binder_inc_node_ok node strong internal target s ret s' :
  strong && internal = false ->
  binder_inc_node node strong internal target s = Ok (ret, s') ->
  node_refs_ok s -> node_refs_ok s'.
Proof.
  intros Hsi E Hok.
  destruct (binder_inc_node_spec _ _ _ _ _ _ _ E)
    as (Hr & n & Hn & [[Hsame _]|(n' & Hn' & Hl & Hc & _)]).
  - exact (node_refs_ok_same _ _ Hr Hsame Hok).
  - rewrite Hsi in Hc. exact (node_refs_ok_node _ _ _ _ _ Hok Hn Hr Hn' Hl Hc).
Qed.

Lemma binder_dec_node_ok node strong internal s ret s' :
  strong && internal = false ->
  binder_dec_node node strong internal s = Ok (ret, s') ->
  node_refs_ok s -> node_refs_ok s'.
Proof.
  intros Hsi E Hok.
  destruct (binder_dec_node_spec _ _ _ _ _ _ E)
    as (Hr & n & n' & Hn & Hl & Hc & [Hn'|[Hempty Hn']]).
  - rewrite Hsi in Hc. exact (node_refs_ok_node _ _ _ _ _ Hok Hn Hr Hn' Hl Hc).
  - exact (node_refs_ok_node_deleted _ _ _ _ Hok Hn Hempty Hr Hn').
Qed.

Lemma binder_delete_ref_ok ref s u s' :
  binder_delete_ref ref s = Ok (u, s') ->
  node_refs_ok s -> node_refs_ok s' /\ refs s' = delete ref (refs s).
Proof.
  intros E Hok. unfold binder_delete_ref in E.
  apply M_bind_Ok in E as (r & s0 & E0 & E). apply get_ref_Ok in E0 as [Hr ->].
  apply M_bind_Ok in E as ([] & s1 & E1 & E). apply upd_proc_Ok in E1 as (p1 & _ & ->).
  apply M_bind_Ok in E as ([] & s2 & E2 & E). apply upd_proc_Ok in E2 as (p2 & _ & ->).
  apply M_bind_Ok in E as (ret3 & s3 & E3 & E).
  apply M_bind_Ok in E as ([] & s4 & E4 & E). apply upd_node_Ok in E4 as (n3 & Hn3 & ->).
  apply M_bind_Ok in E as (ret5 & s5 & E5 & E).
  apply M_bind_Ok in E as ([] & s6 & E6 & E). apply modify_Ok in E as ->.
  destruct (proj2 Hok ref r Hr) as [Hrange (n & Hn & Hin)].
  destruct (proj1 Hok _ n Hn) as (Hnd & Hmem & Hcount & Hbound).
  pose proof (strong_count_range (refs s) (n_refs n)) as Hpos.
  match type of E3 with
  | _ ?st = _ => assert (Hs2 : refs st = refs s /\ nodes st = nodes s)
                   by (split; reflexivity); set (s2 := st) in *
  end.
  destruct Hs2 as [Hr2 Hn2].
  assert (H3 : refs s3 = refs s /\
               nodes s3 = <[r_node r := n3]> (nodes s) /\
               n_refs n3 = n_refs n /\
               n_internal_strong_refs n3
               = n_internal_strong_refs n - (if r_strong r =? 0 then 0 else 1)).
  { destruct (r_strong r =? 0); cbn [negb] in E3.
    - apply M_ret_Ok in E3 as [_ ->].
      rewrite Hn2, Hn in Hn3. injection Hn3 as <-.
      rewrite insert_id by exact Hn. repeat split; auto. lia.
    - destruct (binder_dec_node_spec _ _ _ _ _ _ E3)
        as (Hr3 & n2 & n3' & Hn2' & Hl & Hc & [Hn3'|[Hempty _]]).
      + rewrite Hn2 in Hn2', Hn3'. rewrite Hn in Hn2'. injection Hn2' as <-.
        rewrite Hn3', lookup_insert_eq in Hn3. injection Hn3 as <-.
        split; [congruence|]. split; [exact Hn3'|]. split; [exact Hl|].
        rewrite Hc. cbn [andb]. apply int32_small. lia.
      + rewrite Hn2, Hn in Hn2'. injection Hn2' as <-.
        rewrite Hempty in Hin. inversion Hin. }
  destruct H3 as (Hr3 & Hnodes3 & Hl3 & Hc3).
  set (n4 := set_n_refs (remove_Z ref (n_refs n3)) n3) in *.
  match type of E5 with
  | _ ?st = _ => set (s4 := st) in *
  end.
  assert (Hn4 : nodes s4 = <[r_node r := n4]> (nodes s))
    by (unfold s4; cbn; rewrite Hnodes3, insert_insert_eq; reflexivity).
  assert (Hr4 : refs s4 = refs s) by exact Hr3.
  destruct (binder_dec_node_spec _ _ _ _ _ _ E5)
    as (Hr5 & n4' & n5 & Hn4' & Hl5 & Hc5 & Hn5).
  rewrite Hn4, lookup_insert_eq in Hn4'. injection Hn4' as <-.
  cbn [andb] in Hc5.
  assert (H6 : refs s6 = refs s5 /\ nodes s6 = nodes s5).
  { destruct (r_death r) as [death|].
    - apply M_bind_Ok in E6 as ([] & s7 & E7 & E6).
      apply modify_Ok in E6 as ->. unfold list_del, list_del_init in E7.
      apply modify_Ok in E7 as ->.
      destruct (entries s5 !! work_of_death death); split; reflexivity.
    - apply M_ret_Ok in E6 as [_ ->]. split; reflexivity. }
  destruct H6 as [Hr6 Hn6].
  assert (Hrefs' : refs (set_refs (delete ref (refs s6)) s6) = delete ref (refs s))
    by (cbn; rewrite Hr6, Hr5, Hr4; reflexivity).
  split; [|exact Hrefs'].
  apply (node_refs_ok_ref_deleted s _ ref r n Hok Hr Hn Hrefs').
  change (nodes (set_refs (delete ref (refs s6)) s6)) with (nodes s6).
  rewrite Hn6. destruct Hn5 as [Hn5|[Hempty Hn5]]; rewrite Hn5, Hn4.
  - left. exists n5. rewrite insert_insert_eq. split; [reflexivity|].
    rewrite Hl5, Hc5. unfold n4. cbn. rewrite Hl3. split; [reflexivity|exact Hc3].
  - right. unfold n4 in Hempty. cbn in Hempty. rewrite Hl3 in Hempty.
    split; [exact Hempty|]. apply delete_insert_eq.
Qed.

Lemma binder_dec_ref_ok ref strong s ret s' :
  binder_dec_ref ref strong s = Ok (ret, s') ->
  node_refs_ok s -> node_refs_ok s'.
Proof.
  intros E Hok. unfold binder_dec_ref in E.
  apply M_bind_Ok in E as (r & s0 & E0 & E). apply get_ref_Ok in E0 as [Hr ->].
  apply M_bind_Ok in E as (ret1 & s1 & E1 & E).
  destruct (proj2 Hok ref r Hr) as [Hrange (n & Hn & Hin)].
  destruct (proj1 Hok _ n Hn) as (Hnd & Hmem & Hcount & Hbound).
  pose proof (strong_count_range (refs s) (n_refs n)) as Hpos.
  assert (Hok1 : node_refs_ok s1).
  { destruct strong.
    - destruct (r_strong r =? 0) eqn:Hz.
      + apply M_bind_Ok in E1 as ([] & s2 & E2 & E1).
        apply binder_user_error_Ok in E2 as ->. apply M_ret_Ok in E1 as [_ ->].
        exact (node_refs_ok_same _ _ eq_refl eq_refl Hok).
      + apply Z.eqb_neq in Hz.
        apply M_bind_Ok in E1 as ([] & s2 & E2 & E1).
        apply upd_ref_Ok in E2 as (r0 & Hr0 & ->).
        rewrite Hr in Hr0. injection Hr0 as <-.
        apply M_bind_Ok in E1 as (r2 & s3 & E3 & E1).
        apply get_ref_Ok in E3 as [Hr2 ->]. cbn in Hr2.
        rewrite lookup_insert_eq in Hr2. injection Hr2 as <-.
        cbn [r_strong r_node set_r_strong] in E1.
        rewrite int32_small in E1 by lia.
        destruct (r_strong r - 1 =? 0) eqn:Hz1.
        * apply Z.eqb_eq in Hz1.
          destruct (binder_dec_node_spec _ _ _ _ _ _ E1)
            as (Hr3 & n0 & n' & Hn0 & Hl & Hc & [Hn'|[Hempty _]]).
          -- cbn in Hn0, Hn', Hr3. rewrite Hn in Hn0. injection Hn0 as <-.
             cbn [andb] in Hc. rewrite int32_small in Hc by lia.
             apply (node_refs_ok_ref s _ ref r _ n n' Hok Hr Hn Hr3); cbn;
               rewrite ?int32_small by lia; try lia; auto.
             rewrite Hc. replace (r_strong r - 1 =? 0) with true
               by (symmetry; apply Z.eqb_eq; lia).
             replace (r_strong r =? 0) with false by (symmetry; apply Z.eqb_neq; lia).
             lia.
          -- cbn in Hn0. rewrite Hn in Hn0. injection Hn0 as <-.
             rewrite Hempty in Hin. inversion Hin.
        * apply Z.eqb_neq in Hz1. apply M_ret_Ok in E1 as [_ ->].
          eapply (node_refs_ok_ref s _ ref r _ n n Hok Hr Hn); [reflexivity|..]; cbn;
            rewrite ?int32_small by lia; try lia; auto.
          -- rewrite insert_id by exact Hn. reflexivity.
          -- replace (r_strong r - 1 =? 0) with false
               by (symmetry; apply Z.eqb_neq; lia).
             replace (r_strong r =? 0) with false by (symmetry; apply Z.eqb_neq; lia).
             lia.
    - destruct (r_weak r =? 0).
      + apply M_bind_Ok in E1 as ([] & s2 & E2 & E1).
        apply binder_user_error_Ok in E2 as ->. apply M_ret_Ok in E1 as [_ ->].
        exact (node_refs_ok_same _ _ eq_refl eq_refl Hok).
      + apply M_bind_Ok in E1 as ([] & s2 & E2 & E1).
        apply upd_ref_Ok in E2 as (r0 & Hr0 & ->).
        rewrite Hr in Hr0. injection Hr0 as <-.
        apply M_ret_Ok in E1 as [_ ->].
        eapply (node_refs_ok_ref s _ ref r _ n n Hok Hr Hn); [reflexivity|..]; cbn;
          try lia; auto.
        rewrite insert_id by exact Hn. reflexivity. }
  clear E1. destruct (negb (ret1 =? 0)).
  - apply M_ret_Ok in E as [_ ->]. exact Hok1.
  - apply M_bind_Ok in E as (r3 & s2 & E2 & E). apply get_ref_Ok in E2 as [_ ->].
    apply M_bind_Ok in E as ([] & s3 & E3 & E). apply M_ret_Ok in E as [_ ->].
    unfold when in E3. destruct (_ && _).
    + exact (proj1 (binder_delete_ref_ok _ _ _ _ E3 Hok1)).
    + apply M_ret_Ok in E3 as [_ ->]. exact Hok1.
Qed.

Lemma binder_inc_ref_ok ref strong target s ret s' r n :
  refs s !! ref = Some r -> nodes s !! r_node r = Some n ->
  r_strong r < 2 ^ 31 - 1 -> n_internal_strong_refs n < 2 ^ 31 - 1 ->
  binder_inc_ref ref strong target s = Ok (ret, s') ->
  node_refs_ok s -> node_refs_ok s'.
Proof.
  intros Hr Hn Hmax Hnmax E Hok. unfold binder_inc_ref in E.
  apply M_bind_Ok in E as (r0 & s0 & E0 & E). apply get_ref_Ok in E0 as [Hr0 ->].
  rewrite Hr in Hr0. injection Hr0 as <-.
  destruct (proj2 Hok ref r Hr) as [Hrange (n0 & Hn0 & Hin)].
  rewrite Hn in Hn0. injection Hn0 as <-.
  destruct (proj1 Hok _ n Hn) as (Hnd & Hmem & Hcount & Hbound).
  pose proof (strong_count_range (refs s) (n_refs n)) as Hpos.
  destruct strong.
  - apply M_bind_Ok in E as (ret1 & s1 & E1 & E).
    destruct (r_strong r =? 0) eqn:Hz.
    + apply Z.eqb_eq in Hz.
      destruct (binder_inc_node_spec _ _ _ _ _ _ _ E1)
        as (Hr1 & n0 & Hn0 & [[Hsame Hret]|(n' & Hn' & Hl & Hc & Hret)]).
      * specialize (Hret eq_refl). apply Z.eqb_neq in Hret. rewrite Hret in E.
        apply M_ret_Ok in E as [_ ->].
        exact (node_refs_ok_same _ _ Hr1 Hsame Hok).
      * specialize (Hret eq_refl). subst ret1. cbn [Z.eqb negb] in E.
        apply M_bind_Ok in E as ([] & s2 & E2 & E). apply M_ret_Ok in E as [_ ->].
        apply upd_ref_Ok in E2 as (r1 & Hr1' & ->).
        rewrite Hr1, Hr in Hr1'. injection Hr1' as <-.
        rewrite Hn in Hn0. injection Hn0 as <-. cbn [andb] in Hc.
        rewrite int32_small in Hc by lia.
        eapply (node_refs_ok_ref s _ ref r _ n n' Hok Hr Hn).
        -- cbn. rewrite Hr1. reflexivity.
        -- reflexivity.
        -- cbn. rewrite int32_small by lia. lia.
        -- exact Hn'.
        -- exact Hl.
        -- cbn [r_strong set_r_strong]. rewrite Hz. change (int32 (0 + 1)) with 1.
           rewrite Hc. cbn. lia.
        -- lia.
    + apply Z.eqb_neq in Hz. apply M_ret_Ok in E1 as [-> ->]. cbn [Z.eqb negb] in E.
      apply M_bind_Ok in E as ([] & s2 & E2 & E). apply M_ret_Ok in E as [_ ->].
      apply upd_ref_Ok in E2 as (r1 & Hr1' & ->).
      rewrite Hr in Hr1'. injection Hr1' as <-.
      eapply (node_refs_ok_ref s _ ref r _ n n Hok Hr Hn); [reflexivity|..]; cbn;
        rewrite ?int32_small by lia; try lia; auto.
      * rewrite insert_id by exact Hn. reflexivity.
      * replace (r_strong r + 1 =? 0) with false by (symmetry; apply Z.eqb_neq; lia).
        replace (r_strong r =? 0) with false by (symmetry; apply Z.eqb_neq; lia).
        lia.
  - apply M_bind_Ok in E as (ret1 & s1 & E1 & E).
    assert (Hok1 : node_refs_ok s1 /\ refs s1 = refs s /\
                   exists n1, nodes s1 !! r_node r = Some n1).
    { destruct (r_weak r =? 0).
      - pose proof (binder_inc_node_ok _ false true _ _ _ _ eq_refl E1 Hok) as Hok1.
        destruct (binder_inc_node_spec _ _ _ _ _ _ _ E1)
          as (Hr1 & n0 & Hn0 & [[Hsame _]|(n' & Hn' & _)]).
        + split; [exact Hok1|]. split; [exact Hr1|]. rewrite Hsame. eauto.
        + split; [exact Hok1|]. split; [exact Hr1|]. rewrite Hn', lookup_insert_eq. eauto.
      - apply M_ret_Ok in E1 as [_ ->]. eauto. }
    destruct Hok1 as (Hok1 & Hr1 & n1 & Hn1).
    destruct (negb (ret1 =? 0)).
    + apply M_ret_Ok in E as [_ ->]. exact Hok1.
    + apply M_bind_Ok in E as ([] & s2 & E2 & E). apply M_ret_Ok in E as [_ ->].
      apply upd_ref_Ok in E2 as (r1 & Hr1' & ->).
      rewrite Hr1, Hr in Hr1'. injection Hr1' as <-.
      assert (Hr1'' : refs s1 !! ref = Some r) by (rewrite Hr1; exact Hr).
      destruct (proj1 Hok1 _ n1 Hn1) as (_ & _ & _ & Hb1).
      eapply (node_refs_ok_ref s1 _ ref r _ n1 n1 Hok1 Hr1'' Hn1); [reflexivity|..]; cbn;
        try lia; auto.
      rewrite insert_id by exact Hn1. reflexivity.
Qed.

Lemma binder_get_ref_for_node_ok proc node s x s' :
  refs s !! next_ptr s = None ->
  binder_get_ref_for_node proc node s = Ok (x, s') ->
  node_refs_ok s -> node_refs_ok s'.
Proof.
  unfold binder_get_ref_for_node. intros Hfresh E Hok.
  apply M_bind_Ok in E as (p & s0 & Ep & E). apply get_proc_Ok in Ep as [Ep ->].
  apply M_bind_Ok in E as (existing & s0 & Ef & E).
  pose proof (reads_keep_state _ (find_ref_by_node_preserves _ _ _) _ _ _ Ef) as ->.
  destruct existing as [ref|].
  { apply M_ret_Ok in E as [_ ->]. exact Hok. }
  apply M_bind_Ok in E as (a & s1 & Ek & E).
  apply kzalloc_Ok in Ek as (script & [[-> ->]|[-> ->]]).
  { apply M_ret_Ok in E as [_ ->]. exact (node_refs_ok_same _ _ eq_refl eq_refl Hok). }
  apply M_bind_Ok in E as (id & s2 & Ei & E). apply next_debug_id_Ok in Ei as ->.
  apply M_bind_Ok in E as (s3 & s4 & Eg & E). apply get_state_Ok in Eg as [-> ->].
  apply M_bind_Ok in E as (desc & s5 & Es & E).
  pose proof (reads_keep_state _ (scan_desc_preserves _ _ _) _ _ _ Es) as ->.
  apply M_bind_Ok in E as ([] & s6 & Em & E). apply modify_Ok in Em as ->.
  apply M_bind_Ok in E as ([] & s7 & Eu & E). apply upd_proc_Ok in Eu as (x1 & _ & ->).
  apply M_bind_Ok in E as (by_desc & s8 & Eb & E).
  pose proof (reads_keep_state _ (insert_ref_by_desc_preserves _ _ _ _) _ _ _ Eb) as ->.
  apply M_bind_Ok in E as ([] & s9 & Eu & E). apply upd_proc_Ok in Eu as (x2 & _ & ->).
  apply M_bind_Ok in E as ([] & s10 & Eu & E). apply upd_node_Ok in Eu as (n & Hn & ->).
  apply M_ret_Ok in E as [_ ->]. cbn in Hn.
  eapply (node_refs_ok_ref_added s _ (next_ptr s) _ node n Hok Hfresh Hn);
    reflexivity.
Qed.

(** Strong references are counted.  While [node->refs] holds each reference
    to a node once and [internal_strong_refs] is the number of those with a
    strong count, this stays so: through [binder_inc_ref] when neither count
    is at its largest value, through [binder_dec_ref] and
    [binder_delete_ref], which takes the reference out of the table, through
    [binder_get_ref_for_node] when the address handed out is not in use, and
    through [binder_inc_node] and [binder_dec_node] for a local reference.
    A node is only freed when no reference is left on its list. *)
Theorem strong_refs_counted s :
  node_refs_ok s ->
  (forall ref strong target ret s' r n,
     refs s !! ref = Some r -> nodes s !! r_node r = Some n ->
     r_strong r < 2 ^ 31 - 1 -> n_internal_strong_refs n < 2 ^ 31 - 1 ->
     binder_inc_ref ref strong target s = Ok (ret, s') -> node_refs_ok s') /\
  (forall ref strong ret s',
     binder_dec_ref ref strong s = Ok (ret, s') -> node_refs_ok s') /\
  (forall ref u s',
     binder_delete_ref ref s = Ok (u, s') ->
     node_refs_ok s' /\ refs s' = delete ref (refs s)) /\
  (forall proc node x s',
     refs s !! next_ptr s = None ->
     binder_get_ref_for_node proc node s = Ok (x, s') -> node_refs_ok s') /\
  (forall node strong target ret s',
     binder_inc_node node strong false target s = Ok (ret, s') -> node_refs_ok s') /\
  (forall node strong ret s',
     binder_dec_node node strong false s = Ok (ret, s') ->
     node_refs_ok s' /\
     forall n, nodes s !! node = Some n -> nodes s' !! node = None -> n_refs n = []).
Proof.
  intros Hok. split; [|split; [|split; [|split; [|split]]]].
  - intros ref strong target ret s' r n Hr Hn H1 H2 E.
    exact (binder_inc_ref_ok _ _ _ _ _ _ _ _ Hr Hn H1 H2 E Hok).
  - intros ref strong ret s' E. exact (binder_dec_ref_ok _ _ _ _ _ E Hok).
  - intros ref u s' E. exact (binder_delete_ref_ok _ _ _ _ E Hok).
  - intros proc node x s' Hfresh E.
    exact (binder_get_ref_for_node_ok _ _ _ _ _ Hfresh E Hok).
  - intros node strong target ret s' E.
    apply (binder_inc_node_ok _ strong false _ _ _ _ (andb_false_r _) E Hok).
  - intros node strong ret s' E. split.
    + apply (binder_dec_node_ok _ strong false _ _ _ (andb_false_r _) E Hok).
    + intros n Hn Hgone.
      destruct (binder_dec_node_spec _ _ _ _ _ _ E)
        as (_ & n0 & n' & Hn0 & _ & _ & [Hn'|[Hempty _]]).
      * rewrite Hn', lookup_insert_eq in Hgone. discriminate Hgone.
      * rewrite Hn in Hn0. injection Hn0 as <-. exact Hempty.
Qed.

Lemma witness_refs_counted : node_refs_ok witness_refs.
Proof.
  split.
  - intros node n Hn. unfold witness_refs in Hn. cbn in Hn.
    apply lookup_insert_Some in Hn as [[<- <-]|[_ Hn]];
      [|rewrite lookup_empty in Hn; discriminate Hn].
    cbn. split; [apply NoDup_singleton|]. split; [|split; [reflexivity|lia]].
    intros ref Hin. apply list_elem_of_singleton in Hin as ->.
    eexists. split; [apply lookup_insert_eq|reflexivity].
  - intros ref r Hr. unfold witness_refs in Hr. cbn in Hr.
    apply lookup_insert_Some in Hr as [[<- <-]|[_ Hr]];
      [|rewrite lookup_empty in Hr; discriminate Hr].
    cbn. split; [lia|]. eexists. split; [apply lookup_insert_eq|].
    cbn. apply list_elem_of_singleton. reflexivity.
Qed.

Lemma strong_refs_counted_witness :
  node_refs_ok witness_refs /\
  exists s',
    binder_inc_ref 0x400 true (Some (thread_todo 0x200)) witness_refs = Ok (0, s') /\
    node_refs_ok s' /\
    (exists r n, refs s' !! 0x400 = Some r /\ r_strong r = 1 /\
                 nodes s' !! 0x300 = Some n /\ n_internal_strong_refs n = 1).
Proof.
  split; [exact witness_refs_counted|].
  destruct (strong_refs_counted witness_refs witness_refs_counted) as (Hinc & _).
  destruct (binder_inc_ref 0x400 true (Some (thread_todo 0x200)) witness_refs)
    as [[ret s']| | |] eqn:E; try (vm_compute in E; discriminate E).
  destruct (refs witness_refs !! 0x400) as [r|] eqn:Hr;
    [|vm_compute in Hr; discriminate Hr].
  destruct (nodes witness_refs !! r_node r) as [n|] eqn:Hn;
    [|vm_compute in Hr; injection Hr as <-; vm_compute in Hn; discriminate Hn].
  assert (Hok' : node_refs_ok s').
  { apply (Hinc 0x400 true (Some (thread_todo 0x200)) ret s' r n Hr Hn).
    - vm_compute in Hr. injection Hr as <-. cbn. lia.
    - vm_compute in Hr. injection Hr as <-. vm_compute in Hn. injection Hn as <-.
      cbn. lia.
    - exact E. }
  vm_compute in E. injection E as <- <-.
  eexists. split; [reflexivity|]. split; [exact Hok'|].
  eexists _, _. split; [vm_compute; reflexivity|]. split; [reflexivity|].
  split; [vm_compute; reflexivity|reflexivity].
Defined.
(** ** The first calls of a looper thread *)

Section startup.
Context `{layout}.
Variables (proc pid euid size : Z).

(** [binder_get_thread] for a pid the process has no thread for, when there
    is memory. *)
Lemma binder_get_thread_new s p :
  procs s !! proc = Some p ->
  (forall a, In a (p_threads p) -> exists y, threads s !! a = Some y /\ th_pid y <> pid) ->
  head (kzalloc_script s) <> Some false ->
  let t := next_ptr s in
  let s1 := set_kzalloc (t + 1) (tail (kzalloc_script s)) s in
  let s2 := set_threads
              (<[t := mk_binder_thread proc pid BINDER_LOOPER_STATE_NEED_RETURN
                        None BR_OK BR_OK]> (threads s1)) s1 in
  binder_get_thread proc pid s
  = Ok (Some t,
        set_procs
          (<[proc := set_p_threads (insert_by_key (thread_pid_of s2) t (p_threads p)) p]>
             (procs s2)) s2).
Proof.
  intros Hp Hall Hmem t s1 s2.
  destruct (find_thread_total pid s (p_threads p)) as (q & Ef & Hq).
  { intros a Ha. destruct (Hall a Ha) as (y & Hy & _). eauto. }
  destruct q as [a|].
  { destruct Hq as (Hin & th & Hth & Hpid). destruct (Hall a Hin) as (y & Hy & Hne).
    congruence. }
  unfold binder_get_thread.
  rewrite (M_bind_Ok_intro _ _ _ _ _ (get_proc_run _ _ _ Hp)).
  rewrite (M_bind_Ok_intro _ _ _ _ _ Ef).
  assert (Ek : kzalloc s = Ok (Some t, s1)).
  { unfold kzalloc, s1, t. destruct (kzalloc_script s) as [|[] rest]; try reflexivity.
    exfalso. apply Hmem. reflexivity. }
  rewrite (M_bind_Ok_intro _ _ _ _ _ Ek).
  rewrite (M_bind_Ok_intro _ _ _ _ _ (modify_run _ s1)). fold s2.
  rewrite (M_bind_Ok_intro _ _ _ _ _ (get_state_run s2)).
  assert (Hp2 : procs s2 !! proc = Some p) by exact Hp.
  rewrite (M_bind_Ok_intro _ _ _ _ _ (upd_proc_run _ _ _ _ Hp2)).
  reflexivity.
Qed.

(** The first calls of a looper thread.  The first BINDER_WRITE_READ of a
    thread the process does not know, with BC_ENTER_LOOPER to write and room
    to read, in a process with nothing to do that wants no more threads:
    the thread is created, the command is consumed, and the read returns at
    once with BR_NOOP alone, because a new thread is marked NEED_RETURN; on
    the way out the mark is cleared, so the thread is left as an entered
    looper.  The next read of the same thread finds it and goes to sleep,
    marked WAITING and counted as a ready thread. *)
Theorem looper_startup s p fuel e w0 buffer :
  procs s !! proc = Some p ->
  (forall a, In a (p_threads p) -> exists y, threads s !! a = Some y /\ th_pid y <> pid) ->
  threads s !! next_ptr s = None ->
  head (kzalloc_script s) <> Some false ->
  binder_stop_on_user_error s < 2 ->
  list_of s (thread_todo (next_ptr s)) = [] -> list_of s (proc_todo proc) = [] ->
  p_max_threads p <= p_requested_threads_started p ->
  0 < size ->
  let thread := next_ptr s in
  let enter := mk_binder_write_read 4 0 [BC_ENTER_LOOPER] size 0 (w0 :: buffer) in
  let read := mk_binder_write_read 0 0 [] size 0 (w0 :: buffer) in
  exists s1 s2 p2 th2,
    binder_ioctl proc pid euid (BINDER_WRITE_READ enter) (S (S fuel)) false false e s
    = Ok (ioctl_returned 0
            (Some (mk_binder_write_read 4 4 [BC_ENTER_LOOPER] size 4
                     (BR_NOOP :: buffer))), s1) /\
    threads s1 !! thread
    = Some (mk_binder_thread proc pid BINDER_LOOPER_STATE_ENTERED None BR_OK BR_OK) /\
    binder_ioctl proc pid euid (BINDER_WRITE_READ read) (S (S fuel)) false false e s1
    = Ok (ioctl_sleeping (mk_binder_write_read 0 0 [] size 0 (BR_NOOP :: buffer)) 4 true,
          s2) /\
    threads s2 !! thread = Some th2 /\
    has_flag (th_looper th2) BINDER_LOOPER_STATE_WAITING = true /\
    procs s2 !! proc = Some p2 /\
    p_ready_threads p2 = int32 (int32 (int32 (p_ready_threads p + 1) - 1) + 1).
Proof.
  intros Hp Hall Hfresh Hmem Hstop Htodo Hptodo Hmax Hsize thread enter read.
  assert (Hstop' : (2 <=? binder_stop_on_user_error s) = false) by (apply Z.leb_gt; lia).
  assert (Hsize' : (0 <? size) = true) by (apply Z.ltb_lt; lia).
  (* the thread is created *)
  pose proof (binder_get_thread_new s p Hp Hall Hmem) as Eg. cbv zeta in Eg.
  fold thread in Eg.
  set (th0 := mk_binder_thread proc pid BINDER_LOOPER_STATE_NEED_RETURN None BR_OK BR_OK)
    in *.
  set (sa := set_kzalloc (thread + 1) (tail (kzalloc_script s)) s) in *.
  set (sb := set_threads (<[thread := th0]> (threads sa)) sa) in *.
  set (p3 := set_p_threads (insert_by_key (thread_pid_of sb) thread (p_threads p)) p) in *.
  set (s3 := set_procs (<[proc := p3]> (procs sb)) sb) in *.
  assert (Hth3 : threads s3 !! thread = Some th0) by apply lookup_insert_eq.
  assert (Hp3 : procs s3 !! proc = Some p3) by apply lookup_insert_eq.
  (* BC_ENTER_LOOPER *)
  set (th1 := set_th_looper (Z.lor (th_looper th0) BINDER_LOOPER_STATE_ENTERED) th0).
  set (s4 := set_threads (<[thread := th1]> (threads s3)) s3).
  assert (Hth4 : threads s4 !! thread = Some th1) by apply lookup_insert_eq.
  assert (Hp4 : procs s4 !! proc = Some p3) by exact Hp3.
  assert (Ew : binder_thread_write proc thread [BC_ENTER_LOOPER] 4 0 e s3
               = Ok ((0, 4), s4)).
  { cbn [binder_thread_write].
    rewrite (M_bind_Ok_intro _ _ _ _ _ (get_thread_run _ _ _ Hth3)).
    change ((0 <? 4) && (th_return_error th0 =? BR_OK)) with true. cbv iota.
    assert (Ec : binder_command proc thread BC_ENTER_LOOPER e s3 = Ok (None, s4)).
    { unfold binder_command.
      rewrite (M_bind_Ok_intro _ _ _ _ _ (get_thread_run _ _ _ Hth3)).
      change (has_flag (th_looper th0) BINDER_LOOPER_STATE_REGISTERED) with false.
      cbn [when]. rewrite (M_bind_Ok_intro _ _ _ _ _ (mret_run _ _)).
      rewrite (M_bind_Ok_intro _ _ _ _ _ (upd_thread_run _ _ _ _ Hth3)).
      reflexivity. }
    rewrite (M_bind_Ok_intro _ _ _ _ _ Ec). cbv iota.
    rewrite (M_bind_Ok_intro _ _ _ _ _ (get_thread_run _ _ _ Hth4)).
    reflexivity. }
  (* the first read returns at once: the thread is marked NEED_RETURN *)
  assert (Hlists : forall st l, lists st = lists s -> list_of st l = list_of s l)
    by (intros st l Hst; unfold list_of; rewrite Hst; reflexivity).
  pose proof (read_without_work_run proc thread size false false fuel w0 buffer s4 p3 th1
                Hp4 Hth4 (eq_trans (Hlists s4 _ eq_refl) Htodo)
                (eq_trans (Hlists s4 _ eq_refl) Hptodo) eq_refl eq_refl eq_refl) as Er.
  cbv zeta in Er.
  change (has_flag (th_looper th1) BINDER_LOOPER_STATE_NEED_RETURN) with true in Er.
  cbv iota in Er.
  match type of Er with
  | _ = read_done _ _ _ _ ?st => set (s5 := st) in *
  end.
  assert (Hth5 : threads s5 !! thread
                 = Some (mk_binder_thread proc pid
                           (Z.lor BINDER_LOOPER_STATE_NEED_RETURN BINDER_LOOPER_STATE_ENTERED)
                           None BR_OK BR_OK))
    by (unfold s5; cbn; apply lookup_insert_eq).
  set (p5 := set_p_ready_threads (int32 (int32 (p_ready_threads p3 + 1) - 1))
               (set_p_ready_threads (int32 (p_ready_threads p3 + 1)) p3)).
  assert (Hp5 : procs s5 !! proc = Some p5)
    by (unfold s5; cbn; apply lookup_insert_eq).
  assert (Hspawn : forall th, spawn_condition p5 th = false).
  { intros th. unfold spawn_condition.
    assert (Hlt : (p_requested_threads_started p5 <? p_max_threads p5) = false)
      by (apply Z.ltb_ge; exact Hmax).
    rewrite Hlt, andb_false_r. reflexivity. }
  rewrite (read_done_run proc thread 4 _ s5 p5 _ Hp5 Hth5), Hspawn in Er.
  (* the way out clears NEED_RETURN *)
  set (th6 := mk_binder_thread proc pid BINDER_LOOPER_STATE_ENTERED None BR_OK BR_OK).
  set (s6 := set_threads (<[thread := th6]> (threads s5)) s5).
  assert (E1 : binder_ioctl proc pid euid (BINDER_WRITE_READ enter) (S (S fuel))
                 false false e s
               = Ok (ioctl_returned 0
                       (Some (mk_binder_write_read 4 4 [BC_ENTER_LOOPER] size 4
                                (BR_NOOP :: buffer))), s6)).
  { unfold binder_ioctl.
    rewrite (M_bind_Ok_intro _ _ _ _ _ (get_state_run s)). rewrite Hstop'.
    rewrite (M_bind_Ok_intro _ _ _ _ _ (mret_run _ _)).
    rewrite (M_bind_Ok_intro _ _ _ _ _ Eg). cbv iota. unfold enter.
    cbn [write_size write_buffer write_consumed read_size read_consumed read_buffer].
    change (0 <? 4) with true. cbv iota.
    rewrite M_bind_assoc. rewrite (M_bind_Ok_intro _ _ _ _ _ Ew). cbv beta iota.
    rewrite (M_bind_Ok_intro _ _ _ _ _ (mret_run _ _)). cbv beta iota.
    cbn [write_size write_buffer write_consumed read_size read_consumed read_buffer].
    change (0 <? 0) with false. cbv iota.
    cbn [write_size write_buffer write_consumed read_size read_consumed read_buffer].
    rewrite Hsize'.
    rewrite (M_bind_Ok_intro _ _ _ _ _ Er).
    unfold ioctl_after_read.
    rewrite (M_bind_Ok_intro _ _ _ _ _ (list_empty_run _ _)).
    rewrite (Hlists s5 _ eq_refl), Hptodo.
    rewrite bool_decide_eq_true_2 by reflexivity. cbn [negb when].
    rewrite (M_bind_Ok_intro _ _ _ _ _ (mret_run _ _)).
    unfold ioctl_leave.
    rewrite (M_bind_Ok_intro _ _ _ _ _ (upd_thread_run _ _ _ _ Hth5)).
    reflexivity. }
  (* the second call finds the thread and goes to sleep *)
  assert (Hth6 : threads s6 !! thread = Some th6) by apply lookup_insert_eq.
  assert (Hp6 : procs s6 !! proc = Some p5) by exact Hp5.
  assert (Eg2 : binder_get_thread proc pid s6 = Ok (Some thread, s6)).
  { unfold binder_get_thread.
    rewrite (M_bind_Ok_intro _ _ _ _ _ (get_proc_run _ _ _ Hp6)).
    assert (Ef : find_thread pid (p_threads p5) s6 = Ok (Some thread, s6)).
    { apply (find_thread_inserted _ pid thread th6); [exact Hth6|reflexivity|].
      intros a Ha. destruct (Hall a Ha) as (y & Hy & Hne). exists y.
      split; [|exact Hne].
      assert (Hat : a <> thread) by (intros ->; unfold thread in Hy; congruence).
      unfold s6, s5, s4, s3, sb. cbn.
      rewrite !lookup_insert_ne by congruence. exact Hy. }
    rewrite (M_bind_Ok_intro _ _ _ _ _ Ef). reflexivity. }
  pose proof (read_without_work_run proc thread size false false fuel w0 buffer s6 p5 th6
                Hp6 Hth6 (eq_trans (Hlists s6 _ eq_refl) Htodo)
                (eq_trans (Hlists s6 _ eq_refl) Hptodo) eq_refl eq_refl eq_refl) as Er2.
  cbv zeta in Er2.
  change (has_flag (th_looper th6) BINDER_LOOPER_STATE_NEED_RETURN) with false in Er2.
  cbv iota in Er2.
  match type of Er2 with
  | _ = Ok (_, ?st) => set (s7 := st) in *
  end.
  exists s6, s7. eexists _, _. split; [exact E1|]. split; [exact Hth6|]. split.
  { unfold binder_ioctl.
    rewrite (M_bind_Ok_intro _ _ _ _ _ (get_state_run s6)).
    change (binder_stop_on_user_error s6) with (binder_stop_on_user_error s).
    rewrite Hstop'.
    rewrite (M_bind_Ok_intro _ _ _ _ _ (mret_run _ _)).
    rewrite (M_bind_Ok_intro _ _ _ _ _ Eg2). cbv iota. unfold read.
    cbn [write_size write_buffer write_consumed read_size read_consumed read_buffer].
    change (0 <? 0) with false. cbv iota.
    rewrite (M_bind_Ok_intro _ _ _ _ _ (mret_run _ _)). cbv beta iota.
    change (0 <? 0) with false. cbv iota.
    cbn [write_size write_buffer write_consumed read_size read_consumed read_buffer].
    rewrite Hsize'.
    rewrite (M_bind_Ok_intro _ _ _ _ _ Er2). reflexivity. }
  split; [unfold s7; cbn; apply lookup_insert_eq|].
  split; [reflexivity|].
  split; [unfold s7; cbn; apply lookup_insert_eq|]. reflexivity.
Qed.

End startup.

Lemma looper_startup_witness :
  exists s1 s2,
    @binder_ioctl ilp32_layout 0x100 7 0
      (BINDER_WRITE_READ (mk_binder_write_read 4 0 [BC_ENTER_LOOPER] 64 0 [0; 0]))
      2 false false 0 witness_files
    = Ok (ioctl_returned 0
            (Some (mk_binder_write_read 4 4 [BC_ENTER_LOOPER] 64 4 [BR_NOOP; 0])), s1) /\
    @binder_ioctl ilp32_layout 0x100 7 0
      (BINDER_WRITE_READ (mk_binder_write_read 0 0 [] 64 0 [0; 0]))
      2 false false 0 s1
    = Ok (ioctl_sleeping (mk_binder_write_read 0 0 [] 64 0 [BR_NOOP; 0]) 4 true, s2).
Proof.
  destruct (procs witness_files !! 0x100) as [p|] eqn:Hp;
    [|vm_compute in Hp; discriminate Hp].
  assert (Hthreads : p_threads p = [])
    by (vm_compute in Hp; injection Hp as <-; reflexivity).
  assert (Hmax : p_max_threads p <= p_requested_threads_started p)
    by (vm_compute in Hp; injection Hp as <-; cbn; lia).
  destruct (@looper_startup ilp32_layout 0x100 7 0 64 witness_files p 0 0 0 [0] Hp)
    as (s1 & s2 & p2 & th2 & E1 & _ & E2 & _).
  - intros a Ha. rewrite Hthreads in Ha. destruct Ha.
  - reflexivity.
  - discriminate.
  - cbn. lia.
  - reflexivity.
  - reflexivity.
  - exact Hmax.
  - lia.
  - exists s1, s2. split; [exact E1|exact E2].
Defined.
(** * Failed replies: [binder_send_failed_reply] and [binder_pop_transaction] *)

Lemma reply_path_det s t g1 r1 g2 r2 :
  reply_path s t g1 r1 -> reply_path s t g2 r2 -> g1 = g2 /\ r1 = r2.
Proof.
  intros P1. revert g2 r2.
  induction P1 as [t x th Hx Hf|t x Hx Hf Hp|t x t' gone target Hx Hf Hp P IH];
    intros g2 r2 P2; inversion P2; subst; try (split; reflexivity); try congruence.
  assert (t'0 = t') by congruence. subst t'0.
  destruct (IH _ _ H2) as [-> ->]. split; reflexivity.
Qed.

Lemma reply_path_suffix s t g r d :
  reply_path s t g r -> d ∈ g ->
  exists g', reply_path s d g' r /\ (length g' <= length g)%nat.
Proof.
  induction 1 as [t x th Hx Hf|t x Hx Hf Hp|t x t' gone target Hx Hf Hp P IH];
    intros Hd.
  - apply elem_of_nil in Hd. destruct Hd.
  - apply list_elem_of_singleton in Hd. subst d.
    exists [t]. split; [eapply reply_path_root; eauto|simpl; lia].
  - apply elem_of_cons in Hd. destruct Hd as [->|Hd].
    + exists (t :: gone). split; [eapply reply_path_gone; eauto|simpl; lia].
    + destruct (IH Hd) as (g' & P' & L). exists g'. split; [exact P'|simpl; lia].
Qed.

Lemma reply_path_gone_from s t g r d :
  reply_path s t g r -> d ∈ g ->
  exists x, transactions s !! d = Some x /\ t_from x = None.
Proof.
  induction 1 as [t x th Hx Hf|t x Hx Hf Hp|t x t' gone target Hx Hf Hp P IH];
    intros Hd.
  - apply elem_of_nil in Hd. destruct Hd.
  - apply list_elem_of_singleton in Hd. subst d. eauto.
  - apply elem_of_cons in Hd. destruct Hd as [->|Hd]; eauto.
Qed.

Lemma reply_path_target s t g tl :
  reply_path s t g (Some tl) ->
  exists y th, transactions s !! tl = Some y /\ t_from y = Some th.
Proof.
  intros P. remember (Some tl) as r eqn:Hr.
  induction P as [t x th Hx Hf|t x Hx Hf Hp|t x t' gone target Hx Hf Hp P IH].
  - injection Hr as ->. eauto.
  - discriminate.
  - auto.
Qed.

Lemma reply_path_fresh s t x t' gone target :
  transactions s !! t = Some x -> t_from x = None ->
  t_from_parent x = Some t' -> reply_path s t' gone target ->
  (t ∉ gone) /\ Some t <> target.
Proof.
  intros Hx Hf Hp P. split.
  - intros Hd. destruct (reply_path_suffix _ _ _ _ _ P Hd) as (g' & P' & L).
    assert (P2 : reply_path s t (t :: gone) target)
      by (eapply reply_path_gone; eauto).
    destruct (reply_path_det _ _ _ _ _ _ P' P2) as [-> _]. simpl in L. lia.
  - intros <-. destruct (reply_path_target _ _ _ _ P) as (y & th & Hy & Hfy).
    congruence.
Qed.

Lemma reply_path_frame s s2 t g r :
  reply_path s t g r ->
  (forall d, d ∈ g \/ Some d = r -> transactions s2 !! d = transactions s !! d) ->
  reply_path s2 t g r.
Proof.
  induction 1 as [t x th Hx Hf|t x Hx Hf Hp|t x t' gone target Hx Hf Hp P IH];
    intros Hsame.
  - eapply reply_path_sender; [|exact Hf]. rewrite Hsame; auto.
  - eapply reply_path_root; [|exact Hf|exact Hp].
    rewrite Hsame; auto. left. apply elem_of_cons. auto.
  - eapply reply_path_gone; [|exact Hf|exact Hp|].
    + rewrite Hsame; auto. left. apply elem_of_cons. auto.
    + apply IH. intros d [Hd| Hd]; apply Hsame; auto.
      left. apply elem_of_cons. auto.
Qed.

Lemma buffer_at_upd s b f p bb b0 :
  (forall x, b_addr (f x) = b_addr x) ->
  procs s !! fst b = Some p ->
  buffer_at s b0 = Some bb ->
  buffer_at
    (set_procs
       (<[fst b := set_p_buffers (update_buffer (snd b) f (p_buffers p)) p]>
          (procs s)) s) b0
  = Some (if bool_decide (b0 = b) then f bb else bb).
Proof.
  intros Hf Hp Hb. unfold buffer_at in *. state_simpl.
  destruct b as [bp ba], b0 as [bp0 ba0]. simpl in *.
  destruct (decide (bp0 = bp)) as [->|Hne].
  - rewrite lookup_insert_eq. rewrite Hp in Hb. simpl.
    destruct (decide (ba0 = ba)) as [->|Hna].
    + rewrite bool_decide_eq_true_2 by reflexivity.
      apply find_update_same; assumption.
    + rewrite bool_decide_eq_false_2 by congruence.
      rewrite find_update_other by assumption. exact Hb.
  - rewrite lookup_insert_ne by congruence.
    rewrite bool_decide_eq_false_2 by congruence. exact Hb.
Qed.

Lemma upd_buffer_run s b f bb :
  buffer_at s b = Some bb ->
  exists p, procs s !! fst b = Some p /\
    upd_buffer b f s
    = Ok (tt, set_procs
                (<[fst b := set_p_buffers (update_buffer (snd b) f (p_buffers p)) p]>
                   (procs s)) s).
Proof.
  unfold buffer_at. intros Hb.
  destruct (procs s !! fst b) as [p|] eqn:Hp; [|discriminate].
  exists p. split; [reflexivity|].
  unfold upd_buffer, get_buffer. mrun.
  rewrite (upd_proc_run _ _ p s Hp). reflexivity.
Qed.

(** What [binder_pop_transaction] does to a transaction without sender. *)
Lemma binder_pop_transaction_gone s t x :
  transactions s !! t = Some x ->
  (forall b, t_buffer x = Some b -> is_Some (buffer_at s b)) ->
  exists s2, binder_pop_transaction None t s = Ok (tt, s2) /\
    transactions s2 = delete t (transactions s) /\
    threads s2 = threads s /\ wakeups s2 = wakeups s /\
    (forall b bb, buffer_at s b = Some bb ->
       exists bb', buffer_at s2 b = Some bb' /\
         (b_transaction bb = None \/ t_buffer x = Some b ->
          b_transaction bb' = None)).
Proof.
  intros Hx Hb. unfold binder_pop_transaction.
  destruct (t_buffer x) as [b|] eqn:Eb.
  - destruct (Hb b eq_refl) as [bb Hbb].
    destruct (upd_buffer_run
                (set_transactions (<[t := set_t_need_reply false x]> (transactions s)) s)
                b (set_b_transaction None) bb Hbb) as (p & Hp & Hrun).
    eexists. split; [|split; [|split; [|split]]].
    + mrun. simpl. rewrite Eb. mrun. reflexivity.
    + state_simpl. apply delete_insert_eq.
    + state_simpl. reflexivity.
    + state_simpl. reflexivity.
    + intros b0 bb0 H0. state_simpl_in Hp.
      eexists. split.
      * unfold buffer_at. state_simpl. fold (buffer_at s b0).
        exact (buffer_at_upd s b (set_b_transaction None) p bb0 b0
                 (fun _ => eq_refl) Hp H0).
      * intros [Hn|Hn].
        -- destruct (bool_decide (b0 = b)); [reflexivity|exact Hn].
        -- injection Hn as ->. rewrite bool_decide_eq_true_2 by reflexivity.
           reflexivity.
  - eexists. split; [|split; [|split; [|split]]].
    + mrun. simpl. rewrite Eb. mrun. reflexivity.
    + state_simpl. apply delete_insert_eq.
    + state_simpl. reflexivity.
    + state_simpl. reflexivity.
    + intros b0 bb0 H0. exists bb0. split.
      * exact H0.
      * intros [Hn|Hn]; [exact Hn|discriminate].
Qed.

Lemma binder_pop_transaction_sender_eq s th thread t x :
  threads s !! th = Some thread -> th_transaction_stack thread = Some t ->
  transactions s !! t = Some x -> t_from x = Some th ->
  binder_pop_transaction (Some th) t s
  = binder_pop_transaction None t
      (set_transactions (<[t := set_t_from None x]> (transactions s))
         (set_threads
            (<[th := set_th_transaction_stack (t_from_parent x) thread]> (threads s))
            s)).
Proof.
  intros Hth Hst Hx Hf.
  assert (B1 : bool_decide (th_transaction_stack thread <> Some t) = false)
    by (apply bool_decide_eq_false_2; intros N; exact (N Hst)).
  assert (B2 : bool_decide (t_from x <> Some th) = false)
    by (apply bool_decide_eq_false_2; intros N; exact (N Hf)).
  unfold binder_pop_transaction.
  do 11 mrun_step. reflexivity.
Qed.

(** The error reaches a sender whose [return_error] is free. *)
Lemma failed_reply_delivered code s th thread t x :
  threads s !! th = Some thread -> th_transaction_stack thread = Some t ->
  transactions s !! t = Some x -> t_from x = Some th ->
  (forall b, t_buffer x = Some b -> is_Some (buffer_at s b)) ->
  exists s',
    (binder_pop_transaction (Some th) t;;
     upd_thread th (set_th_return_error code);;
     wake_up_interruptible (thread_wait th)) s = Ok (tt, s') /\
    transactions s' = delete t (transactions s) /\
    threads s'
    = <[th := set_th_return_error code
                (set_th_transaction_stack (t_from_parent x) thread)]> (threads s) /\
    wakeups s' = wakeups s ++ [thread_wait th] /\
    (forall b bb, buffer_at s b = Some bb ->
       exists bb', buffer_at s' b = Some bb' /\
         (b_transaction bb = None \/ t_buffer x = Some b ->
          b_transaction bb' = None)).
Proof.
  intros Hth Hst Hx Hf Hb.
  pose proof (binder_pop_transaction_sender_eq s th thread t x Hth Hst Hx Hf) as Epop.
  destruct (binder_pop_transaction_gone
              (set_transactions (<[t := set_t_from None x]> (transactions s))
                 (set_threads
                    (<[th := set_th_transaction_stack (t_from_parent x) thread]>
                       (threads s)) s))
              t (set_t_from None x))
    as (s2 & Erun & Etr & Ethr & Ewk & Ebuf).
  { state_simpl. apply lookup_insert_eq. }
  { intros b Eb. apply (Hb b Eb). }
  rewrite <- Epop in Erun. state_simpl_in Etr. state_simpl_in Ethr.
  state_simpl_in Ewk.
  eexists. split; [|split; [|split; [|split]]].
  - rewrite (M_bind_Ok_intro _ _ _ _ _ Erun).
    assert (Hth2 : threads s2 !! th
                   = Some (set_th_transaction_stack (t_from_parent x) thread))
      by (rewrite Ethr; apply lookup_insert_eq).
    rewrite (M_bind_Ok_intro _ _ _ _ _ (upd_thread_run th _ _ s2 Hth2)).
    reflexivity.
  - state_simpl. rewrite Etr. apply delete_insert_eq.
  - state_simpl. rewrite Ethr. apply insert_insert_eq.
  - state_simpl. rewrite Ewk. reflexivity.
  - intros b bb Hbb. destruct (Ebuf b bb Hbb) as (bb' & H1 & H2).
    exists bb'. split; [exact H1|exact H2].
Qed.

(** The branch of the walk for a transaction whose sender is there. *)
Lemma failed_reply_sender_step code s th thread t x :
  threads s !! th = Some thread ->
  (has_two_errors thread = false -> th_transaction_stack thread = Some t) ->
  transactions s !! t = Some x -> t_from x = Some th ->
  (forall b, t_buffer x = Some b -> is_Some (buffer_at s b)) ->
  exists s',
    (when (negb (th_return_error thread =? BR_OK) &&
           (th_return_error2 thread =? BR_OK))
       (upd_thread th (fun th0 =>
          set_th_return_error BR_OK
            (set_th_return_error2 (th_return_error th0) th0)));;
     thread0 ← get_thread th;
     if th_return_error thread0 =? BR_OK then
       binder_pop_transaction (Some th) t;;
       upd_thread th (set_th_return_error code);;
       wake_up_interruptible (thread_wait th)
     else mret tt) s = Ok (tt, s') /\
    if has_two_errors thread then s' = s
    else
      transactions s' = delete t (transactions s) /\
      threads s'
      = <[th := mk_binder_thread (th_proc thread) (th_pid thread)
                  (th_looper thread) (t_from_parent x) code
                  (if th_return_error thread =? BR_OK
                   then th_return_error2 thread
                   else th_return_error thread)]> (threads s) /\
      wakeups s' = wakeups s ++ [thread_wait th] /\
      (forall b bb, buffer_at s b = Some bb ->
         exists bb', buffer_at s' b = Some bb' /\
           (b_transaction bb = None \/ t_buffer x = Some b ->
            b_transaction bb' = None)).
Proof.
  intros Hth Hst Hx Hf Hb. unfold has_two_errors in *.
  destruct (th_return_error thread =? BR_OK) eqn:E1;
    [|destruct (th_return_error2 thread =? BR_OK) eqn:E2]; cbn [negb andb when].
  - destruct (failed_reply_delivered code s th thread t x Hth (Hst eq_refl) Hx Hf Hb)
      as (s' & Erun & Etr & Ethr & Ewk & Ebuf).
    exists s'. split; [|split; [|split; [|split]]].
    + rewrite (M_bind_Ok_intro _ _ _ _ _ (mret_run tt s)).
      rewrite (M_bind_Ok_intro _ _ _ _ _ (get_thread_run _ _ _ Hth)).
      rewrite E1. exact Erun.
    + exact Etr.
    + exact Ethr.
    + exact Ewk.
    + exact Ebuf.
  - destruct (failed_reply_delivered code
                (set_threads
                   (<[th := set_th_return_error BR_OK
                              (set_th_return_error2 (th_return_error thread) thread)]>
                      (threads s)) s)
                th
                (set_th_return_error BR_OK
                   (set_th_return_error2 (th_return_error thread) thread))
                t x)
      as (s' & Erun & Etr & Ethr & Ewk & Ebuf).
    { state_simpl. apply lookup_insert_eq. }
    { exact (Hst eq_refl). }
    { exact Hx. }
    { exact Hf. }
    { exact Hb. }
    state_simpl_in Etr. state_simpl_in Ethr. state_simpl_in Ewk.
    exists s'. split; [|split; [|split; [|split]]].
    + rewrite (M_bind_Ok_intro _ _ _ _ _ (upd_thread_run th _ _ s Hth)).
      rewrite (M_bind_Ok_intro _ _ _ _ _
                 (get_thread_run th _ _ (lookup_insert_eq (threads s) th _))).
      exact Erun.
    + exact Etr.
    + rewrite Ethr. rewrite insert_insert_eq. reflexivity.
    + exact Ewk.
    + exact Ebuf.
  - exists s. split; [|reflexivity].
    rewrite (M_bind_Ok_intro _ _ _ _ _ (mret_run tt s)).
    rewrite (M_bind_Ok_intro _ _ _ _ _ (get_thread_run _ _ _ Hth)).
    rewrite E1. reflexivity.
Qed.

Lemma send_failed_reply_loop_run code gone :
  forall fuel s t target,
  reply_path s t gone target -> buffers_linked s ->
  (size (transactions s) < fuel)%nat ->
  (forall tl y th, target = Some tl -> transactions s !! tl = Some y ->
     t_from y = Some th ->
     exists thread, threads s !! th = Some thread /\
       (has_two_errors thread = false -> th_transaction_stack thread = Some tl)) ->
  exists s', send_failed_reply_loop fuel t code s = Ok (tt, s') /\
    (forall d, d ∈ gone -> transactions s' !! d = None) /\
    (forall d, d ∉ gone -> Some d <> target ->
       transactions s' !! d = transactions s !! d) /\
    (forall b bb, buffer_at s b = Some bb ->
       exists bb', buffer_at s' b = Some bb' /\
         (b_transaction bb = None -> b_transaction bb' = None)) /\
    (forall d y b, d ∈ gone -> transactions s !! d = Some y ->
       t_buffer y = Some b ->
       exists bb, buffer_at s' b = Some bb /\ b_transaction bb = None) /\
    match target with
    | None => threads s' = threads s /\ wakeups s' = wakeups s
    | Some tl =>
        forall y th thread, transactions s !! tl = Some y ->
          t_from y = Some th -> threads s !! th = Some thread ->
          if has_two_errors thread then
            threads s' = threads s /\ wakeups s' = wakeups s /\
            transactions s' !! tl = Some y
          else
            threads s'
            = <[th := mk_binder_thread (th_proc thread) (th_pid thread)
                        (th_looper thread) (t_from_parent y) code
                        (if th_return_error thread =? BR_OK
                         then th_return_error2 thread
                         else th_return_error thread)]> (threads s) /\
            wakeups s' = wakeups s ++ [thread_wait th] /\
            transactions s' !! tl = None /\
            (forall b, t_buffer y = Some b ->
               exists bb, buffer_at s' b = Some bb /\ b_transaction bb = None)
    end.
Proof.
  induction gone as [|d rest IH]; intros fuel s t target P Hlink Hfuel Hsender.
  - inversion P as [t0 x th Hx Hf| |]; subst.
    destruct fuel as [|fuel]; [lia|].
    destruct (Hsender t x th eq_refl Hx Hf) as (thread & Hth & Hst).
    destruct (failed_reply_sender_step code s th thread t x Hth Hst Hx Hf
                (fun b Eb => Hlink t x b Hx Eb)) as (s' & Erun & Hpost).
    exists s'. split; [|split; [|split; [|split; [|split]]]].
    + cbn [send_failed_reply_loop].
      rewrite (M_bind_Ok_intro _ _ _ _ _ (get_transaction_run _ _ _ Hx)).
      rewrite Hf.
      rewrite (M_bind_Ok_intro _ _ _ _ _ (get_thread_run _ _ _ Hth)).
      exact Erun.
    + intros d Hd. apply elem_of_nil in Hd. destruct Hd.
    + intros d _ Hd. destruct (has_two_errors thread).
      * subst s'. reflexivity.
      * destruct Hpost as (Etr & _). rewrite Etr.
        apply lookup_delete_ne. congruence.
    + intros b bb Hbb. destruct (has_two_errors thread).
      * subst s'. exists bb. split; [exact Hbb|auto].
      * destruct Hpost as (_ & _ & _ & Ebuf).
        destruct (Ebuf b bb Hbb) as (bb' & H1 & H2).
        exists bb'. split; [exact H1|auto].
    + intros d y b Hd. apply elem_of_nil in Hd. destruct Hd.
    + intros y th0 thread0 Hy Hfy Hth0.
      assert (y = x) by congruence. subst y.
      assert (th0 = th) by congruence. subst th0.
      assert (thread0 = thread) by congruence. subst thread0.
      destruct (has_two_errors thread).
      * subst s'. auto.
      * destruct Hpost as (Etr & Ethr & Ewk & Ebuf).
        split; [exact Ethr|]. split; [exact Ewk|]. split.
        -- rewrite Etr. apply lookup_delete_eq.
        -- intros b Eb. destruct (Hlink t x b Hx Eb) as [bb Hbb].
           destruct (Ebuf b bb Hbb) as (bb' & H1 & H2).
           exists bb'. split; [exact H1|auto].
  - destruct fuel as [|fuel]; [lia|].
    assert (Hstep : exists x, transactions s !! t = Some x /\ t_from x = None /\
              d = t /\
              (t_from_parent x = None /\ rest = [] /\ target = None \/
               exists t', t_from_parent x = Some t' /\ reply_path s t' rest target)).
    { inversion P as [|t0 x Hx Hf Hp|t0 x t' g r Hx Hf Hp P']; subst.
      - exists x. auto 10.
      - exists x. split; [exact Hx|]. split; [exact Hf|]. split; [reflexivity|].
        right. exists t'. auto. }
    destruct Hstep as (x & Hx & Hf & -> & Hnext).
    destruct (binder_pop_transaction_gone s t x Hx (fun b Eb => Hlink t x b Hx Eb))
      as (s2 & Epop & Etr & Ethr & Ewk & Ebuf).
    assert (Erun :
              send_failed_reply_loop (S fuel) t code s
              = match t_from_parent x with
                | None => mret tt
                | Some t' => send_failed_reply_loop fuel t' code
                end s2).
    { cbn [send_failed_reply_loop].
      rewrite (M_bind_Ok_intro _ _ _ _ _ (get_transaction_run _ _ _ Hx)).
      rewrite Hf. cbv zeta.
      rewrite (M_bind_Ok_intro _ _ _ _ _ Epop). reflexivity. }
    destruct Hnext as [(Hp & -> & ->)|(t' & Hp & P')].
    + exists s2. rewrite Hp in Erun. split; [exact Erun|].
      split; [|split; [|split; [|split]]].
      * intros d Hd. apply list_elem_of_singleton in Hd. subst d.
        rewrite Etr. apply lookup_delete_eq.
      * intros d Hd _. rewrite Etr. apply lookup_delete_ne.
        intros <-. apply Hd. apply list_elem_of_singleton. reflexivity.
      * intros b bb Hbb. destruct (Ebuf b bb Hbb) as (bb' & H1 & H2).
        exists bb'. split; [exact H1|auto].
      * intros d y b Hd Hy Eb. apply list_elem_of_singleton in Hd. subst d.
        assert (y = x) by congruence. subst y.
        destruct (Hlink t x b Hx Eb) as [bb Hbb].
        destruct (Ebuf b bb Hbb) as (bb' & H1 & H2).
        exists bb'. split; [exact H1|auto].
      * split; [exact Ethr|exact Ewk].
    + destruct (reply_path_fresh s t x t' rest target Hx Hf Hp P') as [Hfresh Hnt].
      assert (Hsame : forall d, d <> t -> transactions s2 !! d = transactions s !! d)
        by (intros d Hd; rewrite Etr; apply lookup_delete_ne; congruence).
      destruct (IH fuel s2 t' target) as (s' & Erun' & Q1 & Q2 & Q3 & Q4 & Q5).
      { apply (reply_path_frame s s2 t' rest target P').
        intros d [Hd|Hd]; apply Hsame; congruence. }
      { intros t0 y b Hy Eb.
        assert (Hy' : transactions s !! t0 = Some y).
        { rewrite Etr in Hy. apply lookup_delete_Some in Hy. tauto. }
        destruct (Hlink t0 y b Hy' Eb) as [bb Hbb].
        destruct (Ebuf b bb Hbb) as (bb' & H1 & _). exists bb'. exact H1. }
      { rewrite Etr.
        rewrite (map_size_delete_Some t (transactions s)) by (rewrite Hx; eauto).
        assert (Hn : size (transactions s) <> 0%nat)
          by (apply (map_size_ne_0_lookup_2 _ t); rewrite Hx; eauto).
        destruct (size (transactions s)); simpl; [congruence|lia]. }
      { intros tl y th -> Hy Hfy.
        assert (Hy' : transactions s !! tl = Some y).
        { rewrite Etr in Hy. apply lookup_delete_Some in Hy. tauto. }
        rewrite Ethr. exact (Hsender tl y th eq_refl Hy' Hfy). }
      exists s'. rewrite Hp in Erun. rewrite Erun.
      split; [exact Erun'|]. split; [|split; [|split; [|split]]].
      * intros d Hd. apply elem_of_cons in Hd. destruct Hd as [->|Hd].
        -- rewrite (Q2 t Hfresh Hnt). rewrite Etr. apply lookup_delete_eq.
        -- exact (Q1 d Hd).
      * intros d Hd Hdt.
        assert (d <> t) by (intros ->; apply Hd; apply elem_of_cons; auto).
        assert (d ∉ rest) by (intros Hr; apply Hd; apply elem_of_cons; auto).
        rewrite (Q2 d) by assumption. apply Hsame. assumption.
      * intros b bb Hbb. destruct (Ebuf b bb Hbb) as (bb1 & H1 & H2).
        destruct (Q3 b bb1 H1) as (bb2 & H3 & H4).
        exists bb2. split; [exact H3|auto].
      * intros d y b Hd Hy Eb. apply elem_of_cons in Hd. destruct Hd as [->|Hd].
        -- assert (y = x) by congruence. subst y.
           destruct (Hlink t x b Hx Eb) as [bb Hbb].
           destruct (Ebuf b bb Hbb) as (bb1 & H1 & H2).
           destruct (Q3 b bb1 H1) as (bb2 & H3 & H4).
           exists bb2. split; [exact H3|auto].
        -- assert (d <> t) by congruence.
           apply (Q4 d y b Hd); [|exact Eb]. rewrite Hsame by assumption. exact Hy.
      * destruct target as [tl|].
        -- intros y th thread Hy Hfy Hth.
           assert (tl <> t) by congruence.
           specialize (Q5 y th thread).
           rewrite Hsame, Ethr, Ewk in Q5 by assumption.
           exact (Q5 Hy Hfy Hth).
        -- rewrite <- Ethr, <- Ewk. exact Q5.
Qed.

(** [binder_send_failed_reply] on a one-way transaction is a kernel
    BUG.  Otherwise it walks from the transaction along [from_parent]: every
    transaction whose sender is gone is freed and its buffer unlinked; the
    walk ends at the root, and then no thread is touched or woken, or at the
    first transaction whose sender is there.  A sender that holds two errors
    already gets nothing: threads and its transaction stay as they are.  Any
    other sender has the transaction on top of its stack (else the pop is a
    BUG); it is popped and freed, the thread is woken with the code in
    [return_error], and an error that was pending there is kept in
    [return_error2].  No other transaction changes. *)
Theorem failed_reply_reaches_sender code s t x :
  transactions s !! t = Some x ->
  (has_flag (t_flags x) TF_ONE_WAY = true ->
   binder_send_failed_reply t code s = Bug) /\
  (has_flag (t_flags x) TF_ONE_WAY = false ->
   forall gone target,
   reply_path s t gone target -> buffers_linked s ->
   (forall tl y th, target = Some tl -> transactions s !! tl = Some y ->
      t_from y = Some th ->
      exists thread, threads s !! th = Some thread /\
        (has_two_errors thread = false -> th_transaction_stack thread = Some tl)) ->
   exists s', binder_send_failed_reply t code s = Ok (tt, s') /\
     (forall d, d ∈ gone -> transactions s' !! d = None) /\
     (forall d, d ∉ gone -> Some d <> target ->
        transactions s' !! d = transactions s !! d) /\
     (forall d y b, d ∈ gone -> transactions s !! d = Some y ->
        t_buffer y = Some b ->
        exists bb, buffer_at s' b = Some bb /\ b_transaction bb = None) /\
     match target with
     | None => threads s' = threads s /\ wakeups s' = wakeups s
     | Some tl =>
         forall y th thread, transactions s !! tl = Some y ->
           t_from y = Some th -> threads s !! th = Some thread ->
           if has_two_errors thread then
             threads s' = threads s /\ wakeups s' = wakeups s /\
             transactions s' !! tl = Some y
           else
             threads s'
             = <[th := mk_binder_thread (th_proc thread) (th_pid thread)
                         (th_looper thread) (t_from_parent y) code
                         (if th_return_error thread =? BR_OK
                          then th_return_error2 thread
                          else th_return_error thread)]> (threads s) /\
             wakeups s' = wakeups s ++ [thread_wait th] /\
             transactions s' !! tl = None /\
             (forall b, t_buffer y = Some b ->
                exists bb, buffer_at s' b = Some bb /\ b_transaction bb = None)
     end).
Proof.
  intros Hx. split.
  - intros Hflag. unfold binder_send_failed_reply.
    rewrite (M_bind_Ok_intro _ _ _ _ _ (get_transaction_run _ _ _ Hx)).
    rewrite Hflag. reflexivity.
  - intros Hflag gone target P Hlink Hsender.
    destruct (send_failed_reply_loop_run code gone (S (size (transactions s)))
                s t target P Hlink (Nat.lt_succ_diag_r _) Hsender)
      as (s' & Erun & Q1 & Q2 & _ & Q4 & Q5).
    exists s'. split; [|split; [exact Q1|split; [exact Q2|split; [exact Q4|exact Q5]]]].
    unfold binder_send_failed_reply.
    rewrite (M_bind_Ok_intro _ _ _ _ _ (get_transaction_run _ _ _ Hx)).
    rewrite Hflag.
    rewrite (M_bind_Ok_intro _ _ _ _ _ (M_BUG_ON_run false s eq_refl)).
    rewrite (M_bind_Ok_intro _ _ _ _ _ (get_state_run s)).
    exact Erun.
Qed.

Lemma witness_nested_call_linked : buffers_linked witness_nested_call.
Proof.
  intros t x b Hx Eb. unfold witness_nested_call in Hx. cbn in Hx.
  apply lookup_insert_Some in Hx as [[<- <-]|[_ Hx]]; [discriminate Eb|].
  apply lookup_insert_Some in Hx as [[<- <-]|[_ Hx]];
    [|rewrite lookup_empty in Hx; discriminate Hx].
  injection Eb as <-. vm_compute. eauto.
Qed.

Lemma witness_nested_call_path :
  reply_path witness_nested_call 0x301 [0x301] (Some 0x300).
Proof.
  eapply reply_path_gone; [vm_compute; reflexivity|reflexivity|reflexivity|].
  eapply reply_path_sender; [vm_compute; reflexivity|reflexivity].
Qed.

Lemma failed_reply_reaches_sender_witness :
  exists s' thread bb,
    binder_send_failed_reply 0x301 BR_FAILED_REPLY witness_nested_call
    = Ok (tt, s') /\
    transactions s' = ∅ /\
    threads s' !! 0x200 = Some thread /\
    th_transaction_stack thread = None /\
    th_return_error thread = BR_FAILED_REPLY /\
    th_return_error2 thread = BR_DEAD_REPLY /\
    wakeups s' = [thread_wait 0x200] /\
    buffer_at s' (0x100, 0xc0000000) = Some bb /\ b_transaction bb = None.
Proof.
  destruct (transactions witness_nested_call !! 0x301) as [x|] eqn:Hx;
    [|vm_compute in Hx; discriminate Hx].
  destruct (failed_reply_reaches_sender BR_FAILED_REPLY witness_nested_call
              0x301 x Hx) as [_ Hsend].
  destruct (Hsend ltac:(vm_compute in Hx; injection Hx as <-; reflexivity)
              [0x301] (Some 0x300) witness_nested_call_path
              witness_nested_call_linked) as (s' & Erun & _).
  { intros tl y th Htl Hy Hf. injection Htl as <-.
    vm_compute in Hy. injection Hy as <-. injection Hf as <-.
    eexists. split; [vm_compute; reflexivity|]. intros _. reflexivity. }
  vm_compute in Erun. injection Erun as <-.
  eexists _, _, _. split; [vm_compute; reflexivity|].
  split; [vm_compute; reflexivity|].
  split; [vm_compute; reflexivity|].
  split; [reflexivity|]. split; [reflexivity|]. split; [reflexivity|].
  split; [vm_compute; reflexivity|].
  split; [vm_compute; reflexivity|reflexivity].
Defined.
(** * A thread that leaves: [binder_free_thread] *)

Global Instance lists_same_preorder : PreOrder lists_same.
Proof.
  split.
  - intros s. split; [reflexivity|]. intros q x Hq. eauto.
  - intros s1 s2 s3 [L12 P12] [L23 P23]. split; [congruence|].
    intros q x Hq. destruct (P12 q x Hq) as (x2 & H2 & E2).
    destruct (P23 q x2 H2) as (x3 & H3 & E3).
    exists x3. split; [exact H3|congruence].
Qed.

Lemma lists_same_eq s s' :
  lists s' = lists s -> procs s' = procs s -> lists_same s s'.
Proof. intros El Ep. split; [exact El|]. intros q x Hq. rewrite Ep. eauto. Qed.

Lemma lists_same_upd s p x y :
  procs s !! p = Some x -> p_threads y = p_threads x ->
  lists_same s (set_procs (<[p := y]> (procs s)) s).
Proof.
  intros Hx Exy. split; [reflexivity|]. intros q z Hz. cbn.
  destruct (decide (q = p)) as [->|Hne].
  - rewrite lookup_insert_eq. exists y. split; [reflexivity|congruence].
  - rewrite lookup_insert_ne by congruence. eauto.
Qed.

Ltac lists_kept :=
  solve [ apply lists_same_eq; reflexivity
        | eapply lists_same_upd; [eassumption|reflexivity] ].

Ltac keeps_lists := preserves_with lists_kept.

Lemma binder_pop_transaction_lists target t :
  preserves lists_same (binder_pop_transaction target t).
Proof. unfold binder_pop_transaction. keeps_lists. Qed.
Hint Resolve binder_pop_transaction_lists : preserves.

Lemma send_failed_reply_loop_lists fuel : forall t e,
  preserves lists_same (send_failed_reply_loop fuel t e).
Proof. induction fuel; intros t e; simpl; keeps_lists. Qed.
Hint Resolve send_failed_reply_loop_lists : preserves.

(** The walk only reads [from] and [from_parent]. *)
Lemma reply_path_fields s s2 t g r :
  reply_path s t g r ->
  (forall d y, d ∈ g \/ Some d = r -> transactions s !! d = Some y ->
     exists y', transactions s2 !! d = Some y' /\ t_from y' = t_from y /\
       t_from_parent y' = t_from_parent y) ->
  reply_path s2 t g r.
Proof.
  induction 1 as [t x th Hx Hf|t x Hx Hf Hp|t x t' gone target Hx Hf Hp P IH];
    intros Hsame.
  - destruct (Hsame t x (or_intror eq_refl) Hx) as (y' & Hy & E1 & E2).
    eapply reply_path_sender; [exact Hy|rewrite E1; exact Hf].
  - destruct (Hsame t x (or_introl (list_elem_of_here t [])) Hx)
      as (y' & Hy & E1 & E2).
    eapply reply_path_root; [exact Hy|rewrite E1; exact Hf|rewrite E2; exact Hp].
  - destruct (Hsame t x (or_introl (list_elem_of_here t gone)) Hx)
      as (y' & Hy & E1 & E2).
    eapply reply_path_gone; [exact Hy|rewrite E1; exact Hf|rewrite E2; exact Hp|].
    apply IH. intros d y [Hd|Hd] Hdy; apply (Hsame d y); auto.
    left. apply elem_of_cons. auto.
Qed.

Lemma binder_send_failed_reply_lists t e :
  preserves lists_same (binder_send_failed_reply t e).
Proof. unfold binder_send_failed_reply. keeps_lists. Qed.

Lemma buffer_at_procs s s' b :
  (forall q x, procs s !! q = Some x ->
     exists x', procs s' !! q = Some x' /\ p_buffers x' = p_buffers x) ->
  buffer_at s' b = buffer_at s b \/ buffer_at s b = None.
Proof.
  intros Hp. unfold buffer_at.
  destruct (procs s !! fst b) as [x|] eqn:Hx; [|right; reflexivity].
  destruct (Hp _ _ Hx) as (x' & Hx' & E). rewrite Hx', E. left. reflexivity.
Qed.

Lemma binder_release_work_empty l s :
  list_of s l = [] -> binder_release_work l s = Ok (tt, s).
Proof.
  intros E. unfold binder_release_work.
  rewrite (M_bind_Ok_intro _ _ _ _ _ (get_state_run s)). rewrite E. simpl.
  rewrite (M_bind_Ok_intro _ _ _ _ _ (get_state_run s)). rewrite E. reflexivity.
Qed.

(** The loop of [binder_free_thread] on a thread that serves one call. *)
Lemma free_thread_loop_serving fuel thread s t x :
  transactions s !! t = Some x -> t_to_thread x = Some thread ->
  t_to_parent x = None ->
  (forall b, t_buffer x = Some b -> is_Some (buffer_at s b)) ->
  exists s1 x1,
    free_thread_loop (S fuel) thread (Some t) 0 s = Ok (1, s1) /\
    transactions s1 = <[t := x1]> (transactions s) /\
    t_from x1 = t_from x /\ t_from_parent x1 = t_from_parent x /\
    t_flags x1 = t_flags x /\ t_buffer x1 = None /\
    threads s1 = threads s /\ wakeups s1 = wakeups s /\ lists_same s s1 /\
    (forall b bb, buffer_at s b = Some bb ->
       exists bb', buffer_at s1 b = Some bb' /\
         (b_transaction bb = None \/ t_buffer x = Some b ->
          b_transaction bb' = None)).
Proof.
  intros Hx Hto Hpar Hb. cbn [free_thread_loop].
  assert (B : bool_decide (t_to_thread x = Some thread) = true)
    by (apply bool_decide_eq_true_2; exact Hto).
  destruct (t_buffer x) as [b|] eqn:Eb.
  - destruct (Hb b eq_refl) as [bb Hbb].
    destruct (upd_buffer_run
                (set_transactions (<[t := set_t_to None None x]> (transactions s)) s)
                b (set_b_transaction None) bb Hbb) as (p & Hp & Hrun).
    state_simpl_in Hp.
    eexists _, (set_t_buffer None (set_t_to None None x)).
    split; [|split; [|split; [|split; [|split; [|split; [|split; [|split; [|split]]]]]]]].
    + rewrite (M_bind_Ok_intro _ _ _ _ _ (get_transaction_run _ _ _ Hx)).
      rewrite B.
      rewrite (M_bind_Ok_intro _ _ _ _ _ (upd_transaction_run _ _ _ _ Hx)).
      rewrite Eb. rewrite M_bind_assoc.
      rewrite (M_bind_Ok_intro _ _ _ _ _ Hrun).
      rewrite (M_bind_Ok_intro _ _ _ _ _
                 (upd_transaction_run t _ _ _
                    (lookup_insert_eq (transactions s) t (set_t_to None None x)))).
      rewrite Hpar. destruct fuel; reflexivity.
    + state_simpl. apply insert_insert_eq.
    + reflexivity.
    + reflexivity.
    + reflexivity.
    + reflexivity.
    + state_simpl. reflexivity.
    + state_simpl. reflexivity.
    + split; [reflexivity|]. intros q z Hz. state_simpl.
      destruct (decide (q = fst b)) as [->|Hne].
      * rewrite lookup_insert_eq. eexists. split; [reflexivity|].
        rewrite Hp in Hz. injection Hz as <-. reflexivity.
      * rewrite lookup_insert_ne by congruence. eauto.
    + intros b0 bb0 H0. eexists. split.
      * unfold buffer_at. state_simpl. fold (buffer_at s b0).
        exact (buffer_at_upd s b (set_b_transaction None) p bb0 b0
                 (fun _ => eq_refl) Hp H0).
      * intros [Hn|Hn].
        -- destruct (bool_decide (b0 = b)); [reflexivity|exact Hn].
        -- injection Hn as ->. rewrite bool_decide_eq_true_2 by reflexivity.
           reflexivity.
  - eexists _, (set_t_to None None x).
    split; [|split; [|split; [|split; [|split; [|split; [|split; [|split; [|split]]]]]]]].
    + rewrite (M_bind_Ok_intro _ _ _ _ _ (get_transaction_run _ _ _ Hx)).
      rewrite B.
      rewrite (M_bind_Ok_intro _ _ _ _ _ (upd_transaction_run _ _ _ _ Hx)).
      rewrite Eb.
      rewrite (M_bind_Ok_intro _ _ _ _ _ (mret_run tt _)).
      rewrite Hpar. destruct fuel; reflexivity.
    + state_simpl. reflexivity.
    + reflexivity.
    + reflexivity.
    + reflexivity.
    + exact Eb.
    + state_simpl. reflexivity.
    + state_simpl. reflexivity.
    + apply lists_same_eq; reflexivity.
    + intros b0 bb0 H0. exists bb0. split; [exact H0|].
      intros [Hn|Hn]; [exact Hn|discriminate].
Qed.

Lemma buffer_at_set_threads s proc p v b :
  procs s !! proc = Some p ->
  buffer_at (set_procs (<[proc := set_p_threads v p]> (procs s)) s) b
  = buffer_at s b.
Proof.
  intros Hp. unfold buffer_at. state_simpl.
  destruct (decide (fst b = proc)) as [->|Hne].
  - rewrite lookup_insert_eq, Hp. reflexivity.
  - rewrite lookup_insert_ne by congruence. reflexivity.
Qed.

(** A thread that serves a call leaves: the caller is told.  When the thread
    has on its stack one transaction, sent to it, [binder_free_thread] takes
    the thread out of the tree of its process, detaches the transaction from
    the thread and from its buffer, and sends BR_DEAD_REPLY back as
    [binder_send_failed_reply] does: to the sender, which is woken with its
    stack popped, or past the senders that are gone; a sender that holds two
    errors already is not told.  Then the thread is freed and 1 is
    returned. *)
Theorem thread_exit_fails_call s proc p thread th t x gone target :
  procs s !! proc = Some p -> threads s !! thread = Some th ->
  th_transaction_stack th = Some t -> transactions s !! t = Some x ->
  t_to_thread x = Some thread -> t_to_parent x = None ->
  has_flag (t_flags x) TF_ONE_WAY = false ->
  reply_path s t gone target -> buffers_linked s ->
  (forall tl y caller, target = Some tl -> transactions s !! tl = Some y ->
     t_from y = Some caller ->
     exists cth, threads s !! caller = Some cth /\
       (has_two_errors cth = false -> th_transaction_stack cth = Some tl)) ->
  list_of s (thread_todo thread) = [] ->
  exists s', binder_free_thread proc thread s = Ok (1, s') /\
    (exists p', procs s' !! proc = Some p' /\
       p_threads p' = remove_Z thread (p_threads p)) /\
    (forall d, d ∈ gone -> transactions s' !! d = None) /\
    (forall b, t_buffer x = Some b ->
       exists bb, buffer_at s' b = Some bb /\ b_transaction bb = None) /\
    match target with
    | None => threads s' = delete thread (threads s) /\ wakeups s' = wakeups s
    | Some tl =>
        forall y caller cth, transactions s !! tl = Some y ->
          t_from y = Some caller -> threads s !! caller = Some cth ->
          if has_two_errors cth then
            threads s' = delete thread (threads s) /\ wakeups s' = wakeups s /\
            is_Some (transactions s' !! tl)
          else
            threads s'
            = delete thread
                (<[caller := mk_binder_thread (th_proc cth) (th_pid cth)
                               (th_looper cth) (t_from_parent y) BR_DEAD_REPLY
                               (if th_return_error cth =? BR_OK
                                then th_return_error2 cth
                                else th_return_error cth)]> (threads s)) /\
            wakeups s' = wakeups s ++ [thread_wait caller] /\
            transactions s' !! tl = None
    end.
Proof.
  intros Hp Hth Hst Hx Hto Hpar Hflag P Hlink Hsender Htodo.
  pose (s0 := set_procs
                (<[proc := set_p_threads (remove_Z thread (p_threads p)) p]> (procs s))
                s).
  assert (Hb0 : forall b, buffer_at s0 b = buffer_at s b)
    by (intros b; apply buffer_at_set_threads; exact Hp).
  destruct (free_thread_loop_serving (size (transactions s0)) thread s0 t x Hx Hto Hpar)
    as (s1 & x1 & Eloop & Etr1 & Ef1 & Efp1 & Efl1 & Eb1 & Ethr1 & Ewk1 & Hl1 & Hbuf1).
  { intros b Eb. rewrite Hb0. exact (Hlink t x b Hx Eb). }
  change (transactions s0) with (transactions s) in Etr1.
  change (threads s0) with (threads s) in Ethr1.
  change (wakeups s0) with (wakeups s) in Ewk1.
  assert (Hx1 : transactions s1 !! t = Some x1)
    by (rewrite Etr1; apply lookup_insert_eq).
  assert (Hother : forall d, d <> t -> transactions s1 !! d = transactions s !! d)
    by (intros d Hd; rewrite Etr1; apply lookup_insert_ne; congruence).
  assert (Hfields : forall d y, transactions s !! d = Some y ->
            exists y', transactions s1 !! d = Some y' /\ t_from y' = t_from y /\
              t_from_parent y' = t_from_parent y).
  { intros d y Hy. destruct (decide (d = t)) as [->|Hd].
    - assert (y = x) by congruence. subst y. exists x1. auto.
    - exists y. rewrite (Hother d Hd). auto. }
  destruct (send_failed_reply_loop_run BR_DEAD_REPLY gone
              (S (size (transactions s1))) s1 t target)
    as (s2 & Erun2 & Q1 & Q2 & Q3 & Q4 & Q5).
  { apply (reply_path_fields s s1 t gone target P). intros d y _ Hy. auto. }
  { intros t0 y b Hy Eb. destruct (decide (t0 = t)) as [->|Hd].
    - assert (y = x1) by congruence. subst y. congruence.
    - rewrite (Hother t0 Hd) in Hy. destruct (Hlink t0 y b Hy Eb) as [bb Hbb].
      rewrite <- Hb0 in Hbb. destruct (Hbuf1 b bb Hbb) as (bb' & H1 & _).
      exists bb'. exact H1. }
  { apply Nat.lt_succ_diag_r. }
  { intros tl y caller -> Hy Hfy. rewrite Ethr1.
    destruct (decide (tl = t)) as [->|Hd].
    - assert (y = x1) by congruence. subst y.
      apply (Hsender t x caller eq_refl Hx). congruence.
    - rewrite (Hother tl Hd) in Hy. exact (Hsender tl y caller eq_refl Hy Hfy). }
  assert (Hl2 : lists_same s1 s2)
    by exact (send_failed_reply_loop_lists _ _ _ _ _ _ Erun2).
  assert (Hl02 : lists_same s0 s2) by (etransitivity; eassumption).
  exists (set_threads (delete thread (threads s2)) s2).
  split; [|split; [|split; [|split]]].
  - unfold binder_free_thread.
    rewrite (M_bind_Ok_intro _ _ _ _ _ (upd_proc_run _ _ _ _ Hp)). fold s0.
    rewrite (M_bind_Ok_intro _ _ _ _ _ (get_thread_run thread th s0 Hth)).
    rewrite Hst. rewrite M_bind_assoc.
    rewrite (M_bind_Ok_intro _ _ _ _ _ (get_transaction_run t x s0 Hx)).
    rewrite (M_bind_Ok_intro _ _ _ _ _ (mret_run _ s0)).
    rewrite (M_bind_Ok_intro _ _ _ _ _ (get_state_run s0)).
    rewrite (M_bind_Ok_intro _ _ _ _ _ Eloop).
    rewrite (bool_decide_eq_true_2 _ Hto).
    assert (Esend : binder_send_failed_reply t BR_DEAD_REPLY s1 = Ok (tt, s2)).
    { unfold binder_send_failed_reply.
      rewrite (M_bind_Ok_intro _ _ _ _ _ (get_transaction_run _ _ _ Hx1)).
      rewrite Efl1, Hflag.
      rewrite (M_bind_Ok_intro _ _ _ _ _ (M_BUG_ON_run false s1 eq_refl)).
      rewrite (M_bind_Ok_intro _ _ _ _ _ (get_state_run s1)).
      exact Erun2. }
    rewrite (M_bind_Ok_intro _ _ _ _ _ Esend).
    assert (Etodo : list_of s2 (thread_todo thread) = [])
      by (unfold list_of in *; destruct Hl02 as [-> _]; exact Htodo).
    rewrite (M_bind_Ok_intro _ _ _ _ _ (binder_release_work_empty _ _ Etodo)).
    reflexivity.
  - destruct Hl02 as [_ Hprocs].
    destruct (Hprocs proc (set_p_threads (remove_Z thread (p_threads p)) p))
      as (p' & Hp' & Ethreads).
    { unfold s0. state_simpl. apply lookup_insert_eq. }
    exists p'. split; [exact Hp'|exact Ethreads].
  - intros d Hd. exact (Q1 d Hd).
  - intros b Eb. destruct (Hlink t x b Hx Eb) as [bb Hbb].
    rewrite <- Hb0 in Hbb. destruct (Hbuf1 b bb Hbb) as (bb1 & H1 & H2).
    destruct (Q3 b bb1 H1) as (bb2 & H3 & H4).
    exists bb2. split; [exact H3|auto].
  - destruct target as [tl|].
    + intros y caller cth Hy Hfy Hcth.
      destruct (Hfields tl y Hy) as (y1 & Hy1 & E1 & E2).
      specialize (Q5 y1 caller cth Hy1).
      rewrite E1, E2, Ethr1, Ewk1 in Q5. specialize (Q5 Hfy Hcth).
      destruct (has_two_errors cth).
      * destruct Q5 as (T1 & T2 & T3). state_simpl.
        rewrite T1, T2, T3. eauto.
      * destruct Q5 as (T1 & T2 & T3 & _). state_simpl.
        rewrite T1, T2, T3. auto.
    + destruct Q5 as (T1 & T2). state_simpl.
      rewrite T1, T2, Ethr1, Ewk1. auto.
Qed.

Lemma witness_serving_linked : buffers_linked witness_serving.
Proof.
  intros t x b Hx Eb. unfold witness_serving in Hx. cbn in Hx.
  apply lookup_insert_Some in Hx as [[<- <-]|[_ Hx]];
    [|rewrite lookup_empty in Hx; discriminate Hx].
  injection Eb as <-. vm_compute. eauto.
Qed.

Lemma witness_serving_path : reply_path witness_serving 0x300 [] (Some 0x300).
Proof. eapply reply_path_sender; [vm_compute; reflexivity|reflexivity]. Qed.

Lemma thread_exit_fails_call_witness :
  exists s' cth,
    binder_free_thread 0x100 0x201 witness_serving = Ok (1, s') /\
    threads s' !! 0x201 = None /\
    threads s' !! 0x200 = Some cth /\
    th_transaction_stack cth = None /\
    th_return_error cth = BR_DEAD_REPLY /\
    transactions s' = ∅ /\
    wakeups s' = [thread_wait 0x200].
Proof.
  destruct (procs witness_serving !! 0x100) as [p|] eqn:Hp;
    [|vm_compute in Hp; discriminate Hp].
  destruct (threads witness_serving !! 0x201) as [th|] eqn:Hth;
    [|vm_compute in Hth; discriminate Hth].
  destruct (transactions witness_serving !! 0x300) as [x|] eqn:Hx;
    [|vm_compute in Hx; discriminate Hx].
  destruct (thread_exit_fails_call witness_serving 0x100 p 0x201 th 0x300 x []
              (Some 0x300) Hp Hth) as (s' & Erun & _).
  - vm_compute in Hth. injection Hth as <-. reflexivity.
  - exact Hx.
  - vm_compute in Hx. injection Hx as <-. reflexivity.
  - vm_compute in Hx. injection Hx as <-. reflexivity.
  - vm_compute in Hx. injection Hx as <-. reflexivity.
  - exact witness_serving_path.
  - exact witness_serving_linked.
  - intros tl y caller Htl Hy Hf. injection Htl as <-.
    vm_compute in Hy. injection Hy as <-. injection Hf as <-.
    eexists. split; [vm_compute; reflexivity|]. intros _. reflexivity.
  - vm_compute. reflexivity.
  - vm_compute in Erun. injection Erun as <-.
    eexists _, _. split; [vm_compute; reflexivity|].
    split; [vm_compute; reflexivity|].
    split; [vm_compute; reflexivity|].
    split; [reflexivity|]. split; [reflexivity|].
    split; [vm_compute; reflexivity|vm_compute; reflexivity].
Defined.
